(* ===== verification/_CoqProject ===== *)
-Q . S2P
Prelude.v
CString.v
Screen.v
Pmm.v
Vmm.v
VmmLemmas.v
VmmSpec.v
VmmClone.v
VmmTheorems.v
VmmProps.v
Paging.v
Demand.v
Proc.v
FreeList.v
Kheap.v
Keyboard.v
Interfaces.v
Umalloc.v
Elf.v
Args.v
Ata.v
Fs.v
Sync.v
Task.v
Tables.v
System.v
Bus.v
Syscall.v
Usermode.v
Boot.v
Logo.v
Preempt.v
Editor.v
Shell.v
ShellProps.v
Exec.v
Kernel.v
Uprog.v
Programs.v
ProgramProps.v
NoteProps.v
Ring3.v
Asm.v
