(* ===== verification/Prelude.v ===== *)
(** * PyroOS, verified

    PyroOS is a 32-bit x86 teaching kernel in C: physical and virtual memory
    with copy-on-write fork and demand paging, a process table, a heap, a
    scheduler, drivers for screen, keyboard, timer and disk, a filesystem, an
    ELF loader, system calls, a ring-3 launcher, a shell and a few programs.  This development models
    the C code as executable functions on explicit state and proves what makes
    each part correct, and that the parts together confine a user program.

    ** Files and the code they model

    - [Prelude] (this file): machine integers as [Z] with explicit wrap-around
      ([u8], [u32]), counted loops with early exit, byte memory with
      little-endian access, C arrays as lists; tactics and the hint database.
    - [CString] (kernel/string.c): memory routines on byte memory, string
      routines on character lists.
    - [Screen] (kernel/screen.c): the text screen, its cursor and scrolling.
    - [Pmm] (kernel/pmm.c): the frame pool, a bitmap with reference counts.
    - [Vmm] (kernel/vmm.c): page directories and tables in byte memory, clone,
      copy-on-write clone and fault.  [VmmLemmas] holds the bit-level lemmas,
      [VmmSpec] and [VmmClone] the abstract address space and the loop
      invariant of the clone, [VmmTheorems] and [VmmProps] the theorems.
    - [Paging] (kernel/paging.c): the boot page tables, segment permissions.
    - [Demand] (kernel/demand.c): promised regions and the fault that commits
      them.
    - [Proc] (kernel/proc.c): the process table, fork, exit, wait, switch.
    - [FreeList]: the block lists both allocators walk; [Kheap]
      (kernel/kheap.c) and [Umalloc] (user/umalloc.h) are its two clients.
    - [Keyboard] (kernel/keyboard.c): the scancode machine and ring buffer.
    - [Interfaces]: the classes between components, [Sbrk] (system calls to
      user-space allocator), [Disk] (disk driver to filesystem) and [Ports]
      (drive hardware to disk driver).
    - [Elf] (kernel/elf.c), [Args] (kernel/args.c): loading a program and
      building its argument frame.
    - [Ata] (kernel/ata.c): the disk driver over port input and output.
    - [Fs] (kernel/fs.c): the filesystem over any disk.
    - [Sync] (kernel/sync.c), [Task] (kernel/task.c): locks, the scheduler,
      preemption and the demos.
    - [Tables] (kernel/idt.c, kernel/gdt.c, the tables of kernel/isr.c and
      kernel/timer.c): descriptors and the programming of the controllers.
    - [System] (kernel/isr.c, kernel/timer.c): all statics in one record, the
      dispatch of interrupts and exceptions.
    - [Bus] (kernel/usermode.h on the memory map, CR0.WP of kernel/paging.c):
      where a store lands (RAM, the text screen at 0xB8000, or ROM, which drops
      it), memory as loads see it, and which pages the kernel may write.
    - [Syscall] (kernel/syscall.c): the int 0x80 handler, and the instance of
      [Sbrk] that [Umalloc] is put on.  A call returns, exits, blocks, faults
      (SYS_FREAD into a read-only page) or, with no recovery armed, crashes.
    - [Usermode] (kernel/usermode.c): the ring-3 launcher and the programs it
      runs, as lists of events; the launcher is [Back], [Away] with the program
      running or waiting, or [Down] with the kernel.
    - [Boot] (kernel/kernel.c): the start of the kernel.
    - [Logo] (kernel/logo.c): the flame and the timed splash.
    - [Preempt] (kernel/task.c): the preemption demo on the running system.
    - [Editor] and [Shell] (kernel/shell.c): the line editor with its history,
      the commands as programs in a state monad with an outcome for every way
      a command can fail to come back ([stopped]), the main loop; [ShellProps]
      holds their theorems, [Exec] those of the command that runs a program.
      [Shell] ends with the whole of kmain: boot, splash and shell.
    - [Kernel]: the invariant of the running kernel, over all sessions.
    - [Uprog]: programs as interaction trees over the system calls, how an
      environment runs one, and a plain terminal as an environment, whose
      memory map says which stores are allowed and which land in memory.
      [Programs] (user/*.c): the eight programs.  [ProgramProps] and
      [NoteProps] hold what they do on the terminal; [Ring3] is the kernel as
      an environment and relates the two.
    - [Asm] (kernel/switch.asm, kernel/ring3.asm, kernel/interrupt.asm,
      kernel/kernel_entry.asm): the assembly the C code relies on, instruction
      by instruction on registers and memory.

    State is passed explicitly; each C function is one definition with the
    source's name, a loop is [for_range] or a [Fixpoint], an early return a
    sum or option.  A pointer into a table is an index, a pointer into memory
    an address.  Definitions named after a part of a function (such as
    [share_slot] or [write_chunk]) are the bodies of its loops.

    ** What the theorems show

    - Isolation: [user_program_isolated], for every program and every
      interleaving with interrupts; it rests on [syscall_confined] and the
      sandbox invariant, which [paging_install] establishes.  [kmain_boots]:
      the start establishes this and every other component's invariant.
      [syscall_no_leak]: kernel memory outside the zone's page rights does not
      influence a system call.
      [kernel_stays_up]: these and the other invariants hold between any two
      keys of any session; a command that does not come back sleeps, has reset
      the machine or runs a program that has not ended, and none panics.
      [idt_protects_kernel]: ring 3 enters the kernel by vector 0x80 only.
    - Memory: [pmm_invariant], [pmm_refines] (the bitmap allocator against an
      abstract pool of owners), the clone and fault theorems of [VmmProps],
      [demand_handle_commits], and [page_fault_dispatch] which composes them
      for a fault at any address.
    - Processes: [proc_invariant] over all call sequences that do not use up
      the 32-bit pid counter, the effects of exit and wait, and the round trip
      [fork_exit_wait], which restores every field of the table.
    - Allocators: first fit against the block list, coalescing, and
      [umalloc_on_kernel], the user-space allocator on the kernel's break.
    - Drivers and blocking calls: the screen as a window on an endless page,
      the keyboard as a bounded queue, [sys_read_first_key],
      [sys_sleep_ticks].
    - Files and programs: [fs_write_refines] against a map from names to
      contents, [fs_read_returns], [fs_init_mounts]; exact ELF validation,
      loading and protection; the argument frame.  [ata_transfers]: the driver
      on a drive that follows the ATA protocol, for 1 to 255 sectors.
    - Assembly: [int80_registers] (processor, stub and C handler of a system
      call change eax only), [context_round_trip] (the unwinding of faults and
      exits) and [switch_and_back] (tasks resume where they left off), with the
      frames of new tasks, the way into ring 3 and the clearing of .bss.
    - Scheduling: fairness of the rotation, mutual exclusion for any number of
      threads under any schedule, and the end of the preemption demo at its
      deadline with the shares of both workers.
    - The shell: [shell_runs_typed_line] (keyboard to command, against an ideal
      editor), [write_then_cat] (files from the command line) and
      [fault_recovers].
    - Running programs: [exec_contained], the shell's exec with any file, any
      arguments and any behaviour; [note_saves], [calc_correct],
      [guess_plays], [ask_greets], [whoami_prints], [prog_prints] and
      [crash_faults] compare the programs with a description of the dialogue;
      [program_on_kernel] carries such a result over to the kernel, where
      every call is a trap from ring 3 and every key an interrupt, up to a
      store that lands on the text screen or is dropped.

    Theorems that exhibit a defect ([vmm_map_alloc_leaks], [kmalloc_wraps],
    [umalloc_wraps], [fs_long_name_lost], [pid_counter_wraps]) are stated as
    what the code does.

    ** Bounds, fuel and parameters

    - [HEAP_FUEL] and [UFUEL]: a block takes at least its header, so a list in
      a heap of n bytes has at most n / header blocks; the specification
      lemmas prove the fuel is never used up on a well-formed heap.
    - [run] in [Task] takes 100 and 1000 steps; [tasking_demo_ends] and
      [threads_demo_ends] show that the demos finish within them, so that the
      outcome [Out_of_fuel] of a command never occurs ([kernel_stays_up]).
    - [for_while] loops carry a bound their counter cannot pass (16-bit
      counters, 0x10000 turns).
    - [cstr] reads a string up to the end of the 8 MB the kernel maps.
    - Addresses the linker chooses, stub addresses, the byte a port returns
      and the faulting address are arguments.  The disk is the class [Disk];
      [DiskLaws] says what a working one does, with an instance in [Fs] and
      one in [Ata], for a drive that satisfies [AtaLaws].  [image] in [Boot]
      holds what the linker decides.
    - [wakeups] in [Syscall] is the list of interrupts per wait; [world] in
      [Shell] adds the time slices of the preemption demo and the instructions
      of a user program.
    - [run] in [Uprog] has fuel; [ends] says that some fuel is enough, so the
      theorems on programs state that they come to their end.  [BUF], of the
      class [Layout], is the address at which a call is given its string or
      buffer: the theorems hold for every address of the user zone, since where
      the compiler puts the strings of a program is not modelled.
    - [s_board] in [System] says where in 0xA0000 to 0xFFFFF the board has
      memory that keeps a store; the theorems hold for every board.
    - In [Asm] the C function a stub calls is a function on the processor, which
      returns with the stack pointer it was called with; memory is flat.
    - [kernel_stays_up] leaves out the commands vm, cow and fork, which take
      frames from the pool; [memory_demos_screen] is one run of them.
    - [kstore] and [kload] in [Shell] and [user_store] in [Syscall] restart a
      faulting instruction twice: one fault makes a page present, one makes it
      writable.  In a sandbox no fault is resolved, so [user_store] needs one.
    - Pids are below [INT_MAX]: [pids_left] and the bound of [proc_invariant]
      on the processes created say so where a theorem needs it.

    ** Not modelled

    The boot sector (16-bit code on the BIOS) and the instructions lgdt, lidt
    and ltr; the machine code of the user programs (their C text is modelled,
    and isolation holds for any code).  Reads by the kernel in the user zone are
    not checked against the page tables: its pages are always present.  The
    kernel's own statics and page tables are taken to lie in RAM.  A sector
    count of 0, which a drive takes for 256, is outside [ata_transfers].  The
    TLB is a log of flushes. *)

From stdpp Require Import base gmap list numbers option.
From Stdlib Require Import ZArith Lia Bool.

#[global] Open Scope Z_scope.

(** ** Machine integers

    An unsigned w-bit C value is a [Z] in range; arithmetic that can leave the
    range is wrapped explicitly. *)

Definition u8 (x : Z) : Z := x mod 0x100.
Definition u16 (x : Z) : Z := x mod 0x10000.
Definition u32 (x : Z) : Z := x mod 0x100000000.

(** A 32-bit pattern read as a signed value. *)
Definition i32 (x : Z) : Z := u32 (x + 0x80000000) - 0x80000000.

Definition INT_MAX : Z := 0x7FFFFFFF.

Lemma i32_small x : -0x80000000 <= x < 0x80000000 -> i32 x = x.
Proof. intros Hx. unfold i32, u32. rewrite Z.mod_small by lia. lia. Qed.

(** [tst x f] is the C condition [x & f] (non-zero). *)
Definition tst (x f : Z) : bool := negb (Z.land x f =? 0).

(** The value [(uint32_t)-1]. *)
Definition U32_MAX : Z := 0xFFFFFFFF.

(** ** Counted loops

    [for_ n i body s] runs [body i], [body (i+1)], ... [n] times.
    [for_ret] is the same loop with a body that may [return r]: a body that
    yields [Some r] ends the loop with that value. *)

Fixpoint for_ {S : Type} (n : nat) (i : Z) (body : Z -> S -> S) (s : S) : S :=
  match n with
  | O => s
  | Datatypes.S n' => for_ n' (i + 1) body (body i s)
  end.

Fixpoint for_ret {S R : Type} (n : nat) (i : Z) (body : Z -> S -> S * option R)
    (s : S) : S * option R :=
  match n with
  | O => (s, None)
  | Datatypes.S n' =>
      match body i s with
      | (s', Some r) => (s', Some r)
      | (s', None) => for_ret n' (i + 1) body s'
      end
  end.

(** [for (i = a; i < b; i++)] *)
Definition for_range {S : Type} (a b : Z) (body : Z -> S -> S) (s : S) : S :=
  for_ (Z.to_nat (b - a)) a body s.

Definition for_range_ret {S R : Type} (a b : Z) (body : Z -> S -> S * option R)
    (s : S) : S * option R :=
  for_ret (Z.to_nat (b - a)) a body s.

(** [for (i = a; c(i); i++)], for a condition that is false at [b] at the latest. *)
Definition for_while {S : Type} (a b : Z) (c : Z -> S -> bool) (body : Z -> S -> S) (s : S) : S :=
  fst (for_range_ret a b (fun i s => if c i s then (body i s, None) else (s, Some tt)) s).

(** The first index of [a, b) that satisfies [p]: the search loops of the
    kernel (a free frame, a free slot, a matching entry). *)
Fixpoint find_from (n : nat) (i : Z) (p : Z -> bool) : option Z :=
  match n with
  | O => None
  | Datatypes.S n' => if p i then Some i else find_from n' (i + 1) p
  end.

Definition find_range (a b : Z) (p : Z -> bool) : option Z :=
  find_from (Z.to_nat (b - a)) a p.

(** How many indices of [i, i+n) satisfy [p]. *)
Fixpoint count_from (n : nat) (i : Z) (p : Z -> bool) : Z :=
  match n with
  | O => 0
  | Datatypes.S n' => (if p i then 1 else 0) + count_from n' (i + 1) p
  end.

Definition count_range (a b : Z) (p : Z -> bool) : Z :=
  count_from (Z.to_nat (b - a)) a p.

(** ** Static arrays and byte memory

    A zero-initialised C array, and physical memory, is a finite map from
    index to value in which an absent index reads as 0. *)

Abbreviation arr := (gmap Z Z).
Abbreviation mem := (gmap Z Z).

Definition aget (a : arr) (i : Z) : Z := default 0 (a !! i).
Definition aset (a : arr) (i v : Z) : arr := <[i := v]> a.

(** A cell of memory holds one byte. *)
Definition ld8 (m : mem) (a : Z) : Z := u8 (aget m a).
Definition st8 (m : mem) (a v : Z) : mem := aset m a (u8 v).

Definition ld16 (m : mem) (a : Z) : Z := ld8 m a + 0x100 * ld8 m (a + 1).

Definition ld32 (m : mem) (a : Z) : Z :=
  ld8 m a + 0x100 * ld8 m (a + 1) + 0x10000 * ld8 m (a + 2)
  + 0x1000000 * ld8 m (a + 3).

Definition st32 (m : mem) (a v : Z) : mem :=
  st8 (st8 (st8 (st8 m a v) (a + 1) (v / 0x100)) (a + 2) (v / 0x10000))
      (a + 3) (v / 0x1000000).

(** ** Arrays of structures

    A fixed-size array of C structures is a list; [d] is the structure an
    index outside the array would read, which no loop of the kernel reaches. *)

Definition tget {A : Type} (d : A) (l : list A) (i : Z) : A := nth (Z.to_nat i) l d.
Definition tset {A : Type} (l : list A) (i : Z) (x : A) : list A := <[Z.to_nat i := x]> l.
Definition tlen {A : Type} (l : list A) : Z := Z.of_nat (length l).

#[global] Arguments for_range : simpl never.
#[global] Arguments for_range_ret : simpl never.
#[global] Arguments for_while : simpl never.
#[global] Arguments find_range : simpl never.
#[global] Arguments count_range : simpl never.
#[global] Arguments ld8 : simpl never.
#[global] Arguments ld32 : simpl never.
#[global] Arguments st8 : simpl never.
#[global] Arguments st32 : simpl never.

(** ** Tactics *)

(** Case analysis on one boolean comparison of integers in the goal. *)
Ltac zcase1 :=
  match goal with
  | |- context [if Z.ltb ?a ?b then _ else _] => destruct (Z.ltb_spec a b)
  | |- context [if Z.leb ?a ?b then _ else _] => destruct (Z.leb_spec a b)
  | |- context [if Z.eqb ?a ?b then _ else _] => destruct (Z.eqb_spec a b)
  | |- context [Z.ltb ?a ?b] => destruct (Z.ltb_spec a b)
  | |- context [Z.leb ?a ?b] => destruct (Z.leb_spec a b)
  | |- context [Z.eqb ?a ?b] => destruct (Z.eqb_spec a b)
  end.

Ltac zcase := repeat (zcase1; simpl).

(** Turn boolean hypotheses into propositions. *)
Ltac b2p :=
  repeat match goal with
  | H : (_ && _)%bool = true |- _ => apply andb_true_iff in H; destruct H
  | H : (_ || _)%bool = false |- _ => apply orb_false_iff in H; destruct H
  | H : negb _ = true |- _ => apply negb_true_iff in H
  | H : negb _ = false |- _ => apply negb_false_iff in H
  | H : Z.ltb _ _ = true |- _ => apply Z.ltb_lt in H
  | H : Z.ltb _ _ = false |- _ => apply Z.ltb_ge in H
  | H : Z.leb _ _ = true |- _ => apply Z.leb_le in H
  | H : Z.leb _ _ = false |- _ => apply Z.leb_gt in H
  | H : Z.eqb _ _ = true |- _ => apply Z.eqb_eq in H
  | H : Z.eqb _ _ = false |- _ => apply Z.eqb_neq in H
  end.

(** Linear arithmetic with division and remainder by constants. *)
Ltac zdm := Z.to_euclidean_division_equations; lia.

(** Side conditions of rewriting. *)
Ltac side := first [assumption | lia | solve [auto with pyro]].

Create HintDb pyro.
Create Rewrite HintDb pyro.

(** ** Integers: ranges, masks and alignment *)

Lemma u8_range x : 0 <= u8 x < 0x100.
Proof. unfold u8. zdm. Qed.

Lemma u32_range x : 0 <= u32 x < 0x100000000.
Proof. unfold u32. zdm. Qed.

Lemma u32_small x : 0 <= x < 0x100000000 -> u32 x = x.
Proof. intros. unfold u32. zdm. Qed.

Lemma u8_small x : 0 <= x < 0x100 -> u8 x = x.
Proof. intros. unfold u8. zdm. Qed.

Lemma u32_idemp x : u32 (u32 x) = u32 x.
Proof. apply u32_small, u32_range. Qed.

#[export] Hint Resolve u8_range u32_range : pyro.
#[export] Hint Rewrite u32_idemp : pyro.

(** Clearing the low [n] bits of a 32-bit value rounds it down. *)
Lemma land_align_down n x :
  0 <= n <= 32 -> 0 <= x < 0x100000000 ->
  Z.land x (0x100000000 - 2 ^ n) = x - x mod 2 ^ n.
Proof.
  intros Hn Hx.
  assert (E : Z.land x (0x100000000 - 2 ^ n) = Z.ldiff x (Z.ones n)).
  { apply Z.bits_inj'. intros k Hk.
    rewrite Z.land_spec, Z.ldiff_spec.
    destruct (Z.testbit x k) eqn:Ex; [|reflexivity]. simpl.
    assert (k < 32).
    { destruct (Z.lt_ge_cases k 32); [assumption|].
      rewrite (Z.bits_above_log2 x k) in Ex; [discriminate|lia|].
      destruct (Z.eq_dec x 0) as [->|]; [cbn; lia|].
      apply Z.log2_lt_pow2; [lia|].
      apply Z.lt_le_trans with (2 ^ 32); [cbn; lia|].
      apply Z.pow_le_mono_r; lia. }
    replace (0x100000000 - 2 ^ n) with (Z.shiftl (Z.ones (32 - n)) n).
    2:{ rewrite Z.shiftl_mul_pow2, Z.ones_equiv by lia.
        unfold Z.pred. rewrite Z.mul_add_distr_r, <- Z.pow_add_r by lia.
        replace (32 - n + n) with 32 by lia. cbn. lia. }
    rewrite Z.shiftl_spec by lia.
    destruct (Z.lt_ge_cases k n).
    - rewrite Z.testbit_neg_r, Z.ones_spec_low by lia. reflexivity.
    - rewrite Z.ones_spec_low, Z.ones_spec_high by lia. reflexivity. }
  rewrite E, Z.ldiff_ones_r, Z.shiftl_mul_pow2, Z.shiftr_div_pow2 by lia.
  pose proof (Z.div_mod x (2 ^ n)). lia.
Qed.

Lemma land_page x :
  0 <= x < 0x100000000 -> Z.land x 0xFFFFF000 = x - x mod 4096.
Proof. intros. apply (land_align_down 12 x); lia. Qed.

Lemma land_low12 x : Z.land x 0xFFF = x mod 4096.
Proof. apply (Z.land_ones x 12). lia. Qed.

Lemma land_31 x : Z.land x 31 = x mod 32.
Proof. apply (Z.land_ones x 5). lia. Qed.

Lemma land_mod n x : 0 <= n -> Z.land x (Z.ones n) = x mod 2 ^ n.
Proof. apply Z.land_ones. Qed.

(** A value aligned to [2^n] and a smaller one share no bit. *)
Lemma lor_add n x f :
  0 <= n -> x mod 2 ^ n = 0 -> 0 <= f < 2 ^ n -> Z.lor x f = x + f.
Proof.
  intros Hn Hx Hf.
  assert (D : Z.land x f = 0).
  { apply Z.bits_inj'. intros k Hk. rewrite Z.land_spec, Z.bits_0.
    destruct (Z.lt_ge_cases k n).
    - rewrite <- (Z.mod_pow2_bits_low x n k), Hx, Z.bits_0 by lia. reflexivity.
    - destruct (Z.eq_dec f 0) as [->|]; [rewrite Z.bits_0, andb_false_r; reflexivity|].
      rewrite (Z.bits_above_log2 f k), andb_false_r; [reflexivity|lia|].
      apply Z.log2_lt_pow2; [lia|].
      apply Z.lt_le_trans with (2 ^ n); [lia|]. apply Z.pow_le_mono_r; lia. }
  rewrite <- Z.lxor_lor, <- Z.add_nocarry_lxor; auto.
Qed.

(** Bit [k] of a value, as a C mask test. *)
(** Bounds of bit operations on [n]-bit values. *)
Lemma bits_range n a : 0 <= n -> (0 <= a < 2 ^ n <-> 0 <= a /\ forall k, n <= k -> Z.testbit a k = false).
Proof.
  intros Hn. split.
  - intros Ha. split; [lia|]. intros k Hk. rewrite <- (Z.mod_small a (2 ^ n)) by lia.
    apply Z.mod_pow2_bits_high. lia.
  - intros [H0 H]. split; [assumption|]. rewrite <- (Z.mod_small a (2 ^ (Z.max n (Z.log2 a + 1)))).
    + assert (E : a mod 2 ^ n = a).
      { apply Z.bits_inj'. intros k Hk. destruct (Z.lt_ge_cases k n).
        - apply Z.mod_pow2_bits_low. assumption.
        - rewrite H by assumption. apply Z.mod_pow2_bits_high. lia. }
      rewrite Z.mod_small; [rewrite <- E; apply Z.mod_pos_bound; lia|].
      split; [assumption|]. rewrite <- E. eapply Z.lt_le_trans; [apply Z.mod_pos_bound; lia|].
      apply Z.pow_le_mono_r; lia.
    + split; [assumption|]. destruct (Z.eq_dec a 0) as [->|]; [apply Z.pow_pos_nonneg; lia|].
      apply Z.log2_lt_pow2; lia.
Qed.

Lemma land_range n a b : 0 <= n -> 0 <= a < 2 ^ n -> 0 <= Z.land a b < 2 ^ n.
Proof.
  intros Hn Ha. apply bits_range; [assumption|]. apply bits_range in Ha as [H0 Ha]; [|assumption].
  split; [apply Z.land_nonneg; auto|]. intros k Hk. rewrite Z.land_spec, Ha by assumption. reflexivity.
Qed.

Lemma lor_range n a b : 0 <= n -> 0 <= a < 2 ^ n -> 0 <= b < 2 ^ n -> 0 <= Z.lor a b < 2 ^ n.
Proof.
  intros Hn Ha Hb. apply bits_range in Ha as [H0 Ha], Hb as [H1 Hb]; try assumption.
  apply bits_range; [assumption|]. split; [apply Z.lor_nonneg; auto|].
  intros k Hk. rewrite Z.lor_spec, Ha, Hb by assumption. reflexivity.
Qed.

Lemma tst_pow2 x k : 0 <= k -> tst x (2 ^ k) = Z.testbit x k.
Proof.
  intros Hk. unfold tst. rewrite Z.land_comm.
  destruct (Z.testbit x k) eqn:E.
  - apply negb_true_iff, Z.eqb_neq. intros H.
    assert (F : Z.testbit (Z.land (2 ^ k) x) k = false) by (rewrite H; apply Z.bits_0).
    rewrite Z.land_spec, E, Z.pow2_bits_true in F by lia. discriminate.
  - apply negb_false_iff, Z.eqb_eq, Z.bits_inj'. intros j Hj.
    rewrite Z.land_spec, Z.bits_0, Z.pow2_bits_eqb by lia.
    destruct (Z.eqb_spec k j) as [->|]; [rewrite E|]; reflexivity.
Qed.

(** ** Arrays *)

Lemma aget_aset a i j v : aget (aset a i v) j = if i =? j then v else aget a j.
Proof.
  unfold aget, aset. destruct (Z.eqb_spec i j) as [->|].
  - rewrite lookup_insert_eq. reflexivity.
  - rewrite lookup_insert_ne by assumption. reflexivity.
Qed.

Lemma aget_aset_eq a i v : aget (aset a i v) i = v.
Proof. rewrite aget_aset, Z.eqb_refl. reflexivity. Qed.

Lemma aget_aset_ne a i j v : i <> j -> aget (aset a i v) j = aget a j.
Proof. intros. rewrite aget_aset. destruct (Z.eqb_spec i j); congruence. Qed.

Lemma aget_empty i : aget ∅ i = 0.
Proof. unfold aget. rewrite lookup_empty. reflexivity. Qed.

#[export] Hint Rewrite aget_aset_eq aget_empty : pyro.

(** ** Loads and stores *)

Lemma ld8_range m a : 0 <= ld8 m a < 0x100.
Proof. apply u8_range. Qed.

Lemma ld16_range m a : 0 <= ld16 m a < 0x10000.
Proof. unfold ld16. pose proof (ld8_range m a). pose proof (ld8_range m (a + 1)). lia. Qed.

Lemma ld32_range m a : 0 <= ld32 m a < 0x100000000.
Proof.
  unfold ld32. pose proof (ld8_range m a). pose proof (ld8_range m (a + 1)).
  pose proof (ld8_range m (a + 2)). pose proof (ld8_range m (a + 3)). lia.
Qed.

#[export] Hint Resolve ld8_range ld16_range ld32_range : pyro.

Lemma ld8_empty x : ld8 ∅ x = 0.
Proof. unfold ld8. rewrite aget_empty. reflexivity. Qed.

Lemma ld32_empty x : ld32 ∅ x = 0.
Proof. unfold ld32. rewrite !ld8_empty. reflexivity. Qed.

Lemma ld8_st8 m a b v : ld8 (st8 m a v) b = if a =? b then u8 v else ld8 m b.
Proof.
  unfold ld8, st8. rewrite aget_aset. zcase; [|reflexivity].
  apply u8_small, u8_range.
Qed.

(** A 32-bit load depends on four bytes only. *)
Lemma ld32_ext m m' a a' :
  (forall k, 0 <= k < 4 -> ld8 m (a + k) = ld8 m' (a' + k)) -> ld32 m a = ld32 m' a'.
Proof.
  intros H. unfold ld32. pose proof (H 0) as H0. rewrite !Z.add_0_r in H0.
  rewrite H0, (H 1), (H 2), (H 3) by lia. reflexivity.
Qed.

Lemma ld16_ext m m' a a' :
  (forall k, 0 <= k < 2 -> ld8 m (a + k) = ld8 m' (a' + k)) -> ld16 m a = ld16 m' a'.
Proof.
  intros H. unfold ld16. pose proof (H 0) as H0. rewrite !Z.add_0_r in H0.
  rewrite H0, (H 1) by lia. reflexivity.
Qed.

Lemma ld8_st32_out m a v x : x < a \/ a + 4 <= x -> ld8 (st32 m a v) x = ld8 m x.
Proof. intros. unfold st32. rewrite !ld8_st8. zcase; lia. Qed.

Lemma ld32_st32_eq m a v : ld32 (st32 m a v) a = u32 v.
Proof.
  unfold st32, ld32. rewrite !ld8_st8. zcase; try lia. unfold u8, u32. zdm.
Qed.

Lemma ld32_st32_out m a v b : b + 4 <= a \/ a + 4 <= b -> ld32 (st32 m a v) b = ld32 m b.
Proof. intros. apply ld32_ext. intros. apply ld8_st32_out. lia. Qed.

#[export] Hint Rewrite ld32_st32_eq : pyro.

(** ** Loop rules *)

(** Invariant rule for [for_range]. *)
Lemma for_range_ind {S : Type} (I : Z -> S -> Prop) a b body s :
  a <= b -> I a s ->
  (forall i t, a <= i < b -> I i t -> I (i + 1) (body i t)) ->
  I b (for_range a b body s).
Proof.
  intros Hab H0 Hstep. unfold for_range.
  remember (Z.to_nat (b - a)) as n eqn:En.
  revert a s Hab H0 Hstep En. induction n as [|n IH]; intros a s Hab H0 Hstep En; simpl.
  - replace b with a by lia. assumption.
  - apply IH; [lia|apply Hstep; [lia|assumption]| |lia].
    intros i t Hi. apply Hstep. lia.
Qed.

(** Invariant rule for [for_range_ret]: the loop either runs to the end with
    the invariant, or some iteration returned. *)
Lemma for_range_ret_ind {S R : Type} (I : Z -> S -> Prop) (Q : R -> S -> Prop) a b body s :
  a <= b -> I a s ->
  (forall i t, a <= i < b -> I i t ->
     match body i t with
     | (t', None) => I (i + 1) t'
     | (t', Some r) => Q r t'
     end) ->
  match for_range_ret a b body s with
  | (t, None) => I b t
  | (t, Some r) => Q r t
  end.
Proof.
  intros Hab H0 Hstep. unfold for_range_ret.
  remember (Z.to_nat (b - a)) as n eqn:En.
  revert a s Hab H0 Hstep En. induction n as [|n IH]; intros a s Hab H0 Hstep En; simpl.
  - replace b with a by lia. assumption.
  - pose proof (Hstep a s ltac:(lia) H0) as H.
    destruct (body a s) as [t [r|]]; [assumption|].
    apply IH; [lia|assumption| |lia]. intros i u Hi. apply Hstep. lia.
Qed.

(** Two runs of a loop that stay related. *)
Lemma for_range_rel {S T : Type} (P : Z -> S -> T -> Prop) a b f g s t :
  a <= b -> P a s t ->
  (forall i x y, a <= i < b -> P i x y -> P (i + 1) (f i x) (g i y)) ->
  P b (for_range a b f s) (for_range a b g t).
Proof.
  intros Hab H0 Hstep. unfold for_range.
  remember (Z.to_nat (b - a)) as n eqn:En.
  revert a s t Hab H0 Hstep En. induction n as [|n IH]; intros a s t Hab H0 Hstep En; simpl.
  - replace b with a by lia. assumption.
  - apply IH; [lia|apply Hstep; [lia|assumption]| |lia].
    intros i x y Hi. apply Hstep. lia.
Qed.

Lemma for_range_empty {S : Type} a b (body : Z -> S -> S) s : b <= a -> for_range a b body s = s.
Proof. intros. unfold for_range. replace (Z.to_nat (b - a)) with O by lia. reflexivity. Qed.

Lemma for_range_step {S : Type} a b (body : Z -> S -> S) s :
  a < b -> for_range a b body s = for_range (a + 1) b body (body a s).
Proof.
  intros. unfold for_range. replace (Z.to_nat (b - a)) with (Datatypes.S (Z.to_nat (b - (a + 1)))) by lia.
  reflexivity.
Qed.

Lemma for_range_ret_step {S R : Type} a b (body : Z -> S -> S * option R) s :
  for_range_ret a b body s =
  if a <? b then
    match body a s with
    | (s', Some r) => (s', Some r)
    | (s', None) => for_range_ret (a + 1) b body s'
    end
  else (s, None).
Proof.
  unfold for_range_ret. destruct (Z.ltb_spec a b).
  - replace (Z.to_nat (b - a)) with (Datatypes.S (Z.to_nat (b - (a + 1)))) by lia. reflexivity.
  - replace (Z.to_nat (b - a)) with O by lia. reflexivity.
Qed.

Lemma for_range_ret_ext {S R : Type} a b (f g : Z -> S -> S * option R) s :
  (forall i t, a <= i < b -> f i t = g i t) -> for_range_ret a b f s = for_range_ret a b g s.
Proof.
  unfold for_range_ret. remember (Z.to_nat (b - a)) as n eqn:En. revert a s En.
  induction n as [|n IH]; intros a s En H; simpl; [reflexivity|].
  rewrite H by lia. destruct (g a s) as [t [r|]]; [reflexivity|]. apply IH; [lia|].
  intros i u Hi. apply H. lia.
Qed.

(** Two loops that return together and stay related. *)
Lemma for_range_ret_rel_in {S T R : Type} (P : S -> T -> Prop) a b (f : Z -> S -> S * option R)
    (g : Z -> T -> T * option R) s t :
  P s t ->
  (forall i x y, a <= i < b -> P x y -> P (fst (f i x)) (fst (g i y)) /\ snd (f i x) = snd (g i y)) ->
  P (fst (for_range_ret a b f s)) (fst (for_range_ret a b g t)) /\
  snd (for_range_ret a b f s) = snd (for_range_ret a b g t).
Proof.
  unfold for_range_ret. remember (Z.to_nat (b - a)) as n eqn:En. revert a s t En.
  induction n as [|n IH]; intros a s t En H0 H; simpl; [auto|].
  destruct (H a s t ltac:(lia) H0) as [H1 H2]. destruct (f a s) as [s' o], (g a t) as [t' o']. cbn in H1, H2. subst o'.
  destruct o; [auto|apply IH; [lia|assumption|]]. intros i x y Hi. apply H. lia.
Qed.

Lemma for_range_ret_rel {S T R : Type} (P : S -> T -> Prop) a b (f : Z -> S -> S * option R)
    (g : Z -> T -> T * option R) s t :
  P s t ->
  (forall i x y, P x y -> P (fst (f i x)) (fst (g i y)) /\ snd (f i x) = snd (g i y)) ->
  P (fst (for_range_ret a b f s)) (fst (for_range_ret a b g t)) /\
  snd (for_range_ret a b f s) = snd (for_range_ret a b g t).
Proof. intros H0 H. apply for_range_ret_rel_in; auto. Qed.

(** The same for loops whose results correspond by [h]. *)
Lemma for_range_ret_map {S T R Q : Type} (P : S -> T -> Prop) (h : Q -> R) a b (f : Z -> S -> S * option R)
    (g : Z -> T -> T * option Q) s t :
  P s t ->
  (forall i x y, P x y -> P (fst (f i x)) (fst (g i y)) /\ snd (f i x) = h <$> snd (g i y)) ->
  P (fst (for_range_ret a b f s)) (fst (for_range_ret a b g t)) /\
  snd (for_range_ret a b f s) = h <$> snd (for_range_ret a b g t).
Proof.
  unfold for_range_ret. generalize (Z.to_nat (b - a)). intros n. revert a s t.
  induction n as [|n IH]; intros a s t H0 H; simpl; [auto|].
  destruct (H a s t H0) as [H1 H2]. destruct (f a s) as [s' o], (g a t) as [t' o']. cbn in H1, H2. subst o.
  destruct o'; cbn; auto.
Qed.

(** A loop that keeps a property of the state, whether it returns or not. *)
Lemma for_range_ret_keeps {S R : Type} (P : S -> Prop) a b (f : Z -> S -> S * option R) s :
  P s -> (forall i x, P x -> P (fst (f i x))) -> P (fst (for_range_ret a b f s)).
Proof.
  intros H0 H. apply (for_range_ret_rel (T := S) (fun x y => P x /\ x = y) a b f f s s); [auto|].
  intros i x y [Hx <-]. auto.
Qed.

(** A loop whose condition amounts to [i < n] is the counted loop. *)
Lemma for_while_range {S : Type} (I : Z -> S -> Prop) n b (c : Z -> S -> bool) body a s :
  a <= n < b -> I a s ->
  (forall i t, a <= i <= n -> I i t -> c i t = (i <? n)) ->
  (forall i t, a <= i < n -> I i t -> I (i + 1) (body i t)) ->
  for_while a b c body s = for_range a n body s.
Proof.
  intros Hn. assert (Ha : a <= n) by lia. assert (Hb : n < b) by lia. clear Hn.
  unfold for_while. revert s. remember (Z.to_nat (n - a)) as k eqn:Ek. revert a Ha Ek.
  induction k as [|k IH]; intros a Ha Ek s H0 Hc Hs; rewrite for_range_ret_step;
    (destruct (Z.ltb_spec a b); [|lia]); rewrite Hc by (assumption || lia).
  - destruct (Z.ltb_spec a n); [lia|]. rewrite for_range_empty by lia. reflexivity.
  - destruct (Z.ltb_spec a n); [|lia]. rewrite for_range_step by lia. apply IH; [lia|lia| | |].
    + apply Hs; [lia|assumption].
    + intros. apply Hc; [lia|assumption].
    + intros. apply Hs; [lia|assumption].
Qed.

(** A check of every index of an interval. *)
Lemma forallb_seqZ (p : Z -> bool) a n :
  forallb p (seqZ a n) = true <-> forall x, a <= x < a + n -> p x = true.
Proof.
  rewrite forallb_forall. split; intros H x Hx; apply H.
  - apply list_elem_of_In, elem_of_seqZ. lia.
  - apply list_elem_of_In, elem_of_seqZ in Hx. lia.
Qed.

(** ** Searching and counting *)

Lemma find_range_some a b p i :
  find_range a b p = Some i ->
  a <= i < b /\ p i = true /\ forall j, a <= j < i -> p j = false.
Proof.
  unfold find_range. remember (Z.to_nat (b - a)) as n eqn:En.
  revert a En. induction n as [|n IH]; intros a En; simpl; [discriminate|].
  destruct (p a) eqn:Ep.
  - intros [= <-]. split; [lia|]. split; [assumption|]. intros; lia.
  - intros H. apply IH in H; [|lia]. destruct H as (H1 & H2 & H3).
    split; [lia|]. split; [assumption|]. intros j Hj.
    destruct (Z.eq_dec j a) as [->|]; [assumption|]. apply H3. lia.
Qed.

Lemma find_range_none a b p :
  find_range a b p = None -> forall j, a <= j < b -> p j = false.
Proof.
  unfold find_range. remember (Z.to_nat (b - a)) as n eqn:En.
  revert a En. induction n as [|n IH]; intros a En; simpl; [intros _ j Hj; lia|].
  destruct (p a) eqn:Ep; [discriminate|]. intros H j Hj.
  destruct (Z.eq_dec j a) as [->|]; [assumption|]. apply (IH (a + 1)); auto; lia.
Qed.

Lemma find_range_none_iff a b p :
  find_range a b p = None <-> forall j, a <= j < b -> p j = false.
Proof.
  split; [apply find_range_none|]. intros H.
  destruct (find_range a b p) as [i|] eqn:E; [|reflexivity].
  apply find_range_some in E. destruct E as (E1 & E2 & _). rewrite H in E2; [discriminate|lia].
Qed.

(** The least index satisfying [p] is the one the search returns. *)
Lemma find_range_least a b p i :
  a <= i < b -> p i = true -> (forall j, a <= j < i -> p j = false) ->
  find_range a b p = Some i.
Proof.
  intros Hi Hp Hlt. destruct (find_range a b p) as [k|] eqn:E.
  - apply find_range_some in E. destruct E as (E1 & E2 & E3).
    destruct (Z.lt_trichotomy i k) as [|[->|]]; [|reflexivity|].
    + rewrite E3 in Hp by lia. discriminate.
    + rewrite Hlt in E2 by lia. discriminate.
  - rewrite (find_range_none _ _ _ E) in Hp by lia. discriminate.
Qed.

Lemma find_range_ext a b p q :
  (forall j, a <= j < b -> p j = q j) -> find_range a b p = find_range a b q.
Proof.
  unfold find_range. remember (Z.to_nat (b - a)) as n eqn:En.
  revert a En. induction n as [|n IH]; intros a En H; simpl; [reflexivity|].
  rewrite (H a) by lia. destruct (q a); [reflexivity|]. apply IH; [lia|]. intros. apply H. lia.
Qed.

Lemma count_range_nil a b p : b <= a -> count_range a b p = 0.
Proof. intros. unfold count_range. replace (Z.to_nat (b - a)) with O by lia. reflexivity. Qed.

Lemma count_range_cons a b p :
  a < b -> count_range a b p = (if p a then 1 else 0) + count_range (a + 1) b p.
Proof.
  intros. unfold count_range.
  replace (Z.to_nat (b - a)) with (Datatypes.S (Z.to_nat (b - (a + 1)))) by lia. reflexivity.
Qed.

(** Induction on the length of an interval, from the left. *)
Lemma interval_ind (P : Z -> Prop) b :
  (forall a, b <= a -> P a) -> (forall a, a < b -> P (a + 1) -> P a) -> forall a, P a.
Proof.
  intros H0 HS a. remember (Z.to_nat (b - a)) as n eqn:En. revert a En.
  induction n as [|n IH]; intros a En.
  - apply H0. lia.
  - apply HS; [lia|]. apply IH. lia.
Qed.

Lemma count_range_ext b p q a :
  (forall j, a <= j < b -> p j = q j) -> count_range a b p = count_range a b q.
Proof.
  revert a. apply (interval_ind (fun a => _ -> _) b).
  - intros. rewrite !count_range_nil; auto.
  - intros a Ha IH H. rewrite !(count_range_cons a), IH, (H a) by lia || (intros; apply H; lia).
    reflexivity.
Qed.

Lemma count_range_bounds b p a : 0 <= count_range a b p <= Z.max 0 (b - a).
Proof.
  revert a. apply (interval_ind (fun a => _) b).
  - intros. rewrite count_range_nil; lia.
  - intros a Ha IH. rewrite count_range_cons by lia. destruct (p a); lia.
Qed.

(** Changing the predicate at one index changes the count by one. *)
Lemma count_range_upd b p q i a :
  a <= i < b -> (forall j, a <= j < b -> j <> i -> p j = q j) ->
  count_range a b q
  = count_range a b p - (if p i then 1 else 0) + (if q i then 1 else 0).
Proof.
  revert a. apply (interval_ind (fun a => _ -> _ -> _) b); [intros; lia|].
  intros a Ha IH Hi Hne. rewrite !(count_range_cons a) by lia.
  destruct (Z.eq_dec a i) as [->|].
  - rewrite (count_range_ext b p q (i + 1)) by (intros; apply Hne; lia). lia.
  - rewrite IH, (Hne a) by lia || (intros; apply Hne; lia). lia.
Qed.

Lemma count_range_all b p a :
  (forall j, a <= j < b -> p j = true) -> count_range a b p = Z.max 0 (b - a).
Proof.
  revert a. apply (interval_ind (fun a => _ -> _) b).
  - intros. rewrite count_range_nil; lia.
  - intros a Ha IH H. rewrite count_range_cons, IH, H by lia || (intros; apply H; lia). lia.
Qed.

Lemma count_range_none b p a :
  (forall j, a <= j < b -> p j = false) -> count_range a b p = 0.
Proof.
  revert a. apply (interval_ind (fun a => _ -> _) b).
  - intros. rewrite count_range_nil; lia.
  - intros a Ha IH H. rewrite count_range_cons, IH, H by lia || (intros; apply H; lia). lia.
Qed.

Lemma count_range_lt b p a i :
  a <= i < b -> p i = false -> count_range a b p < b - a.
Proof.
  intros Hi Hp.
  rewrite (count_range_upd b (fun j => if j =? i then true else p j) p i a) by
    (assumption || (intros; destruct (Z.eqb_spec j i); congruence)).
  rewrite Hp, Z.eqb_refl.
  pose proof (count_range_bounds b (fun j => if j =? i then true else p j) a). lia.
Qed.

Lemma count_range_split a c b p :
  a <= c <= b -> count_range a b p = count_range a c p + count_range c b p.
Proof.
  intros H. assert (Ha : a <= c) by lia. destruct H as [_ Hc]. revert a Ha.
  apply (interval_ind (fun a => _ -> _) c).
  - intros a Hac Hca. replace a with c by lia. rewrite (count_range_nil c c); lia.
  - intros a Ha IH _. rewrite (count_range_cons a b), (count_range_cons a c), IH by lia. lia.
Qed.

(** ** Arrays of structures *)

Lemma tlen_nil {A} : tlen (@nil A) = 0.
Proof. reflexivity. Qed.

Lemma tlen_cons {A} (x : A) l : tlen (x :: l) = tlen l + 1.
Proof. unfold tlen. cbn [length]. lia. Qed.

Lemma tlen_nonneg {A} (l : list A) : 0 <= tlen l.
Proof. unfold tlen. lia. Qed.

Lemma tlen_app {A} (l l' : list A) : tlen (l ++ l') = tlen l + tlen l'.
Proof. unfold tlen. rewrite length_app. lia. Qed.

Lemma tget_cons {A} (d x : A) l i : 0 <= i -> tget d (x :: l) i = if i =? 0 then x else tget d l (i - 1).
Proof.
  intros Hi. unfold tget. destruct (Z.eqb_spec i 0) as [->|]; [reflexivity|].
  replace (Z.to_nat i) with (S (Z.to_nat (i - 1))) by lia. reflexivity.
Qed.

Lemma tlen_tset {A} (l : list A) i x : tlen (tset l i x) = tlen l.
Proof. unfold tlen, tset. rewrite length_insert. reflexivity. Qed.

Lemma tget_tset {A} (d : A) l i j x :
  0 <= i < tlen l -> 0 <= j -> tget d (tset l i x) j = if i =? j then x else tget d l j.
Proof.
  unfold tlen, tget, tset. intros Hi Hj. rewrite !nth_lookup.
  destruct (Z.eqb_spec i j) as [<-|N].
  - rewrite list_lookup_insert_eq by lia. reflexivity.
  - rewrite list_lookup_insert_ne by lia. reflexivity.
Qed.

Lemma tset_tset {A} (l : list A) i x y : tset (tset l i x) i y = tset l i y.
Proof. unfold tset. apply list_insert_insert_eq. Qed.

Lemma tget_replicate {A} (d : A) n i : tget d (replicate n d) i = d.
Proof.
  unfold tget. rewrite nth_lookup. destruct (replicate n d !! Z.to_nat i) as [y|] eqn:E; [|reflexivity].
  apply lookup_replicate in E as [-> _]. reflexivity.
Qed.

Lemma tlen_replicate {A} (d : A) n : tlen (replicate n d) = Z.of_nat n.
Proof. unfold tlen. rewrite length_replicate. reflexivity. Qed.

#[export] Hint Rewrite @tlen_tset @tlen_replicate : pyro.

#[global] Opaque for_range for_range_ret find_range count_range.
