(* ===== verification/CString.v ===== *)
(** * String and memory routines (kernel/string.c)

    [memcpy], [memset] and [memcmp] work on the byte memory of the prelude.
    The string functions work on character buffers: a [list Z] of bytes whose
    text ends at the first 0, or at the end of the list. *)

From stdpp Require Import base gmap list numbers option.
From Stdlib Require Import ZArith Lia Bool Ascii.
From Stdlib Require String.
Export String.StringSyntax.
From S2P Require Import Prelude.

(** ** Memory *)

Definition memcpy (m : mem) (dst src n : Z) : mem :=
  for_range 0 n (fun i m => st8 m (dst + i) (ld8 m (src + i))) m.

Definition memset (m : mem) (dst value n : Z) : mem :=
  for_range 0 n (fun i m => st8 m (dst + i) value) m.

Definition memcmp (m : mem) (a b n : Z) : Z :=
  match
    for_range_ret 0 n (fun i (_ : unit) =>
      if negb (ld8 m (a + i) =? ld8 m (b + i))
      then (tt, Some (ld8 m (a + i) - ld8 m (b + i))) else (tt, None)) tt
  with
  | (_, Some r) => r
  | (_, None) => 0
  end.

#[global] Arguments memcpy : simpl never.
#[global] Arguments memset : simpl never.

(** ** Character buffers *)

(** The character under the pointer, and the pointer moved on by one. *)
Definition cur (s : list Z) : Z := match s with [] => 0 | c :: _ => c end.
Definition nxt (s : list Z) : list Z := match s with [] => [] | _ :: s' => s' end.

Fixpoint strlen (s : list Z) : Z :=
  match s with
  | [] => 0
  | c :: s' => if c =? 0 then 0 else 1 + strlen s'
  end.

Fixpoint strcmp (a b : list Z) : Z :=
  match a with
  | [] => 0 - cur b
  | x :: a' =>
      if negb (x =? 0) && (x =? cur b) then strcmp a' (nxt b) else x - cur b
  end.

Fixpoint strncmp (a b : list Z) (n : nat) : Z :=
  match n with
  | O => 0
  | S n' =>
      if negb (cur a =? cur b) then cur a - cur b
      else if cur a =? 0 then 0
      else strncmp (nxt a) (nxt b) n'
  end.

(** What [strncpy_z] leaves in the first bytes of its destination: the copied
    prefix and the terminator. *)
Fixpoint strncpy_copy (src : list Z) (room : nat) : list Z :=
  match room with
  | O => [0]
  | S room' => if cur src =? 0 then [0] else cur src :: strncpy_copy (nxt src) room'
  end.

(** [strncpy_z(dst, src, n)] on a destination array of [length dst] bytes. *)
Definition strncpy_z (dst src : list Z) (n : Z) : list Z :=
  let w := strncpy_copy src (Z.to_nat (n - 1)) in
  w ++ drop (length w) dst.

(** The text of a buffer: its bytes before the first 0. *)
Fixpoint text (s : list Z) : list Z :=
  match s with
  | [] => []
  | c :: s' => if c =? 0 then [] else c :: text s'
  end.

(** A string literal as bytes. *)
Fixpoint lit (s : String.string) : list Z :=
  match s with
  | String.EmptyString => []
  | String.String a s' => Z.of_nat (nat_of_ascii a) :: lit s'
  end.

#[global] Arguments lit s%_string_scope.

(** The bytes of a buffer stored one after the other: [memcpy] from an object
    kept as a list. *)
Fixpoint put_bytes (m : mem) (dst : Z) (w : list Z) : mem :=
  match w with
  | [] => m
  | c :: w' => put_bytes (st8 m dst c) (dst + 1) w'
  end.

(** [memcpy] from one object to another, each kept as its own memory. *)
Definition copy_bytes (d : mem) (dst : Z) (s : mem) (src n : Z) : mem :=
  for_range 0 n (fun i d => st8 d (dst + i) (ld8 s (src + i))) d.

(** The [n] bytes at [a]. *)
Definition bytes_at (m : mem) (a n : Z) : list Z := map (fun k => ld8 m (a + k)) (seqZ 0 n).

(** A buffer of bytes. *)
Definition bytes (s : list Z) : Prop := Forall (fun c => 0 <= c < 256) s.

(** ** Memory lemmas *)

(** [in_range x a n]: the address [x] lies in the [n] bytes at [a]. *)
Definition in_range (x a n : Z) : bool := (a <=? x) && (x <? a + n).

Lemma in_range_true x a n : in_range x a n = true <-> a <= x < a + n.
Proof. unfold in_range. rewrite andb_true_iff, Z.leb_le, Z.ltb_lt. reflexivity. Qed.

Lemma in_range_false x a n : in_range x a n = false <-> x < a \/ a + n <= x.
Proof. unfold in_range. rewrite andb_false_iff, Z.leb_gt, Z.ltb_ge. reflexivity. Qed.

Lemma ld8_memset m d v n x :
  0 <= n -> ld8 (memset m d v n) x = if in_range x d n then u8 v else ld8 m x.
Proof.
  intros Hn. unfold memset.
  apply (for_range_ind (fun i m' => ld8 m' x = if in_range x d i then u8 v else ld8 m x));
    [lia| |].
  - unfold in_range. zcase; lia || reflexivity.
  - intros i t Hi IH. rewrite ld8_st8, IH. unfold in_range. zcase; lia || reflexivity.
Qed.

Lemma ld8_memcpy m d s n x :
  0 <= n -> s + n <= d \/ d + n <= s ->
  ld8 (memcpy m d s n) x = if in_range x d n then ld8 m (s + (x - d)) else ld8 m x.
Proof.
  intros Hn Hd. unfold memcpy. revert x.
  apply (for_range_ind (fun i m' => forall x,
     ld8 m' x = if in_range x d i then ld8 m (s + (x - d)) else ld8 m x)); [lia| |].
  - intros x. unfold in_range. zcase; lia || reflexivity.
  - intros i t Hi IH x. rewrite ld8_st8, !IH. unfold in_range.
    destruct (Z.eqb_spec (d + i) x) as [<-|]; [|zcase; lia || reflexivity].
    replace (s + (d + i - d)) with (s + i) by lia.
    rewrite u8_small by (repeat case_match; apply ld8_range). zcase; lia || reflexivity.
Qed.

Lemma ld8_memset_out m d v n x :
  0 <= n -> x < d \/ d + n <= x -> ld8 (memset m d v n) x = ld8 m x.
Proof. intros Hn Hx. rewrite ld8_memset by assumption. apply in_range_false in Hx. rewrite Hx. reflexivity. Qed.

Lemma ld8_memcpy_out m d s n x :
  0 <= n -> s + n <= d \/ d + n <= s -> x < d \/ d + n <= x -> ld8 (memcpy m d s n) x = ld8 m x.
Proof.
  intros Hn Hs Hx. rewrite ld8_memcpy by assumption. apply in_range_false in Hx. rewrite Hx. reflexivity.
Qed.

Lemma ld8_memcpy_in m d s n k :
  0 <= n -> s + n <= d \/ d + n <= s -> 0 <= k < n -> ld8 (memcpy m d s n) (d + k) = ld8 m (s + k).
Proof.
  intros. rewrite ld8_memcpy by assumption.
  replace (in_range (d + k) d n) with true by (symmetry; apply in_range_true; lia).
  f_equal. lia.
Qed.

(** A zeroed page reads as zero words. *)
Lemma ld32_memset0 m d n a :
  0 <= n -> d <= a -> a + 4 <= d + n -> ld32 (memset m d 0 n) a = 0.
Proof.
  intros. unfold ld32. rewrite !ld8_memset by assumption. unfold in_range. zcase; lia || reflexivity.
Qed.

Lemma ld32_memset_out m d v n a :
  0 <= n -> a + 4 <= d \/ d + n <= a -> ld32 (memset m d v n) a = ld32 m a.
Proof. intros. apply ld32_ext. intros. apply ld8_memset_out; lia. Qed.

Lemma ld32_memcpy_in m d s n k :
  0 <= n -> s + n <= d \/ d + n <= s -> 0 <= k -> k + 4 <= n ->
  ld32 (memcpy m d s n) (d + k) = ld32 m (s + k).
Proof.
  intros. apply ld32_ext. intros j Hj. rewrite <- !Z.add_assoc. apply ld8_memcpy_in; lia.
Qed.

Lemma copy_bytes_eq d dst s src n : copy_bytes d dst s src n = for_range 0 n (fun i d => st8 d (dst + i) (ld8 s (src + i))) d.
Proof. reflexivity. Qed.

#[global] Opaque memset memcpy.

(** ** String lemmas *)

Lemma strlen_text s : strlen s = Z.of_nat (length (text s)).
Proof. induction s as [|c s IH]; simpl; [reflexivity|]. destruct (c =? 0); simpl; lia. Qed.

Lemma text_no_nul s : Forall (fun c => c <> 0) (text s).
Proof. induction s as [|c s IH]; simpl; [constructor|]. destruct (Z.eqb_spec c 0); auto. Qed.

(** Two buffers compare equal exactly when their texts are the same. *)
Lemma strcmp_eq a b : strcmp a b = 0 <-> text a = text b.
Proof.
  revert b. induction a as [|x a IH]; intros b; simpl.
  - destruct b as [|y b]; simpl; [tauto|]. destruct (Z.eqb_spec y 0); split; intros; try lia; try congruence.
  - destruct b as [|y b]; simpl.
    + destruct (Z.eqb_spec x 0); simpl; split; intros; try lia; try congruence; reflexivity.
    + destruct (Z.eqb_spec x 0) as [->|Nx]; simpl.
      { destruct (Z.eqb_spec y 0); split; intros; try lia; congruence. }
      destruct (Z.eqb_spec x y) as [->|Nxy].
      * rewrite IH. destruct (Z.eqb_spec y 0); [congruence|]. split; congruence.
      * split; [lia|]. destruct (Z.eqb_spec y 0); congruence.
Qed.

Lemma strncpy_copy_length src : forall room, (length (strncpy_copy src room) <= S room)%nat.
Proof.
  intros room. revert src. induction room as [|room IH]; intros src; simpl; [lia|].
  destruct (cur src =? 0); simpl; [lia|]. specialize (IH (nxt src)). lia.
Qed.

Lemma text_strncpy_copy room : forall src rest,
  text (strncpy_copy src room ++ rest) = take room (text src).
Proof.
  induction room as [|room IH]; intros src rest; simpl; [reflexivity|].
  destruct src as [|c src]; simpl; [reflexivity|].
  destruct (Z.eqb_spec c 0) as [->|N]; simpl; [reflexivity|].
  destruct (Z.eqb_spec c 0); [contradiction|]. rewrite IH. reflexivity.
Qed.

(** The copy keeps the destination's size and holds at most [n - 1] characters
    of the source, always terminated. *)
Lemma strncpy_z_spec dst src n :
  1 <= n -> n <= Z.of_nat (length dst) ->
  length (strncpy_z dst src n) = length dst /\
  text (strncpy_z dst src n) = take (Z.to_nat (n - 1)) (text src).
Proof.
  intros Hn Hl. unfold strncpy_z. split; [|apply text_strncpy_copy].
  pose proof (strncpy_copy_length src (Z.to_nat (n - 1))).
  rewrite length_app, length_drop. lia.
Qed.

(** ** Buffers *)

Lemma bytes_tget w k : bytes w -> 0 <= tget 0 w k < 256.
Proof.
  intros B. unfold tget. destruct (nth_in_or_default (Z.to_nat k) w 0) as [H| ->]; [|lia].
  exact (proj1 (List.Forall_forall _ _) B _ H).
Qed.

Lemma ld8_put_bytes w : forall m d x,
  ld8 (put_bytes m d w) x = if in_range x d (tlen w) then u8 (tget 0 w (x - d)) else ld8 m x.
Proof.
  induction w as [|c w IH]; intros m d x; cbn [put_bytes].
  - rewrite tlen_nil. unfold in_range. zcase; lia || reflexivity.
  - rewrite IH, ld8_st8, tlen_cons. pose proof (tlen_nonneg w). unfold in_range.
    destruct (Z.leb_spec d x); [rewrite tget_cons by lia|]; zcase; try lia; try reflexivity.
    f_equal. f_equal. lia.
Qed.

Lemma lit_bytes s : bytes (lit s).
Proof.
  unfold bytes. induction s as [|a s IH]; cbn [lit]; constructor; [|exact IH].
  pose proof (Ascii.nat_ascii_bounded a). lia.
Qed.

Lemma ld8_copy_bytes d dst s src n x :
  0 <= n -> ld8 (copy_bytes d dst s src n) x
  = if in_range x dst n then ld8 s (src + (x - dst)) else ld8 d x.
Proof.
  intros Hn. unfold copy_bytes.
  apply (for_range_ind (fun i d' => ld8 d' x = if in_range x dst i then ld8 s (src + (x - dst)) else ld8 d x));
    [lia| |].
  - unfold in_range. zcase; lia || reflexivity.
  - intros i t Hi IH. rewrite ld8_st8, IH. unfold in_range. destruct (Z.eqb_spec (dst + i) x) as [<-|].
    + replace (src + (dst + i - dst)) with (src + i) by lia. rewrite u8_small by apply ld8_range.
      zcase; lia || reflexivity.
    + zcase; lia || reflexivity.
Qed.

(** Only the bytes copied matter. *)
Lemma copy_bytes_agree d dst s s' src n :
  (forall x, src <= x < src + n -> ld8 s' x = ld8 s x) ->
  copy_bytes d dst s' src n = copy_bytes d dst s src n.
Proof.
  intros H. destruct (Z.lt_ge_cases n 0) as [Hn|Hn].
  - unfold copy_bytes. rewrite !for_range_empty by lia. reflexivity.
  - unfold copy_bytes. apply (for_range_rel (fun _ x y => x = y)); [lia|reflexivity|].
    intros i x y Hi ->. rewrite H by lia. reflexivity.
Qed.

Lemma bytes_at_length m a n : 0 <= n -> tlen (bytes_at m a n) = n.
Proof. intros. unfold bytes_at, tlen. rewrite length_map, length_seqZ. lia. Qed.

Lemma bytes_at_ext m m' a a' n :
  (forall k, 0 <= k < n -> ld8 m' (a' + k) = ld8 m (a + k)) -> bytes_at m' a' n = bytes_at m a n.
Proof.
  intros H. unfold bytes_at. apply map_ext_in. intros k Hk. apply H.
  apply list_elem_of_In, elem_of_seqZ in Hk. lia.
Qed.

Lemma bytes_at_bytes m a n : bytes (bytes_at m a n).
Proof. unfold bytes, bytes_at. apply Forall_map, Forall_forall. intros k _. apply ld8_range. Qed.

#[global] Opaque copy_bytes.
