(* ===== verification/Screen.v ===== *)
(** * VGA text screen (kernel/screen.c)

    The text buffer at 0xB8000 is an array of bytes (character, attribute,
    character, ...); [cursor] and [text_color] are the driver's statics.
    Strings are buffers in the sense of [CString]. *)

From stdpp Require Import base gmap list numbers option.
From Stdlib Require Import ZArith Lia Bool.
From S2P Require Import Prelude CString.

Definition VIDEO_MEMORY : Z := 0xB8000.
Definition COLS : Z := 80.
Definition ROWS : Z := 25.
Definition COLOR_WHITE_ON_BLACK : Z := 0x0F.
Definition COLOR_GREEN_ON_BLACK : Z := 0x0A.
Definition COLOR_RED_ON_BLACK : Z := 0x0C.

(** [video] is indexed by the offset from [VIDEO_MEMORY]. *)
Record screen := mk_screen {
  video : arr;
  cursor : Z;
  text_color : Z
}.

Definition screen_boot : screen := mk_screen ∅ 0 COLOR_WHITE_ON_BLACK.

Definition put_cell (v : arr) (index c color : Z) : arr :=
  aset (aset v (index * 2) (u8 c)) (index * 2 + 1) color.

Definition scroll_if_needed (s : screen) : screen :=
  if cursor s <? COLS * ROWS then s
  else
    let v := for_range 0 (COLS * (ROWS - 1)) (fun i v =>
               let v := aset v (i * 2) (aget v ((i + COLS) * 2)) in
               aset v (i * 2 + 1) (aget v ((i + COLS) * 2 + 1))) (video s) in
    let v := for_range (COLS * (ROWS - 1)) (COLS * ROWS) (fun i v =>
               put_cell v i 32 (text_color s)) v in
    mk_screen v (COLS * (ROWS - 1)) (text_color s).

Definition clear_screen (s : screen) : screen :=
  mk_screen (for_range 0 (COLS * ROWS) (fun i v => put_cell v i 32 COLOR_WHITE_ON_BLACK) (video s))
            0 (text_color s).

Definition kprint_char (s : screen) (c : Z) : screen :=
  scroll_if_needed
    (if c =? 10 then mk_screen (video s) ((cursor s / COLS + 1) * COLS) (text_color s)
     else if c =? 8 then
       if 0 <? cursor s then
         mk_screen (put_cell (video s) (cursor s - 1) 32 (text_color s)) (cursor s - 1) (text_color s)
       else s
     else mk_screen (put_cell (video s) (cursor s) c (text_color s)) (cursor s + 1) (text_color s)).

Fixpoint kprint (s : screen) (str : list Z) : screen :=
  match str with
  | [] => s
  | c :: str' => if c =? 0 then s else kprint (kprint_char s c) str'
  end.

Definition kprint_color (s : screen) (str : list Z) (color : Z) : screen :=
  let saved := text_color s in
  let s := mk_screen (video s) (cursor s) color in
  let s := kprint s str in
  mk_screen (video s) (cursor s) saved.

(** ["0123456789abcdef"[d]] *)
Definition hex_digit (d : Z) : Z := tget 0 (lit "0123456789abcdef") d.

(** The digits [kprint_hex] prints, [shift] running over 28, 24, ... 0. *)
Definition hex_digits (n : Z) : list Z :=
  map (fun shift => hex_digit (Z.land (Z.shiftr n shift) 0xF)) [28; 24; 20; 16; 12; 8; 4; 0].

Definition kprint_hex (s : screen) (n : Z) : screen :=
  fold_left kprint_char (hex_digits n) (kprint s (lit "0x")).

Definition screen_put (s : screen) (row col c color : Z) : screen :=
  if (row <? 0) || (ROWS <=? row) || (col <? 0) || (COLS <=? col) then s
  else mk_screen (put_cell (video s) (row * COLS + col) c color) (cursor s) (text_color s).

(** The loop [while (n > 0 && i >= 0)] of [kprint_dec]: [room] is [i + 1], and
    [tail] is the text from [buf[i + 1]] on. *)
Fixpoint dec_loop (room : nat) (n : Z) (tail : list Z) : list Z :=
  match room with
  | O => tail
  | S room' => if 0 <? n then dec_loop room' (n / 10) ((48 + n mod 10) :: tail) else tail
  end.

(** The characters [kprint_dec] prints; [buf] holds ten digits and the 0. *)
Definition dec_digits (n : Z) : list Z := if n =? 0 then [48] else dec_loop 10 n [].

Definition kprint_dec (s : screen) (n : Z) : screen :=
  if n =? 0 then kprint_char s 48 else kprint s (dec_loop 10 n []).

(** ** Invariant *)

(** The cursor is on the screen; nothing outside the 4000 bytes is written. *)
Definition screen_ok (s : screen) : Prop := 0 <= cursor s < COLS * ROWS.

Definition same_outside (v v' : arr) : Prop :=
  forall i, i < 0 \/ 2 * (COLS * ROWS) <= i -> aget v' i = aget v i.

(** The operations of the driver. *)
Inductive screen_call :=
| Clear
| Char (c : Z)
| Puts (str : list Z)
| PutsColor (str : list Z) (color : Z)
| Hex (n : Z)
| Dec (n : Z)
| PutAt (row col c color : Z).

Definition screen_step (s : screen) (c : screen_call) : screen :=
  match c with
  | Clear => clear_screen s
  | Char c => kprint_char s c
  | Puts str => kprint s str
  | PutsColor str color => kprint_color s str color
  | Hex n => kprint_hex s n
  | Dec n => kprint_dec s n
  | PutAt row col c color => screen_put s row col c color
  end.

(** The character and the attribute of a cell. *)
Definition cell_char (s : screen) (i : Z) : Z := aget (video s) (i * 2).
Definition cell_attr (s : screen) (i : Z) : Z := aget (video s) (i * 2 + 1).

(** The number a string of decimal digits, or of hexadecimal digits, denotes. *)
Definition read_dec (l : list Z) : Z := fold_left (fun a c => a * 10 + (c - 48)) l 0.
Definition hex_value (c : Z) : Z := if c <? 58 then c - 48 else c - 87.
Definition read_hex (l : list Z) : Z := fold_left (fun a c => a * 16 + hex_value c) l 0.

(** ** Cells *)

Lemma aget_put_cell v i c col k :
  aget (put_cell v i c col) k
  = if k =? 2 * i then u8 c else if k =? 2 * i + 1 then col else aget v k.
Proof.
  unfold put_cell. rewrite !aget_aset. zcase; try lia; reflexivity.
Qed.

Lemma put_cell_outside v i c col :
  0 <= i < COLS * ROWS -> same_outside v (put_cell v i c col).
Proof.
  unfold same_outside, COLS, ROWS. intros Hi k Hk. rewrite aget_put_cell. zcase; lia || reflexivity.
Qed.

Lemma same_outside_trans v1 v2 v3 : same_outside v1 v2 -> same_outside v2 v3 -> same_outside v1 v3.
Proof. unfold same_outside. intros H1 H2 i Hi. rewrite H2, H1; auto. Qed.

Lemma same_outside_refl v : same_outside v v.
Proof. intros i Hi. reflexivity. Qed.
#[export] Hint Resolve same_outside_refl put_cell_outside : pyro.

#[export] Instance same_outside_preorder : PreOrder same_outside.
Proof. split; [exact same_outside_refl|exact same_outside_trans]. Qed.

(** Scrolling: every row moves up one, the last row is blank. *)
Lemma scroll_spec s :
  COLS * ROWS <= cursor s ->
  cursor (scroll_if_needed s) = COLS * (ROWS - 1) /\
  text_color (scroll_if_needed s) = text_color s /\
  (forall k, aget (video (scroll_if_needed s)) k
     = if (0 <=? k) && (k <? 3840) then aget (video s) (k + 160)
       else if (3840 <=? k) && (k <? 4000)
            then (if k mod 2 =? 0 then 32 else text_color s)
            else aget (video s) k).
Proof.
  intros Hc. unfold scroll_if_needed. destruct (Z.ltb_spec (cursor s) (COLS * ROWS)); [lia|].
  cbn [cursor text_color video]. split; [reflexivity|]. split; [reflexivity|].
  unfold COLS, ROWS in *. change (80 * (25 - 1)) with 1920. change (80 * 25) with 2000.
  set (v1 := for_range 0 1920 _ (video s)).
  assert (H1 : forall k, aget v1 k = if (0 <=? k) && (k <? 3840) then aget (video s) (k + 160)
                                     else aget (video s) k).
  { unfold v1. apply (for_range_ind (fun n v => forall k,
      aget v k = if (0 <=? k) && (k <? 2 * n) then aget (video s) (k + 160) else aget (video s) k)).
    - lia.
    - intros k. zcase; lia || reflexivity.
    - intros i v Hi IH k. rewrite !aget_aset, !IH.
      destruct (Z.eqb_spec (i * 2 + 1) k) as [<-|]; [|destruct (Z.eqb_spec (i * 2) k) as [<-|]].
      + destruct (Z.eqb_spec (i * 2) ((i + 80) * 2 + 1)); [lia|]. zcase; try lia; f_equal; lia.
      + zcase; try lia; f_equal; lia.
      + zcase; lia || reflexivity. }
  intros k. pose proof (for_range_ind (fun n v => forall k,
    aget v k = if (3840 <=? k) && (k <? 2 * n) then (if k mod 2 =? 0 then 32 else text_color s)
               else aget v1 k) 1920 2000 (fun i v => put_cell v i 32 (text_color s)) v1) as H2.
  rewrite H2, H1.
  - change (2 * 2000) with 4000. zcase; lia || reflexivity.
  - lia.
  - intros j. zcase; lia || reflexivity.
  - intros i v Hi IH j. rewrite aget_put_cell, IH. change (u8 32) with 32.
    destruct (Z.eqb_spec j (2 * i)) as [->|]; [|destruct (Z.eqb_spec j (2 * i + 1)) as [->|]].
    + replace ((2 * i) mod 2 =? 0) with true by (symmetry; apply Z.eqb_eq; zdm). zcase; lia || reflexivity.
    + replace ((2 * i + 1) mod 2 =? 0) with false by (symmetry; apply Z.eqb_neq; zdm). zcase; lia || reflexivity.
    + zcase; lia || reflexivity.
Qed.

Lemma scroll_noop s : cursor s < COLS * ROWS -> scroll_if_needed s = s.
Proof. intros. unfold scroll_if_needed. destruct (Z.ltb_spec (cursor s) (COLS * ROWS)); [reflexivity|lia]. Qed.

Lemma scroll_outside s : same_outside (video s) (video (scroll_if_needed s)).
Proof.
  destruct (Z.lt_ge_cases (cursor s) (COLS * ROWS)) as [H|H].
  - rewrite scroll_noop by assumption. reflexivity.
  - destruct (scroll_spec s H) as (_ & _ & E). intros k Hk. rewrite E.
    unfold COLS, ROWS in Hk. zcase; lia || reflexivity.
Qed.

Lemma scroll_ok s :
  0 <= cursor s <= COLS * ROWS ->
  screen_ok (scroll_if_needed s) /\ text_color (scroll_if_needed s) = text_color s.
Proof.
  intros Hc. destruct (Z.lt_ge_cases (cursor s) (COLS * ROWS)) as [H|H].
  - rewrite scroll_noop by assumption. split; [unfold screen_ok; lia|reflexivity].
  - destruct (scroll_spec s H) as (E & T & _). split; [|assumption].
    unfold screen_ok. rewrite E. unfold COLS, ROWS. lia.
Qed.

(** One operation keeps the cursor on the screen and its writes inside it. *)
Definition confined (s s' : screen) : Prop := screen_ok s' /\ same_outside (video s) (video s').

Lemma kprint_char_confined s c :
  screen_ok s -> confined s (kprint_char s c) /\ text_color (kprint_char s c) = text_color s.
Proof.
  intros H. unfold kprint_char.
  set (t := if c =? 10 then _ else _).
  assert (Ht : 0 <= cursor t <= COLS * ROWS /\ text_color t = text_color s /\
               same_outside (video s) (video t)).
  { unfold t, screen_ok, COLS, ROWS in *. destruct (c =? 10); [cbn; split; [zdm|auto with pyro]|].
    destruct (c =? 8); cbn; [destruct (Z.ltb_spec 0 (cursor s)); cbn|];
      (split; [lia|split; [reflexivity|]]); auto with pyro; apply put_cell_outside; unfold COLS, ROWS; lia. }
  destruct Ht as (H1 & H2 & H3). destruct (scroll_ok t H1) as [H4 H5].
  split; [split; [assumption|]|congruence]. etransitivity; [exact H3|apply scroll_outside].
Qed.

Lemma confined_trans s1 s2 s3 : confined s1 s2 -> confined s2 s3 -> confined s1 s3.
Proof. intros [_ H1] [H2 H3]. split; [assumption|]. etransitivity; eassumption. Qed.

Lemma fold_char_confined l : forall s,
  screen_ok s -> confined s (fold_left kprint_char l s) /\
                 text_color (fold_left kprint_char l s) = text_color s.
Proof.
  induction l as [|c l IH]; intros s H; simpl; [split; [split|]; auto with pyro|].
  destruct (kprint_char_confined s c H) as [C T]. destruct (IH _ (proj1 C)) as [C' T'].
  split; [eapply confined_trans; eassumption|congruence].
Qed.

(** [kprint] prints the text of its buffer. *)
Lemma kprint_text l : forall s, kprint s l = fold_left kprint_char (text l) s.
Proof.
  induction l as [|c l IH]; intros s; simpl; [reflexivity|]. destruct (c =? 0); simpl; auto.
Qed.

Lemma kprint_confined s l : screen_ok s -> confined s (kprint s l) /\ text_color (kprint s l) = text_color s.
Proof. rewrite kprint_text. apply fold_char_confined. Qed.

Lemma screen_step_confined s c : screen_ok s -> confined s (screen_step s c).
Proof.
  intros H. destruct c; simpl.
  - unfold clear_screen, confined, screen_ok. cbn [cursor video]. split; [unfold COLS, ROWS; lia|].
    apply (for_range_ind (fun _ v => same_outside (video s) v)); [unfold COLS, ROWS; lia|reflexivity|].
    intros i v Hi IH. etransitivity; [exact IH|]. apply put_cell_outside. assumption.
  - apply kprint_char_confined. assumption.
  - apply kprint_confined. assumption.
  - unfold kprint_color. destruct (kprint_confined (mk_screen (video s) (cursor s) color) str H) as [C _].
    exact C.
  - unfold kprint_hex. destruct (kprint_confined s (lit "0x") H) as [C _].
    eapply confined_trans; [exact C|]. apply fold_char_confined, C.
  - unfold kprint_dec. destruct (n =? 0); [apply kprint_char_confined|apply kprint_confined]; assumption.
  - unfold screen_put. destruct (_ || _)%bool eqn:E; [split; auto with pyro|]. b2p.
    split; [assumption|]. apply put_cell_outside. unfold COLS, ROWS in *. lia.
Qed.

(** C17. Whatever is printed, the cursor stays on the 80x25 screen and no byte
    outside the 4000 bytes of the text buffer is written. *)
Theorem screen_confined (cs : list screen_call) (s : screen) :
  screen_ok s ->
  screen_ok (fold_left screen_step cs s) /\
  same_outside (video s) (video (fold_left screen_step cs s)).
Proof.
  revert s. induction cs as [|c cs IH]; intros s H; simpl; [auto with pyro|].
  destruct (screen_step_confined s c H) as [H1 H2]. destruct (IH _ H1) as [H3 H4].
  split; [assumption|]. etransitivity; eassumption.
Qed.

(** ** The screen as a window on an endless page *)

(** A page that only grows downwards, a write position, and the first visible
    row.  Positions count cells, eighty per row. *)
Record tty := mk_tty {
  t_char : Z -> Z;
  t_attr : Z -> Z;
  t_pos : Z;
  t_top : Z
}.

Definition upd (f : Z -> Z) (i x : Z) : Z -> Z := fun k => if k =? i then x else f k.
Definition blank_row (f : Z -> Z) (row x : Z) : Z -> Z := fun k => if k / 80 =? row then x else f k.

(** Reaching the row below the window moves the window down one row. *)
Definition tty_scroll (t : tty) (color : Z) : tty :=
  if t_pos t =? 80 * (t_top t + 25) then
    mk_tty (blank_row (t_char t) (t_top t + 25) 32) (blank_row (t_attr t) (t_top t + 25) color)
           (t_pos t) (t_top t + 1)
  else t.

Definition tty_char (color : Z) (t : tty) (c : Z) : tty :=
  tty_scroll
    (if c =? 10 then mk_tty (t_char t) (t_attr t) ((t_pos t / 80 + 1) * 80) (t_top t)
     else if c =? 8 then
       if 80 * t_top t <? t_pos t then
         mk_tty (upd (t_char t) (t_pos t - 1) 32) (upd (t_attr t) (t_pos t - 1) color)
                (t_pos t - 1) (t_top t)
       else t
     else mk_tty (upd (t_char t) (t_pos t) (u8 c)) (upd (t_attr t) (t_pos t) color)
                 (t_pos t + 1) (t_top t)) color.

Definition tty_print (color : Z) (t : tty) (l : list Z) : tty := fold_left (tty_char color) l t.

(** The screen shows the 25 rows from [t_top] on. *)
Record shows (s : screen) (t : tty) : Prop := {
  sh_pos : cursor s = t_pos t - 80 * t_top t;
  sh_char : forall i, 0 <= i < 2000 -> cell_char s i = t_char t (80 * t_top t + i);
  sh_attr : forall i, 0 <= i < 2000 -> cell_attr s i = t_attr t (80 * t_top t + i)
}.

Lemma scroll_shows s t :
  0 <= cursor s <= 2000 -> shows s t -> shows (scroll_if_needed s) (tty_scroll t (text_color s)).
Proof.
  intros Hc [P C A]. unfold tty_scroll.
  destruct (Z.eqb_spec (t_pos t) (80 * (t_top t + 25))) as [E|N].
  - destruct (scroll_spec s) as (E1 & E2 & E3); [unfold COLS, ROWS; lia|].
    unfold COLS, ROWS, cell_char, cell_attr, blank_row in *.
    constructor; cbn [t_pos t_char t_attr t_top]; [lia| |]; intros i Hi; unfold cell_char, cell_attr;
      rewrite E3.
    + specialize (C (i + 80)). replace ((80 * (t_top t + 1) + i) / 80 =? t_top t + 25) with (1920 <=? i)
        by (zcase; zdm || reflexivity).
      destruct (Z.leb_spec 1920 i).
      * replace (i * 2 mod 2 =? 0) with true by (symmetry; apply Z.eqb_eq; zdm). zcase; lia || reflexivity.
      * replace (80 * (t_top t + 1) + i) with (80 * t_top t + (i + 80)) by lia. rewrite <- C by lia.
        zcase; try lia; f_equal; lia.
    + specialize (A (i + 80)). replace ((80 * (t_top t + 1) + i) / 80 =? t_top t + 25) with (1920 <=? i)
        by (zcase; zdm || reflexivity).
      destruct (Z.leb_spec 1920 i).
      * replace ((i * 2 + 1) mod 2 =? 0) with false by (symmetry; apply Z.eqb_neq; zdm). zcase; lia || reflexivity.
      * replace (80 * (t_top t + 1) + i) with (80 * t_top t + (i + 80)) by lia. rewrite <- A by lia.
        zcase; try lia; f_equal; lia.
  - rewrite scroll_noop; [constructor; assumption|]. unfold COLS, ROWS. lia.
Qed.

Lemma put_cell_shows s t i c col n :
  shows s t -> 0 <= i < 2000 -> 0 <= n ->
  shows (mk_screen (put_cell (video s) i c col) n (text_color s))
        (mk_tty (upd (t_char t) (80 * t_top t + i) (u8 c)) (upd (t_attr t) (80 * t_top t + i) col)
                (80 * t_top t + n) (t_top t)).
Proof.
  intros [P C A] Hi Hn. unfold cell_char, cell_attr, upd in *.
  constructor; cbn [t_pos t_char t_attr t_top cursor]; [lia| |]; intros k Hk;
    unfold cell_char, cell_attr; cbn [video]; rewrite aget_put_cell.
  - specialize (C k Hk). zcase; lia || auto.
  - specialize (A k Hk). zcase; lia || auto.
Qed.

Lemma kprint_char_shows s t c :
  screen_ok s -> shows s t -> shows (kprint_char s c) (tty_char (text_color s) t c).
Proof.
  unfold screen_ok, COLS, ROWS. intros H S. pose proof (sh_pos _ _ S) as P. unfold kprint_char, tty_char.
  destruct (c =? 10).
  - apply (scroll_shows (mk_screen _ _ _)); cbn [cursor]; unfold COLS; [zdm|].
    destruct S as [_ C A]. constructor; auto. cbn. zdm.
  - destruct (c =? 8).
    + replace (80 * t_top t <? t_pos t) with (0 <? cursor s) by (zcase; lia || reflexivity).
      destruct (Z.ltb_spec 0 (cursor s)); [|apply scroll_shows; [lia|assumption]].
      apply (scroll_shows (mk_screen _ _ _)); [cbn; lia|].
      replace (t_pos t - 1) with (80 * t_top t + (cursor s - 1)) by lia.
      apply (put_cell_shows s t (cursor s - 1) 32); [assumption|lia|lia].
    + apply (scroll_shows (mk_screen _ _ _)); [cbn; lia|].
      replace (t_pos t + 1) with (80 * t_top t + (cursor s + 1)) by lia.
      replace (t_pos t) with (80 * t_top t + cursor s) by lia.
      apply put_cell_shows; [assumption|lia|lia].
Qed.

(** C18. Refinement: the 80x25 screen with its scrolling is a 25-row window on
    an endless page.  Printing any string moves the screen and the page in
    step, whatever it contains (newlines, backspaces, text past the last row). *)
Theorem kprint_refines (str : list Z) (s : screen) (t : tty) :
  screen_ok s -> shows s t ->
  shows (kprint s str) (tty_print (text_color s) t (text str)) /\ screen_ok (kprint s str).
Proof.
  rewrite kprint_text. revert s t. induction (text str) as [|c l IH]; intros s t H S; simpl; [auto|].
  destruct (kprint_char_confined s c H) as [[H' _] T].
  specialize (IH (kprint_char s c) (tty_char (text_color s) t c) H' (kprint_char_shows s t c H S)).
  rewrite T in IH. exact IH.
Qed.

(** ** Numbers *)

Definition digit (c : Z) : Prop := 48 <= c <= 57.

Lemma dec_loop_read room : forall n tail,
  0 <= n < 10 ^ Z.of_nat room ->
  fold_left (fun a c => a * 10 + (c - 48)) (dec_loop room n tail) 0
  = fold_left (fun a c => a * 10 + (c - 48)) tail n.
Proof.
  induction room as [|room IH]; intros n tail Hn; simpl.
  - change (10 ^ Z.of_nat 0) with 1 in Hn. replace n with 0 by lia. reflexivity.
  - destruct (Z.ltb_spec 0 n); [|replace n with 0 by lia; reflexivity].
    rewrite Nat2Z.inj_succ, Z.pow_succ_r in Hn by lia.
    rewrite IH by zdm. simpl. f_equal. zdm.
Qed.

Lemma dec_loop_shape room : forall n tail,
  0 <= n -> Forall digit tail -> (n = 0 -> tail <> [] -> cur tail <> 48) ->
  n < 10 ^ Z.of_nat room -> n <> 0 \/ tail <> [] ->
  Forall digit (dec_loop room n tail) /\ cur (dec_loop room n tail) <> 48 /\
  (length (dec_loop room n tail) <= room + length tail)%nat.
Proof.
  induction room as [|room IH]; intros n tail H0 Ht Hl Hn Hne; simpl.
  - change (10 ^ Z.of_nat 0) with 1 in Hn. assert (n = 0) by lia. split; [assumption|].
    split; [apply Hl; [assumption|destruct Hne; congruence]|lia].
  - rewrite Nat2Z.inj_succ, Z.pow_succ_r in Hn by lia.
    destruct (Z.ltb_spec 0 n).
    + destruct (IH (n / 10) ((48 + n mod 10) :: tail)) as (D & C & L); [zdm| | |zdm|right; discriminate|].
      * constructor; [unfold digit; zdm|assumption].
      * intros Hz _. cbn. zdm.
      * split; [assumption|]. split; [assumption|]. cbn [length] in L. lia.
    + assert (n = 0) by lia. split; [assumption|]. split; [|lia].
      apply Hl; [assumption|destruct Hne; congruence].
Qed.

Lemma text_digits l : Forall digit l -> text l = l.
Proof.
  induction 1 as [|c l Hc Hl IH]; simpl; [reflexivity|]. unfold digit in Hc.
  destruct (Z.eqb_spec c 0); [lia|]. rewrite IH. reflexivity.
Qed.

Lemma dec_digits_facts n :
  0 <= n < 0x100000000 ->
  read_dec (dec_digits n) = n /\ Forall digit (dec_digits n) /\ (n <> 0 -> cur (dec_digits n) <> 48) /\
  (length (dec_digits n) <= 10)%nat.
Proof.
  intros Hn. unfold dec_digits, read_dec. destruct (Z.eqb_spec n 0) as [->|N].
  - repeat split; try reflexivity; [|congruence|cbn; lia]. constructor; [|constructor]. unfold digit; lia.
  - assert (Hb : 0 <= n < 10 ^ Z.of_nat 10) by (change (10 ^ Z.of_nat 10) with 10000000000; lia).
    destruct (dec_loop_shape 10 n []) as (D & C & L);
      [lia|constructor|congruence|lia|left; assumption|].
    split; [apply (dec_loop_read 10 n [] Hb)|].
    split; [assumption|]. split; [auto|]. cbn [length] in L. lia.
Qed.

(** [kprint_dec] prints the decimal notation of its argument: at most ten
    digits, without a leading zero, that read back as the number, for every
    32-bit value. *)
Theorem kprint_dec_correct (s : screen) (n : Z) :
  0 <= n < 0x100000000 ->
  kprint_dec s n = fold_left kprint_char (dec_digits n) s /\ read_dec (dec_digits n) = n /\
  Forall digit (dec_digits n) /\ (n <> 0 -> cur (dec_digits n) <> 48) /\
  (length (dec_digits n) <= 10)%nat.
Proof.
  intros Hn. pose proof (dec_digits_facts n Hn) as F. split; [|exact F].
  unfold kprint_dec, dec_digits in *. destruct (Z.eqb_spec n 0) as [->|N]; [reflexivity|].
  rewrite kprint_text, text_digits by apply F. reflexivity.
Qed.

Lemma hex_digit_facts d : 0 <= d < 16 -> hex_value (hex_digit d) = d /\ hex_digit d <> 0.
Proof.
  intros Hd. pose proof (proj1 (forallb_seqZ (fun d => (hex_value (hex_digit d) =? d) && negb (hex_digit d =? 0))
    0 16) ltac:(vm_compute; reflexivity) d ltac:(lia)) as H. cbv beta in H. b2p. auto.
Qed.

(** [kprint_hex] prints "0x" and exactly eight hexadecimal digits that read
    back as the number, for every 32-bit value. *)
Theorem kprint_hex_correct (s : screen) (n : Z) :
  0 <= n < 0x100000000 ->
  kprint_hex s n = kprint s (lit "0x" ++ hex_digits n) /\ read_hex (hex_digits n) = n /\
  length (hex_digits n) = 8%nat.
Proof.
  intros Hn.
  assert (Hd : forall k, 0 <= k -> Z.land (Z.shiftr n k) 0xF = n / 2 ^ k mod 16).
  { intros k Hk. change 0xF with (Z.ones 4). rewrite Z.land_ones, Z.shiftr_div_pow2 by lia. reflexivity. }
  assert (Hx : forall k, hex_value (hex_digit (n / 2 ^ k mod 16)) = n / 2 ^ k mod 16 /\
                         hex_digit (n / 2 ^ k mod 16) <> 0)
    by (intros k; apply hex_digit_facts, Z.mod_pos_bound; lia).
  assert (E : hex_digits n = map (fun k => hex_digit (n / 2 ^ k mod 16)) [28; 24; 20; 16; 12; 8; 4; 0])
    by (unfold hex_digits; cbn [map]; rewrite !Hd by lia; reflexivity).
  split; [|split; [|reflexivity]].
  - rewrite kprint_text. unfold kprint_hex. rewrite kprint_text.
    replace (text (lit "0x" ++ hex_digits n)) with (text (lit "0x") ++ hex_digits n);
      [rewrite fold_left_app; reflexivity|].
    change (text (lit "0x")) with (lit "0x"). change (lit "0x") with [48; 120]. cbn [text app Z.eqb]. do 2 f_equal.
    rewrite E. generalize [28; 24; 20; 16; 12; 8; 4; 0]. intros l. induction l as [|k l IH]; [reflexivity|].
    cbn [map text]. destruct (Z.eqb_spec (hex_digit (n / 2 ^ k mod 16)) 0) as [F|];
      [exfalso; apply (Hx k), F|]. rewrite <- IH. reflexivity.
  - rewrite E. unfold read_hex. cbn [map fold_left]. rewrite !(fun k => proj1 (Hx k)).
    assert (Q : forall k j, 0 <= k -> j = k + 4 -> n / 2 ^ k = 16 * (n / 2 ^ j) + n / 2 ^ k mod 16).
    { intros k j Hk ->. rewrite Z.pow_add_r, <- Z.div_div by first [lia|apply Z.pow_nonzero; lia].
      change (2 ^ 4) with 16. generalize (n / 2 ^ k). intros q. zdm. }
    pose proof (Q 0 4 ltac:(lia) eq_refl). pose proof (Q 4 8 ltac:(lia) eq_refl).
    pose proof (Q 8 12 ltac:(lia) eq_refl). pose proof (Q 12 16 ltac:(lia) eq_refl).
    pose proof (Q 16 20 ltac:(lia) eq_refl). pose proof (Q 20 24 ltac:(lia) eq_refl).
    pose proof (Q 24 28 ltac:(lia) eq_refl). pose proof (Q 28 32 ltac:(lia) eq_refl).
    assert (n / 2 ^ 32 = 0) by (apply Z.div_small; lia).
    assert (n / 2 ^ 0 = n) by apply Z.div_1_r. lia.
Qed.

(** ** Witnesses *)

Definition demo_tty : tty := mk_tty (fun _ => 0) (fun _ => 0) 0 0.

Lemma screen_boot_ok : screen_ok screen_boot.
Proof. split; [discriminate|reflexivity]. Qed.

Lemma demo_shows : shows screen_boot demo_tty.
Proof. constructor; [reflexivity| |]; intros i _; apply aget_empty. Qed.

Lemma screen_confined_witness :
  let cs := [Clear; Puts (lit "hello"); Char 10; Dec 42; PutAt 30 0 65 7] in
  screen_ok (fold_left screen_step cs screen_boot) /\
  same_outside (video screen_boot) (video (fold_left screen_step cs screen_boot)).
Proof. apply screen_confined. apply screen_boot_ok. Defined.

Lemma kprint_refines_witness :
  shows (kprint screen_boot (lit "pyro")) (tty_print (text_color screen_boot) demo_tty (text (lit "pyro")))
  /\ screen_ok (kprint screen_boot (lit "pyro")).
Proof. apply kprint_refines; [apply screen_boot_ok|apply demo_shows]. Defined.

Lemma kprint_dec_correct_witness :
  kprint_dec screen_boot 4294967295 = fold_left kprint_char (dec_digits 4294967295) screen_boot /\
  read_dec (dec_digits 4294967295) = 4294967295 /\ Forall digit (dec_digits 4294967295) /\
  (4294967295 <> 0 -> cur (dec_digits 4294967295) <> 48) /\ (length (dec_digits 4294967295) <= 10)%nat.
Proof. apply kprint_dec_correct. lia. Defined.

Lemma kprint_hex_correct_witness :
  kprint_hex screen_boot 0xB8000 = kprint screen_boot (lit "0x" ++ hex_digits 0xB8000) /\
  read_hex (hex_digits 0xB8000) = 0xB8000 /\ length (hex_digits 0xB8000) = 8%nat.
Proof. apply kprint_hex_correct. lia. Defined.
