(* ===== verification/Pmm.v ===== *)
(** * Physical memory manager (kernel/pmm.c)

    The frame allocator: one bit and one reference count per 4 KB frame of the
    pool that starts at [MANAGED_BASE].  The state record mirrors the static
    variables of pmm.c; each function of the file is one definition.  The
    theorems show that the bitmap, the counts, [used_frames] and the search
    hint stay consistent, that an allocation is always the lowest free frame,
    and that the whole component implements the abstract "owners per frame"
    specification on which copy-on-write rests. *)

From stdpp Require Import base gmap list numbers option.
From Stdlib Require Import ZArith Lia Bool.
From S2P Require Import Prelude.

Definition PAGE_SIZE : Z := 4096.
Definition MANAGED_BASE : Z := 0x00400000.
Definition MAX_FRAMES : Z := 32768.

(** The static state of pmm.c. *)
Record pmm := mk_pmm {
  bitmap : arr;
  refcount : arr;
  total_frames : Z;
  used_frames : Z;
  next_hint : Z
}.

(** ** The bitmap *)

Definition bit_set (bm : arr) (i : Z) : arr :=
  aset bm (Z.shiftr i 5)
       (Z.lor (aget bm (Z.shiftr i 5)) (Z.shiftl 1 (Z.land i 31))).

Definition bit_clear (bm : arr) (i : Z) : arr :=
  aset bm (Z.shiftr i 5)
       (Z.land (aget bm (Z.shiftr i 5)) (u32 (Z.lnot (Z.shiftl 1 (Z.land i 31))))).

Definition bit_test (bm : arr) (i : Z) : bool :=
  tst (Z.shiftr (aget bm (Z.shiftr i 5)) (Z.land i 31)) 1.

(** ** The operations *)

Definition pmm_install (mem_bytes : Z) : pmm :=
  if mem_bytes <=? MANAGED_BASE then mk_pmm ∅ ∅ 0 0 0
  else
    let frames := (mem_bytes - MANAGED_BASE) / PAGE_SIZE in
    mk_pmm ∅ ∅ (if MAX_FRAMES <? frames then MAX_FRAMES else frames) 0 0.

(** The body of the search loop for a clear bit [i]. *)
Definition pmm_take (s : pmm) (i : Z) : pmm :=
  mk_pmm (bit_set (bitmap s) i) (aset (refcount s) i 1) (total_frames s)
         (u32 (used_frames s + 1)) (u32 (i + 1)).

Definition pmm_alloc (s : pmm) : pmm * Z :=
  if total_frames s =? 0 then (s, 0)
  else
    match
      for_range_ret 0 2 (fun pass s =>
        let start := if pass =? 0 then next_hint s else 0 in
        let stop := if pass =? 0 then total_frames s else next_hint s in
        match find_range start stop (fun i => negb (bit_test (bitmap s) i)) with
        | Some i => (pmm_take s i, Some (u32 (MANAGED_BASE + i * PAGE_SIZE)))
        | None => (s, None)
        end) s
    with
    | (s', Some addr) => (s', addr)
    | (s', None) => (s', 0)
    end.

Definition frame_index (phys : Z) : Z := (phys - MANAGED_BASE) / PAGE_SIZE.

Definition pmm_free (s : pmm) (phys : Z) : pmm :=
  if phys <? MANAGED_BASE then s
  else
    let i := frame_index phys in
    if (total_frames s <=? i) || negb (bit_test (bitmap s) i) then s
    else if 1 <? aget (refcount s) i then
      mk_pmm (bitmap s) (aset (refcount s) i (u8 (aget (refcount s) i - 1)))
             (total_frames s) (used_frames s) (next_hint s)
    else
      mk_pmm (bit_clear (bitmap s) i) (aset (refcount s) i 0) (total_frames s)
             (u32 (used_frames s - 1))
             (if i <? next_hint s then i else next_hint s).

Definition pmm_incref (s : pmm) (phys : Z) : pmm :=
  if phys <? MANAGED_BASE then s
  else
    let i := frame_index phys in
    if (i <? total_frames s) && bit_test (bitmap s) i && (aget (refcount s) i <? 255)
    then mk_pmm (bitmap s) (aset (refcount s) i (u8 (aget (refcount s) i + 1)))
                (total_frames s) (used_frames s) (next_hint s)
    else s.

Definition pmm_refcount (s : pmm) (phys : Z) : Z :=
  if phys <? MANAGED_BASE then 0
  else if frame_index phys <? total_frames s then aget (refcount s) (frame_index phys)
  else 0.

Definition pmm_total_frames (s : pmm) : Z := total_frames s.
Definition pmm_used_frames (s : pmm) : Z := used_frames s.
Definition pmm_free_frames (s : pmm) : Z := u32 (total_frames s - used_frames s).

(** ** Invariant *)

(** [next_hint] never passes a free frame, every used frame has between 1 and
    255 owners, a free one has none, and [used_frames] counts the set bits. *)
Record pmm_wf (s : pmm) : Prop := {
  wf_total : 0 <= total_frames s <= MAX_FRAMES;
  wf_hint : 0 <= next_hint s <= total_frames s;
  wf_below : forall i, 0 <= i < next_hint s -> bit_test (bitmap s) i = true;
  wf_count : forall i, 0 <= i < total_frames s ->
    if bit_test (bitmap s) i then 1 <= aget (refcount s) i <= 255
    else aget (refcount s) i = 0;
  wf_used : used_frames s = count_range 0 (total_frames s) (bit_test (bitmap s))
}.

(** The address of frame [i]; a frame of the pool. *)
Definition frame_addr (i : Z) : Z := MANAGED_BASE + i * PAGE_SIZE.
Definition pool_frame (s : pmm) (f : Z) : Prop :=
  exists i, 0 <= i < total_frames s /\ f = frame_addr i.

(** ** The abstract specification

    The pool as the rest of the kernel sees it: how many owners each frame
    has.  [owners s] is read off the concrete state; the abstract operations
    below say what each call does to it. *)

Definition owners (s : pmm) (f : Z) : Z := pmm_refcount s f.

(** One more owner, saturating at 255; a free frame gains none. *)
Definition gain (n : Z) : Z := if n =? 0 then 0 else Z.min 255 (n + 1).
(** One owner less. *)
Definition drop1 (n : Z) : Z := Z.max 0 (n - 1).

Fixpoint count_in (f : Z) (l : list Z) : Z :=
  match l with
  | [] => 0
  | x :: l' => (if x =? f then 1 else 0) + count_in f l'
  end.

Definition pmm_free_list (s : pmm) (l : list Z) : pmm := fold_left pmm_free l s.
Definition pmm_incref_list (s : pmm) (l : list Z) : pmm := fold_left pmm_incref l s.

(** ** Bitmap lemmas *)

Lemma bit_test_spec bm i :
  0 <= i -> bit_test bm i = Z.testbit (aget bm (i / 32)) (i mod 32).
Proof.
  intros. unfold bit_test. rewrite (tst_pow2 _ 0), Z.shiftr_spec by lia.
  rewrite Z.shiftr_div_pow2, (land_31 i) by lia. reflexivity.
Qed.

Lemma word_bit_inj i j : 0 <= i -> 0 <= j -> i / 32 = j / 32 -> i mod 32 = j mod 32 -> i = j.
Proof. intros. zdm. Qed.

(** Within one word, the mask of [i] covers bit [j] exactly when they are equal. *)
Lemma mask_bit i j :
  0 <= i -> 0 <= j -> i / 32 = j / 32 -> Z.testbit 1 (j mod 32 - i mod 32) = (i =? j).
Proof.
  intros Hi Hj E. destruct (Z.eqb_spec i j) as [->|N]; [rewrite Z.sub_diag; reflexivity|].
  destruct (Z.lt_ge_cases (j mod 32) (i mod 32)).
  - apply Z.testbit_neg_r. lia.
  - apply (Z.bits_above_log2 1); [lia|]. cbn.
    assert (i mod 32 <> j mod 32) by (intros ?; apply N, word_bit_inj; auto). lia.
Qed.

Lemma bit_test_set bm i j :
  0 <= i -> 0 <= j -> bit_test (bit_set bm i) j = (i =? j) || bit_test bm j.
Proof.
  intros Hi Hj. rewrite !bit_test_spec by assumption. unfold bit_set.
  rewrite aget_aset, Z.shiftr_div_pow2, land_31 by lia. change (2 ^ 5) with 32.
  destruct (Z.eqb_spec (i / 32) (j / 32)) as [E|N].
  - rewrite Z.lor_spec, Z.shiftl_spec, mask_bit, E by zdm. apply orb_comm.
  - destruct (Z.eqb_spec i j) as [->|]; [contradiction|reflexivity].
Qed.

Lemma bit_test_clear bm i j :
  0 <= i -> 0 <= j -> bit_test (bit_clear bm i) j = negb (i =? j) && bit_test bm j.
Proof.
  intros Hi Hj. rewrite !bit_test_spec by assumption. unfold bit_clear.
  rewrite aget_aset, Z.shiftr_div_pow2, land_31 by lia. change (2 ^ 5) with 32.
  destruct (Z.eqb_spec (i / 32) (j / 32)) as [E|N].
  - rewrite Z.land_spec. unfold u32. change 0x100000000 with (2 ^ 32).
    rewrite Z.mod_pow2_bits_low, Z.lnot_spec, Z.shiftl_spec, mask_bit, E by zdm.
    apply andb_comm.
  - destruct (Z.eqb_spec i j) as [->|]; [contradiction|reflexivity].
Qed.

Lemma bit_test_empty i : bit_test ∅ i = false.
Proof. unfold bit_test. rewrite aget_empty, Z.shiftr_0_l. reflexivity. Qed.

(** ** Frames and addresses *)

(** Two addresses of the pool that lie in the same frame. *)
Definition same_frame (p g : Z) : bool :=
  (MANAGED_BASE <=? p) && (MANAGED_BASE <=? g) && (frame_index p =? frame_index g).

Lemma frame_index_addr i : frame_index (frame_addr i) = i.
Proof. unfold frame_index, frame_addr, PAGE_SIZE. zdm. Qed.

Lemma frame_index_nonneg p : MANAGED_BASE <= p -> 0 <= frame_index p.
Proof. unfold frame_index, PAGE_SIZE. intros. zdm. Qed.

Lemma frame_addr_base i : 0 <= i -> MANAGED_BASE <= frame_addr i.
Proof. unfold frame_addr, PAGE_SIZE. lia. Qed.

Lemma frame_addr_page i : frame_addr i mod 4096 = 0.
Proof. unfold frame_addr, MANAGED_BASE, PAGE_SIZE. zdm. Qed.

Lemma same_frame_aligned p g :
  p mod 4096 = 0 -> g mod 4096 = 0 -> MANAGED_BASE <= g -> same_frame p g = (p =? g).
Proof.
  intros Hp Hg Hb. unfold same_frame, frame_index, PAGE_SIZE, MANAGED_BASE in *.
  zcase; try reflexivity; exfalso; zdm.
Qed.

(** Every address of a live pool is a 32-bit value above the kernel's 4 MB. *)
Lemma pool_frame_range s f :
  pmm_wf s -> pool_frame s f ->
  MANAGED_BASE <= f /\ f + PAGE_SIZE <= 0x8400000 /\ f mod 4096 = 0.
Proof.
  intros W (i & Hi & ->). pose proof (wf_total s W). pose proof (frame_addr_page i).
  unfold frame_addr, MANAGED_BASE, MAX_FRAMES, PAGE_SIZE in *. lia.
Qed.

Lemma owners_range s f : pmm_wf s -> 0 <= owners s f <= 255.
Proof.
  intros W. unfold owners, pmm_refcount. zcase; try lia.
  pose proof (wf_count s W (frame_index f)) as H1.
  pose proof (frame_index_nonneg f ltac:(assumption)).
  specialize (H1 ltac:(lia)). destruct (bit_test _ _); lia.
Qed.

Lemma owners_bit s i :
  pmm_wf s -> 0 <= i < total_frames s ->
  bit_test (bitmap s) i = (0 <? owners s (frame_addr i)).
Proof.
  intros W Hi. unfold owners, pmm_refcount. rewrite frame_index_addr.
  pose proof (frame_addr_base i ltac:(lia)). pose proof (wf_count s W i Hi) as H1.
  destruct (bit_test (bitmap s) i); zcase; auto; lia.
Qed.

(** [used_frames] is the number of frames with an owner. *)
Lemma used_frames_owners s :
  pmm_wf s ->
  used_frames s = count_range 0 (total_frames s) (fun i => 0 <? owners s (frame_addr i)).
Proof.
  intros W. rewrite (wf_used s W). apply count_range_ext. intros. apply owners_bit; auto.
Qed.

Lemma owners_pos_pool s f :
  pmm_wf s -> f mod 4096 = 0 -> 0 < owners s f -> pool_frame s f.
Proof.
  unfold owners, pmm_refcount. intros W Hf. zcase; try lia. intros _.
  exists (frame_index f). pose proof (frame_index_nonneg f ltac:(assumption)).
  split; [lia|]. unfold frame_addr, frame_index, MANAGED_BASE, PAGE_SIZE in *. zdm.
Qed.

(** ** The operations on the invariant and on the owners *)

Lemma pmm_install_wf n : 0 <= n -> pmm_wf (pmm_install n).
Proof.
  intros Hn. unfold pmm_install, MANAGED_BASE, PAGE_SIZE, MAX_FRAMES.
  zcase; constructor; unfold MAX_FRAMES; simpl; try zdm; try (intros; lia);
    intros; rewrite ?bit_test_empty, ?aget_empty; try reflexivity;
    rewrite count_range_none; auto using bit_test_empty.
Qed.

Lemma pmm_take_wf s i :
  pmm_wf s -> 0 <= i < total_frames s -> bit_test (bitmap s) i = false ->
  (forall j, 0 <= j < i -> bit_test (bitmap s) j = true) -> pmm_wf (pmm_take s i).
Proof.
  intros W Hi Hf Hb. pose proof (wf_total s W) as Ht. unfold MAX_FRAMES in Ht.
  pose proof (count_range_bounds (total_frames s) (bit_test (bitmap s)) 0) as Hc.
  rewrite <- (wf_used s W) in Hc. unfold pmm_take.
  rewrite !u32_small by lia.
  constructor; simpl; [exact (wf_total s W)|lia| | |].
  - intros j Hj. rewrite bit_test_set by lia. destruct (Z.eqb_spec i j); [reflexivity|].
    apply Hb. lia.
  - intros j Hj. rewrite bit_test_set, aget_aset by lia.
    destruct (Z.eqb_spec i j); simpl; [lia|]. apply (wf_count s W j Hj).
  - rewrite (count_range_upd _ (bit_test (bitmap s)) _ i 0) by
      (lia || (intros j ??; rewrite bit_test_set by lia; destruct (Z.eqb_spec i j); simpl; congruence)).
    rewrite Hf, bit_test_set, Z.eqb_refl, (wf_used s W) by lia. simpl. lia.
Qed.

(** The two-pass search equals a plain first-fit search of the whole bitmap. *)
Lemma pmm_alloc_eq s :
  pmm_wf s ->
  pmm_alloc s =
  match find_range 0 (total_frames s) (fun i => negb (bit_test (bitmap s) i)) with
  | Some i => (pmm_take s i, frame_addr i)
  | None => (s, 0)
  end.
Proof.
  intros W. pose proof (wf_hint s W) as Hh. pose proof (wf_total s W) as Ht.
  unfold MAX_FRAMES in Ht. unfold pmm_alloc.
  destruct (Z.eqb_spec (total_frames s) 0) as [E|N]; [rewrite E; reflexivity|].
  rewrite for_range_ret_step. cbn [Z.ltb Z.compare Z.eqb Z.add Pos.add].
  destruct (find_range (next_hint s) _ _) as [i|] eqn:E1.
  - pose proof (find_range_some _ _ _ _ E1) as (H1 & H2 & H3).
    rewrite (find_range_least 0 _ _ i); [|lia|assumption|].
    + f_equal. unfold frame_addr. apply u32_small. unfold MANAGED_BASE, PAGE_SIZE. lia.
    + intros j Hj. destruct (Z.lt_ge_cases j (next_hint s)); [|apply H3; lia].
      rewrite (wf_below s W) by lia. reflexivity.
  - rewrite for_range_ret_step. cbn [Z.ltb Z.compare Z.eqb Z.add Pos.add Pos.compare Pos.compare_cont].
    replace (find_range 0 (next_hint s) _) with (@None Z).
    2:{ symmetry. apply find_range_none_iff. intros j Hj.
        rewrite (wf_below s W) by lia. reflexivity. }
    rewrite for_range_ret_step. cbn [Z.ltb Z.compare Pos.compare Pos.compare_cont Pos.add Pos.succ].
    replace (find_range 0 (total_frames s) _) with (@None Z); [reflexivity|].
    symmetry. apply find_range_none_iff. intros j Hj.
    destruct (Z.lt_ge_cases j (next_hint s)).
    + rewrite (wf_below s W) by lia. reflexivity.
    + apply (find_range_none _ _ _ E1). lia.
Qed.

(** What an allocation does, in terms of owners. *)
Lemma pmm_alloc_cases s :
  pmm_wf s ->
  (pmm_alloc s = (s, 0) /\ forall f, pool_frame s f -> 0 < owners s f) \/
  (exists s' f, pmm_alloc s = (s', f) /\ pmm_wf s' /\ pool_frame s f /\ f <> 0 /\
     total_frames s' = total_frames s /\ used_frames s' = used_frames s + 1 /\
     owners s f = 0 /\
     (forall g, g mod 4096 = 0 -> owners s' g = if f =? g then 1 else owners s g) /\
     (forall g, pool_frame s g -> g < f -> 0 < owners s g)).
Proof.
  intros W. rewrite pmm_alloc_eq by assumption.
  pose proof (wf_total s W) as Ht. unfold MAX_FRAMES in Ht.
  destruct (find_range _ _ _) as [i|] eqn:E.
  - apply find_range_some in E. destruct E as (Hi & Hb & Hlt). right.
    apply negb_true_iff in Hb.
    assert (Hlt' : forall j, 0 <= j < i -> bit_test (bitmap s) j = true)
      by (intros; apply negb_false_iff, Hlt; assumption).
    exists (pmm_take s i), (frame_addr i). split; [reflexivity|].
    split; [apply pmm_take_wf; auto|]. split; [exists i; auto|].
    split; [unfold frame_addr, MANAGED_BASE, PAGE_SIZE; lia|]. split; [reflexivity|].
    pose proof (count_range_bounds (total_frames s) (bit_test (bitmap s)) 0) as Hc.
    rewrite <- (wf_used s W) in Hc.
    split; [simpl; apply u32_small; lia|].
    pose proof (owners_bit s i W Hi) as Ho. rewrite Hb in Ho.
    pose proof (owners_range s (frame_addr i) W).
    split; [symmetry in Ho; apply Z.ltb_ge in Ho; lia|]. split.
    + intros g Hg. unfold owners, pmm_refcount. simpl.
      pose proof (frame_addr_base i ltac:(lia)) as Hfb.
      destruct (Z.ltb_spec g MANAGED_BASE).
      { destruct (Z.eqb_spec (frame_addr i) g); [lia|reflexivity]. }
      rewrite <- same_frame_aligned by (auto using frame_addr_page).
      unfold same_frame. rewrite frame_index_addr, aget_aset.
      zcase; try lia; try reflexivity.
    + intros g (j & Hj & ->) Hg. pose proof (owners_bit s j W Hj) as Hoj.
      rewrite Hlt' in Hoj; [symmetry in Hoj; apply Z.ltb_lt in Hoj; assumption|].
      unfold frame_addr, PAGE_SIZE in *. lia.
  - left. split; [reflexivity|]. intros f (i & Hi & ->).
    pose proof (find_range_none _ _ _ E i ltac:(lia)) as H.
    apply negb_false_iff in H. rewrite owners_bit in H by assumption. apply Z.ltb_lt in H. exact H.
Qed.

(** A call on an address outside the pool, or on a free frame, does nothing. *)
Lemma pmm_free_noop s p : pmm_wf s -> owners s p = 0 -> pmm_free s p = s.
Proof.
  intros W H. unfold pmm_free. destruct (Z.ltb_spec p MANAGED_BASE); [reflexivity|].
  destruct (Z.leb_spec (total_frames s) (frame_index p)); [reflexivity|]. simpl.
  unfold owners, pmm_refcount in H.
  destruct (Z.ltb_spec p MANAGED_BASE); [lia|].
  destruct (Z.ltb_spec (frame_index p) (total_frames s)); [|lia].
  pose proof (frame_index_nonneg p ltac:(lia)).
  pose proof (wf_count s W (frame_index p) ltac:(lia)) as Hc.
  destruct (bit_test _ _); [lia|reflexivity].
Qed.

(** The index of an address with owners. *)
Lemma owners_index s p :
  pmm_wf s -> 0 < owners s p ->
  MANAGED_BASE <= p /\ 0 <= frame_index p < total_frames s /\
  bit_test (bitmap s) (frame_index p) = true /\ aget (refcount s) (frame_index p) = owners s p.
Proof.
  intros W H. unfold owners, pmm_refcount in *.
  destruct (Z.ltb_spec p MANAGED_BASE); [lia|].
  destruct (Z.ltb_spec (frame_index p) (total_frames s)); [|lia].
  pose proof (frame_index_nonneg p ltac:(assumption)).
  pose proof (wf_count s W (frame_index p) ltac:(lia)) as Hc.
  repeat split; auto; try lia. destruct (bit_test _ _); [reflexivity|lia].
Qed.

Lemma pmm_free_wf s p : pmm_wf s -> pmm_wf (pmm_free s p).
Proof.
  intros W. pose proof (owners_range s p W) as Hr.
  destruct (Z.eq_dec (owners s p) 0) as [E|N]; [rewrite pmm_free_noop; auto|].
  destruct (owners_index s p W ltac:(lia)) as (Hb & Hi & Ht & Ho).
  unfold pmm_free. destruct (Z.ltb_spec p MANAGED_BASE); [lia|].
  destruct (Z.leb_spec (total_frames s) (frame_index p)); [lia|]. rewrite Ht. simpl.
  set (i := frame_index p) in *. destruct (Z.ltb_spec 1 (aget (refcount s) i)).
  - rewrite u8_small by lia. destruct W as [W1 W2 W3 W4 W5]. constructor; simpl; auto.
    intros j Hj. specialize (W4 j Hj). rewrite aget_aset.
    destruct (Z.eqb_spec i j) as [<-|]; [rewrite Ht|assumption]. lia.
  - pose proof (count_range_bounds (total_frames s) (bit_test (bitmap s)) 0) as Hc.
    pose proof (count_range_upd (total_frames s) (bit_test (bitmap s))
      (bit_test (bit_clear (bitmap s) i)) i 0 Hi) as Hu.
    rewrite Ht, bit_test_clear, Z.eqb_refl in Hu by lia. simpl in Hu.
    pose proof (count_range_bounds (total_frames s) (bit_test (bit_clear (bitmap s) i)) 0) as Hc'.
    destruct W as [W1 W2 W3 W4 W5]. unfold MAX_FRAMES in *.
    assert (Hne : forall j, 0 <= j < total_frames s -> j <> i ->
              bit_test (bitmap s) j = bit_test (bit_clear (bitmap s) i) j).
    { intros j Hj Hji. rewrite bit_test_clear by lia. destruct (Z.eqb_spec i j); [congruence|reflexivity]. }
    specialize (Hu Hne). constructor; simpl; auto.
    + destruct (Z.ltb_spec i (next_hint s)); lia.
    + intros j Hj. rewrite <- Hne; destruct (Z.ltb_spec i (next_hint s)); try lia; apply W3; lia.
    + intros j Hj. rewrite aget_aset. destruct (Z.eqb_spec i j) as [<-|].
      * rewrite bit_test_clear, Z.eqb_refl by lia. reflexivity.
      * rewrite <- Hne by lia. apply W4. assumption.
    + rewrite u32_small; lia.
Qed.

Lemma pmm_free_total s p : total_frames (pmm_free s p) = total_frames s.
Proof. unfold pmm_free. repeat (case_match; simpl); reflexivity. Qed.

Lemma pmm_incref_total s p : total_frames (pmm_incref s p) = total_frames s.
Proof. unfold pmm_incref. repeat (case_match; simpl); reflexivity. Qed.

Lemma owners_same_frame s p g : same_frame p g = true -> owners s p = owners s g.
Proof.
  unfold same_frame, owners, pmm_refcount. intros E. b2p. zcase; try lia; congruence.
Qed.

Lemma owners_free s p g :
  pmm_wf s -> owners (pmm_free s p) g = if same_frame p g then drop1 (owners s g) else owners s g.
Proof.
  intros W. pose proof (owners_range s p W) as Hr.
  destruct (Z.eq_dec (owners s p) 0) as [E|N].
  - rewrite pmm_free_noop by assumption. destruct (same_frame p g) eqn:Es; [|reflexivity].
    rewrite <- (owners_same_frame s p g Es), E. reflexivity.
  - destruct (owners_index s p W ltac:(lia)) as (Hb & Hi & Ht & Ho).
    unfold pmm_free. destruct (Z.ltb_spec p MANAGED_BASE); [lia|].
    destruct (Z.leb_spec (total_frames s) (frame_index p)); [lia|]. rewrite Ht. simpl.
    unfold same_frame. destruct (Z.leb_spec MANAGED_BASE p); [|lia]. simpl.
    assert (Hu : 0 < aget (refcount s) (frame_index p) <= 255) by lia.
    unfold owners, pmm_refcount in Ho |- *. unfold drop1.
    destruct (Z.ltb_spec 1 (aget (refcount s) (frame_index p))) as [Hgt|Hle]; simpl; rewrite aget_aset.
    + rewrite u8_small by lia.
      destruct (Z.leb_spec MANAGED_BASE g); simpl; zcase; try lia; rewrite <- ?e in *; try lia.
    + destruct (Z.leb_spec MANAGED_BASE g); simpl; zcase; try lia; rewrite <- ?e in *; try lia.
Qed.

Lemma pmm_incref_wf s p : pmm_wf s -> pmm_wf (pmm_incref s p).
Proof.
  intros W. unfold pmm_incref. destruct (Z.ltb_spec p MANAGED_BASE); [assumption|].
  destruct (_ && _ && _)%bool eqn:E; [|assumption].
  apply andb_true_iff in E as [[E1 E2]%andb_true_iff E3]. b2p.
  pose proof (frame_index_nonneg p ltac:(lia)).
  destruct W as [W1 W2 W3 W4 W5]. constructor; simpl; auto.
  intros j Hj. specialize (W4 j Hj). rewrite aget_aset.
  destruct (Z.eqb_spec (frame_index p) j) as [<-|]; [|assumption].
  rewrite E2 in *. rewrite u8_small; lia.
Qed.

Lemma owners_incref s p g :
  pmm_wf s -> owners (pmm_incref s p) g = if same_frame p g then gain (owners s g) else owners s g.
Proof.
  intros W. pose proof (owners_range s p W) as Hr.
  destruct (Z.eq_dec (owners s p) 0) as [E|N].
  - replace (pmm_incref s p) with s.
    + destruct (same_frame p g) eqn:Es; [|reflexivity].
      rewrite <- (owners_same_frame s p g Es), E. reflexivity.
    + unfold pmm_incref. unfold owners, pmm_refcount in E.
      destruct (Z.ltb_spec p MANAGED_BASE); [reflexivity|].
      destruct (Z.ltb_spec (frame_index p) (total_frames s)); [|reflexivity]. simpl.
      pose proof (frame_index_nonneg p ltac:(lia)).
      pose proof (wf_count s W (frame_index p) ltac:(lia)) as Hc.
      destruct (bit_test _ _); [lia|reflexivity].
  - destruct (owners_index s p W ltac:(lia)) as (Hb & Hi & Ht & Ho).
    unfold pmm_incref, gain. destruct (Z.ltb_spec p MANAGED_BASE); [lia|].
    destruct (Z.ltb_spec (frame_index p) (total_frames s)); [|lia]. rewrite Ht. simpl.
    destruct (Z.ltb_spec (aget (refcount s) (frame_index p)) 255) as [Hlt|Hge].
    + assert (Es : forall x, owners (mk_pmm (bitmap s) (aset (refcount s) (frame_index p) x)
        (total_frames s) (used_frames s) (next_hint s)) g
        = if same_frame p g then x else owners s g).
      { intros x. unfold same_frame, owners, pmm_refcount. simpl. rewrite aget_aset.
        destruct (Z.leb_spec MANAGED_BASE p); [|lia]. simpl.
        destruct (Z.leb_spec MANAGED_BASE g); simpl; zcase; lia. }
      rewrite Es. destruct (same_frame p g) eqn:Ef; [|reflexivity].
      rewrite <- (owners_same_frame s p g Ef). rewrite Ho in *. rewrite u8_small by lia.
      zcase; lia.
    + destruct (same_frame p g) eqn:Ef; [|reflexivity].
      rewrite <- (owners_same_frame s p g Ef). zcase; lia.
Qed.

#[export] Hint Resolve pmm_free_wf pmm_incref_wf pmm_install_wf : pyro.

Lemma owners_below s f : f < MANAGED_BASE -> owners s f = 0.
Proof. intros. unfold owners, pmm_refcount. zcase; lia. Qed.

Lemma count_in_nonneg f l : 0 <= count_in f l.
Proof. induction l; simpl; zcase; lia. Qed.

(** Releasing a list of references: every mention of a frame takes one owner. *)
Lemma owners_free_list l : forall s f,
  pmm_wf s -> f mod 4096 = 0 -> Forall (fun x => x mod 4096 = 0) l ->
  owners (pmm_free_list s l) f = Z.max 0 (owners s f - count_in f l).
Proof.
  unfold pmm_free_list. induction l as [|x l IH]; intros s f W Hf Hl; simpl.
  - pose proof (owners_range s f W). lia.
  - inversion Hl; subst. rewrite IH, owners_free by auto with pyro.
    pose proof (count_in_nonneg f l).
    destruct (Z.lt_ge_cases f MANAGED_BASE) as [Hlt|].
    { rewrite (owners_below s f Hlt). unfold drop1.
      destruct (same_frame x f); zcase; lia. }
    rewrite same_frame_aligned by auto. unfold drop1. zcase; lia.
Qed.

(** Adding a list of references. *)
Lemma owners_incref_list l : forall s f,
  pmm_wf s -> f mod 4096 = 0 -> Forall (fun x => x mod 4096 = 0) l ->
  owners (pmm_incref_list s l) f
  = if owners s f =? 0 then 0 else Z.min 255 (owners s f + count_in f l).
Proof.
  unfold pmm_incref_list. induction l as [|x l IH]; intros s f W Hf Hl; simpl.
  - pose proof (owners_range s f W). zcase; lia.
  - inversion Hl; subst. rewrite IH, owners_incref by auto with pyro.
    destruct (Z.lt_ge_cases f MANAGED_BASE) as [Hlt|].
    { rewrite (owners_below s f Hlt). destruct (same_frame x f); reflexivity. }
    rewrite same_frame_aligned by auto. unfold gain. pose proof (owners_range s f W).
    pose proof (count_in_nonneg f l).
    zcase; lia.
Qed.

Lemma pmm_free_list_wf l : forall s, pmm_wf s -> pmm_wf (pmm_free_list s l).
Proof. unfold pmm_free_list. induction l; simpl; auto with pyro. Qed.

Lemma pmm_incref_list_wf l : forall s, pmm_wf s -> pmm_wf (pmm_incref_list s l).
Proof. unfold pmm_incref_list. induction l; simpl; auto with pyro. Qed.

Lemma pmm_free_list_total l : forall s, total_frames (pmm_free_list s l) = total_frames s.
Proof.
  unfold pmm_free_list. induction l as [|x l IH]; intros; simpl; [reflexivity|].
  rewrite IH. apply pmm_free_total.
Qed.

Lemma pmm_incref_list_total l : forall s, total_frames (pmm_incref_list s l) = total_frames s.
Proof.
  unfold pmm_incref_list. induction l as [|x l IH]; intros; simpl; [reflexivity|].
  rewrite IH. apply pmm_incref_total.
Qed.

#[export] Hint Resolve pmm_free_list_wf pmm_incref_list_wf : pyro.
#[export] Hint Rewrite pmm_free_total pmm_incref_total pmm_free_list_total
  pmm_incref_list_total : pyro.

Lemma count_in_app f l1 l2 : count_in f (l1 ++ l2) = count_in f l1 + count_in f l2.
Proof. induction l1; simpl; lia. Qed.

(** Adding references changes no [used_frames]. *)
Lemma pmm_incref_used s p : used_frames (pmm_incref s p) = used_frames s.
Proof. unfold pmm_incref. repeat (case_match; simpl); reflexivity. Qed.

Lemma pmm_incref_list_used l : forall s, used_frames (pmm_incref_list s l) = used_frames s.
Proof.
  unfold pmm_incref_list. induction l as [|x l IH]; intros; simpl; [reflexivity|].
  rewrite IH. apply pmm_incref_used.
Qed.

(** Two consistent states with the same owners count the same used frames. *)
Lemma used_frames_ext s s' :
  pmm_wf s -> pmm_wf s' -> total_frames s' = total_frames s ->
  (forall f, pool_frame s f -> owners s' f = owners s f) -> used_frames s' = used_frames s.
Proof.
  intros W W' Ht H. rewrite !used_frames_owners, Ht by assumption.
  apply count_range_ext. intros i Hi. rewrite H; [reflexivity|]. exists i. auto.
Qed.

(** ** The abstract machine and the properties *)

Inductive pmm_call := Alloc | Free (p : Z) | Incref (p : Z).

Definition pmm_step (s : pmm) (c : pmm_call) : pmm * Z :=
  match c with
  | Alloc => pmm_alloc s
  | Free p => (pmm_free s p, 0)
  | Incref p => (pmm_incref s p, 0)
  end.

Definition pmm_run (s : pmm) (cs : list pmm_call) : pmm :=
  fold_left (fun s c => fst (pmm_step s c)) cs s.

(** The specification: a pool of [n] frames, a number of owners for each. *)
Inductive pool_step (n : Z) (o : Z -> Z) : pmm_call -> Z -> (Z -> Z) -> Prop :=
| pool_alloc i o' :
    0 <= i < n -> o (frame_addr i) = 0 ->
    (forall j, 0 <= j < i -> 0 < o (frame_addr j)) ->
    (forall f, f mod 4096 = 0 -> o' f = if frame_addr i =? f then 1 else o f) ->
    pool_step n o Alloc (frame_addr i) o'
| pool_full :
    (forall i, 0 <= i < n -> 0 < o (frame_addr i)) -> pool_step n o Alloc 0 o
| pool_free p o' :
    (forall f, o' f = if same_frame p f then drop1 (o f) else o f) ->
    pool_step n o (Free p) 0 o'
| pool_incref p o' :
    (forall f, o' f = if same_frame p f then gain (o f) else o f) ->
    pool_step n o (Incref p) 0 o'.

Lemma pmm_step_wf s c : pmm_wf s -> pmm_wf (fst (pmm_step s c)).
Proof.
  intros W. destruct c; simpl; auto with pyro.
  destruct (pmm_alloc_cases s W) as [[-> _]|(s' & f & -> & H & _)]; auto.
Qed.

(** C11. Whatever sequence of allocations, releases and reference increments
    follows [pmm_install], the bitmap, the reference counts, [used_frames] and
    [next_hint] stay consistent with one another. *)
Theorem pmm_invariant (n : Z) (cs : list pmm_call) :
  0 <= n -> pmm_wf (pmm_run (pmm_install n) cs).
Proof.
  intros Hn. unfold pmm_run. pose proof (pmm_install_wf n Hn) as W.
  revert W. generalize (pmm_install n). induction cs as [|c cs IH]; intros s W; simpl; auto.
  apply IH, pmm_step_wf, W.
Qed.

(** C12. The hint-driven two-pass search of [pmm_alloc] returns exactly what a
    plain scan for the first clear bit of the whole bitmap returns, and fails
    exactly when every frame is in use. *)
Theorem pmm_alloc_first_fit (s : pmm) :
  pmm_wf s ->
  pmm_alloc s =
  match find_range 0 (total_frames s) (fun i => negb (bit_test (bitmap s) i)) with
  | Some i => (pmm_take s i, frame_addr i)
  | None => (s, 0)
  end.
Proof. apply pmm_alloc_eq. Qed.

(** C13. Refinement: every call of the concrete allocator is a step of the
    abstract pool of owner counts, and the invariant is kept. *)
Theorem pmm_refines (s : pmm) (c : pmm_call) :
  pmm_wf s ->
  pool_step (total_frames s) (owners s) c (snd (pmm_step s c)) (owners (fst (pmm_step s c)))
  /\ pmm_wf (fst (pmm_step s c)) /\ total_frames (fst (pmm_step s c)) = total_frames s.
Proof.
  intros W. destruct c as [|p|p]; simpl; autorewrite with pyro;
    [|split; [constructor; intros; apply owners_free|]; auto with pyro
     |split; [constructor; intros; apply owners_incref|]; auto with pyro].
  destruct (pmm_alloc_cases s W) as
    [[-> H]|(s' & f & -> & H1 & (i & Hi & ->) & _ & H3 & _ & H5 & H6 & H7)]; simpl.
  - split; [|auto]. apply pool_full. intros i Hi. apply H. exists i. auto.
  - split; [|auto]. apply pool_alloc; auto. intros j Hj. apply H7.
    + exists j. split; [lia|reflexivity].
    + unfold frame_addr, PAGE_SIZE. lia.
Qed.

(** A frame with [k] owners survives any [j < k] releases and is handed
    back by the [k]-th: freeing a copy-on-write child cannot reclaim a page
    another address space still maps. *)
Theorem shared_frame_released_last (s : pmm) (f : Z) (j : nat) :
  pmm_wf s -> f mod 4096 = 0 -> 0 < owners s f ->
  owners (pmm_free_list s (replicate j f)) f = Z.max 0 (owners s f - Z.of_nat j)
  /\ (Z.of_nat j < owners s f ->
      used_frames (pmm_free_list s (replicate j f)) = used_frames s)
  /\ (Z.of_nat j = owners s f ->
      used_frames (pmm_free_list s (replicate j f)) = used_frames s - 1).
Proof.
  intros W Hf Ho.
  assert (Hc : forall g, count_in g (replicate j f) = if f =? g then Z.of_nat j else 0).
  { intros g. induction j as [|j IH]; simpl replicate; simpl count_in; [zcase; lia|].
    rewrite IH. zcase; lia. }
  assert (Hall : Forall (fun x => x mod 4096 = 0) (replicate j f)) by (apply Forall_replicate; auto).
  assert (Hg : forall g, g mod 4096 = 0 -> owners (pmm_free_list s (replicate j f)) g
            = Z.max 0 (owners s g - (if f =? g then Z.of_nat j else 0))).
  { intros g Hg. rewrite owners_free_list, Hc by auto. reflexivity. }
  destruct (owners_pos_pool s f W Hf Ho) as (i & Hi & E).
  assert (Hu : used_frames (pmm_free_list s (replicate j f))
     = used_frames s - 1 + (if 0 <? owners s f - Z.of_nat j then 1 else 0)).
  { rewrite !used_frames_owners, pmm_free_list_total by auto with pyro.
    rewrite (count_range_upd _ (fun i => 0 <? owners s (frame_addr i)) _ i 0); [|lia|].
    - simpl. rewrite <- E, Hg, Z.eqb_refl by assumption. zcase; lia.
    - intros k Hk Hne. simpl. rewrite Hg by apply frame_addr_page.
      destruct (Z.eqb_spec f (frame_addr k)) as [F|]; [|rewrite Z.sub_0_r].
      + exfalso. apply Hne. rewrite E in F. unfold frame_addr, PAGE_SIZE in F. lia.
      + pose proof (owners_range s (frame_addr k) W). zcase; lia. }
  rewrite Hg, Z.eqb_refl, Hu by assumption. split; [reflexivity|]. split; intros; zcase; lia.
Qed.

(** ** An executable check of the invariant *)

Definition pmm_wfb (s : pmm) : bool :=
  (0 <=? total_frames s) && (total_frames s <=? MAX_FRAMES) &&
  (0 <=? next_hint s) && (next_hint s <=? total_frames s) &&
  forallb (bit_test (bitmap s)) (seqZ 0 (next_hint s)) &&
  forallb (fun i => if bit_test (bitmap s) i
                    then (1 <=? aget (refcount s) i) && (aget (refcount s) i <=? 255)
                    else aget (refcount s) i =? 0) (seqZ 0 (total_frames s)) &&
  (used_frames s =? count_range 0 (total_frames s) (bit_test (bitmap s))).

Lemma pmm_wfb_sound s : pmm_wfb s = true -> pmm_wf s.
Proof.
  unfold pmm_wfb. intros H. repeat (apply andb_true_iff in H; destruct H as [H ?]).
  b2p. rewrite forallb_seqZ in H1, H2. constructor; auto.
  intros i Hi. specialize (H1 i Hi). simpl in H1. destruct (bit_test (bitmap s) i); b2p; lia.
Qed.

(** ** A pool of four frames *)

Definition demo_pmm : pmm :=
  pmm_run (pmm_install 0x404000) [Alloc; Alloc; Alloc; Incref 0x401000; Free 0x400000].

Lemma demo_pmm_wf : pmm_wf demo_pmm.
Proof. apply pmm_wfb_sound. vm_compute. reflexivity. Qed.

Lemma pmm_invariant_witness :
  pmm_wf (pmm_run (pmm_install 0x404000) [Alloc; Alloc; Free 0x400000; Alloc; Incref 0x401000]).
Proof. apply pmm_invariant. lia. Defined.

Lemma pmm_alloc_first_fit_witness :
  pmm_alloc demo_pmm =
  match find_range 0 (total_frames demo_pmm) (fun i => negb (bit_test (bitmap demo_pmm) i)) with
  | Some i => (pmm_take demo_pmm i, frame_addr i)
  | None => (demo_pmm, 0)
  end.
Proof. apply pmm_alloc_first_fit. apply demo_pmm_wf. Defined.

Lemma pmm_refines_witness :
  pool_step (total_frames demo_pmm) (owners demo_pmm) Alloc (snd (pmm_step demo_pmm Alloc))
    (owners (fst (pmm_step demo_pmm Alloc)))
  /\ pmm_wf (fst (pmm_step demo_pmm Alloc))
  /\ total_frames (fst (pmm_step demo_pmm Alloc)) = total_frames demo_pmm.
Proof. apply pmm_refines. apply demo_pmm_wf. Defined.

Lemma shared_frame_released_last_witness :
  owners (pmm_free_list demo_pmm (replicate 2 0x401000)) 0x401000
    = Z.max 0 (owners demo_pmm 0x401000 - Z.of_nat 2)
  /\ (Z.of_nat 2 < owners demo_pmm 0x401000 ->
      used_frames (pmm_free_list demo_pmm (replicate 2 0x401000)) = used_frames demo_pmm)
  /\ (Z.of_nat 2 = owners demo_pmm 0x401000 ->
      used_frames (pmm_free_list demo_pmm (replicate 2 0x401000)) = used_frames demo_pmm - 1).
Proof.
  apply shared_frame_released_last; [apply demo_pmm_wf|reflexivity|vm_compute; reflexivity].
Defined.
