(* ===== verification/Vmm.v ===== *)
(** * Virtual memory manager (kernel/vmm.c): the code

    Page directories and page tables are words of physical memory, reached
    through the identity map exactly as the kernel reaches them.  The machine
    state is that memory, the frame allocator, the CR3 register, the kernel
    directory recorded by [vmm_install], and a log of the privileged
    instructions ([invlpg] and CR3 loads) in the order they are executed. *)

From stdpp Require Import base gmap list numbers option.
From Stdlib Require Import ZArith Lia Bool.
From S2P Require Import Prelude CString Pmm.

Definition PF_PRESENT : Z := 0x1.
Definition PF_RW : Z := 0x2.
Definition PF_USER : Z := 0x4.
Definition PF_COW : Z := 0x200.

Definition DIR_INDEX (v : Z) : Z := Z.land (Z.shiftr v 22) 0x3FF.
Definition TAB_INDEX (v : Z) : Z := Z.land (Z.shiftr v 12) 0x3FF.
Definition FRAME_OF (e : Z) : Z := Z.land e 0xFFFFF000.

(** Privileged instructions that act on the TLB. *)
Inductive tlb_event :=
| Invlpg (virt : Z)
| LoadCr3 (dir : Z).

Record machine := mk_machine {
  ram : mem;
  frames : pmm;
  cr3 : Z;
  kernel_dir : Z;
  tlb_log : list tlb_event
}.

Definition with_ram (st : machine) (m : mem) : machine :=
  mk_machine m (frames st) (cr3 st) (kernel_dir st) (tlb_log st).
Definition with_frames (st : machine) (p : pmm) : machine :=
  mk_machine (ram st) p (cr3 st) (kernel_dir st) (tlb_log st).

(** [dir[i]] and [dir[i] = v] for a table of 1024 words at [base]. *)
Definition entry (m : mem) (base i : Z) : Z := ld32 m (base + 4 * i).
Definition set_entry (m : mem) (base i v : Z) : mem := st32 m (base + 4 * i) v.

(** [pmm_alloc] on the machine. *)
Definition alloc (st : machine) : machine * Z :=
  let '(p, f) := pmm_alloc (frames st) in (with_frames st p, f).

Definition vmm_install (st : machine) (boot_dir : Z) : machine :=
  mk_machine (ram st) (frames st) (cr3 st) boot_dir (tlb_log st).

Definition vmm_kernel_dir (st : machine) : Z := kernel_dir st.

Definition vmm_flush (st : machine) (virt : Z) : machine :=
  mk_machine (ram st) (frames st) (cr3 st) (kernel_dir st) (Invlpg virt :: tlb_log st).

Definition vmm_switch (st : machine) (dir : Z) : machine :=
  mk_machine (ram st) (frames st) dir (kernel_dir st) (LoadCr3 dir :: tlb_log st).

Definition vmm_create_dir (st : machine) : machine * Z :=
  let '(st, phys) := alloc st in
  if phys =? 0 then (st, 0)
  else
    let dir := phys in
    let m := memset (ram st) dir 0 PAGE_SIZE in
    let m := set_entry m dir 0 (entry m (kernel_dir st) 0) in
    let m := set_entry m dir 1 (entry m (kernel_dir st) 1) in
    (with_ram st m, dir).

(** The page table of [virt], 0 when there is none (and none can be made). *)
Definition table_for (st : machine) (dir virt : Z) (create : bool) (flags : Z) : machine * Z :=
  let di := DIR_INDEX virt in
  if negb (tst (entry (ram st) dir di) PF_PRESENT) then
    if negb create then (st, 0)
    else
      let '(st, phys) := alloc st in
      if phys =? 0 then (st, 0)
      else
        let m := memset (ram st) phys 0 PAGE_SIZE in
        let m := set_entry m dir di
                   (Z.lor (Z.lor (Z.lor phys PF_PRESENT) PF_RW) (Z.land flags PF_USER)) in
        (with_ram st m, FRAME_OF (entry m dir di))
  else (st, FRAME_OF (entry (ram st) dir di)).

Definition vmm_map (st : machine) (dir virt phys flags : Z) : machine * Z :=
  let '(st, tab) := table_for st dir virt true flags in
  if tab =? 0 then (st, -1)
  else
    let m := set_entry (ram st) tab (TAB_INDEX virt)
               (Z.lor (Z.lor (FRAME_OF phys) (Z.land flags 0xFFF)) PF_PRESENT) in
    (vmm_flush (with_ram st m) virt, 0).

Definition vmm_map_alloc (st : machine) (dir virt flags : Z) : machine * Z :=
  let '(st, phys) := alloc st in
  if phys =? 0 then (st, -1)
  else
    let st := with_ram st (memset (ram st) phys 0 PAGE_SIZE) in
    vmm_map st dir virt phys flags.

Definition vmm_translate (st : machine) (dir virt : Z) : Z :=
  let '(_, tab) := table_for st dir virt false 0 in
  if tab =? 0 then 0
  else
    let e := entry (ram st) tab (TAB_INDEX virt) in
    if negb (tst e PF_PRESENT) then 0
    else Z.lor (FRAME_OF e) (Z.land virt 0xFFF).

Definition vmm_unmap (st : machine) (dir virt : Z) : machine :=
  let '(st, tab) := table_for st dir virt false 0 in
  if tab =? 0 then st
  else
    let e := entry (ram st) tab (TAB_INDEX virt) in
    if tst e PF_PRESENT then
      let st := with_frames st (pmm_free (frames st) (FRAME_OF e)) in
      let st := with_ram st (set_entry (ram st) tab (TAB_INDEX virt) 0) in
      vmm_flush st virt
    else st.

(** The inner loop of [vmm_destroy_dir]: release every page of a table. *)
Definition free_table_pages (st : machine) (tab : Z) : machine :=
  for_range 0 1024 (fun ti st =>
    if tst (entry (ram st) tab ti) PF_PRESENT
    then with_frames st (pmm_free (frames st) (FRAME_OF (entry (ram st) tab ti)))
    else st) st.

Definition destroy_slot (dir : Z) (di : Z) (st : machine) : machine :=
  if negb (tst (entry (ram st) dir di) PF_PRESENT) then st
  else
    let tab := FRAME_OF (entry (ram st) dir di) in
    let st := free_table_pages st tab in
    let st := with_frames st (pmm_free (frames st) (FRAME_OF (entry (ram st) dir di))) in
    with_ram st (set_entry (ram st) dir di 0).

Definition vmm_destroy_dir (st : machine) (dir : Z) : machine :=
  if (dir =? 0) || (dir =? kernel_dir st) then st
  else
    let st := for_range 2 1024 (destroy_slot dir) st in
    with_frames st (pmm_free (frames st) dir).

(** The inner loop of [vmm_clone_dir] for one page: a fresh frame with the
    parent's bytes.  [Some 0] is the out-of-memory exit, taken after the
    half-built directory [dst] has been torn down. *)
Definition copy_entry (dst src_tab dst_tab ti : Z) (st : machine) : machine * option Z :=
  let e := entry (ram st) src_tab ti in
  if negb (tst e PF_PRESENT) then (st, None)
  else
    let '(st, frame) := alloc st in
    if frame =? 0 then (vmm_destroy_dir st dst, Some 0)
    else
      let m := memcpy (ram st) frame (FRAME_OF e) PAGE_SIZE in
      (with_ram st (set_entry m dst_tab ti (Z.lor frame (Z.land e 0xFFF))), None).

Definition copy_slot (src dst di : Z) (st : machine) : machine * option Z :=
  if negb (tst (entry (ram st) src di) PF_PRESENT) then (st, None)
  else
    let '(st, tab_phys) := alloc st in
    if tab_phys =? 0 then (vmm_destroy_dir st dst, Some 0)
    else
      let src_tab := FRAME_OF (entry (ram st) src di) in
      let m := memset (ram st) tab_phys 0 PAGE_SIZE in
      let m := set_entry m dst di (Z.lor tab_phys (Z.land (entry m src di) 0xFFF)) in
      for_range_ret 0 1024 (copy_entry dst src_tab tab_phys) (with_ram st m).

Definition vmm_clone_dir (st : machine) (src : Z) : machine * Z :=
  if src =? 0 then (st, 0)
  else
    let '(st, dst) := vmm_create_dir st in
    if dst =? 0 then (st, 0)
    else
      match for_range_ret 2 1024 (copy_slot src dst) st with
      | (st, Some r) => (st, r)
      | (st, None) => (st, dst)
      end.

Definition vmm_dir_frames (st : machine) (dir : Z) : Z :=
  if dir =? 0 then 0
  else
    for_range 2 1024 (fun di n =>
      if negb (tst (entry (ram st) dir di) PF_PRESENT) then n
      else
        for_range 0 1024 (fun ti n =>
          if tst (entry (ram st) (FRAME_OF (entry (ram st) dir di)) ti) PF_PRESENT
          then u32 (n + 1) else n) (u32 (n + 1))) 1.

(** [(e & ~PF_RW) | (e & PF_RW ? PF_COW : 0)] *)
Definition cow_shared (e : Z) : Z :=
  Z.lor (Z.land e (u32 (Z.lnot PF_RW))) (if tst e PF_RW then PF_COW else 0).

Definition share_entry (src_tab dst_tab ti : Z) (st : machine) : machine :=
  let e := entry (ram st) src_tab ti in
  if negb (tst e PF_PRESENT) then st
  else
    let frame := FRAME_OF e in
    let shared := cow_shared e in
    let m := set_entry (ram st) src_tab ti shared in
    let m := set_entry m dst_tab ti shared in
    with_frames (with_ram st m) (pmm_incref (frames st) frame).

Definition share_slot (src dst di : Z) (st : machine) : machine * option Z :=
  if negb (tst (entry (ram st) src di) PF_PRESENT) then (st, None)
  else
    let '(st, tab_phys) := alloc st in
    if tab_phys =? 0 then (vmm_destroy_dir st dst, Some 0)
    else
      let src_tab := FRAME_OF (entry (ram st) src di) in
      let m := memset (ram st) tab_phys 0 PAGE_SIZE in
      let m := set_entry m dst di (Z.lor tab_phys (Z.land (entry m src di) 0xFFF)) in
      (for_range 0 1024 (share_entry src_tab tab_phys) (with_ram st m), None).

Definition vmm_clone_cow (st : machine) (src : Z) : machine * Z :=
  if src =? 0 then (st, 0)
  else
    let '(st, dst) := vmm_create_dir st in
    if dst =? 0 then (st, 0)
    else
      match for_range_ret 2 1024 (share_slot src dst) st with
      | (st, Some r) => (st, r)
      | (st, None) => (st, dst)
      end.

Definition active_dir (st : machine) : Z := FRAME_OF (cr3 st).

Definition vmm_cow_handle (st : machine) (fault_addr err_code : Z) : machine * Z :=
  if negb (tst err_code 0x2) then (st, 0)
  else
    let dir := active_dir st in
    let di := DIR_INDEX fault_addr in
    if negb (tst (entry (ram st) dir di) PF_PRESENT) then (st, 0)
    else
      let tab := FRAME_OF (entry (ram st) dir di) in
      let ti := TAB_INDEX fault_addr in
      let e := entry (ram st) tab ti in
      if negb (tst e PF_PRESENT) || negb (tst e PF_COW) then (st, 0)
      else
        let frame := FRAME_OF e in
        let flags := Z.lor (Z.land (Z.land e 0xFFF) (u32 (Z.lnot PF_COW))) PF_RW in
        if pmm_refcount (frames st) frame <=? 1 then
          let st := with_ram st (set_entry (ram st) tab ti (Z.lor frame flags)) in
          (vmm_flush st fault_addr, 1)
        else
          let '(st, fresh) := alloc st in
          if fresh =? 0 then (st, 0)
          else
            let st := with_ram st (memcpy (ram st) fresh frame PAGE_SIZE) in
            let st := with_frames st (pmm_free (frames st) frame) in
            let st := with_ram st (set_entry (ram st) tab ti (Z.lor fresh flags)) in
            (vmm_flush st fault_addr, 1).
