(* ===== verification/VmmLemmas.v ===== *)
(** * Virtual memory manager: page-table entries, pages and frames

    The arithmetic of page-table words (address part, flag part), reads and
    writes of whole pages and of table entries, and what an allocation leaves
    alone.  The theorems about the operations of vmm.c are in [VmmSpec]. *)

From stdpp Require Import base gmap list numbers option.
From Stdlib Require Import ZArith Lia Bool.
From S2P Require Import Prelude CString Pmm Vmm.

(** Reduce the projections of an updated machine, and nothing else. *)
Ltac mcbn := cbn [frames ram cr3 kernel_dir tlb_log with_ram with_frames vmm_flush vmm_switch].

(** The flag constants are small. *)
Ltac flagc := unfold PF_PRESENT, PF_RW, PF_USER, PF_COW; lia.

(** ** Words split at bit [n] *)

Lemma land_split n a b c d :
  0 <= n -> 0 <= b < 2 ^ n -> 0 <= d < 2 ^ n ->
  Z.land (a * 2 ^ n + b) (c * 2 ^ n + d) = Z.land a c * 2 ^ n + Z.land b d.
Proof.
  intros Hn Hb Hd.
  assert (Hbd : 0 <= Z.land b d < 2 ^ n).
  { split; [apply Z.land_nonneg; lia|].
    destruct (Z.eq_dec (Z.land b d) 0) as [->|]; [lia|].
    apply Z.log2_lt_cancel. apply Z.le_lt_trans with (Z.min (Z.log2 b) (Z.log2 d)).
    - apply Z.log2_land; lia.
    - rewrite Z.log2_pow2 by lia. destruct (Z.eq_dec b 0) as [->|]; [rewrite Z.land_0_l in *; lia|].
      pose proof (proj1 (Z.log2_lt_pow2 b n ltac:(lia)) ltac:(lia)). lia. }
  rewrite <- !(lor_add n), <- !Z.shiftl_mul_pow2 by (lia || apply Z_mod_mult).
  apply Z.bits_inj'. intros k Hk. rewrite !Z.land_spec, !Z.lor_spec, !Z.shiftl_spec by lia.
  rewrite !Z.land_spec.
  destruct (Z.lt_ge_cases k n).
  - rewrite !(Z.testbit_neg_r _ (k - n)) by lia. reflexivity.
  - assert (Hbit : forall x, 0 <= x < 2 ^ n -> Z.testbit x k = false).
    { intros x Hx. rewrite <- (Z.mod_small x (2 ^ n)) by lia. apply Z.mod_pow2_bits_high. lia. }
    rewrite (Hbit b Hb), (Hbit d Hd), !orb_false_r. reflexivity.
Qed.

(** The flags of an entry live in its low 12 bits. *)
Lemma tst_low e f : 0 <= f < 4096 -> tst e f = tst (e mod 4096) f.
Proof.
  intros Hf. unfold tst. f_equal. f_equal.
  rewrite (Z.div_mod e 4096) at 1 by lia.
  replace (4096 * (e / 4096) + e mod 4096) with (e / 4096 * 2 ^ 12 + e mod 4096) by flagc.
  replace f with (0 * 2 ^ 12 + f) at 1 by lia.
  rewrite land_split, Z.land_0_r by (cbn; zdm). lia.
Qed.

(** A check of every value below a bound. *)
Lemma range_check n (p : Z -> bool) :
  forallb p (seqZ 0 n) = true -> forall x, 0 <= x < n -> p x = true.
Proof. intros H. apply (proj1 (forallb_seqZ p 0 n) H). Qed.

(** ** The address part of an entry *)

Lemma FRAME_OF_eq e : 0 <= e < 0x100000000 -> FRAME_OF e = e - e mod 4096.
Proof. apply land_page. Qed.

Lemma FRAME_OF_page e : 0 <= e < 0x100000000 -> FRAME_OF e mod 4096 = 0.
Proof. intros. rewrite FRAME_OF_eq by assumption. zdm. Qed.

Lemma FRAME_OF_range e : 0 <= e < 0x100000000 -> 0 <= FRAME_OF e <= 0xFFFFF000.
Proof. intros. rewrite FRAME_OF_eq by assumption. zdm. Qed.

Lemma FRAME_OF_id f : 0 <= f < 0x100000000 -> f mod 4096 = 0 -> FRAME_OF f = f.
Proof. intros. rewrite FRAME_OF_eq by assumption. lia. Qed.

Lemma FRAME_OF_add f x :
  0 <= f <= 0xFFFFF000 -> f mod 4096 = 0 -> 0 <= x < 4096 -> FRAME_OF (f + x) = f.
Proof. intros. rewrite FRAME_OF_eq by lia. zdm. Qed.

Lemma add_low f x : f mod 4096 = 0 -> 0 <= x < 4096 -> (f + x) mod 4096 = x.
Proof. intros. zdm. Qed.

Lemma lor_page f x : f mod 4096 = 0 -> 0 <= x < 4096 -> Z.lor f x = f + x.
Proof. intros. apply (lor_add 12); [lia|assumption|assumption]. Qed.

Lemma entry_range m b i : 0 <= entry m b i < 0x100000000.
Proof. apply ld32_range. Qed.
#[export] Hint Resolve entry_range : pyro.

(** The table or page an entry points at. *)
Lemma entry_frame m b i :
  FRAME_OF (entry m b i) mod 4096 = 0 /\ 0 <= FRAME_OF (entry m b i) <= 0xFFFFF000.
Proof. split; [apply FRAME_OF_page|apply FRAME_OF_range]; apply entry_range. Qed.

(** ** Copy-on-write entries *)

Definition is_present (e : Z) : bool := tst e PF_PRESENT.
Definition is_rw (e : Z) : bool := tst e PF_RW.
Definition is_cow (e : Z) : bool := tst e PF_COW.

(** What the clone leaves in the parent's table for entry [e]. *)
Definition shared_of (e : Z) : Z := if is_present e then cow_shared e else e.

Lemma u32_lnot_split f : 0 <= f < 4096 -> u32 (Z.lnot f) = 0xFFFFF * 2 ^ 12 + (4095 - f).
Proof. intros. unfold u32, Z.lnot. change (2 ^ 12) with 4096. zdm. Qed.

Lemma land_20 x : 0 <= x < 0x100000 -> Z.land x 0xFFFFF = x.
Proof. intros. change 0xFFFFF with (Z.ones 20). rewrite Z.land_ones by lia. apply Z.mod_small. lia. Qed.

Lemma land_lnot_low e f :
  0 <= e < 0x100000000 -> 0 <= f < 4096 ->
  Z.land e (u32 (Z.lnot f)) = (e - e mod 4096) + Z.land (e mod 4096) (4095 - f).
Proof.
  intros He Hf. rewrite u32_lnot_split by assumption.
  replace e with (e / 4096 * 2 ^ 12 + e mod 4096) at 1 by (cbn; zdm).
  rewrite land_split, land_20 by (cbn; zdm). cbn. zdm.
Qed.

Definition cow_low (x : Z) : Z :=
  Z.lor (Z.land x (4095 - PF_RW)) (if tst x PF_RW then PF_COW else 0).

Lemma cow_low_facts x :
  0 <= x < 4096 ->
  (0 <= cow_low x < 4096) /\ tst (cow_low x) PF_PRESENT = tst x PF_PRESENT /\
  tst (cow_low x) PF_RW = false /\ tst (cow_low x) PF_COW = (tst x PF_RW || tst x PF_COW) /\
  tst (cow_low x) PF_USER = tst x PF_USER.
Proof.
  intros Hx.
  pose proof (range_check 4096 (fun x =>
    (0 <=? cow_low x) && (cow_low x <? 4096) &&
    eqb (tst (cow_low x) PF_PRESENT) (tst x PF_PRESENT) && negb (tst (cow_low x) PF_RW) &&
    eqb (tst (cow_low x) PF_COW) (tst x PF_RW || tst x PF_COW) &&
    eqb (tst (cow_low x) PF_USER) (tst x PF_USER)) ltac:(vm_compute; reflexivity) x Hx) as H.
  cbv beta in H. b2p. repeat split; first [assumption | apply eqb_prop; assumption].
Qed.

Lemma cow_shared_eq e :
  0 <= e < 0x100000000 -> cow_shared e = (e - e mod 4096) + cow_low (e mod 4096).
Proof.
  intros He. unfold cow_shared, cow_low. rewrite land_lnot_low by (assumption || flagc).
  rewrite (tst_low e PF_RW) by flagc.
  assert (Hl : 0 <= Z.land (e mod 4096) (4095 - PF_RW) < 4096).
  { pose proof (range_check 4096 (fun x => (0 <=? Z.land x (4095 - PF_RW)) && (Z.land x (4095 - PF_RW) <? 4096))
      ltac:(vm_compute; reflexivity) (e mod 4096) ltac:(zdm)) as H. cbv beta in H. b2p. lia. }
  rewrite <- (lor_page (e - e mod 4096)) by (assumption || zdm).
  rewrite <- (lor_page (e - e mod 4096)); [apply eq_sym, Z.lor_assoc|zdm|].
  apply cow_low_facts. zdm.
Qed.

(** Sharing keeps the frame and the presence of an entry, drops its write
    permission and tags every page that was writable (or tagged before). *)
Lemma cow_shared_facts e :
  0 <= e < 0x100000000 ->
  (0 <= cow_shared e < 0x100000000) /\ FRAME_OF (cow_shared e) = FRAME_OF e /\
  is_present (cow_shared e) = is_present e /\ is_rw (cow_shared e) = false /\
  is_cow (cow_shared e) = (is_rw e || is_cow e).
Proof.
  intros He. destruct (cow_low_facts (e mod 4096) ltac:(zdm)) as (H1 & H2 & H3 & H4 & _).
  rewrite cow_shared_eq by assumption.
  assert (Hp : (e - e mod 4096) mod 4096 = 0) by zdm.
  assert (Hr : 0 <= e - e mod 4096 <= 0xFFFFF000) by zdm.
  unfold is_present, is_rw, is_cow.
  rewrite !(tst_low (e - e mod 4096 + _)), !add_low by (assumption || flagc).
  rewrite !(tst_low e) by flagc. rewrite FRAME_OF_add by assumption.
  rewrite FRAME_OF_eq by assumption. auto 10 with lia.
Qed.

(** The flags the fault handler gives a private page. *)
Definition cow_flags (e : Z) : Z :=
  Z.lor (Z.land (Z.land e 0xFFF) (u32 (Z.lnot PF_COW))) PF_RW.

Lemma cow_flags_facts e :
  (0 <= cow_flags e < 4096) /\ tst (cow_flags e) PF_PRESENT = tst e PF_PRESENT /\
  tst (cow_flags e) PF_RW = true /\ tst (cow_flags e) PF_COW = false.
Proof.
  unfold cow_flags. rewrite land_low12, (tst_low e PF_PRESENT) by flagc.
  pose proof (range_check 4096 (fun x => let y := Z.lor (Z.land x (u32 (Z.lnot PF_COW))) PF_RW in
    (0 <=? y) && (y <? 4096) && eqb (tst y PF_PRESENT) (tst x PF_PRESENT) && tst y PF_RW
    && negb (tst y PF_COW)) ltac:(vm_compute; reflexivity) (e mod 4096) ltac:(zdm)) as H.
  cbv beta zeta in H. b2p. repeat split; first [assumption | apply eqb_prop; assumption].
Qed.

(** ** Pages of memory *)

(** A page-aligned address. *)
Definition page (a : Z) : Prop := a mod 4096 = 0.

(** The page of an address. *)
Definition pg (x : Z) : Z := x - x mod 4096.

Lemma pg_page x : page (pg x).
Proof. unfold page, pg. zdm. Qed.

Lemma pg_in b x : page b -> (pg x = b <-> b <= x < b + 4096).
Proof. unfold page, pg. intros. split; intros; zdm. Qed.

Lemma pg_entry b i k : page b -> 0 <= i < 1024 -> 0 <= k < 4 -> pg (b + 4 * i + k) = b.
Proof. intros Hb Hi Hk. apply pg_in; [assumption|lia]. Qed.

Lemma page_neq b b' : page b -> page b' -> b <> b' -> b + 4096 <= b' \/ b' + 4096 <= b.
Proof. unfold page. intros. zdm. Qed.

(** Table entries depend on the bytes of their page only. *)
Lemma entry_ext m m' b i :
  page b -> 0 <= i < 1024 -> (forall x, pg x = b -> ld8 m' x = ld8 m x) ->
  entry m' b i = entry m b i.
Proof.
  intros Hb Hi H. unfold entry. apply ld32_ext. intros k Hk. apply H, pg_entry; assumption.
Qed.

Lemma ld8_set_entry m b i v x :
  page b -> 0 <= i < 1024 -> pg x <> b -> ld8 (set_entry m b i v) x = ld8 m x.
Proof.
  intros Hb Hi Hx. unfold set_entry. apply ld8_st32_out.
  destruct (Z.lt_ge_cases x (b + 4 * i)); [left; assumption|].
  destruct (Z.lt_ge_cases x (b + 4 * i + 4)); [|right; assumption].
  exfalso. apply Hx, pg_in; [assumption|lia].
Qed.

Lemma entry_set m b b' i j v :
  page b -> page b' -> 0 <= i < 1024 -> 0 <= j < 1024 ->
  entry (set_entry m b i v) b' j
  = if (b =? b') && (i =? j) then u32 v else entry m b' j.
Proof.
  intros Hb Hb' Hi Hj. destruct (Z.eqb_spec b b') as [<-|Nb]; simpl.
  - unfold entry, set_entry. destruct (Z.eqb_spec i j) as [<-|Nij].
    + apply ld32_st32_eq.
    + apply ld32_st32_out. lia.
  - apply entry_ext; [assumption|assumption|]. intros x Hx. apply ld8_set_entry; congruence.
Qed.

Lemma ld8_zero_page m f x :
  page f -> ld8 (memset m f 0 PAGE_SIZE) x = if pg x =? f then 0 else ld8 m x.
Proof.
  intros Hf. unfold PAGE_SIZE. rewrite ld8_memset by lia.
  destruct (Z.eqb_spec (pg x) f) as [E|N].
  - apply (pg_in _ _ Hf) in E. replace (in_range x f 4096) with true; [reflexivity|].
    symmetry. apply in_range_true. lia.
  - replace (in_range x f 4096) with false; [reflexivity|].
    symmetry. apply in_range_false. rewrite (pg_in _ _ Hf) in N. lia.
Qed.

Lemma entry_zero_page m f b j :
  page f -> page b -> 0 <= j < 1024 ->
  entry (memset m f 0 PAGE_SIZE) b j = if f =? b then 0 else entry m b j.
Proof.
  intros Hf Hb Hj. destruct (Z.eqb_spec f b) as [<-|N].
  - unfold entry, PAGE_SIZE. apply ld32_memset0; lia.
  - apply entry_ext; [assumption|assumption|]. intros x Hx. rewrite ld8_zero_page by assumption.
    destruct (Z.eqb_spec (pg x) f); [congruence|reflexivity].
Qed.

Lemma ld8_copy_page m d s x :
  page d -> page s -> d <> s ->
  ld8 (memcpy m d s PAGE_SIZE) x = if pg x =? d then ld8 m (s + (x - d)) else ld8 m x.
Proof.
  intros Hd Hs N. unfold PAGE_SIZE. pose proof (page_neq d s Hd Hs N).
  rewrite ld8_memcpy by lia. destruct (Z.eqb_spec (pg x) d) as [E|N'].
  - apply (pg_in _ _ Hd) in E. replace (in_range x d 4096) with true; [reflexivity|].
    symmetry. apply in_range_true. lia.
  - replace (in_range x d 4096) with false; [reflexivity|].
    symmetry. apply in_range_false. rewrite (pg_in _ _ Hd) in N'. lia.
Qed.

Lemma DIR_INDEX_range v : 0 <= DIR_INDEX v < 1024.
Proof.
  unfold DIR_INDEX. change 0x3FF with (Z.ones 10). rewrite Z.land_ones by lia.
  apply Z.mod_pos_bound. lia.
Qed.

Lemma TAB_INDEX_range v : 0 <= TAB_INDEX v < 1024.
Proof.
  unfold TAB_INDEX. change 0x3FF with (Z.ones 10). rewrite Z.land_ones by lia.
  apply Z.mod_pos_bound. lia.
Qed.
#[export] Hint Resolve DIR_INDEX_range TAB_INDEX_range pg_page : pyro.

(** ** Allocation *)

(** [held p f]: the allocator cannot hand out [f] (it has an owner, or is not
    a frame of the pool at all). *)
Definition held (p : pmm) (f : Z) : Prop := pool_frame p f -> 0 < owners p f.

(** A successful allocation of the machine, as the callers use it. *)
Record fresh_frame (p p' : pmm) (f : Z) : Prop := {
  ff_wf : pmm_wf p';
  ff_page : page f;
  ff_range : MANAGED_BASE <= f <= 0x8400000;
  ff_total : total_frames p' = total_frames p;
  ff_used : used_frames p' = used_frames p + 1;
  ff_was_free : owners p f = 0;
  ff_pool : pool_frame p f;
  ff_owners : forall g, page g -> owners p' g = if f =? g then 1 else owners p g;
  ff_held : forall g, held p g -> g <> f
}.

Lemma alloc_cases st :
  pmm_wf (frames st) ->
  (alloc st = (st, 0) /\ forall f, pool_frame (frames st) f -> 0 < owners (frames st) f) \/
  (exists p f, alloc st = (with_frames st p, f) /\ f <> 0 /\ fresh_frame (frames st) p f).
Proof.
  intros W. unfold alloc.
  destruct (pmm_alloc_cases (frames st) W) as
    [[-> H]|(p & f & -> & H1 & H2 & H3 & H4 & H5 & H6 & H7 & _)].
  - left. split; [destruct st; reflexivity|assumption].
  - right. exists p, f. split; [reflexivity|]. split; [assumption|].
    pose proof (pool_frame_range _ _ W H2) as (R1 & R2 & R3). unfold PAGE_SIZE in R2.
    constructor; auto; try lia. intros g Hg ->. specialize (Hg H2). lia.
Qed.

Lemma held_fresh p p' f g : page g -> fresh_frame p p' f -> held p g -> held p' g.
Proof.
  intros Hg F H (i & Hi & E). rewrite (ff_owners _ _ _ F g Hg).
  destruct (f =? g); [lia|]. apply H. exists i. split; [|assumption].
  rewrite (ff_total _ _ _ F) in Hi. assumption.
Qed.

Lemma entry_empty b i : entry ∅ b i = 0.
Proof. apply ld32_empty. Qed.

#[global] Opaque entry set_entry.
