(* ===== verification/VmmSpec.v ===== *)
(** * Virtual memory manager: address spaces

    Well-formed address spaces, what [vmm_destroy_dir] releases, and the
    copy-on-write clone: the child sees the parent's pages, neither side can
    write them, the reference counts match, and nothing leaks when the clone
    fails or is destroyed. *)

From stdpp Require Import base gmap list numbers option.
From Stdlib Require Import ZArith Lia Bool.
From S2P Require Import Prelude CString Pmm Vmm VmmLemmas.

(** ** The frames an address space refers to *)

(** The pages mapped by the first [n] entries of the table at [t]. *)
Definition table_frames (m : mem) (t n : Z) : list Z :=
  flat_map (fun k => if is_present (entry m t k) then [FRAME_OF (entry m t k)] else [])
           (seqZ 0 n).

(** The table of directory slot [j]. *)
Definition slot_tab (m : mem) (d j : Z) : Z := FRAME_OF (entry m d j).
Definition slot_present (m : mem) (d j : Z) : bool := is_present (entry m d j).

(** The pages of slots [2 .. n), and those pages together with their tables in
    the order [vmm_destroy_dir] releases them. *)
Definition space_pages (m : mem) (d n : Z) : list Z :=
  flat_map (fun j => if slot_present m d j then table_frames m (slot_tab m d j) 1024 else [])
           (seqZ 2 (n - 2)).

Definition space_frames (m : mem) (d n : Z) : list Z :=
  flat_map (fun j => if slot_present m d j
                     then table_frames m (slot_tab m d j) 1024 ++ [slot_tab m d j] else [])
           (seqZ 2 (n - 2)).

#[global] Arguments table_frames : simpl never.
#[global] Arguments space_pages : simpl never.
#[global] Arguments space_frames : simpl never.

(** A well-formed address space: its directory, tables and pages are frames the
    allocator will not hand out, and no table is shared or mapped as data. *)
Record space_wf (p : pmm) (m : mem) (d : Z) : Prop := {
  sp_page : page d;
  sp_nonneg : 0 <= d;
  sp_held : held p d;
  sp_tab_held : forall j, 2 <= j < 1024 -> slot_present m d j = true -> held p (slot_tab m d j);
  sp_tab_nz : forall j, 2 <= j < 1024 -> slot_present m d j = true -> slot_tab m d j <> 0;
  sp_tab_dir : forall j, 2 <= j < 1024 -> slot_present m d j = true -> slot_tab m d j <> d;
  sp_tab_inj : forall i j, 2 <= i < 1024 -> 2 <= j < 1024 -> i <> j ->
    slot_present m d i = true -> slot_present m d j = true -> slot_tab m d i <> slot_tab m d j;
  sp_data : forall j k, 2 <= j < 1024 -> 0 <= k < 1024 -> slot_present m d j = true ->
    is_present (entry m (slot_tab m d j) k) = true ->
    let f := FRAME_OF (entry m (slot_tab m d j) k) in
    held p f /\ f <> d /\
    forall i, 2 <= i < 1024 -> slot_present m d i = true -> f <> slot_tab m d i
}.

Lemma slot_tab_page m d j : page (slot_tab m d j).
Proof. apply entry_frame. Qed.
#[export] Hint Resolve slot_tab_page : pyro.

(** ** Lists of frames *)

Lemma seqZ_snoc a n : 0 <= n -> seqZ a (n + 1) = seqZ a n ++ [a + n].
Proof. intros. rewrite seqZ_app by lia. f_equal. Qed.

Lemma table_frames_snoc m t n :
  0 <= n -> table_frames m t (n + 1) = table_frames m t n ++
    (if is_present (entry m t n) then [FRAME_OF (entry m t n)] else []).
Proof.
  intros. unfold table_frames. rewrite seqZ_snoc, flat_map_app by assumption.
  simpl. rewrite app_nil_r. reflexivity.
Qed.

Lemma space_frames_snoc m d n :
  2 <= n -> space_frames m d (n + 1) = space_frames m d n ++
    (if slot_present m d n then table_frames m (slot_tab m d n) 1024 ++ [slot_tab m d n] else []).
Proof.
  intros. unfold space_frames. replace (n + 1 - 2) with (n - 2 + 1) by lia.
  rewrite seqZ_snoc, flat_map_app by lia. simpl. rewrite app_nil_r.
  replace (2 + (n - 2)) with n by lia. reflexivity.
Qed.

Lemma space_pages_snoc m d n :
  2 <= n -> space_pages m d (n + 1) = space_pages m d n ++
    (if slot_present m d n then table_frames m (slot_tab m d n) 1024 else []).
Proof.
  intros. unfold space_pages. replace (n + 1 - 2) with (n - 2 + 1) by lia.
  rewrite seqZ_snoc, flat_map_app by lia. simpl. rewrite app_nil_r.
  replace (2 + (n - 2)) with n by lia. reflexivity.
Qed.

Lemma flat_map_ext_seqZ {A} (f g : Z -> list A) a n :
  (forall k, a <= k < a + n -> f k = g k) -> flat_map f (seqZ a n) = flat_map g (seqZ a n).
Proof.
  intros H. rewrite !flat_map_concat_map. f_equal. apply map_ext_in.
  intros k Hk. apply list_elem_of_In, elem_of_seqZ in Hk. apply H. lia.
Qed.

(** Tables with the same present bits and the same frames map the same pages. *)
Lemma table_frames_ext m m' t t' n :
  0 <= n ->
  (forall k, 0 <= k < n -> is_present (entry m' t' k) = is_present (entry m t k) /\
     (is_present (entry m t k) = true -> FRAME_OF (entry m' t' k) = FRAME_OF (entry m t k))) ->
  table_frames m' t' n = table_frames m t n.
Proof.
  intros Hn H. apply flat_map_ext_seqZ. intros k Hk. destruct (H k ltac:(lia)) as [-> E].
  destruct (is_present (entry m t k)) eqn:P; [rewrite E; auto|reflexivity].
Qed.

Lemma table_frames_in m t n f :
  In f (table_frames m t n) ->
  exists k, 0 <= k < n /\ is_present (entry m t k) = true /\ f = FRAME_OF (entry m t k).
Proof.
  unfold table_frames. rewrite in_flat_map. intros (k & Hk & Hf).
  apply list_elem_of_In, elem_of_seqZ in Hk. exists k.
  destruct (is_present _) eqn:P; simpl in Hf; [|tauto].
  destruct Hf as [<-|[]]. split; [lia|auto].
Qed.

Lemma table_frames_pages m t n : Forall (fun x => x mod 4096 = 0) (table_frames m t n).
Proof.
  apply Forall_forall. intros f Hf%table_frames_in.
  destruct Hf as (k & _ & _ & ->). apply entry_frame.
Qed.

Lemma space_frames_pages m d n : Forall (fun x => x mod 4096 = 0) (space_frames m d n).
Proof.
  unfold space_frames. apply Forall_flat_map, Forall_forall. intros j _.
  destruct (slot_present m d j); [|constructor].
  apply Forall_app. split; [apply table_frames_pages|].
  constructor; [apply slot_tab_page|constructor].
Qed.

Lemma count_in_zero f l : (forall x, In x l -> x <> f) -> count_in f l = 0.
Proof.
  induction l as [|x l IH]; intros H; simpl; [reflexivity|].
  rewrite IH by (intros; apply H; right; assumption).
  destruct (Z.eqb_spec x f); [|reflexivity]. exfalso. apply (H x); [left; reflexivity|assumption].
Qed.

#[export] Hint Resolve table_frames_pages space_frames_pages : pyro.

(** ** Tearing down an address space *)

Lemma free_table_pages_eq st t :
  free_table_pages st t
  = with_frames st (pmm_free_list (frames st) (table_frames (ram st) t 1024)).
Proof.
  unfold free_table_pages.
  apply (for_range_ind (fun i s =>
    s = with_frames st (pmm_free_list (frames st) (table_frames (ram st) t i)))); [lia| |].
  - destruct st; reflexivity.
  - intros i s Hi ->. simpl. rewrite table_frames_snoc by lia. unfold is_present.
    destruct (tst _ _); [|rewrite app_nil_r; reflexivity].
    unfold pmm_free_list. rewrite fold_left_app. reflexivity.
Qed.

(** The state of the teardown loop before slot [i]. *)
Record teardown (st : machine) (d i : Z) (s : machine) : Prop := {
  td_frames : frames s = pmm_free_list (frames st) (space_frames (ram st) d i);
  td_dir : forall j, i <= j < 1024 -> entry (ram s) d j = entry (ram st) d j;
  td_mem : forall x, pg x <> d -> ld8 (ram s) x = ld8 (ram st) x;
  td_cr3 : cr3 s = cr3 st;
  td_kernel : kernel_dir s = kernel_dir st;
  td_log : tlb_log s = tlb_log st
}.

Lemma destroy_slot_teardown st d i s :
  page d -> 2 <= i < 1024 ->
  (slot_present (ram st) d i = true -> slot_tab (ram st) d i <> d) ->
  teardown st d i s -> teardown st d (i + 1) (destroy_slot d i s).
Proof.
  intros Hp Hi Ht [F D M C K L]. unfold destroy_slot. rewrite (D i) by lia.
  pose proof (space_frames_snoc (ram st) d i ltac:(lia)) as Hs.
  unfold slot_present, slot_tab, is_present in *. destruct (tst _ _) eqn:P; cbn [negb].
  - specialize (Ht eq_refl). rewrite free_table_pages_eq. mcbn. rewrite (D i) by lia.
    constructor; mcbn; auto.
    + rewrite Hs, F. unfold pmm_free_list. rewrite !fold_left_app. cbn [fold_left].
      set (t := FRAME_OF (entry (ram st) d i)) in *.
      rewrite (table_frames_ext (ram st) (ram s) t t 1024); [reflexivity|lia|].
      intros k Hk. rewrite (entry_ext (ram st) (ram s)); auto; [apply entry_frame|].
      intros x Hx. apply M. congruence.
    + intros j Hj. rewrite entry_set by side.
      destruct (Z.eqb_spec i j); [lia|]. rewrite andb_false_r. apply D. lia.
    + intros x Hx. rewrite ld8_set_entry by side. apply M. assumption.
  - rewrite app_nil_r in Hs. constructor; auto; [congruence|]. intros j Hj. apply D. lia.
Qed.

(** [vmm_destroy_dir] gives back exactly the pages, the tables and the
    directory, and writes nothing outside the directory's own frame. *)
Lemma vmm_destroy_dir_eq st d :
  page d -> d <> 0 -> d <> kernel_dir st ->
  (forall j, 2 <= j < 1024 -> slot_present (ram st) d j = true -> slot_tab (ram st) d j <> d) ->
  let st' := vmm_destroy_dir st d in
  frames st' = pmm_free_list (frames st) (space_frames (ram st) d 1024 ++ [d]) /\
  (forall x, pg x <> d -> ld8 (ram st') x = ld8 (ram st) x) /\
  cr3 st' = cr3 st /\ kernel_dir st' = kernel_dir st /\ tlb_log st' = tlb_log st.
Proof.
  intros Hp H0 Hk Htab. unfold vmm_destroy_dir.
  destruct (Z.eqb_spec d 0); [contradiction|].
  destruct (Z.eqb_spec d (kernel_dir st)); [contradiction|]. cbn [orb].
  assert (T : teardown st d 1024 (for_range 2 1024 (destroy_slot d) st)).
  { apply (for_range_ind (teardown st d)); [lia|constructor; auto|].
    intros i s Hi T. apply destroy_slot_teardown; auto. }
  revert T. generalize (for_range 2 1024 (destroy_slot d) st). intros s [F _ M C K L].
  mcbn. rewrite F.
  unfold pmm_free_list. rewrite fold_left_app. auto.
Qed.

(** ** Sharing one page table *)

(** What the clone writes into the child's zeroed table for entry [e]. *)
Definition child_of (e : Z) : Z := if is_present e then cow_shared e else 0.

(** Sharing the table at [a] with the zeroed table at [b], up to entry [i]. *)
Record shared_upto (st : machine) (a b i : Z) (s : machine) : Prop := {
  su_a : forall k, 0 <= k < 1024 ->
    entry (ram s) a k = if k <? i then shared_of (entry (ram st) a k) else entry (ram st) a k;
  su_b : forall k, 0 <= k < 1024 ->
    entry (ram s) b k = if k <? i then child_of (entry (ram st) a k) else 0;
  su_mem : forall x, pg x <> a -> pg x <> b -> ld8 (ram s) x = ld8 (ram st) x;
  su_frames : frames s = pmm_incref_list (frames st) (table_frames (ram st) a i);
  su_cr3 : cr3 s = cr3 st;
  su_kernel : kernel_dir s = kernel_dir st;
  su_log : tlb_log s = tlb_log st
}.

Lemma share_entry_step st a b i s :
  page a -> page b -> a <> b -> 0 <= i < 1024 ->
  shared_upto st a b i s -> shared_upto st a b (i + 1) (share_entry a b i s).
Proof.
  intros Ha Hb Hab Hi [A B M F C K L]. unfold share_entry.
  pose proof (A i Hi) as Ai. rewrite Z.ltb_irrefl in Ai. rewrite Ai.
  pose proof (table_frames_snoc (ram st) a i ltac:(lia)) as Hs.
  pose proof (cow_shared_facts (entry (ram st) a i) (entry_range _ _ _)) as (R & _).
  fold (is_present (entry (ram st) a i)).
  assert (Hsh : shared_of (entry (ram st) a i)
    = if is_present (entry (ram st) a i) then cow_shared (entry (ram st) a i)
      else entry (ram st) a i) by reflexivity.
  assert (Hch : child_of (entry (ram st) a i)
    = if is_present (entry (ram st) a i) then cow_shared (entry (ram st) a i) else 0)
    by reflexivity.
  destruct (is_present (entry (ram st) a i)) eqn:P; cbn [negb].
  - constructor; mcbn; auto.
    + intros k Hk. rewrite !entry_set, A by auto.
      destruct (Z.eqb_spec b a); [congruence|]. rewrite Z.eqb_refl. simpl.
      destruct (Z.eqb_spec i k) as [<-|].
      * rewrite ?Hsh, ?Hch, u32_small by assumption. zcase; lia || reflexivity.
      * zcase; lia || reflexivity.
    + intros k Hk. rewrite !entry_set, B by auto.
      destruct (Z.eqb_spec a b); [congruence|]. rewrite Z.eqb_refl. simpl.
      destruct (Z.eqb_spec i k) as [<-|].
      * rewrite ?Hsh, ?Hch, u32_small by assumption. zcase; lia || reflexivity.
      * zcase; lia || reflexivity.
    + intros x Hxa Hxb. rewrite !ld8_set_entry by auto. apply M; assumption.
    + rewrite Hs, F. unfold pmm_incref_list. rewrite fold_left_app. reflexivity.
  - constructor; auto.
    + intros k Hk. rewrite A by auto. destruct (Z.eqb_spec i k) as [<-|].
      * rewrite ?Hsh, ?Hch. zcase; lia || reflexivity.
      * zcase; lia || reflexivity.
    + intros k Hk. rewrite B by auto. destruct (Z.eqb_spec i k) as [<-|].
      * rewrite ?Hsh, ?Hch. zcase; lia || reflexivity.
      * zcase; lia || reflexivity.
    + rewrite Hs, app_nil_r. assumption.
Qed.

Lemma share_table_spec st a b :
  page a -> page b -> a <> b -> (forall k, 0 <= k < 1024 -> entry (ram st) b k = 0) ->
  shared_upto st a b 1024 (for_range 0 1024 (share_entry a b) st).
Proof.
  intros Ha Hb Hab Hz. apply (for_range_ind (shared_upto st a b)); [lia| |].
  - constructor; auto; intros k Hk; zcase; try lia; auto.
  - intros i s Hi. apply share_entry_step; assumption.
Qed.

Lemma shared_of_facts e :
  0 <= e < 0x100000000 ->
  is_present (shared_of e) = is_present e /\ FRAME_OF (shared_of e) = FRAME_OF e /\
  (is_present e = true -> is_rw (shared_of e) = false /\
     is_cow (shared_of e) = (is_rw e || is_cow e)).
Proof.
  intros He. pose proof (cow_shared_facts e He) as (_ & H2 & H3 & H4 & H5).
  unfold shared_of. destruct (is_present e) eqn:P; auto 10 with congruence.
Qed.

Lemma child_of_present e :
  0 <= e < 0x100000000 -> is_present (child_of e) = is_present e.
Proof.
  intros He. pose proof (cow_shared_facts e He) as (_ & _ & H3 & _).
  unfold child_of. destruct (is_present e) eqn:P; auto with congruence.
Qed.

Lemma child_of_shared e : is_present e = true -> child_of e = shared_of e.
Proof. unfold child_of, shared_of. intros ->. reflexivity. Qed.

(** ** A new directory *)

Lemma vmm_create_dir_cases st :
  pmm_wf (frames st) ->
  (vmm_create_dir st = (st, 0) /\ forall f, pool_frame (frames st) f -> 0 < owners (frames st) f) \/
  exists s dst, vmm_create_dir st = (s, dst) /\ dst <> 0 /\
    fresh_frame (frames st) (frames s) dst /\
    (forall j, 2 <= j < 1024 -> entry (ram s) dst j = 0) /\
    (forall x, pg x <> dst -> ld8 (ram s) x = ld8 (ram st) x) /\
    (page (kernel_dir st) -> held (frames st) (kernel_dir st) ->
       forall j, 0 <= j < 2 -> entry (ram s) dst j = entry (ram st) (kernel_dir st) j) /\
    cr3 s = cr3 st /\ kernel_dir s = kernel_dir st /\ tlb_log s = tlb_log st.
Proof.
  intros W. unfold vmm_create_dir.
  destruct (alloc_cases st W) as [[-> H]|(p & f & -> & Hf & F)];
    [left; split; [reflexivity|assumption]|].
  right. destruct (Z.eqb_spec f 0); [contradiction|]. mcbn.
  pose proof (ff_page _ _ _ F) as Hp. eexists _, f. split; [reflexivity|]. mcbn.
  split; [assumption|]. split; [assumption|]. split; [|split; [|split; [|auto]]].
  - intros j Hj. rewrite (entry_set _ f f 1 j), (entry_set _ f f 0 j), (entry_zero_page (ram st) f f j)
      by side.
    rewrite Z.eqb_refl. cbn [andb].
    destruct (Z.eqb_spec 1 j); [lia|]. destruct (Z.eqb_spec 0 j); [lia|reflexivity].
  - intros x Hx. rewrite !ld8_set_entry, ld8_zero_page by side.
    destruct (Z.eqb_spec (pg x) f); [contradiction|reflexivity].
  - intros Hk Hh j Hj. pose proof (ff_held _ _ _ F _ Hh) as Hne.
    rewrite !entry_set, !entry_zero_page by side. rewrite Z.eqb_refl.
    destruct (Z.eqb_spec f (kernel_dir st)); [congruence|]. cbn [andb].
    destruct (Z.eqb_spec 1 j) as [<-|]; [apply u32_small, entry_range|].
    destruct (Z.eqb_spec 0 j) as [<-|]; [apply u32_small, entry_range|lia].
Qed.
