(* ===== verification/VmmClone.v ===== *)
(** * Virtual memory manager: the copy-on-write clone

    The loop of [vmm_clone_cow] and its invariant, what the finished clone
    looks like, and the accounting of frames on success, on failure and after
    the child is destroyed. *)

From stdpp Require Import base gmap list numbers option.
From Stdlib Require Import ZArith Lia Bool.
From S2P Require Import Prelude CString Pmm Vmm VmmLemmas VmmSpec.

(** ** The loop invariant *)

Section Clone.

(** The machine before the clone, the parent, and the child's directory. *)
Context (st0 : machine) (src dst : Z).
Context (W0 : pmm_wf (frames st0)) (S0 : space_wf (frames st0) (ram st0) src).
Context (Hdst_page : page dst) (Hdst_pool : pool_frame (frames st0) dst)
        (Hdst_free : owners (frames st0) dst = 0).

Abbreviation pres j := (slot_present (ram st0) src j).
Abbreviation tab j := (slot_tab (ram st0) src j).

(** A frame of the pool that was free before the clone started. *)
Definition was_free (f : Z) : Prop :=
  pool_frame (frames st0) f /\ owners (frames st0) f = 0.

(** The child's table for slot [j]. *)
Definition child_tab (s : machine) (j : Z) : Z := slot_tab (ram s) dst j.

Record share_inv (n : Z) (s : machine) : Prop := {
  si_wf : pmm_wf (frames s);
  si_total : total_frames (frames s) = total_frames (frames st0);
  si_src_dir : forall j, 0 <= j < 1024 -> entry (ram s) src j = entry (ram st0) src j;
  si_dst_none : forall j, 2 <= j < 1024 -> (j < n -> pres j = false) -> entry (ram s) dst j = 0;
  si_dst_flags : forall j, 2 <= j < n -> j < 1024 -> pres j = true ->
    entry (ram s) dst j mod 4096 = entry (ram st0) src j mod 4096;
  si_tab_free : forall j, 2 <= j < n -> j < 1024 -> pres j = true -> was_free (child_tab s j);
  si_tab_dst : forall j, 2 <= j < n -> j < 1024 -> pres j = true -> child_tab s j <> dst;
  si_tab_own : forall j, 2 <= j < n -> j < 1024 -> pres j = true ->
    owners (frames s) (child_tab s j) = 1;
  si_tab_inj : forall i j, 2 <= i < n -> 2 <= j < n -> i < 1024 -> j < 1024 -> i <> j ->
    pres i = true -> pres j = true -> child_tab s i <> child_tab s j;
  si_child : forall j k, 2 <= j < n -> j < 1024 -> pres j = true -> 0 <= k < 1024 ->
    entry (ram s) (child_tab s j) k = child_of (entry (ram st0) (tab j) k);
  si_parent : forall j k, 2 <= j < 1024 -> pres j = true -> 0 <= k < 1024 ->
    entry (ram s) (tab j) k
    = if j <? n then shared_of (entry (ram st0) (tab j) k) else entry (ram st0) (tab j) k;
  si_mem : forall x, held (frames st0) (pg x) ->
    (forall j, 2 <= j < n -> j < 1024 -> pres j = true -> pg x <> tab j) ->
    ld8 (ram s) x = ld8 (ram st0) x;
  si_dst_own : owners (frames s) dst = 1;
  si_owned : forall f, page f -> 0 < owners (frames st0) f ->
    owners (frames s) f
    = Z.min 255 (owners (frames st0) f + count_in f (space_pages (ram st0) src n));
  si_new : forall f, page f -> owners (frames st0) f = 0 -> owners (frames s) f <> 0 ->
    f = dst \/ exists j, 2 <= j < n /\ j < 1024 /\ pres j = true /\ f = child_tab s j;
  si_used : used_frames (frames s)
    = used_frames (frames st0) + 1 + count_range 2 n (fun j => pres j);
  si_cr3 : cr3 s = cr3 st0;
  si_kernel : kernel_dir s = kernel_dir st0;
  si_log : tlb_log s = tlb_log st0
}.

Lemma held_was_free f g : held (frames st0) f -> was_free g -> f <> g.
Proof. intros Hf (Hp & Ho) ->. specialize (Hf Hp). lia. Qed.

(** Every page of the parent is held, so never one of the new frames. *)
Lemma parent_pages_old j f :
  2 <= j < 1024 -> pres j = true -> In f (table_frames (ram st0) (tab j) 1024) ->
  held (frames st0) f.
Proof.
  intros Hj Pj Hf. apply table_frames_in in Hf. destruct Hf as (k & Hk & Pk & ->).
  apply (sp_data _ _ _ S0 j k); assumption.
Qed.

Lemma count_parent_new j g :
  2 <= j < 1024 -> pres j = true -> was_free g ->
  count_in g (table_frames (ram st0) (tab j) 1024) = 0.
Proof.
  intros Hj Pj Hg. apply count_in_zero. intros x Hx.
  apply held_was_free; [eapply parent_pages_old; eassumption|assumption].
Qed.

(** A frame that is free now, during the loop, was free at the start. *)
Lemma free_now_was_free n s f :
  share_inv n s -> page f -> pool_frame (frames s) f -> owners (frames s) f = 0 -> was_free f.
Proof.
  intros I Hp (i & Hi & E) Ho. split.
  - exists i. split; [|assumption]. rewrite <- (si_total _ _ I). assumption.
  - pose proof (owners_range (frames st0) f W0) as R.
    destruct (Z.eq_dec (owners (frames st0) f) 0) as [|N]; [assumption|].
    rewrite (si_owned _ _ I f Hp) in Ho by lia.
    pose proof (count_in_nonneg f (space_pages (ram st0) src n)). lia.
Qed.

(** A slot the parent does not use. *)
Lemma share_inv_skip n s :
  2 <= n < 1024 -> pres n = false -> share_inv n s -> share_inv (n + 1) s.
Proof.
  intros Hn Pn I. destruct I.
  assert (Hlt : forall j, j < n + 1 -> pres j = true -> j < n).
  { intros j Hj Pj. destruct (Z.eq_dec j n) as [->|]; [congruence|lia]. }
  constructor; auto.
  - intros j Hj Hp. apply si_dst_none0; [assumption|]. intros; apply Hp; lia.
  - intros j Hj1 Hj2 Pj. apply si_dst_flags0; auto. pose proof (Hlt j ltac:(lia) Pj); lia.
  - intros j Hj1 Hj2 Pj. apply si_tab_free0; auto. pose proof (Hlt j ltac:(lia) Pj); lia.
  - intros j Hj1 Hj2 Pj. apply si_tab_dst0; auto. pose proof (Hlt j ltac:(lia) Pj); lia.
  - intros j Hj1 Hj2 Pj. apply si_tab_own0; auto. pose proof (Hlt j ltac:(lia) Pj); lia.
  - intros i j Hi Hj ? ? ? Pi Pj. apply si_tab_inj0; auto; [pose proof (Hlt i ltac:(lia) Pi)|pose proof (Hlt j ltac:(lia) Pj)]; lia.
  - intros j k Hj1 Hj2 Pj. apply si_child0; auto. pose proof (Hlt j ltac:(lia) Pj); lia.
  - intros j k Hj Pj Hk. rewrite si_parent0 by assumption.
    destruct (Z.ltb_spec j n), (Z.ltb_spec j (n + 1)); try reflexivity; [lia|].
    specialize (Hlt j ltac:(lia) Pj). lia.
  - intros x Hx Hp. apply si_mem0; [assumption|]. intros j Hj1 Hj2 Pj. apply Hp; auto; lia.
  - intros f Hf Ho. rewrite space_pages_snoc, Pn, app_nil_r by lia. apply si_owned0; assumption.
  - intros f Hf Ho N. destruct (si_new0 f Hf Ho N) as [->|(j & Hj & ? & ? & ->)]; [left; reflexivity|].
    right. exists j. repeat split; auto; lia.
  - rewrite si_used0. rewrite (count_range_split 2 n (n + 1)), (count_range_cons n), Pn, (count_range_nil (n + 1)) by lia.
    lia.
Qed.

(** ** Sharing one slot

    [t] is the frame just allocated for the child's table; [s1] is the state
    after the table is zeroed and linked, [s'] after its entries are shared. *)

Definition linked (n t : Z) (p : pmm) (s : machine) : machine :=
  with_ram (with_frames s p)
    (set_entry (memset (ram s) t 0 PAGE_SIZE) dst n
       (Z.lor t (Z.land (entry (memset (ram s) t 0 PAGE_SIZE) src n) 0xFFF))).

Record slot_shared (n t : Z) (s s' : machine) : Prop := {
  ss_t : was_free t;
  ss_t_dst : t <> dst;
  ss_t_tab : forall j, 2 <= j < n -> j < 1024 -> pres j = true -> t <> child_tab s j;
  ss_dst : forall j, 2 <= j < 1024 -> entry (ram s') dst j
    = if j =? n then t + entry (ram st0) src n mod 4096 else entry (ram s) dst j;
  ss_other : forall b k, page b -> 0 <= k < 1024 -> b <> dst -> b <> t -> b <> tab n ->
    entry (ram s') b k = entry (ram s) b k;
  ss_parent : forall k, 0 <= k < 1024 ->
    entry (ram s') (tab n) k = shared_of (entry (ram st0) (tab n) k);
  ss_child : forall k, 0 <= k < 1024 ->
    entry (ram s') t k = child_of (entry (ram st0) (tab n) k);
  ss_mem : forall x, pg x <> dst -> pg x <> t -> pg x <> tab n -> ld8 (ram s') x = ld8 (ram s) x;
  ss_wf : pmm_wf (frames s');
  ss_total : total_frames (frames s') = total_frames (frames s);
  ss_used : used_frames (frames s') = used_frames (frames s) + 1;
  ss_owners : forall f, page f ->
    owners (frames s') f
    = let o := if t =? f then 1 else owners (frames s) f in
      if o =? 0 then 0 else Z.min 255 (o + count_in f (table_frames (ram st0) (tab n) 1024));
  ss_rest : cr3 s' = cr3 s /\ kernel_dir s' = kernel_dir s /\ tlb_log s' = tlb_log s
}.

(** The frame of the child's table is none of the pages in use. *)
Lemma fresh_distinct n t p s :
  2 <= n < 1024 -> pres n = true -> share_inv n s -> fresh_frame (frames s) p t ->
  was_free t /\ t <> dst /\ t <> src /\ dst <> src /\ tab n <> t /\ tab n <> dst.
Proof.
  intros Hn Pn I F.
  assert (Hfree : was_free t) by exact (free_now_was_free n s t I (ff_page _ _ _ F) (ff_pool _ _ _ F) (ff_was_free _ _ _ F)).
  assert (Hd : was_free dst) by (split; assumption).
  split; [exact Hfree|]. split.
  { intros ->. pose proof (ff_was_free _ _ _ F). rewrite (si_dst_own _ _ I) in *. lia. }
  split; [apply not_eq_sym, held_was_free; [apply (sp_held _ _ _ S0)|assumption]|].
  split; [apply not_eq_sym, held_was_free; [apply (sp_held _ _ _ S0)|assumption]|].
  split; apply held_was_free; solve [apply (sp_tab_held _ _ _ S0); assumption|assumption].
Qed.

(** The entries after the new table is zeroed and linked. *)
Record linked_entries (n t : Z) (s s1 : machine) : Prop := {
  le_other : forall b k, page b -> 0 <= k < 1024 -> b <> dst -> b <> t -> entry (ram s1) b k = entry (ram s) b k;
  le_zero : forall k, 0 <= k < 1024 -> entry (ram s1) t k = 0;
  le_parent : forall k, 0 <= k < 1024 -> entry (ram s1) (tab n) k = entry (ram st0) (tab n) k;
  le_dst : forall j, 2 <= j < 1024 -> entry (ram s1) dst j
    = if j =? n then t + entry (ram st0) src n mod 4096 else entry (ram s) dst j
}.

Lemma linked_entries_intro n t p s :
  2 <= n < 1024 -> pres n = true -> share_inv n s -> fresh_frame (frames s) p t -> linked_entries n t s (linked n t p s).
Proof.
  intros Hn Pn I F. pose proof (ff_page _ _ _ F) as Ht.
  destruct (fresh_distinct n t p s Hn Pn I F) as (_ & Htd & Hts & Hds & Hta & Had).
  pose proof (sp_page _ _ _ S0) as Hsrc. pose proof (slot_tab_page (ram st0) src n) as Ha.
  assert (Hoth : forall b k, page b -> 0 <= k < 1024 -> b <> dst -> b <> t ->
            entry (ram (linked n t p s)) b k = entry (ram s) b k).
  { intros b k Hb Hk Nd Nt. unfold linked. mcbn.
    rewrite entry_set, (entry_zero_page (ram s) t b k) by side.
    destruct (Z.eqb_spec dst b); [congruence|]. cbn [andb].
    destruct (Z.eqb_spec t b); [congruence|reflexivity]. }
  constructor; [exact Hoth|..].
  - intros k Hk. unfold linked. mcbn.
    rewrite entry_set, (entry_zero_page (ram s) t t k) by side.
    destruct (Z.eqb_spec dst t); [congruence|]. rewrite Z.eqb_refl. reflexivity.
  - intros k Hk. rewrite Hoth, (si_parent _ _ I) by side. rewrite Z.ltb_irrefl. reflexivity.
  - intros j Hj. unfold linked. mcbn. rewrite entry_set, !entry_zero_page by side.
    destruct (Z.eqb_spec t src); [congruence|]. rewrite (si_src_dir _ _ I) by lia.
    destruct (Z.eqb_spec t dst); [congruence|].
    rewrite Z.eqb_refl, (Z.eqb_sym n j). cbn [andb]. destruct (j =? n); [|reflexivity].
    pose proof (ff_range _ _ _ F). rewrite land_low12, lor_page by (assumption || zdm).
    unfold MANAGED_BASE in *. apply u32_small. zdm.
Qed.

Lemma slot_shared_intro n t p s :
  2 <= n < 1024 -> pres n = true -> share_inv n s -> fresh_frame (frames s) p t ->
  slot_shared n t s (for_range 0 1024 (share_entry (tab n) t) (linked n t p s)).
Proof.
  intros Hn Pn I F. pose proof (ff_page _ _ _ F) as Ht.
  destruct (fresh_distinct n t p s Hn Pn I F) as (Hfree & Htd & Hts & Hds & Hta & Had).
  pose proof (sp_page _ _ _ S0) as Hsrc. pose proof (slot_tab_page (ram st0) src n) as Ha.
  destruct (linked_entries_intro n t p s Hn Pn I F) as [Hoth Hz Hpar Hdst].
  pose proof (share_table_spec (linked n t p s) (tab n) t Ha Ht Hta Hz) as SU.
  revert SU. generalize (for_range 0 1024 (share_entry (tab n) t) (linked n t p s)).
  intros s' [A B M Fr C K L].
  rewrite (table_frames_ext (ram st0) _ (tab n) (tab n)) in Fr
    by (lia || (intros k Hk; rewrite Hpar by assumption; auto)).
  change (frames (linked n t p s)) with p in Fr.
  pose proof (ff_wf _ _ _ F) as Wp.
  constructor; auto.
  - intros j Hj1 Hj2 Pj ->. pose proof (ff_was_free _ _ _ F).
    rewrite (si_tab_own _ _ I) in * by assumption. lia.
  - intros j Hj. rewrite <- Hdst by assumption. apply entry_ext; [assumption|lia|].
    intros x Hx. apply M; congruence.
  - intros b k Hb Hk Nd Nt Na. rewrite <- Hoth by assumption. apply entry_ext; [assumption|assumption|].
    intros x Hx. apply M; congruence.
  - intros k Hk. rewrite A, Hpar by assumption. destruct (Z.ltb_spec k 1024); [reflexivity|lia].
  - intros k Hk. rewrite B, Hpar by assumption. destruct (Z.ltb_spec k 1024); [reflexivity|lia].
  - intros x Nd Nt Na. rewrite M by assumption. unfold linked. mcbn.
    rewrite ld8_set_entry, ld8_zero_page by side.
    destruct (Z.eqb_spec (pg x) t); [contradiction|reflexivity].
  - rewrite Fr. apply pmm_incref_list_wf. assumption.
  - rewrite Fr, pmm_incref_list_total. apply (ff_total _ _ _ F).
  - rewrite Fr, pmm_incref_list_used. apply (ff_used _ _ _ F).
  - intros f Hf. rewrite Fr, owners_incref_list by (assumption || apply table_frames_pages).
    rewrite (ff_owners _ _ _ F f Hf). reflexivity.
Qed.

Lemma slot_shared_child n t s s' j :
  2 <= n < 1024 -> share_inv n s -> slot_shared n t s s' -> 2 <= j < 1024 -> j <= n ->
  child_tab s' j = if j =? n then t else child_tab s j.
Proof.
  intros Hn I SS Hj Hjn. unfold child_tab, slot_tab. rewrite (ss_dst _ _ _ _ SS) by assumption.
  destruct (j =? n); [|reflexivity].
  pose proof (pool_frame_range _ _ W0 (proj1 (ss_t _ _ _ _ SS))) as (R1 & R2 & R3).
  unfold MANAGED_BASE, PAGE_SIZE in *. apply FRAME_OF_add; [lia|assumption|zdm].
Qed.

(** ** One iteration keeps the invariant *)

Section Step.
Context (n t : Z) (s s' : machine) (Hn : 2 <= n < 1024) (Pn : pres n = true).
Context (I : share_inv n s) (SS : slot_shared n t s s').

Lemma step_child j :
  2 <= j < n + 1 -> j < 1024 -> child_tab s' j = if j =? n then t else child_tab s j.
Proof. intros. eapply slot_shared_child; [exact Hn|exact I|exact SS|lia|lia]. Qed.

Lemma step_tab_new j : 2 <= j < 1024 -> pres j = true -> tab j <> dst /\ tab j <> t.
Proof.
  intros Hj Pj. split; (apply held_was_free; [apply (sp_tab_held _ _ _ S0); assumption|]);
    [split; assumption|apply SS].
Qed.

Lemma step_old_child j :
  2 <= j < n -> j < 1024 -> pres j = true ->
  child_tab s j <> dst /\ child_tab s j <> t /\ child_tab s j <> tab n.
Proof.
  intros Hj1 Hj2 Pj. split; [apply (si_tab_dst _ _ I); assumption|].
  split; [apply not_eq_sym, (ss_t_tab _ _ _ _ SS); assumption|].
  apply not_eq_sym, held_was_free; [apply (sp_tab_held _ _ _ S0); assumption|].
  apply (si_tab_free _ _ I); assumption.
Qed.

Lemma step_count g : was_free g -> count_in g (table_frames (ram st0) (tab n) 1024) = 0.
Proof. intros. apply count_parent_new; assumption. Qed.

Lemma step_t_page : page t.
Proof. apply (pool_frame_range _ _ W0 (proj1 (ss_t _ _ _ _ SS))). Qed.

Lemma step_src_dir j : 0 <= j < 1024 -> entry (ram s') src j = entry (ram st0) src j.
Proof.
  intros Hj. rewrite (ss_other _ _ _ _ SS), (si_src_dir _ _ I); auto;
    [apply (sp_page _ _ _ S0)| | |].
  - apply held_was_free; [apply (sp_held _ _ _ S0)|split; assumption].
  - apply held_was_free; [apply (sp_held _ _ _ S0)|apply SS].
  - apply not_eq_sym, (sp_tab_dir _ _ _ S0); assumption.
Qed.

Lemma step_tab_own j :
  2 <= j < n + 1 -> j < 1024 -> pres j = true -> owners (frames s') (child_tab s' j) = 1.
Proof.
  intros Hj1 Hj2 Pj. rewrite step_child by assumption.
  destruct (Z.eqb_spec j n) as [->|].
  - rewrite (ss_owners _ _ _ _ SS), Z.eqb_refl, step_count by (apply step_t_page || apply SS).
    reflexivity.
  - rewrite (ss_owners _ _ _ _ SS) by apply slot_tab_page.
    destruct (step_old_child j ltac:(lia) Hj2 Pj) as (_ & Nt & _).
    destruct (Z.eqb_spec t (child_tab s j)) as [E|]; [congruence|].
    rewrite (si_tab_own _ _ I), step_count
      by (auto; try lia; apply (si_tab_free _ _ I); auto; lia).
    reflexivity.
Qed.

Lemma step_tab_inj i j :
  2 <= i < n + 1 -> 2 <= j < n + 1 -> i < 1024 -> j < 1024 -> i <> j ->
  pres i = true -> pres j = true -> child_tab s' i <> child_tab s' j.
Proof.
  intros Hi Hj ? ? Nij Pi Pj. rewrite !step_child by assumption.
  destruct (Z.eqb_spec i n), (Z.eqb_spec j n); try lia.
  - apply not_eq_sym. apply (step_old_child j); auto; lia.
  - apply (step_old_child i); auto; lia.
  - apply (si_tab_inj _ _ I); auto; lia.
Qed.

Lemma step_child_entries j k :
  2 <= j < n + 1 -> j < 1024 -> pres j = true -> 0 <= k < 1024 ->
  entry (ram s') (child_tab s' j) k = child_of (entry (ram st0) (tab j) k).
Proof.
  intros Hj1 Hj2 Pj Hk. rewrite step_child by assumption.
  destruct (Z.eqb_spec j n) as [->|]; [apply SS; assumption|].
  destruct (step_old_child j ltac:(lia) Hj2 Pj) as (Nd & Nt & Na).
  rewrite (ss_other _ _ _ _ SS) by (assumption || apply slot_tab_page).
  apply (si_child _ _ I); auto; lia.
Qed.

Lemma step_parent_entries j k :
  2 <= j < 1024 -> pres j = true -> 0 <= k < 1024 ->
  entry (ram s') (tab j) k
  = if j <? n + 1 then shared_of (entry (ram st0) (tab j) k) else entry (ram st0) (tab j) k.
Proof.
  intros Hj Pj Hk. destruct (Z.eqb_spec j n) as [->|N].
  - destruct (Z.ltb_spec n (n + 1)); [|lia]. apply SS; assumption.
  - destruct (step_tab_new j Hj Pj) as [Nd Nt].
    rewrite (ss_other _ _ _ _ SS);
      [|apply slot_tab_page|assumption|assumption|assumption|apply (sp_tab_inj _ _ _ S0); assumption].
    rewrite (si_parent _ _ I) by assumption. zcase; lia || reflexivity.
Qed.

Lemma step_mem x :
  held (frames st0) (pg x) ->
  (forall j, 2 <= j < n + 1 -> j < 1024 -> pres j = true -> pg x <> tab j) ->
  ld8 (ram s') x = ld8 (ram st0) x.
Proof.
  intros Hx Hp. rewrite (ss_mem _ _ _ _ SS).
  - apply (si_mem _ _ I); [assumption|]. intros; apply Hp; auto; lia.
  - apply held_was_free; [|split]; assumption.
  - apply held_was_free; [assumption|apply SS].
  - apply Hp; auto; lia.
Qed.

Lemma step_owned f :
  page f -> 0 < owners (frames st0) f ->
  owners (frames s') f
  = Z.min 255 (owners (frames st0) f + count_in f (space_pages (ram st0) src (n + 1))).
Proof.
  intros Hf Ho. rewrite (ss_owners _ _ _ _ SS) by assumption.
  pose proof (proj2 (ss_t _ _ _ _ SS)).
  destruct (Z.eqb_spec t f) as [->|]; [lia|].
  rewrite (si_owned _ _ I), space_pages_snoc, Pn, count_in_app by (assumption || lia).
  pose proof (count_in_nonneg f (space_pages (ram st0) src n)).
  pose proof (count_in_nonneg f (table_frames (ram st0) (tab n) 1024)). cbv zeta. zcase; lia.
Qed.

Lemma step_new f :
  page f -> owners (frames st0) f = 0 -> owners (frames s') f <> 0 ->
  f = dst \/ exists j, 2 <= j < n + 1 /\ j < 1024 /\ pres j = true /\ f = child_tab s' j.
Proof.
  intros Hf Ho. rewrite (ss_owners _ _ _ _ SS) by assumption. cbv zeta.
  destruct (Z.eqb_spec t f) as [<-|].
  - intros _. right. exists n. rewrite step_child, Z.eqb_refl by lia. repeat split; auto; lia.
  - intros N. destruct (si_new _ _ I f Hf Ho) as [->|(j & Hj & Hj2 & Pj & ->)].
    + intros E. rewrite E in N. apply N. reflexivity.
    + left. reflexivity.
    + right. exists j. rewrite step_child by lia. destruct (Z.eqb_spec j n); [lia|].
      repeat split; auto; lia.
Qed.

Lemma step_dst_own : owners (frames s') dst = 1.
Proof.
  rewrite (ss_owners _ _ _ _ SS), step_count by (assumption || (split; assumption)).
  pose proof (ss_t_dst _ _ _ _ SS).
  destruct (Z.eqb_spec t dst) as [E|]; [contradiction|].
  rewrite (si_dst_own _ _ I). reflexivity.
Qed.

Lemma share_inv_step : share_inv (n + 1) s'.
Proof.
  destruct (ss_rest _ _ _ _ SS) as (R1 & R2 & R3).
  constructor; auto using step_src_dir, step_tab_own, step_tab_inj, step_child_entries,
    step_parent_entries, step_mem, step_owned, step_new, step_dst_own.
  - apply SS.
  - rewrite (ss_total _ _ _ _ SS). apply I.
  - intros j Hj Hp. rewrite (ss_dst _ _ _ _ SS) by assumption.
    destruct (Z.eqb_spec j n) as [->|]; [rewrite Hp in Pn by lia; discriminate|].
    apply (si_dst_none _ _ I); [assumption|]. intros; apply Hp; lia.
  - intros j Hj1 Hj2 Pj. rewrite (ss_dst _ _ _ _ SS) by lia.
    destruct (Z.eqb_spec j n) as [->|]; [apply add_low; [apply step_t_page|zdm]|].
    apply (si_dst_flags _ _ I); auto; lia.
  - intros j Hj1 Hj2 Pj. rewrite step_child by assumption.
    destruct (Z.eqb_spec j n); [apply SS|]. apply (si_tab_free _ _ I); auto; lia.
  - intros j Hj1 Hj2 Pj. rewrite step_child by assumption.
    destruct (Z.eqb_spec j n); [apply SS|]. apply (si_tab_dst _ _ I); auto; lia.
  - rewrite (ss_used _ _ _ _ SS), (si_used _ _ I).
    rewrite (count_range_split 2 n (n + 1)), (count_range_cons n), Pn, (count_range_nil (n + 1)) by lia.
    lia.
  - rewrite R1. apply I.
  - rewrite R2. apply I.
  - rewrite R3. apply I.
Qed.

End Step.

(** ** Before the first iteration *)

Lemma share_inv_init s :
  fresh_frame (frames st0) (frames s) dst ->
  (forall j, 2 <= j < 1024 -> entry (ram s) dst j = 0) ->
  (forall x, pg x <> dst -> ld8 (ram s) x = ld8 (ram st0) x) ->
  cr3 s = cr3 st0 -> kernel_dir s = kernel_dir st0 -> tlb_log s = tlb_log st0 ->
  share_inv 2 s.
Proof.
  intros F Hz M C K L.
  assert (Hfree : was_free dst) by (split; assumption).
  assert (Hent : forall b k, page b -> held (frames st0) b -> 0 <= k < 1024 ->
            entry (ram s) b k = entry (ram st0) b k).
  { intros b k Hb Hh Hk. apply entry_ext; auto. intros x Hx. apply M. rewrite Hx.
    apply held_was_free; assumption. }
  constructor; auto; try (intros; lia).
  - apply F.
  - apply F.
  - intros j Hj. apply Hent; [apply (sp_page _ _ _ S0)|apply (sp_held _ _ _ S0)|assumption].
  - intros j k Hj Pj Hk. destruct (Z.ltb_spec j 2); [lia|].
    apply Hent; [apply slot_tab_page|apply (sp_tab_held _ _ _ S0); assumption|assumption].
  - intros x Hx _. apply M. apply held_was_free; assumption.
  - rewrite (ff_owners _ _ _ F), Z.eqb_refl by assumption. reflexivity.
  - intros f Hf Ho. rewrite (ff_owners _ _ _ F) by assumption.
    destruct (Z.eqb_spec dst f) as [<-|]; [lia|].
    pose proof (owners_range (frames st0) f W0). change (space_pages (ram st0) src 2) with (@nil Z).
    simpl. lia.
  - intros f Hf Ho. rewrite (ff_owners _ _ _ F) by assumption.
    destruct (Z.eqb_spec dst f) as [<-|]; [left; reflexivity|contradiction].
  - rewrite (ff_used _ _ _ F), count_range_nil by lia. lia.
Qed.

(** ** Tearing the child down again *)

Section Restore.
Context (n : Z) (s : machine) (Hn : 2 <= n <= 1024) (I : share_inv n s).

Lemma child_present j :
  2 <= j < 1024 -> slot_present (ram s) dst j = (j <? n) && pres j.
Proof.
  intros Hj. unfold slot_present at 1. destruct (Z.ltb_spec j n); simpl.
  - destruct (pres j) eqn:P.
    + unfold slot_present in P. unfold is_present in *.
      rewrite tst_low, (si_dst_flags _ _ I), <- tst_low by (flagc || auto; lia). assumption.
    + rewrite (si_dst_none _ _ I) by (auto; lia). reflexivity.
  - rewrite (si_dst_none _ _ I) by lia. reflexivity.
Qed.

Lemma child_frames j :
  2 <= j < n -> j < 1024 -> pres j = true ->
  table_frames (ram s) (child_tab s j) 1024 = table_frames (ram st0) (tab j) 1024.
Proof.
  intros Hj1 Hj2 Pj. apply table_frames_ext; [lia|]. intros k Hk.
  rewrite (si_child _ _ I) by assumption.
  rewrite child_of_present by apply entry_range. split; [reflexivity|].
  intros Pk. rewrite child_of_shared by assumption. apply shared_of_facts, entry_range.
Qed.

(** The frames the teardown will release: the shared pages once each, and the
    child's own tables. *)
Lemma child_count f i :
  count_in f (space_frames (ram s) dst (2 + Z.of_nat i))
  = count_in f (space_pages (ram st0) src (Z.min (2 + Z.of_nat i) n))
    + count_range 2 (Z.min (2 + Z.of_nat i) n) (fun j => pres j && (child_tab s j =? f))
  \/ 1024 < 2 + Z.of_nat i.
Proof.
  induction i as [|i IH].
  - left. rewrite Z.min_l, count_range_nil by lia. reflexivity.
  - destruct (Z.lt_ge_cases 1024 (2 + Z.of_nat (S i))); [right; assumption|left].
    destruct IH as [IH|]; [|lia]. set (j := 2 + Z.of_nat i) in *.
    replace (2 + Z.of_nat (S i)) with (j + 1) by lia.
    rewrite space_frames_snoc, count_in_app, IH, child_present by lia.
    destruct (Z.ltb_spec j n).
    + rewrite !Z.min_l by lia. rewrite space_pages_snoc, count_in_app by lia.
      rewrite (count_range_split 2 j (j + 1)), (count_range_cons j), (count_range_nil (j + 1)) by lia.
      destruct (pres j) eqn:Pj; simpl.
      * fold (child_tab s j). rewrite child_frames, count_in_app by (auto; lia). simpl. zcase; lia.
      * lia.
    + rewrite !Z.min_r by lia. simpl. lia.
Qed.

(** Destroying the child, finished or not, restores every reference count. *)
Lemma destroy_restores :
  dst <> 0 -> dst <> kernel_dir st0 ->
  let s' := vmm_destroy_dir s dst in
  pmm_wf (frames s') /\ total_frames (frames s') = total_frames (frames st0) /\
  (forall f, page f ->
     owners (frames st0) f + count_in f (space_pages (ram st0) src n) <= 255 ->
     owners (frames s') f = owners (frames st0) f) /\
  (forall x, pg x <> dst -> ld8 (ram s') x = ld8 (ram s) x).
Proof.
  intros H0 Hk.
  destruct (vmm_destroy_dir_eq s dst) as (Fr & M & _); auto.
  { rewrite (si_kernel _ _ I). assumption. }
  { intros j Hj Pj. rewrite child_present in Pj by assumption. b2p.
    apply (si_tab_dst _ _ I); auto; lia. }
  cbv zeta. rewrite Fr. split; [apply pmm_free_list_wf, I|].
  split; [rewrite pmm_free_list_total; apply I|]. split; [|assumption].
  intros f Hf Hsat. rewrite owners_free_list; [|apply I|assumption|].
  2:{ apply Forall_app. split; [apply space_frames_pages|]. constructor; [assumption|constructor]. }
  rewrite count_in_app. simpl. rewrite Z.add_0_r.
  destruct (child_count f 1022) as [E|]; [|lia].
  change (2 + Z.of_nat 1022) with 1024 in E. rewrite E, Z.min_r by lia.
  set (T := count_range 2 n _). assert (HT : 0 <= T) by (unfold T; apply count_range_bounds).
  pose proof (count_in_nonneg f (space_pages (ram st0) src n)) as Hc.
  pose proof (owners_range (frames st0) f W0) as R.
  destruct (Z.eq_dec (owners (frames st0) f) 0) as [Ho|Ho].
  - destruct (Z.eq_dec (owners (frames s) f) 0) as [Hz|Hz]; [rewrite Hz, Ho; zcase; lia|].
    destruct (si_new _ _ I f Hf Ho Hz) as [->|(j & Hj & Hj2 & Pj & ->)].
    + rewrite (si_dst_own _ _ I), Z.eqb_refl, Ho. lia.
    + rewrite (si_tab_own _ _ I), Ho by assumption.
      assert (1 <= T); [|zcase; lia]. unfold T.
      rewrite (count_range_split 2 j n), (count_range_cons j) by lia.
      rewrite Pj, Z.eqb_refl. simpl.
      pose proof (count_range_bounds j (fun i => pres i && (child_tab s i =? child_tab s j)) 2).
      pose proof (count_range_bounds n (fun i => pres i && (child_tab s i =? child_tab s j)) (j + 1)).
      lia.
  - assert (T0 : T = 0).
    { unfold T. apply count_range_none. intros j Hj. destruct (pres j) eqn:Pj; [|reflexivity].
      destruct (Z.eqb_spec (child_tab s j) f) as [<-|]; [|reflexivity].
      exfalso. apply Ho. apply (si_tab_free _ _ I); auto; lia. }
    destruct (Z.eqb_spec dst f) as [<-|]; [lia|].
    rewrite (si_owned _ _ I), T0 by (assumption || lia). lia.
Qed.

End Restore.

End Clone.
