(* ===== verification/VmmTheorems.v ===== *)
(** * Virtual memory manager: the properties

    What [vmm_map], [vmm_unmap], [vmm_clone_cow] and [vmm_cow_handle] promise
    to the rest of the kernel, stated with the kernel's own [vmm_translate]. *)

From stdpp Require Import base gmap list numbers option.
From Stdlib Require Import ZArith Lia Bool.
From S2P Require Import Prelude CString Pmm Vmm VmmLemmas VmmSpec VmmClone.

(** The allocator is consistent and the kernel directory is a static page
    below the pool. *)
Record machine_ok (st : machine) : Prop := {
  mo_pmm : pmm_wf (frames st);
  mo_kpage : page (kernel_dir st);
  mo_klow : 0 <= kernel_dir st < MANAGED_BASE
}.

(** The page-table entry of a virtual address, 0 when there is no table. *)
Definition pte (st : machine) (dir v : Z) : Z :=
  if slot_present (ram st) dir (DIR_INDEX v)
  then entry (ram st) (slot_tab (ram st) dir (DIR_INDEX v)) (TAB_INDEX v) else 0.

(** Can the address be written through this directory? *)
Definition writable (st : machine) (dir v : Z) : bool :=
  is_present (pte st dir v) && is_rw (pte st dir v).

(** No reference count of a page of [src] would pass 255. *)
Definition no_saturation (st : machine) (src : Z) : Prop :=
  forall f, page f -> owners (frames st) f + count_in f (space_pages (ram st) src 1024) <= 255.

(** ** Translation *)

Lemma low_held p f : f < MANAGED_BASE -> held p f.
Proof. intros H (i & Hi & E). pose proof (frame_addr_base i). lia. Qed.

Lemma vmm_translate_pte st d v :
  (slot_present (ram st) d (DIR_INDEX v) = true -> slot_tab (ram st) d (DIR_INDEX v) <> 0) ->
  vmm_translate st d v
  = if is_present (pte st d v) then FRAME_OF (pte st d v) + v mod 4096 else 0.
Proof.
  unfold vmm_translate, table_for, pte, slot_present, slot_tab, is_present.
  destruct (tst (entry (ram st) d (DIR_INDEX v)) PF_PRESENT) eqn:P; cbn [negb]; intros H.
  - specialize (H eq_refl). destruct (Z.eqb_spec (FRAME_OF (entry (ram st) d (DIR_INDEX v))) 0);
      [contradiction|].
    destruct (tst (entry _ _ (TAB_INDEX v)) PF_PRESENT); [|reflexivity]. cbn [negb].
    rewrite land_low12. apply lor_page; [apply entry_frame|zdm].
  - reflexivity.
Qed.

(** ** The outcome of a clone *)

Lemma space_pages_split m d a b :
  2 <= a <= b -> exists l, space_pages m d b = space_pages m d a ++ l.
Proof.
  intros H. unfold space_pages. replace (b - 2) with ((a - 2) + (b - a)) by lia.
  rewrite seqZ_app, flat_map_app by lia. eexists. reflexivity.
Qed.

Lemma space_pages_mono m d a b f :
  2 <= a <= b -> count_in f (space_pages m d a) <= count_in f (space_pages m d b).
Proof.
  intros H. destruct (space_pages_split m d a b H) as (l & ->). rewrite count_in_app.
  pose proof (count_in_nonneg f l). lia.
Qed.

(** The state of the allocator is what it was. *)
Definition same_accounting (st st' : machine) : Prop :=
  pmm_wf (frames st') /\ total_frames (frames st') = total_frames (frames st) /\
  (forall f, page f -> owners (frames st') f = owners (frames st) f) /\
  used_frames (frames st') = used_frames (frames st).

Lemma same_accounting_intro st st' :
  pmm_wf (frames st) -> pmm_wf (frames st') ->
  total_frames (frames st') = total_frames (frames st) ->
  (forall f, page f -> owners (frames st') f = owners (frames st) f) -> same_accounting st st'.
Proof.
  intros W W' Ht H. split; [assumption|]. split; [assumption|]. split; [assumption|].
  apply used_frames_ext; auto.
  intros f (i & _ & ->). apply H, frame_addr_page.
Qed.

(** How many page tables the address space has beyond the kernel's two slots. *)
Definition space_tables (m : mem) (d : Z) : Z := count_range 2 1024 (fun j => slot_present m d j).

(** A full pool is one in which every frame counts as used. *)
Lemma pool_full_used p :
  pmm_wf p -> (forall f, pool_frame p f -> 0 < owners p f) -> used_frames p = total_frames p.
Proof.
  intros W H. rewrite used_frames_owners by assumption. pose proof (wf_total p W).
  rewrite count_range_all; [lia|]. intros i Hi. apply Z.ltb_lt, H. exists i. auto.
Qed.

Lemma pool_used_le p : pmm_wf p -> 0 <= used_frames p <= total_frames p.
Proof.
  intros W. pose proof (wf_total p W). rewrite (wf_used p W).
  pose proof (count_range_bounds (total_frames p) (bit_test (bitmap p)) 0). lia.
Qed.

Lemma space_tables_slot m d n :
  2 <= n < 1024 -> slot_present m d n = true ->
  count_range 2 n (fun j => slot_present m d j) < space_tables m d.
Proof.
  intros Hn P. unfold space_tables.
  rewrite (count_range_split 2 n 1024), (count_range_cons n), P by lia.
  pose proof (count_range_bounds 1024 (fun j => slot_present m d j) (n + 1)). lia.
Qed.

(** The clone gives up with everything handed back. *)
Definition gave_up (st : machine) (src : Z) (st' : machine) (r : Z) : Prop :=
  r = 0 /\ same_accounting st st' /\
  total_frames (frames st) - used_frames (frames st) < 1 + space_tables (ram st) src.

(** One iteration either keeps the invariant or gives up. *)
Lemma share_slot_ok st src dst n s :
  machine_ok st -> space_wf (frames st) (ram st) src -> no_saturation st src ->
  page dst -> pool_frame (frames st) dst -> owners (frames st) dst = 0 -> dst <> 0 ->
  dst <> kernel_dir st -> 2 <= n < 1024 -> share_inv st src dst n s ->
  match share_slot src dst n s with
  | (s', None) => share_inv st src dst (n + 1) s'
  | (s', Some r) => gave_up st src s' r
  end.
Proof.
  intros [W Kp Kl] S Sat Hp Hpool Hfree H0 Hk Hn I. unfold share_slot.
  rewrite (si_src_dir _ _ _ _ _ I) by lia.
  fold (is_present (entry (ram st) src n)). fold (slot_present (ram st) src n).
  destruct (slot_present (ram st) src n) eqn:P; cbn [negb].
  - destruct (alloc_cases s (si_wf _ _ _ _ _ I)) as [[-> Hfull]|(p & t & -> & Ht & F)].
    + cbn [Z.eqb]. split; [reflexivity|].
      pose proof (pool_full_used _ (si_wf _ _ _ _ _ I) Hfull) as Hu.
      rewrite (si_used _ _ _ _ _ I), (si_total _ _ _ _ _ I) in Hu.
      pose proof (space_tables_slot (ram st) src n Hn P). split; [|lia].
      destruct (destroy_restores st src dst W Hp Hfree n s ltac:(lia) I H0 Hk) as (W' & T' & O' & _).
      apply same_accounting_intro; auto. intros f Hf. apply O'; [assumption|].
      specialize (Sat f Hf). pose proof (space_pages_mono (ram st) src n 1024 f ltac:(lia)). lia.
    + destruct (Z.eqb_spec t 0); [contradiction|].
      cbn [with_frames ram]. rewrite (si_src_dir _ _ _ _ _ I) by lia.
      eapply share_inv_step; eauto. fold (linked src dst n t p s). apply slot_shared_intro; auto.
  - apply share_inv_skip; assumption.
Qed.

Lemma clone_cow_outcome st src :
  machine_ok st -> space_wf (frames st) (ram st) src -> no_saturation st src -> src <> 0 ->
  let '(st', r) := vmm_clone_cow st src in
  gave_up st src st' r \/
  (r <> 0 /\ r <> kernel_dir st /\ page r /\ pool_frame (frames st) r /\
   owners (frames st) r = 0 /\ share_inv st src r 1024 st').
Proof.
  intros MO S Sat Hsrc. pose proof MO as [W Kp Kl]. unfold vmm_clone_cow.
  destruct (Z.eqb_spec src 0); [contradiction|].
  destruct (vmm_create_dir_cases st W) as
    [[-> Hfull]|(s & dst & -> & Hd & F & Hz & M & _ & C & K & L)].
  { left. split; [reflexivity|]. split; [apply same_accounting_intro; auto|].
    rewrite (pool_full_used _ W Hfull). unfold space_tables.
    pose proof (count_range_bounds 1024 (fun j => slot_present (ram st) src j) 2). lia. }
  destruct (Z.eqb_spec dst 0); [contradiction|].
  pose proof (ff_range _ _ _ F) as Hr. pose proof (ff_page _ _ _ F) as Hp.
  assert (Hk : dst <> kernel_dir st) by lia.
  pose proof (for_range_ret_ind (share_inv st src dst)
    (fun r s' => gave_up st src s' r) 2 1024 (share_slot src dst) s) as L1.
  destruct (for_range_ret 2 1024 (share_slot src dst) s) as [s' [r|]].
  - left. apply L1; [lia|apply share_inv_init; auto; apply F|].
    intros i t Hi I. apply share_slot_ok; auto; apply F.
  - right. repeat (split; [assumption || apply F|]). apply L1; [lia| |].
    + apply share_inv_init; auto; apply F.
    + intros i t Hi I. apply share_slot_ok; auto; apply F.
Qed.

(** ** The finished clone *)

Section Cloned.
Context (st st' : machine) (src dst : Z).
Context (S : space_wf (frames st) (ram st) src).
Context (I : share_inv st src dst 1024 st').

Abbreviation tab v := (slot_tab (ram st) src (DIR_INDEX v)).

Lemma cloned_pte v :
  2 <= DIR_INDEX v ->
  pte st' dst v = child_of (pte st src v) /\ pte st' src v = shared_of (pte st src v).
Proof.
  intros Hv. pose proof (DIR_INDEX_range v) as Hd. pose proof (TAB_INDEX_range v) as Ht.
  assert (Hsrc : slot_present (ram st') src (DIR_INDEX v) = slot_present (ram st) src (DIR_INDEX v))
    by (unfold slot_present; rewrite (si_src_dir _ _ _ _ _ I); auto; lia).
  assert (Htab : slot_tab (ram st') src (DIR_INDEX v) = tab v)
    by (unfold slot_tab; rewrite (si_src_dir _ _ _ _ _ I); auto; lia).
  unfold pte. rewrite (child_present st src dst 1024 st') by (auto; lia).
  rewrite Hsrc, Htab. destruct (Z.ltb_spec (DIR_INDEX v) 1024); [|lia]. cbn [andb].
  destruct (slot_present (ram st) src (DIR_INDEX v)) eqn:P; [|split; reflexivity].
  fold (child_tab dst st' (DIR_INDEX v)). rewrite (si_child _ _ _ _ _ I) by (auto; lia).
  rewrite (si_parent _ _ _ _ _ I) by (auto; lia).
  destruct (Z.ltb_spec (DIR_INDEX v) 1024); [split; reflexivity|lia].
Qed.

Lemma pte_range s d v : 0 <= pte s d v < 0x100000000.
Proof. unfold pte. destruct (slot_present _ _ _); [apply entry_range|lia]. Qed.

Lemma cloned_translate v :
  2 <= DIR_INDEX v -> pmm_wf (frames st) ->
  vmm_translate st' dst v = vmm_translate st src v /\
  vmm_translate st' src v = vmm_translate st src v.
Proof.
  intros Hv W. pose proof (DIR_INDEX_range v) as Hd.
  destruct (cloned_pte v Hv) as [E1 E2]. pose proof (pte_range st src v) as R.
  rewrite !vmm_translate_pte.
  - rewrite E1, E2. rewrite child_of_present by assumption.
    destruct (shared_of_facts _ R) as (P & Fr & _). rewrite P, Fr.
    destruct (is_present (pte st src v)) eqn:Pp; [|split; reflexivity].
    rewrite child_of_shared, Fr by assumption. split; reflexivity.
  - unfold slot_present, slot_tab. rewrite (si_src_dir _ _ _ _ _ I) by lia.
    apply (sp_tab_nz _ _ _ S). lia.
  - apply (sp_tab_nz _ _ _ S). lia.
  - rewrite (child_present st src dst 1024 st') by (auto; lia). intros P. b2p.
    fold (child_tab dst st' (DIR_INDEX v)).
    pose proof (si_tab_free _ _ _ _ _ I (DIR_INDEX v) ltac:(lia) ltac:(lia) ltac:(assumption)) as [Hp _].
    pose proof (pool_frame_range _ _ W Hp) as (R1 & _). unfold MANAGED_BASE in R1. lia.
Qed.

(** The bytes behind every mapped address are untouched. *)
Lemma cloned_data v :
  2 <= DIR_INDEX v -> is_present (pte st src v) = true ->
  ld8 (ram st') (vmm_translate st src v) = ld8 (ram st) (vmm_translate st src v).
Proof.
  intros Hv P. pose proof (DIR_INDEX_range v) as Hd. pose proof (TAB_INDEX_range v) as Ht.
  rewrite vmm_translate_pte, P by (apply (sp_tab_nz _ _ _ S); lia).
  unfold pte in *. destruct (slot_present (ram st) src (DIR_INDEX v)) eqn:Ps; [|discriminate].
  destruct (sp_data _ _ _ S (DIR_INDEX v) (TAB_INDEX v)) as (Hh & Hn & Hnt); auto; [lia|].
  set (f := FRAME_OF _) in *. assert (Hf : page f) by apply entry_frame.
  assert (Hpg : pg (f + v mod 4096) = f) by (apply pg_in; [assumption|zdm]).
  apply (si_mem _ _ _ _ _ I); rewrite Hpg; [assumption|]. intros j Hj1 Hj2 Pj. apply Hnt; [lia|assumption].
Qed.

Lemma cloned_readonly v :
  2 <= DIR_INDEX v -> writable st' dst v = false /\ writable st' src v = false.
Proof.
  intros Hv. destruct (cloned_pte v Hv) as [E1 E2]. pose proof (pte_range st src v) as R.
  destruct (shared_of_facts _ R) as (P & _ & Q). unfold writable. rewrite E1, E2.
  rewrite child_of_present, P by assumption.
  destruct (is_present (pte st src v)) eqn:Pp; [|split; reflexivity].
  rewrite child_of_shared by assumption. destruct (Q eq_refl) as [-> _]. split; reflexivity.
Qed.

End Cloned.
