(* ===== verification/VmmProps.v ===== *)
(** * Virtual memory manager: what it promises

    The theorems of vmm.c in terms of its own [vmm_translate]: mapping and
    unmapping, the copy-on-write clone, the write fault that separates two
    address spaces, and the accounting of frames on every path, failures
    included. *)

From stdpp Require Import base gmap list numbers option.
From Stdlib Require Import ZArith Lia Bool.
From S2P Require Import Prelude CString Pmm Vmm VmmLemmas VmmSpec VmmClone VmmTheorems.

(** ** Vocabulary *)

(** The directory and the page tables of an address space, as frames. *)
Definition slots (m : mem) (d : Z) : list Z := List.filter (slot_present m d) (seqZ 2 1022).
Definition metas (m : mem) (d : Z) : list Z := d :: map (slot_tab m d) (slots m d).

(** Two address spaces that share pages at most: no table of one is a table or
    a page of the other. *)
Record apart (m : mem) (d e : Z) : Prop := {
  ap_meta : forall f, In f (metas m d) -> ~ In f (metas m e);
  ap_left : forall f, In f (space_pages m d 1024) -> ~ In f (metas m e);
  ap_right : forall f, In f (space_pages m e 1024) -> ~ In f (metas m d)
}.

(** Every reference of the two spaces to a page is counted by the allocator. *)
Definition counted (st : machine) (d e : Z) : Prop :=
  forall f, page f ->
    count_in f (space_pages (ram st) d 1024) + count_in f (space_pages (ram st) e 1024)
    <= owners (frames st) f.

(** The faults [vmm_cow_handle] answers: a write to a present copy-on-write page. *)
Definition cow_fault (st : machine) (d v err : Z) : bool :=
  tst err 0x2 && is_present (pte st d v) && is_cow (pte st d v).

(** ** Executable checks of the well-formedness predicates *)

Definition heldb (p : pmm) (f : Z) : bool :=
  negb ((MANAGED_BASE <=? f) && (f mod 4096 =? 0) && (frame_index f <? total_frames p))
  || (0 <? owners p f).

Definition machine_okb (st : machine) : bool :=
  pmm_wfb (frames st) && (kernel_dir st mod 4096 =? 0) && (0 <=? kernel_dir st) &&
  (kernel_dir st <? MANAGED_BASE).

Definition data_okb (p : pmm) (m : mem) (d j k : Z) : bool :=
  if is_present (entry m (slot_tab m d j) k) then
    let f := FRAME_OF (entry m (slot_tab m d j) k) in
    heldb p f && negb (f =? d) && forallb (fun i => negb (f =? slot_tab m d i)) (slots m d)
  else true.

Definition slot_okb (p : pmm) (m : mem) (d j : Z) : bool :=
  let t := slot_tab m d j in
  heldb p t && negb (t =? 0) && negb (t =? d) &&
  forallb (fun i => (i =? j) || negb (slot_tab m d i =? t)) (slots m d) &&
  forallb (data_okb p m d j) (seqZ 0 1024).

Definition space_wfb (p : pmm) (m : mem) (d : Z) : bool :=
  (d mod 4096 =? 0) && (0 <=? d) && heldb p d && forallb (slot_okb p m d) (slots m d).

Definition no_saturationb (st : machine) (src : Z) : bool :=
  let l := space_pages (ram st) src 1024 in
  forallb (fun f => owners (frames st) f + count_in f l <=? 255) l.

Lemma heldb_sound p f : heldb p f = true -> held p f.
Proof.
  unfold heldb. intros H (i & Hi & ->). rewrite frame_index_addr in H.
  pose proof (frame_addr_base i ltac:(lia)). pose proof (frame_addr_page i) as Hp. rewrite Hp in H.
  destruct (Z.leb_spec MANAGED_BASE (frame_addr i)); [|lia].
  destruct (Z.ltb_spec i (total_frames p)); [|lia]. apply Z.ltb_lt. exact H.
Qed.

Lemma machine_okb_sound st : machine_okb st = true -> machine_ok st.
Proof.
  unfold machine_okb. intros H. b2p. constructor; [apply pmm_wfb_sound|unfold page|]; auto.
Qed.

Lemma slots_in m d j : In j (slots m d) <-> 2 <= j < 1024 /\ slot_present m d j = true.
Proof.
  unfold slots. rewrite filter_In, <- list_elem_of_In, elem_of_seqZ.
  split; intros [? ?]; split; auto; lia.
Qed.

Lemma slot_okb_sound p m d j :
  slot_okb p m d j = true ->
  let t := slot_tab m d j in
  held p t /\ t <> 0 /\ t <> d /\
  (forall i, In i (slots m d) -> i <> j -> slot_tab m d i <> t) /\
  (forall k, 0 <= k < 1024 -> data_okb p m d j k = true).
Proof.
  unfold slot_okb. intros H. b2p. repeat split; auto using heldb_sound.
  - intros i Hi Hij E. rewrite forallb_forall in H1. specialize (H1 i Hi).
    apply orb_true_iff in H1. destruct H1; b2p; congruence.
  - intros k Hk. rewrite forallb_seqZ in H0. apply H0. lia.
Qed.

Lemma space_wfb_sound p m d : space_wfb p m d = true -> space_wf p m d.
Proof.
  unfold space_wfb. intros H. b2p. rewrite forallb_forall in H0.
  assert (Hs : forall j, 2 <= j < 1024 -> slot_present m d j = true -> slot_okb p m d j = true)
    by (intros; apply H0, slots_in; auto).
  constructor; auto using heldb_sound.
  1-3: intros j Hj Pj; apply (slot_okb_sound _ _ _ _ (Hs j Hj Pj)).
  - intros i j Hi Hj Hij Pi Pj. apply (slot_okb_sound _ _ _ _ (Hs j Hj Pj)); [|assumption].
    apply slots_in. auto.
  - intros j k Hj Hk Pj Pk f. destruct (slot_okb_sound _ _ _ _ (Hs j Hj Pj)) as (_ & _ & _ & _ & D).
    specialize (D k Hk). unfold data_okb in D. rewrite Pk in D. fold f in D. b2p.
    split; [apply heldb_sound; assumption|]. split; [assumption|].
    intros i Hi Pi. assert (Hs' : In i (slots m d)) by (apply slots_in; auto).
    match goal with H : forallb _ (slots m d) = true |- _ =>
      rewrite forallb_forall in H; specialize (H i Hs') end.
    b2p. assumption.
Qed.

Lemma count_in_in f l : 0 < count_in f l -> In f l.
Proof.
  induction l as [|x l IH]; simpl; [lia|]. destruct (Z.eqb_spec x f); [left|right]; auto.
Qed.

Lemma no_saturationb_sound st src :
  pmm_wf (frames st) -> no_saturationb st src = true -> no_saturation st src.
Proof.
  unfold no_saturationb, no_saturation. intros W H f Hf. rewrite forallb_forall in H.
  pose proof (count_in_nonneg f (space_pages (ram st) src 1024)).
  pose proof (owners_range (frames st) f W).
  destruct (Z.eq_dec (count_in f (space_pages (ram st) src 1024)) 0); [lia|].
  apply Z.leb_le, H, count_in_in. lia.
Qed.

Definition mem_listb (f : Z) (l : list Z) : bool := existsb (Z.eqb f) l.
Definition disjointb (l1 l2 : list Z) : bool := forallb (fun f => negb (mem_listb f l2)) l1.

Definition apartb (m : mem) (d e : Z) : bool :=
  disjointb (metas m d) (metas m e) && disjointb (space_pages m d 1024) (metas m e) &&
  disjointb (space_pages m e 1024) (metas m d).

Definition countedb (st : machine) (d e : Z) : bool :=
  let l := space_pages (ram st) d 1024 in
  let l' := space_pages (ram st) e 1024 in
  forallb (fun f => count_in f l + count_in f l' <=? owners (frames st) f) (l ++ l').

Lemma disjointb_sound l1 l2 : disjointb l1 l2 = true -> forall f, In f l1 -> ~ In f l2.
Proof.
  unfold disjointb, mem_listb. rewrite forallb_forall. intros H f H1 H2.
  specialize (H f H1). apply negb_true_iff in H.
  assert (existsb (Z.eqb f) l2 = true); [|congruence].
  apply existsb_exists. exists f. split; [assumption|apply Z.eqb_refl].
Qed.

Lemma apartb_sound m d e : apartb m d e = true -> apart m d e.
Proof. unfold apartb. intros H. b2p. constructor; apply disjointb_sound; assumption. Qed.

Lemma countedb_sound st d e : pmm_wf (frames st) -> countedb st d e = true -> counted st d e.
Proof.
  unfold countedb, counted. intros W H f Hf. rewrite forallb_forall in H.
  set (l := space_pages (ram st) d 1024) in *. set (l' := space_pages (ram st) e 1024) in *.
  pose proof (count_in_nonneg f l). pose proof (count_in_nonneg f l').
  pose proof (owners_range (frames st) f W).
  destruct (Z.eq_dec (count_in f l + count_in f l') 0); [lia|].
  apply Z.leb_le, H, count_in_in. rewrite count_in_app. lia.
Qed.

(** ** Reading an address space that was not touched *)

(** The address split into directory index, table index and offset. *)
Lemma page_number v : 0 <= v < 0x100000000 -> v / 4096 = DIR_INDEX v * 1024 + TAB_INDEX v.
Proof.
  intros H. unfold DIR_INDEX, TAB_INDEX. change 0x3FF with (Z.ones 10).
  rewrite !Z.land_ones, !Z.shiftr_div_pow2 by lia.
  change (2 ^ 10) with 1024. change (2 ^ 22) with 4194304. change (2 ^ 12) with 4096. zdm.
Qed.

Lemma metas_dir m d : In d (metas m d).
Proof. left. reflexivity. Qed.

Lemma metas_tab m d j : 2 <= j < 1024 -> slot_present m d j = true -> In (slot_tab m d j) (metas m d).
Proof. intros Hj Pj. right. apply in_map, slots_in. auto. Qed.

Lemma metas_held p m d f : space_wf p m d -> In f (metas m d) -> page f /\ held p f.
Proof.
  intros S [<-|H]; [split; apply S|]. apply in_map_iff in H. destruct H as (j & <- & Hj).
  apply slots_in in Hj as [Hj Pj]. split; [apply slot_tab_page|apply (sp_tab_held _ _ _ S); auto].
Qed.

Lemma pte_page st d v :
  2 <= DIR_INDEX v -> is_present (pte st d v) = true ->
  In (FRAME_OF (pte st d v)) (space_pages (ram st) d 1024).
Proof.
  intros Hv P. pose proof (DIR_INDEX_range v) as Hd. pose proof (TAB_INDEX_range v) as Ht.
  unfold pte in *. destruct (slot_present (ram st) d (DIR_INDEX v)) eqn:Ps; [|discriminate].
  unfold space_pages. apply in_flat_map. exists (DIR_INDEX v).
  split; [apply list_elem_of_In, elem_of_seqZ; lia|]. rewrite Ps.
  unfold table_frames. apply in_flat_map. exists (TAB_INDEX v).
  split; [apply list_elem_of_In, elem_of_seqZ; lia|]. rewrite P. left. reflexivity.
Qed.

Lemma pages_held p m d f :
  space_wf p m d -> In f (space_pages m d 1024) -> held p f /\ ~ In f (metas m d).
Proof.
  intros S H. unfold space_pages in H. apply in_flat_map in H. destruct H as (j & Hj & Hf).
  apply list_elem_of_In, elem_of_seqZ in Hj.
  destruct (slot_present m d j) eqn:Pj; [|contradiction].
  apply table_frames_in in Hf. destruct Hf as (k & Hk & Pk & ->).
  destruct (sp_data _ _ _ S j k ltac:(lia) Hk Pj Pk) as (Hh & Hn & Hnt). split; [assumption|].
  intros [E|E]; [congruence|]. apply in_map_iff in E. destruct E as (i & E & Hi).
  apply slots_in in Hi as [Hi Pi]. apply (Hnt i Hi Pi). congruence.
Qed.

Lemma count_in_pos f l : In f l -> 0 < count_in f l.
Proof.
  induction l as [|x l IH]; simpl; [tauto|]. pose proof (count_in_nonneg f l).
  intros [->|H1]; [rewrite Z.eqb_refl; lia|]. specialize (IH H1). zcase; lia.
Qed.

(** Translations depend on the bytes of the directory and the tables only. *)
Lemma space_ext (m m' : mem) d v :
  page d -> 2 <= DIR_INDEX v ->
  (forall x, In (pg x) (metas m d) -> ld8 m' x = ld8 m x) ->
  entry m' d (DIR_INDEX v) = entry m d (DIR_INDEX v) /\
  (slot_present m d (DIR_INDEX v) = true ->
   entry m' (slot_tab m d (DIR_INDEX v)) (TAB_INDEX v)
   = entry m (slot_tab m d (DIR_INDEX v)) (TAB_INDEX v)).
Proof.
  intros Hp Hv H. pose proof (DIR_INDEX_range v). pose proof (TAB_INDEX_range v). split.
  - apply entry_ext; auto. intros x Hx. apply H. rewrite Hx. apply metas_dir.
  - intros P. apply entry_ext; auto with pyro. intros x Hx. apply H. rewrite Hx.
    apply metas_tab; [lia|assumption].
Qed.

Lemma pte_ext st st' d v :
  page d -> 2 <= DIR_INDEX v ->
  (forall x, In (pg x) (metas (ram st) d) -> ld8 (ram st') x = ld8 (ram st) x) ->
  pte st' d v = pte st d v /\ vmm_translate st' d v = vmm_translate st d v.
Proof.
  intros Hp Hv H. destruct (space_ext (ram st) (ram st') d v Hp Hv H) as [E1 E2].
  unfold pte, vmm_translate, table_for, slot_present, slot_tab, is_present in *. rewrite E1.
  destruct (tst (entry (ram st) d (DIR_INDEX v)) PF_PRESENT); cbn [negb]; [|auto].
  rewrite E2 by reflexivity. auto.
Qed.

(** ** Resolving a copy-on-write fault *)

(** What the faulting program and any other address space see afterwards. *)
Definition resolved (st : machine) (d e v : Z) (st' : machine) : Prop :=
  writable st' d v = true /\
  owners (frames st') (FRAME_OF (pte st' d v)) = 1 /\
  (forall v', 2 <= DIR_INDEX v' -> is_present (pte st d v') = true ->
     ld8 (ram st') (vmm_translate st' d v') = ld8 (ram st) (vmm_translate st d v')) /\
  (forall v' b, 2 <= DIR_INDEX v' -> is_present (pte st e v') = true ->
     let m := st8 (ram st') (vmm_translate st' d v) b in
     vmm_translate (with_ram st' m) e v' = vmm_translate st e v' /\
     ld8 m (vmm_translate st e v') = ld8 (ram st) (vmm_translate st e v')).

Section Resolve.
(** A successful fault at [v] in [d]: the pages [d]'s table and [nf] (the frame
    the address ends up on) are the only ones written. *)
Context (st st' : machine) (d v nf : Z).
Context (W : pmm_wf (frames st)) (S : space_wf (frames st) (ram st) d).
Context (Hv : 2 <= DIR_INDEX v) (P : is_present (pte st d v) = true).
Abbreviation j := (DIR_INDEX v).
Abbreviation k := (TAB_INDEX v).
Abbreviation t := (slot_tab (ram st) d (DIR_INDEX v)).
Abbreviation old := (FRAME_OF (pte st d v)).

Lemma fault_slot : slot_present (ram st) d j = true.
Proof. unfold pte in P. destruct (slot_present _ _ _); [reflexivity|discriminate]. Qed.

Context (Hnf : page nf) (Hnr : 0 <= nf <= 0xFFFFF000).
Context (Hnm : ~ In nf (metas (ram st) d)).
Context (Hent : forall b i, page b -> b <> nf -> 0 <= i < 1024 -> entry (ram st') b i
  = if (t =? b) && (k =? i) then nf + cow_flags (pte st d v) else entry (ram st) b i).
Context (Hmem : forall x, pg x <> t -> pg x <> nf -> ld8 (ram st') x = ld8 (ram st) x).
Context (Hcopy : forall o, 0 <= o < 4096 -> ld8 (ram st') (nf + o) = ld8 (ram st) (old + o)).
Context (Hother : nf = old \/ ~ In nf (space_pages (ram st) d 1024)).

Lemma resolved_dir i : 0 <= i < 1024 -> entry (ram st') d i = entry (ram st) d i.
Proof.
  intros Hi. rewrite Hent; [|apply (sp_page _ _ _ S)| |assumption].
  - destruct (Z.eqb_spec t d) as [E|]; [|reflexivity].
    exfalso. apply (sp_tab_dir _ _ _ S j); [pose proof (DIR_INDEX_range v); lia|apply fault_slot|assumption].
  - intros ->. apply Hnm, metas_dir.
Qed.

Lemma resolved_pte v' :
  2 <= DIR_INDEX v' ->
  pte st' d v' = if (DIR_INDEX v' =? j) && (TAB_INDEX v' =? k) then nf + cow_flags (pte st d v)
                 else pte st d v'.
Proof.
  intros Hv'. pose proof (DIR_INDEX_range v') as R1. pose proof (TAB_INDEX_range v') as R2.
  pose proof (DIR_INDEX_range v) as R3.
  unfold pte at 1 3. unfold slot_present, slot_tab. rewrite resolved_dir by assumption.
  fold (slot_present (ram st) d (DIR_INDEX v')). fold (slot_tab (ram st) d (DIR_INDEX v')).
  destruct (slot_present (ram st) d (DIR_INDEX v')) eqn:Ps.
  - rewrite Hent; [|apply slot_tab_page| |assumption].
    + rewrite (Z.eqb_sym (TAB_INDEX v')). destruct (Z.eqb_spec (DIR_INDEX v') j) as [->|N].
      * rewrite Z.eqb_refl. reflexivity.
      * destruct (Z.eqb_spec t (slot_tab (ram st) d (DIR_INDEX v'))) as [E|]; [|reflexivity].
        exfalso. revert E. apply (sp_tab_inj _ _ _ S); first [lia|assumption|apply fault_slot].
    + intros <-. apply Hnm, metas_tab; [lia|assumption].
  - destruct (Z.eqb_spec (DIR_INDEX v') j) as [E|]; [|reflexivity].
    rewrite E, fault_slot in Ps. discriminate.
Qed.

Lemma flags_frame : FRAME_OF (nf + cow_flags (pte st d v)) = nf.
Proof. apply FRAME_OF_add; auto. apply cow_flags_facts. Qed.

Lemma flags_bits :
  is_present (nf + cow_flags (pte st d v)) = true /\ is_rw (nf + cow_flags (pte st d v)) = true.
Proof.
  destruct (cow_flags_facts (pte st d v)) as (R & F1 & F2 & _).
  unfold is_present, is_rw in *. split; rewrite tst_low, add_low by (flagc || assumption).
  - rewrite F1. exact P.
  - exact F2.
Qed.

Lemma resolved_writable : writable st' d v = true /\ FRAME_OF (pte st' d v) = nf.
Proof.
  unfold writable. rewrite resolved_pte, !Z.eqb_refl by assumption. cbn [andb].
  destruct flags_bits as [-> ->]. split; [reflexivity|apply flags_frame].
Qed.

Lemma resolved_translate v' :
  2 <= DIR_INDEX v' ->
  vmm_translate st' d v' = if (DIR_INDEX v' =? j) && (TAB_INDEX v' =? k) then nf + v' mod 4096
                           else vmm_translate st d v'.
Proof.
  intros Hv'. pose proof (DIR_INDEX_range v') as R1. rewrite !vmm_translate_pte.
  - rewrite resolved_pte by assumption. destruct (_ && _)%bool; [|reflexivity].
    destruct flags_bits as [-> _]. rewrite flags_frame. reflexivity.
  - apply (sp_tab_nz _ _ _ S). lia.
  - unfold slot_present, slot_tab. rewrite resolved_dir by assumption. apply (sp_tab_nz _ _ _ S). lia.
Qed.

(** Every byte of the writer's own space reads as before. *)
Lemma resolved_data v' :
  2 <= DIR_INDEX v' -> is_present (pte st d v') = true ->
  ld8 (ram st') (vmm_translate st' d v') = ld8 (ram st) (vmm_translate st d v').
Proof.
  intros Hv' P'. pose proof (DIR_INDEX_range v') as R1.
  assert (Ht : forall x, slot_present (ram st) d (DIR_INDEX x) = true -> 2 <= DIR_INDEX x ->
     slot_tab (ram st) d (DIR_INDEX x) <> 0).
  { intros x Px Hx. apply (sp_tab_nz _ _ _ S); [|assumption]. pose proof (DIR_INDEX_range x). lia. }
  rewrite resolved_translate, (vmm_translate_pte st d v') by auto. rewrite P'.
  destruct (_ && _)%bool eqn:E.
  - b2p. rewrite Hcopy by zdm. unfold pte. rewrite H, H0. reflexivity.
  - pose proof (pte_page st d v' Hv' P') as Hin. pose proof (pages_held _ _ _ _ S Hin) as [_ Hnmeta].
    set (f := FRAME_OF (pte st d v')) in *. assert (Hf : page f).
    { unfold f, pte. destruct (slot_present _ _ _); [apply entry_frame|reflexivity]. }
    assert (Hpg : pg (f + v' mod 4096) = f) by (apply pg_in; [assumption|zdm]).
    assert (Nt : f <> t).
    { intros E'. apply Hnmeta. rewrite E'. apply metas_tab; [pose proof (DIR_INDEX_range v); lia|apply fault_slot]. }
    destruct (Z.eq_dec f nf) as [En|N]; [|apply Hmem; rewrite Hpg; assumption].
    rewrite En. destruct Hother as [->|Ho]; [apply Hcopy; zdm|]. exfalso. apply Ho. rewrite <- En. assumption.
Qed.

(** Another address space neither sees the fault nor a store to the new page. *)
Lemma resolved_isolated e v' b :
  space_wf (frames st) (ram st) e -> apart (ram st) d e ->
  ~ In nf (metas (ram st) e) -> ~ In nf (space_pages (ram st) e 1024) ->
  2 <= DIR_INDEX v' -> is_present (pte st e v') = true ->
  let m := st8 (ram st') (vmm_translate st' d v) b in
  vmm_translate (with_ram st' m) e v' = vmm_translate st e v' /\
  ld8 m (vmm_translate st e v') = ld8 (ram st) (vmm_translate st e v').
Proof.
  intros Se A N1 N2 Hv' P' m. pose proof (DIR_INDEX_range v) as R3. pose proof (DIR_INDEX_range v') as R1.
  assert (Htr : vmm_translate st' d v = nf + v mod 4096)
    by (rewrite resolved_translate, !Z.eqb_refl by assumption; reflexivity).
  assert (Hx : forall x, pg x <> t -> pg x <> nf -> ld8 m x = ld8 (ram st) x).
  { intros x Hxt Hxn. unfold m. rewrite Htr, ld8_st8.
    destruct (Z.eqb_spec (nf + v mod 4096) x) as [<-|]; [|apply Hmem; assumption].
    exfalso. apply Hxn. apply pg_in; [assumption|zdm]. }
  assert (Ht : In t (metas (ram st) d)) by (apply metas_tab; [lia|apply fault_slot]).
  split.
  - apply (pte_ext st (with_ram st' m) e v'); [apply Se|assumption|]. mcbn.
    intros x Hin. apply Hx; [|congruence]. intros E. apply (ap_meta _ _ _ A t Ht). congruence.
  - pose proof (pte_page st e v' Hv' P') as Hin.
    rewrite vmm_translate_pte, P' by (apply (sp_tab_nz _ _ _ Se); lia).
    assert (Hpg : pg (FRAME_OF (pte st e v') + v' mod 4096) = FRAME_OF (pte st e v')).
    { apply pg_in; [|zdm]. unfold pte. destruct (slot_present _ _ _); [apply entry_frame|reflexivity]. }
    apply Hx; rewrite Hpg; [|congruence]. intros E. apply (ap_right _ _ _ A _ Hin). congruence.
Qed.

Lemma resolved_intro e :
  space_wf (frames st) (ram st) e -> apart (ram st) d e ->
  ~ In nf (metas (ram st) e) -> ~ In nf (space_pages (ram st) e 1024) ->
  owners (frames st') nf = 1 -> resolved st d e v st'.
Proof.
  intros Se A N1 N2 Ho. destruct resolved_writable as [Hw Hf].
  split; [assumption|]. split; [rewrite Hf; assumption|].
  split; [exact resolved_data|]. intros v' b. apply resolved_isolated; assumption.
Qed.

End Resolve.

(** The handler in terms of the page-table entry of the faulting address. *)
Lemma vmm_cow_handle_eq st v err :
  vmm_cow_handle st v err
  = let d := active_dir st in
    let e := pte st d v in
    let frame := FRAME_OF e in
    let t := slot_tab (ram st) d (DIR_INDEX v) in
    if negb (cow_fault st d v err) then (st, 0)
    else if owners (frames st) frame <=? 1 then
      (vmm_flush (with_ram st (set_entry (ram st) t (TAB_INDEX v) (Z.lor frame (cow_flags e)))) v, 1)
    else
      let '(s, fresh) := alloc st in
      if fresh =? 0 then (s, 0)
      else
        (vmm_flush (with_ram (with_frames s (pmm_free (frames s) frame))
           (set_entry (memcpy (ram s) fresh frame PAGE_SIZE) t (TAB_INDEX v)
              (Z.lor fresh (cow_flags e)))) v, 1).
Proof.
  unfold vmm_cow_handle, cow_fault, pte, slot_present, slot_tab, is_present, is_cow, cow_flags.
  cbv zeta. destruct (tst err 2); [|reflexivity]. cbn [negb andb].
  destruct (tst (entry (ram st) (active_dir st) (DIR_INDEX v)) PF_PRESENT); [|reflexivity].
  cbn [negb andb].
  destruct (tst (entry (ram st) _ (TAB_INDEX v)) PF_PRESENT); [|reflexivity]. cbn [negb andb orb].
  destruct (tst (entry (ram st) _ (TAB_INDEX v)) PF_COW); reflexivity.
Qed.

Lemma lor_flags f e : page f -> Z.lor f (cow_flags e) = f + cow_flags e.
Proof. intros. apply lor_page; [assumption|apply cow_flags_facts]. Qed.

Lemma pte_frame_page st d v : page (FRAME_OF (pte st d v)).
Proof. unfold pte. destruct (slot_present _ _ _); [apply entry_frame|reflexivity]. Qed.

(** A page both spaces account for has at least as many owners. *)
Lemma counted_page st d e v :
  counted st d e -> 2 <= DIR_INDEX v -> is_present (pte st d v) = true ->
  let f := FRAME_OF (pte st d v) in
  1 <= owners (frames st) f /\
  (In f (space_pages (ram st) e 1024) -> 2 <= owners (frames st) f).
Proof.
  intros C Hv P f. pose proof (C f (pte_frame_page st d v)) as Hc.
  pose proof (count_in_pos _ _ (pte_page st d v Hv P)) as H1. fold f in H1.
  pose proof (count_in_nonneg f (space_pages (ram st) e 1024)).
  split; [lia|]. intros H2. apply count_in_pos in H2. lia.
Qed.

(** The last owner writes in place. *)
Lemma resolved_in_place st d e v :
  pmm_wf (frames st) -> space_wf (frames st) (ram st) d -> space_wf (frames st) (ram st) e ->
  apart (ram st) d e -> counted st d e -> 2 <= DIR_INDEX v -> is_present (pte st d v) = true ->
  owners (frames st) (FRAME_OF (pte st d v)) <= 1 ->
  resolved st d e v
    (vmm_flush (with_ram st (set_entry (ram st) (slot_tab (ram st) d (DIR_INDEX v)) (TAB_INDEX v)
       (FRAME_OF (pte st d v) + cow_flags (pte st d v)))) v).
Proof.
  intros W Sd Se A C Hv P Ho. set (nf := FRAME_OF (pte st d v)) in *.
  destruct (counted_page st d e v C Hv P) as [H1 H2]. fold nf in H1, H2.
  pose proof (pte_frame_page st d v) as Hp. fold nf in Hp.
  pose proof (FRAME_OF_range _ (pte_range st d v)) as Hr. fold nf in Hr.
  pose proof (pte_page st d v Hv P) as Hin. fold nf in Hin.
  pose proof (pages_held _ _ _ _ Sd Hin) as [_ Hm]. pose proof (cow_flags_facts (pte st d v)) as [Hfl _].
  pose proof (slot_tab_page (ram st) d (DIR_INDEX v)) as Ht. pose proof (TAB_INDEX_range v) as Hk.
  refine (resolved_intro st _ d v nf Sd Hv P Hp Hr Hm _ _ _ _ e Se A _ _ _); mcbn.
  - intros b i Hb _ Hi. rewrite entry_set by assumption. rewrite u32_small by lia. reflexivity.
  - intros x Hx _. apply ld8_set_entry; assumption.
  - intros o Hoo. apply ld8_set_entry; auto.
    fold nf. rewrite (proj2 (pg_in nf (nf + o) Hp)) by lia. intros E. apply Hm. rewrite E.
    apply metas_tab; [pose proof (DIR_INDEX_range v); lia|apply fault_slot; assumption].
  - left. reflexivity.
  - apply (ap_left _ _ _ A). assumption.
  - intros Hx. specialize (H2 Hx). lia.
  - lia.
Qed.

(** Otherwise the writer moves to a private copy. *)
Lemma resolved_copy st d e v p fresh :
  pmm_wf (frames st) -> space_wf (frames st) (ram st) d -> space_wf (frames st) (ram st) e ->
  apart (ram st) d e -> counted st d e -> 2 <= DIR_INDEX v -> is_present (pte st d v) = true ->
  fresh_frame (frames st) p fresh ->
  resolved st d e v
    (vmm_flush (with_ram (with_frames (with_frames st p) (pmm_free p (FRAME_OF (pte st d v))))
       (set_entry (memcpy (ram st) fresh (FRAME_OF (pte st d v)) PAGE_SIZE)
          (slot_tab (ram st) d (DIR_INDEX v)) (TAB_INDEX v) (fresh + cow_flags (pte st d v)))) v).
Proof.
  intros W Sd Se A C Hv P F. set (old := FRAME_OF (pte st d v)) in *.
  pose proof (ff_page _ _ _ F) as Hp. pose proof (ff_range _ _ _ F) as Hr.
  pose proof (ff_held _ _ _ F) as Hh. pose proof (pte_frame_page st d v) as Hpo. fold old in Hpo.
  pose proof (pte_page st d v Hv P) as Hin. fold old in Hin.
  pose proof (pages_held _ _ _ _ Sd Hin) as [Hho Hm]. pose proof (cow_flags_facts (pte st d v)) as [Hfl _].
  pose proof (slot_tab_page (ram st) d (DIR_INDEX v)) as Ht. pose proof (TAB_INDEX_range v) as Hk.
  assert (Hmeta : forall x, space_wf (frames st) (ram st) x -> ~ In fresh (metas (ram st) x)).
  { intros x Sx Hx. apply (Hh fresh); [|reflexivity]. apply (metas_held _ _ _ _ Sx Hx). }
  assert (Hpages : forall x, space_wf (frames st) (ram st) x -> ~ In fresh (space_pages (ram st) x 1024)).
  { intros x Sx Hx. apply (Hh fresh); [|reflexivity]. apply (pages_held _ _ _ _ Sx Hx). }
  assert (Htm : In (slot_tab (ram st) d (DIR_INDEX v)) (metas (ram st) d)).
  { apply metas_tab; [pose proof (DIR_INDEX_range v); lia|apply fault_slot; assumption]. }
  assert (Hcp : forall x, ld8 (memcpy (ram st) fresh old PAGE_SIZE) x
     = if pg x =? fresh then ld8 (ram st) (old + (x - fresh)) else ld8 (ram st) x).
  { intros x. apply ld8_copy_page; auto. intros E. apply (Hh old Hho). congruence. }
  unfold MANAGED_BASE in Hr. refine (resolved_intro st _ d v fresh Sd Hv P Hp _ (Hmeta d Sd) _ _ _ (or_intror (Hpages d Sd)) e
    Se A (Hmeta e Se) (Hpages e Se) _); mcbn; [lia| | | |].
  - intros b i Hb Nb Hi. rewrite entry_set, u32_small by (assumption || lia).
    destruct (_ && _)%bool; [reflexivity|]. apply entry_ext; auto. intros x Hx. rewrite Hcp.
    destruct (Z.eqb_spec (pg x) fresh); [congruence|reflexivity].
  - intros x Hxt Hxn. rewrite ld8_set_entry, Hcp by assumption.
    destruct (Z.eqb_spec (pg x) fresh); [contradiction|reflexivity].
  - intros o Ho. assert (Hpg : pg (fresh + o) = fresh) by (apply pg_in; [assumption|lia]).
    fold old. rewrite ld8_set_entry, Hcp, Hpg, Z.eqb_refl; auto; [f_equal; lia|].
    intros E. rewrite Hpg in E. apply (Hmeta d Sd). rewrite E. assumption.
  - rewrite owners_free, (ff_owners _ _ _ F), Z.eqb_refl by (auto; apply F).
    rewrite same_frame_aligned by (auto; unfold MANAGED_BASE; lia).
    destruct (Z.eqb_spec old fresh) as [E|]; [|reflexivity]. exfalso. apply (Hh old Hho). assumption.
Qed.

(** The cases of the handler. *)
Lemma vmm_cow_spec (st : machine) (e v err : Z) :
  machine_ok st ->
  space_wf (frames st) (ram st) (active_dir st) -> space_wf (frames st) (ram st) e ->
  apart (ram st) (active_dir st) e -> counted st (active_dir st) e -> 2 <= DIR_INDEX v ->
  let '(st', r) := vmm_cow_handle st v err in
  (r = 0 /\ st' = st /\
     (cow_fault st (active_dir st) v err = false \/
      (1 < owners (frames st) (FRAME_OF (pte st (active_dir st) v)) /\
       pmm_free_frames (frames st) = 0))) \/
  (r = 1 /\ cow_fault st (active_dir st) v err = true /\ tlb_log st' = Invlpg v :: tlb_log st /\
     resolved st (active_dir st) e v st').
Proof.
  intros MO Sd Se A C Hv. destruct MO as [W _ _]. rewrite vmm_cow_handle_eq. cbv zeta.
  destruct (cow_fault st (active_dir st) v err) eqn:Ef; cbn [negb]; [|auto].
  assert (P : is_present (pte st (active_dir st) v) = true) by (unfold cow_fault in Ef; b2p; assumption).
  destruct (Z.leb_spec (owners (frames st) (FRAME_OF (pte st (active_dir st) v))) 1).
  - right. rewrite lor_flags by apply pte_frame_page. auto using resolved_in_place.
  - destruct (alloc_cases st W) as [[-> Hfull]|(p & fresh & -> & Hf & F)].
    + left. cbn [Z.eqb]. unfold pmm_free_frames. rewrite (pool_full_used _ W Hfull), Z.sub_diag. auto.
    + destruct (Z.eqb_spec fresh 0); [contradiction|]. right. mcbn.
      rewrite lor_flags by apply F. split; [reflexivity|]. split; [reflexivity|]. split; [reflexivity|].
      apply resolved_copy; assumption.
Qed.

(** C16. The copy-on-write fault.  [vmm_cow_handle] answers a write fault exactly
    when the page is present and copy-on-write and a frame can be found if one
    is needed; otherwise it changes nothing.  When it answers, the page is
    writable and has this one owner, every byte of the faulting address space
    reads as before, and a store to the page is invisible through every other
    address space. *)
Theorem vmm_cow_handle_isolates (st : machine) (e v err : Z) :
  machine_ok st ->
  space_wf (frames st) (ram st) (active_dir st) -> space_wf (frames st) (ram st) e ->
  apart (ram st) (active_dir st) e -> counted st (active_dir st) e -> 2 <= DIR_INDEX v ->
  let '(st', r) := vmm_cow_handle st v err in
  (r = 0 /\ st' = st /\
     (cow_fault st (active_dir st) v err = false \/
      (1 < owners (frames st) (FRAME_OF (pte st (active_dir st) v)) /\
       pmm_free_frames (frames st) = 0))) \/
  (r = 1 /\ cow_fault st (active_dir st) v err = true /\ tlb_log st' = Invlpg v :: tlb_log st /\
     resolved st (active_dir st) e v st').
Proof. exact (vmm_cow_spec st e v err). Qed.

(** ** The copy-on-write clone *)

Lemma free_frames_eq p : pmm_wf p -> pmm_free_frames p = total_frames p - used_frames p.
Proof.
  intros W. pose proof (pool_used_le p W). pose proof (wf_total p W). unfold MAX_FRAMES in *.
  apply u32_small. lia.
Qed.

(** What a finished clone looks like from both sides. *)
Definition cow_twins (st : machine) (src : Z) (st' : machine) (child : Z) : Prop :=
  used_frames (frames st') = used_frames (frames st) + 1 + space_tables (ram st) src /\
  (forall f, page f -> 0 < owners (frames st) f ->
     owners (frames st') f
     = owners (frames st) f + count_in f (space_pages (ram st) src 1024)) /\
  (forall v, 2 <= DIR_INDEX v ->
     vmm_translate st' child v = vmm_translate st src v /\
     vmm_translate st' src v = vmm_translate st src v /\
     writable st' child v = false /\ writable st' src v = false /\
     (is_present (pte st src v) = true ->
      ld8 (ram st') (vmm_translate st src v) = ld8 (ram st) (vmm_translate st src v))).

(** C14. Fork by sharing.  [vmm_clone_cow] succeeds exactly when the pool has a
    frame for the new directory and one per page table of the parent.  The
    child then translates every address above the kernel slots as the parent
    did, the parent's own translation and bytes are unchanged, neither side can
    write any page, and every shared page has gained one owner per mapping. *)
Theorem vmm_clone_cow_shares (st : machine) (src : Z) :
  machine_ok st -> space_wf (frames st) (ram st) src -> no_saturation st src -> src <> 0 ->
  let '(st', child) := vmm_clone_cow st src in
  (child <> 0 <-> 1 + space_tables (ram st) src <= pmm_free_frames (frames st)) /\
  (child <> 0 -> cow_twins st src st' child).
Proof.
  intros MO S Sat Hsrc. pose proof (clone_cow_outcome st src MO S Sat Hsrc) as O.
  rewrite free_frames_eq by apply MO. destruct (vmm_clone_cow st src) as [st' child].
  destruct O as [(-> & _ & Hlt)|(Hc & Hk & Hp & Hpool & Ho & I)]; [split; [lia|congruence]|].
  pose proof (pool_used_le _ (si_wf _ _ _ _ _ I)) as Hle.
  pose proof (si_used _ _ _ _ _ I) as Hu. rewrite (si_total _ _ _ _ _ I) in Hle.
  fold (space_tables (ram st) src) in Hu. split; [split; [lia|auto]|]. intros _.
  split; [assumption|]. split.
  - intros f Hf Hof. rewrite (si_owned _ _ _ _ _ I f Hf Hof). specialize (Sat f Hf). lia.
  - intros v Hv. destruct (cloned_translate st st' src child S I v Hv (mo_pmm _ MO)) as [-> ->].
    destruct (cloned_readonly st st' src child I v Hv) as [-> ->].
    repeat (split; [reflexivity|]). intros P. apply (cloned_data st st' src child S I v Hv P).
Qed.

(** C15. No frame is lost by a fork: when [vmm_clone_cow] fails, and when it
    succeeds and the child is destroyed, every reference count and the number
    of used frames are what they were before. *)
Theorem vmm_clone_cow_no_leak (st : machine) (src : Z) :
  machine_ok st -> space_wf (frames st) (ram st) src -> no_saturation st src -> src <> 0 ->
  let '(st', child) := vmm_clone_cow st src in
  same_accounting st (if child =? 0 then st' else vmm_destroy_dir st' child).
Proof.
  intros MO S Sat Hsrc. pose proof (clone_cow_outcome st src MO S Sat Hsrc) as O.
  destruct (vmm_clone_cow st src) as [st' child].
  destruct O as [(-> & H & _)|(Hc & Hk & Hp & Hpool & Ho & I)]; [assumption|].
  destruct (Z.eqb_spec child 0); [contradiction|]. pose proof (mo_pmm _ MO) as W.
  destruct (destroy_restores st src child W Hp Ho 1024 st' ltac:(lia) I Hc Hk) as (W' & T' & O' & _).
  apply same_accounting_intro; auto.
Qed.

(** ** Mapping and unmapping *)

(** Writing one entry of the table of slot [DIR_INDEX v]. *)
Section SetPte.
Context (st st' : machine) (d v e : Z).
Context (S : space_wf (frames st) (ram st) d) (Hv : 2 <= DIR_INDEX v).
Context (Ps : slot_present (ram st) d (DIR_INDEX v) = true) (He : 0 <= e < 0x100000000).
Abbreviation t := (slot_tab (ram st) d (DIR_INDEX v)).
Context (Hram : ram st' = set_entry (ram st) t (TAB_INDEX v) e).

Lemma set_pte_dir i : 0 <= i < 1024 -> entry (ram st') d i = entry (ram st) d i.
Proof.
  intros Hi. pose proof (DIR_INDEX_range v). rewrite Hram, entry_set by (side || apply S).
  destruct (Z.eqb_spec t d) as [E|]; [|reflexivity].
  exfalso. apply (sp_tab_dir _ _ _ S (DIR_INDEX v)); [lia|assumption|assumption].
Qed.

Lemma set_pte v' :
  2 <= DIR_INDEX v' ->
  pte st' d v' = if (DIR_INDEX v' =? DIR_INDEX v) && (TAB_INDEX v' =? TAB_INDEX v) then e
                 else pte st d v'.
Proof.
  intros Hv'. pose proof (DIR_INDEX_range v') as R1. pose proof (DIR_INDEX_range v) as R3.
  unfold pte, slot_present, slot_tab. rewrite set_pte_dir by assumption.
  fold (slot_present (ram st) d (DIR_INDEX v')). fold (slot_tab (ram st) d (DIR_INDEX v')).
  destruct (slot_present (ram st) d (DIR_INDEX v')) eqn:P.
  - rewrite Hram, entry_set, u32_small by side. rewrite (Z.eqb_sym (TAB_INDEX v')).
    destruct (Z.eqb_spec (DIR_INDEX v') (DIR_INDEX v)) as [->|N]; [rewrite Z.eqb_refl; reflexivity|].
    destruct (Z.eqb_spec t (slot_tab (ram st) d (DIR_INDEX v'))) as [E|]; [|reflexivity].
    exfalso. revert E. apply (sp_tab_inj _ _ _ S); first [lia|assumption|congruence].
  - destruct (Z.eqb_spec (DIR_INDEX v') (DIR_INDEX v)) as [E|]; [|reflexivity].
    rewrite E, Ps in P. discriminate.
Qed.

Lemma set_pte_translate v' :
  2 <= DIR_INDEX v' ->
  vmm_translate st' d v' = if (DIR_INDEX v' =? DIR_INDEX v) && (TAB_INDEX v' =? TAB_INDEX v)
                           then (if is_present e then FRAME_OF e + v' mod 4096 else 0)
                           else vmm_translate st d v'.
Proof.
  intros Hv'. pose proof (DIR_INDEX_range v') as R1. rewrite !vmm_translate_pte.
  - rewrite set_pte by assumption. destruct (_ && _)%bool; reflexivity.
  - apply (sp_tab_nz _ _ _ S). lia.
  - unfold slot_present, slot_tab. rewrite set_pte_dir by assumption. apply (sp_tab_nz _ _ _ S). lia.
Qed.

End SetPte.

(** The flag words [table_for] and [vmm_map] write. *)
Lemma table_word f flags :
  page f ->
  Z.lor (Z.lor (Z.lor f PF_PRESENT) PF_RW) (Z.land flags PF_USER)
  = f + Z.lor 3 (Z.land (flags mod 4096) PF_USER) /\
  (0 <= Z.lor 3 (Z.land (flags mod 4096) PF_USER) < 4096) /\
  tst (Z.lor 3 (Z.land (flags mod 4096) PF_USER)) PF_PRESENT = true.
Proof.
  intros Hf.
  pose proof (range_check 4096 (fun x => let y := Z.lor 3 (Z.land x PF_USER) in
    (0 <=? y) && (y <? 4096) && tst y PF_PRESENT) ltac:(vm_compute; reflexivity)
    (flags mod 4096) ltac:(zdm)) as H. cbv beta zeta in H. b2p.
  split; [|auto]. rewrite <- !Z.lor_assoc.
  replace (Z.land flags PF_USER) with (Z.land (flags mod 4096) PF_USER)
    by (rewrite <- land_low12, <- Z.land_assoc; reflexivity).
  rewrite (Z.lor_assoc PF_PRESENT). apply lor_page; auto.
Qed.

Lemma map_word f flags :
  page f ->
  Z.lor (Z.lor f (Z.land flags 0xFFF)) PF_PRESENT = f + Z.lor (flags mod 4096) PF_PRESENT /\
  (0 <= Z.lor (flags mod 4096) PF_PRESENT < 4096) /\
  tst (Z.lor (flags mod 4096) PF_PRESENT) PF_PRESENT = true.
Proof.
  intros Hf.
  pose proof (range_check 4096 (fun x => let y := Z.lor x PF_PRESENT in
    (0 <=? y) && (y <? 4096) && tst y PF_PRESENT) ltac:(vm_compute; reflexivity)
    (flags mod 4096) ltac:(zdm)) as H. cbv beta zeta in H. b2p.
  split; [|auto]. rewrite land_low12, <- Z.lor_assoc. apply lor_page; auto.
Qed.

(** The machine after [table_for] has linked the new, zeroed table [t]. *)
Section NewTable.
Context (st : machine) (d v t x : Z) (p : pmm).
Context (S : space_wf (frames st) (ram st) d) (Hv : 2 <= DIR_INDEX v).
Context (Pn : slot_present (ram st) d (DIR_INDEX v) = false).
Context (F : fresh_frame (frames st) p t) (Hx : 0 <= x < 4096) (Px : tst x PF_PRESENT = true).

Definition with_table : machine :=
  with_ram (with_frames st p)
    (set_entry (memset (ram st) t 0 PAGE_SIZE) d (DIR_INDEX v) (t + x)).

Lemma fresh_not_dir : t <> d.
Proof. intros E. apply (ff_held _ _ _ F d (sp_held _ _ _ S)). congruence. Qed.

Lemma with_table_mem a : pg a <> t -> pg a <> d -> ld8 (ram with_table) a = ld8 (ram st) a.
Proof.
  intros H1 H2. pose proof (DIR_INDEX_range v). unfold with_table. mcbn.
  rewrite ld8_set_entry, ld8_zero_page by (auto; apply F || apply S).
  destruct (Z.eqb_spec (pg a) t); [contradiction|reflexivity].
Qed.

Lemma with_table_entry b i :
  page b -> 0 <= i < 1024 ->
  entry (ram with_table) b i
  = if (d =? b) && (DIR_INDEX v =? i) then t + x else if t =? b then 0 else entry (ram st) b i.
Proof.
  intros Hb Hi. pose proof (DIR_INDEX_range v) as Hr. pose proof (ff_range _ _ _ F) as Ht.
  unfold with_table. mcbn. rewrite entry_set by (auto; apply S).
  rewrite (entry_zero_page (ram st) t b i) by (auto; apply F). rewrite u32_small by (unfold MANAGED_BASE in *; lia).
  reflexivity.
Qed.

Lemma with_table_slot j :
  0 <= j < 1024 ->
  entry (ram with_table) d j = if DIR_INDEX v =? j then t + x else entry (ram st) d j.
Proof.
  intros Hj. rewrite with_table_entry by (auto; apply S). rewrite Z.eqb_refl. cbn [andb].
  pose proof fresh_not_dir. destruct (Z.eqb_spec t d); [contradiction|reflexivity].
Qed.

Lemma with_table_present j :
  0 <= j < 1024 ->
  slot_present (ram with_table) d j = (DIR_INDEX v =? j) || slot_present (ram st) d j.
Proof.
  intros Hj. unfold slot_present. rewrite with_table_slot by assumption.
  destruct (Z.eqb_spec (DIR_INDEX v) j); [|reflexivity]. unfold is_present.
  rewrite tst_low, add_low by (flagc || auto; apply F). assumption.
Qed.

Lemma with_table_tab j :
  0 <= j < 1024 -> slot_tab (ram with_table) d j = if DIR_INDEX v =? j then t else slot_tab (ram st) d j.
Proof.
  intros Hj. unfold slot_tab. rewrite with_table_slot by assumption.
  destruct (Z.eqb_spec (DIR_INDEX v) j); [|reflexivity].
  pose proof (ff_range _ _ _ F) as Ht. unfold MANAGED_BASE in Ht.
  apply FRAME_OF_add; auto; [lia|apply F].
Qed.

(** Each old table is still there, distinct from the new one, unchanged. *)
Lemma with_table_old j i :
  2 <= j < 1024 -> slot_present (ram st) d j = true -> 0 <= i < 1024 ->
  DIR_INDEX v <> j /\ slot_tab (ram st) d j <> t /\
  entry (ram with_table) (slot_tab (ram st) d j) i = entry (ram st) (slot_tab (ram st) d j) i.
Proof.
  intros Hj Pj Hi. split; [congruence|].
  assert (N : slot_tab (ram st) d j <> t)
    by (apply (ff_held _ _ _ F), (sp_tab_held _ _ _ S); assumption).
  split; [assumption|]. rewrite with_table_entry by auto with pyro.
  destruct (Z.eqb_spec d (slot_tab (ram st) d j)) as [E|].
  - exfalso. apply (sp_tab_dir _ _ _ S j Hj Pj). congruence.
  - cbn [andb]. destruct (Z.eqb_spec t (slot_tab (ram st) d j)); [congruence|reflexivity].
Qed.

Lemma with_table_new i : 0 <= i < 1024 -> entry (ram with_table) t i = 0.
Proof.
  intros Hi. rewrite with_table_entry by (auto; apply F). pose proof fresh_not_dir.
  destruct (Z.eqb_spec d t); [congruence|]. cbn [andb]. rewrite Z.eqb_refl. reflexivity.
Qed.

Lemma held_new g : page g -> held (frames st) g -> held p g.
Proof. intros Hg. apply (held_fresh _ _ _ _ Hg F). Qed.

Lemma new_held : held p t.
Proof. intros _. rewrite (ff_owners _ _ _ F), Z.eqb_refl by apply F. lia. Qed.

Lemma with_table_wf : space_wf p (ram with_table) d.
Proof.
  assert (Hcase : forall j, 2 <= j < 1024 -> slot_present (ram with_table) d j = true ->
    (DIR_INDEX v = j /\ slot_tab (ram with_table) d j = t) \/
    (slot_present (ram st) d j = true /\ slot_tab (ram with_table) d j = slot_tab (ram st) d j /\
     slot_tab (ram st) d j <> t)).
  { intros j Hj Pj. rewrite with_table_present in Pj by lia. rewrite with_table_tab by lia.
    destruct (Z.eqb_spec (DIR_INDEX v) j); [left; auto|right]. cbn [orb] in Pj.
    destruct (with_table_old j 0 Hj Pj ltac:(lia)) as (_ & N & _). auto. }
  pose proof fresh_not_dir as Nd. pose proof (ff_range _ _ _ F) as Hr. unfold MANAGED_BASE in Hr.
  constructor; try apply S.
  - apply held_new; apply S.
  - intros j Hj Pj. destruct (Hcase j Hj Pj) as [[_ ->]|(P & -> & _)]; [apply new_held|].
    apply held_new; [apply slot_tab_page|apply (sp_tab_held _ _ _ S); assumption].
  - intros j Hj Pj. destruct (Hcase j Hj Pj) as [[_ ->]|(P & -> & _)]; [lia|].
    apply (sp_tab_nz _ _ _ S); assumption.
  - intros j Hj Pj. destruct (Hcase j Hj Pj) as [[_ ->]|(P & -> & _)]; [assumption|].
    apply (sp_tab_dir _ _ _ S); assumption.
  - intros i j Hi Hj Hij Pi Pj.
    destruct (Hcase i Hi Pi) as [[Ei ->]|(Qi & -> & Ni)], (Hcase j Hj Pj) as [[Ej ->]|(Qj & -> & Nj)];
      try congruence. apply (sp_tab_inj _ _ _ S); assumption.
  - intros j k Hj Hk Pj. destruct (Hcase j Hj Pj) as [[_ ->]|(P & -> & Nt)].
    + rewrite with_table_new by assumption. discriminate.
    + destruct (with_table_old j k Hj P Hk) as (_ & _ & ->). intros Pk.
      destruct (sp_data _ _ _ S j k Hj Hk P Pk) as (Hh & Hn & Hnt). cbv zeta.
      split; [apply held_new; [apply entry_frame|assumption]|]. split; [assumption|].
      intros i Hi Pi. destruct (Hcase i Hi Pi) as [[_ ->]|(Q & -> & _)]; [|apply Hnt; assumption].
      apply (ff_held _ _ _ F). assumption.
Qed.

Lemma with_table_pte v' : 2 <= DIR_INDEX v' -> pte with_table d v' = pte st d v'.
Proof.
  intros Hv'. pose proof (DIR_INDEX_range v') as R. pose proof (TAB_INDEX_range v') as Rt.
  unfold pte. rewrite with_table_present, with_table_tab by assumption.
  destruct (Z.eqb_spec (DIR_INDEX v) (DIR_INDEX v')) as [<-|N]; cbn [orb].
  - rewrite Pn. apply with_table_new. assumption.
  - destruct (slot_present (ram st) d (DIR_INDEX v')) eqn:P; [|reflexivity].
    apply with_table_old; [lia|assumption|assumption].
Qed.

Lemma with_table_translate v' :
  2 <= DIR_INDEX v' -> vmm_translate with_table d v' = vmm_translate st d v'.
Proof.
  intros Hv'. pose proof (DIR_INDEX_range v'). rewrite !vmm_translate_pte.
  - rewrite with_table_pte by assumption. reflexivity.
  - apply (sp_tab_nz _ _ _ S). lia.
  - apply (sp_tab_nz _ _ _ with_table_wf). lia.
Qed.

End NewTable.

(** Memory that is neither free nor a table of the space keeps its bytes. *)
Definition data_kept (st : machine) (d : Z) (st' : machine) : Prop :=
  forall x, held (frames st) (pg x) -> ~ In (pg x) (metas (ram st) d) ->
    ld8 (ram st') x = ld8 (ram st) x.

(** The table of [v] is found or made, and nothing visible changes. *)
Definition has_table (st : machine) (d v : Z) (st1 : machine) (tab : Z) : Prop :=
  tab <> 0 /\ space_wf (frames st1) (ram st1) d /\ slot_present (ram st1) d (DIR_INDEX v) = true /\
  tab = slot_tab (ram st1) d (DIR_INDEX v) /\ tlb_log st1 = tlb_log st /\
  (forall v', 2 <= DIR_INDEX v' ->
     vmm_translate st1 d v' = vmm_translate st d v' /\ pte st1 d v' = pte st d v') /\
  used_frames (frames st1) = used_frames (frames st)
    + (if slot_present (ram st) d (DIR_INDEX v) then 0 else 1) /\
  data_kept st d st1 /\ (In tab (metas (ram st) d) \/ ~ held (frames st) tab).

Lemma table_for_create st d v flags :
  pmm_wf (frames st) -> space_wf (frames st) (ram st) d -> 2 <= DIR_INDEX v ->
  let '(st1, tab) := table_for st d v true flags in
  (tab = 0 /\ st1 = st /\ slot_present (ram st) d (DIR_INDEX v) = false /\
     forall f, pool_frame (frames st) f -> 0 < owners (frames st) f) \/
  has_table st d v st1 tab.
Proof.
  intros W S Hv. pose proof (DIR_INDEX_range v) as R. unfold table_for, has_table.
  fold (is_present (entry (ram st) d (DIR_INDEX v))). fold (slot_present (ram st) d (DIR_INDEX v)).
  destruct (slot_present (ram st) d (DIR_INDEX v)) eqn:P; cbn [negb].
  - right. fold (slot_tab (ram st) d (DIR_INDEX v)).
    split; [apply (sp_tab_nz _ _ _ S); [lia|assumption]|]. unfold data_kept.
    repeat (split; [auto with lia|]). left. apply metas_tab; [lia|assumption].
  - destruct (alloc_cases st W) as [[-> Hf]|(p & t & -> & Ht & F)]; [left; auto|].
    destruct (Z.eqb_spec t 0); [contradiction|].
    destruct (table_word t flags (ff_page _ _ _ F)) as (-> & Hx & Px).
    set (x := Z.lor 3 _) in *. right.
    change (with_ram (with_frames st p) _) with (with_table st d v t x p).
    pose proof (with_table_tab st d v t x p S F Hx (DIR_INDEX v) R) as Et.
    rewrite Z.eqb_refl in Et. unfold slot_tab in Et at 1. change (FRAME_OF _) with
      (FRAME_OF (entry (ram (with_table st d v t x p)) d (DIR_INDEX v))). rewrite Et.
    split; [assumption|]. split; [apply with_table_wf; assumption|].
    split; [rewrite with_table_present by assumption; rewrite Z.eqb_refl; reflexivity|].
    split; [symmetry; exact Et|]. split; [reflexivity|]. split; [|split; [apply F|split]].
    + intros v' Hv'. split; [apply with_table_translate|apply with_table_pte]; assumption.
    + intros a Ha Hm. apply with_table_mem; [assumption|assumption| |].
      * apply (ff_held _ _ _ F). assumption.
      * intros E. apply Hm. rewrite E. apply metas_dir.
    + right. intros Hh. apply (ff_held _ _ _ F t Hh). reflexivity.
Qed.

Lemma table_for_lookup st d v flags :
  table_for st d v false flags
  = (st, if slot_present (ram st) d (DIR_INDEX v) then slot_tab (ram st) d (DIR_INDEX v) else 0).
Proof.
  unfold table_for, slot_present, slot_tab, is_present.
  destruct (tst (entry (ram st) d (DIR_INDEX v)) PF_PRESENT); reflexivity.
Qed.

Lemma vmm_map_spec (st : machine) (d v phys flags : Z) :
  pmm_wf (frames st) -> space_wf (frames st) (ram st) d -> 2 <= DIR_INDEX v ->
  0 <= phys < 0x100000000 ->
  let '(st', r) := vmm_map st d v phys flags in
  (r = -1 /\ st' = st /\ slot_present (ram st) d (DIR_INDEX v) = false /\
     pmm_free_frames (frames st) = 0) \/
  (r = 0 /\ vmm_translate st' d v = FRAME_OF phys + v mod 4096 /\
     pte st' d v = FRAME_OF phys + Z.lor (flags mod 4096) PF_PRESENT /\
     (forall v', 2 <= DIR_INDEX v' ->
        DIR_INDEX v' <> DIR_INDEX v \/ TAB_INDEX v' <> TAB_INDEX v ->
        vmm_translate st' d v' = vmm_translate st d v') /\
     tlb_log st' = Invlpg v :: tlb_log st /\ data_kept st d st').
Proof.
  intros W S Hv Hp. unfold vmm_map. pose proof (table_for_create st d v flags W S Hv) as T.
  destruct (table_for st d v true flags) as [st1 tab].
  destruct T as [(-> & -> & Pn & Hf)|(Ht & S1 & P1 & -> & L & Htr & _ & Hd & Htab)].
  { left. unfold pmm_free_frames. rewrite (pool_full_used _ W Hf), Z.sub_diag. auto. }
  destruct (Z.eqb_spec (slot_tab (ram st1) d (DIR_INDEX v)) 0); [contradiction|]. right.
  destruct (map_word (FRAME_OF phys) flags (FRAME_OF_page _ Hp)) as (-> & Hx & Px).
  pose proof (FRAME_OF_range _ Hp) as Hr. pose proof (FRAME_OF_page _ Hp) as Hpg.
  set (x := Z.lor (flags mod 4096) PF_PRESENT) in *. set (e := FRAME_OF phys + x).
  set (st' := vmm_flush _ v). assert (Hram : ram st' = set_entry (ram st1)
    (slot_tab (ram st1) d (DIR_INDEX v)) (TAB_INDEX v) e) by reflexivity.
  assert (He : 0 <= e < 0x100000000) by (unfold e; lia).
  assert (Ef : FRAME_OF e = FRAME_OF phys) by (apply FRAME_OF_add; assumption).
  assert (Ep : is_present e = true) by (unfold is_present, e; rewrite tst_low, add_low by (flagc || assumption); assumption).
  pose proof (set_pte_translate st1 st' d v e S1 Hv P1 He Hram) as Tr.
  split; [reflexivity|]. split; [|split; [|split; [|split]]].
  - rewrite Tr, !Z.eqb_refl, Ep, Ef by assumption. reflexivity.
  - rewrite (set_pte st1 st' d v e S1 Hv P1 He Hram v Hv), !Z.eqb_refl. reflexivity.
  - intros v' Hv' N. rewrite Tr by assumption.
    destruct (Z.eqb_spec (DIR_INDEX v') (DIR_INDEX v)), (Z.eqb_spec (TAB_INDEX v') (TAB_INDEX v));
      cbn [andb]; try (apply Htr; assumption). destruct N; contradiction.
  - unfold st'. mcbn. rewrite L. reflexivity.
  - intros a Ha Hm. rewrite <- (Hd a Ha Hm), Hram. apply ld8_set_entry; auto with pyro.
    intros E. rewrite E in Ha, Hm. destruct Htab; contradiction.
Qed.

(** [vmm_map] installs exactly one translation.  It fails, changing
    nothing, only when the address has no page table and no frame is left for
    one; otherwise the address translates to the given frame with the given
    flags, the translation of every other page of the address space is
    untouched, no byte of any page changes, and the stale TLB entry is
    flushed. *)
Theorem vmm_map_installs (st : machine) (d v phys flags : Z) :
  machine_ok st -> space_wf (frames st) (ram st) d -> 2 <= DIR_INDEX v ->
  0 <= phys < 0x100000000 ->
  let '(st', r) := vmm_map st d v phys flags in
  (r = -1 /\ st' = st /\ slot_present (ram st) d (DIR_INDEX v) = false /\
     pmm_free_frames (frames st) = 0) \/
  (r = 0 /\ vmm_translate st' d v = FRAME_OF phys + v mod 4096 /\
     pte st' d v = FRAME_OF phys + Z.lor (flags mod 4096) PF_PRESENT /\
     (forall v', 2 <= DIR_INDEX v' ->
        DIR_INDEX v' <> DIR_INDEX v \/ TAB_INDEX v' <> TAB_INDEX v ->
        vmm_translate st' d v' = vmm_translate st d v') /\
     tlb_log st' = Invlpg v :: tlb_log st /\ data_kept st d st').
Proof. intros MO. apply vmm_map_spec, MO. Qed.

(** [vmm_unmap] removes exactly one translation and gives back exactly one
    reference of the frame behind it, if there was one. *)
Theorem vmm_unmap_releases (st : machine) (d v : Z) :
  machine_ok st -> space_wf (frames st) (ram st) d -> 2 <= DIR_INDEX v ->
  let st' := vmm_unmap st d v in
  vmm_translate st' d v = 0 /\
  (forall v', 2 <= DIR_INDEX v' ->
     DIR_INDEX v' <> DIR_INDEX v \/ TAB_INDEX v' <> TAB_INDEX v ->
     vmm_translate st' d v' = vmm_translate st d v') /\
  (forall f, page f -> owners (frames st') f
     = if is_present (pte st d v) && (FRAME_OF (pte st d v) =? f)
       then drop1 (owners (frames st) f) else owners (frames st) f).
Proof.
  intros MO S Hv. pose proof (DIR_INDEX_range v) as R. unfold vmm_unmap. rewrite table_for_lookup.
  assert (Hoff : is_present (pte st d v) = false -> vmm_translate st d v = 0 /\
    (forall v', 2 <= DIR_INDEX v' -> DIR_INDEX v' <> DIR_INDEX v \/ TAB_INDEX v' <> TAB_INDEX v ->
       vmm_translate st d v' = vmm_translate st d v') /\
    (forall f, page f -> owners (frames st) f
       = if is_present (pte st d v) && (FRAME_OF (pte st d v) =? f)
         then drop1 (owners (frames st) f) else owners (frames st) f)).
  { intros E. rewrite vmm_translate_pte, E by (apply (sp_tab_nz _ _ _ S); lia). auto. }
  destruct (slot_present (ram st) d (DIR_INDEX v)) eqn:P; [|apply Hoff; unfold pte; rewrite P; reflexivity].
  pose proof (sp_tab_nz _ _ _ S (DIR_INDEX v) ltac:(lia) P) as Nz.
  destruct (Z.eqb_spec (slot_tab (ram st) d (DIR_INDEX v)) 0); [contradiction|].
  assert (Ee : entry (ram st) (slot_tab (ram st) d (DIR_INDEX v)) (TAB_INDEX v) = pte st d v)
    by (unfold pte; rewrite P; reflexivity).
  rewrite Ee. fold (is_present (pte st d v)).
  destruct (is_present (pte st d v)) eqn:Pp; [clear Hoff|apply Hoff; reflexivity].
  set (st' := vmm_flush _ v). assert (Hram : ram st' = set_entry (ram st)
    (slot_tab (ram st) d (DIR_INDEX v)) (TAB_INDEX v) 0) by reflexivity.
  pose proof (set_pte_translate st st' d v 0 S Hv P ltac:(lia) Hram) as Tr. split; [|split].
  - rewrite Tr, !Z.eqb_refl by assumption. reflexivity.
  - intros v' Hv' N. rewrite Tr by assumption.
    destruct (Z.eqb_spec (DIR_INDEX v') (DIR_INDEX v)), (Z.eqb_spec (TAB_INDEX v') (TAB_INDEX v));
      cbn [andb]; try reflexivity. destruct N; contradiction.
  - intros f Hf. unfold st'. mcbn. cbn [andb]. rewrite owners_free by apply MO.
    destruct (Z.lt_ge_cases f MANAGED_BASE) as [Hlt|].
    + rewrite (owners_below _ _ Hlt). destruct (same_frame _ _), (_ =? _); reflexivity.
    + rewrite same_frame_aligned by (auto; apply pte_frame_page). reflexivity.
Qed.

(** A page lost on the error path.  When one frame is left and the address
    has no page table yet, [vmm_map_alloc] takes that frame for the page, finds
    none for the table and reports failure: the frame stays allocated although
    nothing maps it. *)
Theorem vmm_map_alloc_leaks (st : machine) (d v flags : Z) :
  machine_ok st -> space_wf (frames st) (ram st) d -> 2 <= DIR_INDEX v ->
  slot_present (ram st) d (DIR_INDEX v) = false -> pmm_free_frames (frames st) = 1 ->
  let '(st', r) := vmm_map_alloc st d v flags in
  r = -1 /\ pmm_free_frames (frames st') = 0 /\
  (forall v', 2 <= DIR_INDEX v' -> vmm_translate st' d v' = vmm_translate st d v').
Proof.
  intros MO S Hv Pn Hone. pose proof (mo_pmm _ MO) as W. rewrite free_frames_eq in Hone by assumption.
  pose proof (DIR_INDEX_range v) as R. unfold vmm_map_alloc.
  destruct (alloc_cases st W) as [[-> Hf]|(p & f & -> & Hf0 & F)].
  { rewrite (pool_full_used _ W Hf) in Hone. lia. }
  destruct (Z.eqb_spec f 0); [contradiction|]. mcbn. unfold vmm_map, table_for. mcbn.
  pose proof (ff_page _ _ _ F) as Hp. pose proof (ff_used _ _ _ F) as Hu. pose proof (ff_total _ _ _ F) as Ht.
  assert (Nd : f <> d) by (intros E; apply (ff_held _ _ _ F d (sp_held _ _ _ S)); congruence).
  rewrite (entry_zero_page (ram st) f d (DIR_INDEX v) Hp (sp_page _ _ _ S) R).
  destruct (Z.eqb_spec f d); [contradiction|].
  fold (is_present (entry (ram st) d (DIR_INDEX v))). fold (slot_present (ram st) d (DIR_INDEX v)).
  rewrite Pn. cbn [negb]. set (st1 := with_ram (with_frames st p) _).
  destruct (alloc_cases st1 (ff_wf _ _ _ F)) as [[-> _]|(p2 & f2 & _ & _ & F2)].
  - cbn [Z.eqb]. split; [reflexivity|]. unfold st1. mcbn. rewrite free_frames_eq by apply F.
    split; [lia|]. intros v' Hv'. apply (pte_ext st _ d v'); [apply S|assumption|]. mcbn.
    intros x Hx. rewrite ld8_zero_page by assumption. destruct (Z.eqb_spec (pg x) f) as [E|]; [|reflexivity].
    exfalso. apply (ff_held _ _ _ F (pg x)); [|assumption]. apply (metas_held _ _ _ _ S Hx).
  - exfalso. pose proof (ff_used _ _ _ F2) as Hu2. pose proof (ff_total _ _ _ F2) as Ht2.
    pose proof (pool_used_le _ (ff_wf _ _ _ F2)) as L2. unfold st1 in *.
    cbn [frames with_ram with_frames] in *. lia.
Qed.

(** ** A small machine

    A pool of sixteen frames.  Two address spaces share the page at 0x402000,
    mapped copy-on-write at 0x800000 in both. *)

Definition demo_pool : pmm :=
  pmm_run (pmm_install 0x410000) [Alloc; Alloc; Alloc; Alloc; Alloc; Incref 0x402000].

Definition demo_ram : mem :=
  let m := st32 ∅ (0x400000 + 4 * 2) 0x401007 in
  let m := st32 m 0x401000 0x402205 in
  let m := st32 m (0x403000 + 4 * 2) 0x404007 in
  let m := st32 m 0x404000 0x402205 in
  st8 m 0x402010 42.

Definition demo : machine := mk_machine demo_ram demo_pool 0x400000 0x20000 [].

Lemma demo_ok : machine_ok demo.
Proof. apply machine_okb_sound. vm_compute. reflexivity. Qed.

Lemma demo_space : space_wf (frames demo) (ram demo) 0x400000.
Proof. apply space_wfb_sound. vm_compute. reflexivity. Qed.

Lemma demo_space2 : space_wf (frames demo) (ram demo) 0x403000.
Proof. apply space_wfb_sound. vm_compute. reflexivity. Qed.

Lemma demo_apart : apart (ram demo) 0x400000 0x403000.
Proof. apply apartb_sound. vm_compute. reflexivity. Qed.

Lemma demo_counted : counted demo 0x400000 0x403000.
Proof. apply countedb_sound; [apply demo_ok|]. vm_compute. reflexivity. Qed.

Lemma demo_no_saturation : no_saturation demo 0x400000.
Proof. apply no_saturationb_sound; [apply demo_ok|]. vm_compute. reflexivity. Qed.

Lemma vmm_cow_handle_isolates_witness :
  let '(st', r) := vmm_cow_handle demo 0x800010 0x7 in
  (r = 0 /\ st' = demo /\
     (cow_fault demo (active_dir demo) 0x800010 0x7 = false \/
      (1 < owners (frames demo) (FRAME_OF (pte demo (active_dir demo) 0x800010)) /\
       pmm_free_frames (frames demo) = 0))) \/
  (r = 1 /\ cow_fault demo (active_dir demo) 0x800010 0x7 = true /\
     tlb_log st' = Invlpg 0x800010 :: tlb_log demo /\
     resolved demo (active_dir demo) 0x403000 0x800010 st').
Proof.
  apply (vmm_cow_handle_isolates demo 0x403000 0x800010 0x7);
    [apply demo_ok|apply demo_space|apply demo_space2|apply demo_apart|apply demo_counted|].
  vm_compute. discriminate.
Defined.

Lemma vmm_clone_cow_shares_witness :
  let '(st', child) := vmm_clone_cow demo 0x400000 in
  (child <> 0 <-> 1 + space_tables (ram demo) 0x400000 <= pmm_free_frames (frames demo)) /\
  (child <> 0 -> cow_twins demo 0x400000 st' child).
Proof.
  apply (vmm_clone_cow_shares demo 0x400000);
    [apply demo_ok|apply demo_space|apply demo_no_saturation|discriminate].
Defined.

Lemma vmm_clone_cow_no_leak_witness :
  let '(st', child) := vmm_clone_cow demo 0x400000 in
  same_accounting demo (if child =? 0 then st' else vmm_destroy_dir st' child).
Proof.
  apply (vmm_clone_cow_no_leak demo 0x400000);
    [apply demo_ok|apply demo_space|apply demo_no_saturation|discriminate].
Defined.

Lemma vmm_map_installs_witness :
  let '(st', r) := vmm_map demo 0x400000 0xC00123 0x405000 6 in
  (r = -1 /\ st' = demo /\ slot_present (ram demo) 0x400000 (DIR_INDEX 0xC00123) = false /\
     pmm_free_frames (frames demo) = 0) \/
  (r = 0 /\ vmm_translate st' 0x400000 0xC00123 = FRAME_OF 0x405000 + 0xC00123 mod 4096 /\
     pte st' 0x400000 0xC00123 = FRAME_OF 0x405000 + Z.lor (6 mod 4096) PF_PRESENT /\
     (forall v', 2 <= DIR_INDEX v' ->
        DIR_INDEX v' <> DIR_INDEX 0xC00123 \/ TAB_INDEX v' <> TAB_INDEX 0xC00123 ->
        vmm_translate st' 0x400000 v' = vmm_translate demo 0x400000 v') /\
     tlb_log st' = Invlpg 0xC00123 :: tlb_log demo /\ data_kept demo 0x400000 st').
Proof.
  apply (vmm_map_installs demo 0x400000 0xC00123 0x405000 6);
    [apply demo_ok|apply demo_space|vm_compute; discriminate|lia].
Defined.

Lemma vmm_unmap_releases_witness :
  let st' := vmm_unmap demo 0x400000 0x800000 in
  vmm_translate st' 0x400000 0x800000 = 0 /\
  (forall v', 2 <= DIR_INDEX v' ->
     DIR_INDEX v' <> DIR_INDEX 0x800000 \/ TAB_INDEX v' <> TAB_INDEX 0x800000 ->
     vmm_translate st' 0x400000 v' = vmm_translate demo 0x400000 v') /\
  (forall f, page f -> owners (frames st') f
     = if is_present (pte demo 0x400000 0x800000) && (FRAME_OF (pte demo 0x400000 0x800000) =? f)
       then drop1 (owners (frames demo) f) else owners (frames demo) f).
Proof.
  apply (vmm_unmap_releases demo 0x400000 0x800000);
    [apply demo_ok|apply demo_space|vm_compute; discriminate].
Defined.

(** The same machine with a pool of six frames, five of them in use. *)
Definition demo_tight : machine :=
  mk_machine demo_ram
    (pmm_run (pmm_install 0x406000) [Alloc; Alloc; Alloc; Alloc; Alloc; Incref 0x402000])
    0x400000 0x20000 [].

Lemma vmm_map_alloc_leaks_witness :
  let '(st', r) := vmm_map_alloc demo_tight 0x400000 0xC00000 7 in
  r = -1 /\ pmm_free_frames (frames st') = 0 /\
  (forall v', 2 <= DIR_INDEX v' -> vmm_translate st' 0x400000 v' = vmm_translate demo_tight 0x400000 v').
Proof.
  apply (vmm_map_alloc_leaks demo_tight 0x400000 0xC00000 7).
  - apply machine_okb_sound. vm_compute. reflexivity.
  - apply space_wfb_sound. vm_compute. reflexivity.
  - vm_compute. discriminate.
  - vm_compute. reflexivity.
  - vm_compute. reflexivity.
Defined.
