(* ===== verification/Paging.v ===== *)
(** * Boot paging (kernel/paging.c)

    The static page directory and its two identity-mapping tables, built by
    [paging_install], and the write permission of the user zone, which the ELF
    loader edits with [paging_set_user_writable].  The three arrays are words
    of physical memory; where the linker puts them is the argument [link]. *)

From stdpp Require Import base gmap list numbers option.
From Stdlib Require Import ZArith Lia Bool.
From S2P Require Import Prelude CString Pmm Vmm VmmLemmas VmmSpec VmmClone VmmTheorems VmmProps.

Definition PAGE_PRESENT : Z := 0x1.
Definition PAGE_RW : Z := 0x2.
Definition PAGE_USER : Z := 0x4.
Definition USER_ZONE_START : Z := 0x00080000.
Definition USER_ZONE_END : Z := 0x00100000.

(** The addresses of the static arrays. *)
Record link := mk_link {
  page_directory : Z;
  first_page_table : Z;
  second_page_table : Z
}.

Definition paging_boot_directory (L : link) : Z := page_directory L.

(** The word the first loop writes for page [i]. *)
Definition first_word (i : Z) : Z :=
  let addr := u32 (i * 0x1000) in
  let flags := Z.lor PAGE_PRESENT PAGE_RW in
  let flags := if (USER_ZONE_START <=? addr) && (addr <? USER_ZONE_END)
               then Z.lor flags PAGE_USER else flags in
  Z.lor addr flags.

Definition second_word (i : Z) : Z :=
  Z.lor (Z.lor (u32 (0x00400000 + u32 (i * 0x1000))) PAGE_PRESENT) PAGE_RW.

(** [for (i = 0; i < 1024; i++) table[i] = word(i);] *)
Definition fill_table (m : mem) (t : Z) (word : Z -> Z) : mem :=
  for_range 0 1024 (fun i m => set_entry m t i (word i)) m.

(** The whole of [paging_install]: the tables, the directory, CR3, and the PG
    and WP bits of CR0.  Returns the machine and the new CR0. *)
Definition paging_install (L : link) (st : machine) (cr0 : Z) : machine * Z :=
  let m := fill_table (ram st) (first_page_table L) first_word in
  let m := fill_table m (second_page_table L) second_word in
  let m := set_entry m (page_directory L) 0
             (Z.lor (Z.lor (Z.lor (first_page_table L) PAGE_PRESENT) PAGE_RW) PAGE_USER) in
  let m := set_entry m (page_directory L) 1
             (Z.lor (Z.lor (second_page_table L) PAGE_PRESENT) PAGE_RW) in
  let st := vmm_switch (with_ram st m) (page_directory L) in
  (st, Z.lor cr0 0x80010000).

(** [(e & ~PAGE_RW)], then [e |= PAGE_RW] when [writable]. *)
Definition set_rw (e : Z) (writable : bool) : Z :=
  let e := Z.land e (u32 (Z.lnot PAGE_RW)) in
  if writable then Z.lor e PAGE_RW else e.

(** The loop [for (a = start; a < end; a += 0x1000)], over the page numbers
    [lo = start / 0x1000] to [hi = end / 0x1000]: both bounds are multiples of
    0x1000, and at most USER_ZONE_END once the loop is entered. *)
Definition rw_loop (L : link) (writable : bool) (lo hi : Z) (st : machine) : machine :=
  for_range lo hi (fun k st =>
    let a := k * 0x1000 in
    let i := Z.shiftr a 12 in
    let e := set_rw (entry (ram st) (first_page_table L) i) writable in
    vmm_flush (with_ram st (set_entry (ram st) (first_page_table L) i e)) a) st.

Definition paging_set_user_writable (L : link) (st : machine) (addr len : Z) (writable : bool)
    : machine :=
  let start := Z.land addr 0xFFFFF000 in
  let stop := Z.land (u32 (addr + len + 0xFFF)) 0xFFFFF000 in
  let start := if start <? USER_ZONE_START then USER_ZONE_START else start in
  let stop := if USER_ZONE_END <? stop then USER_ZONE_END else stop in
  rw_loop L writable (start / 0x1000) (stop / 0x1000) st.

Definition paging_reset_user_zone (L : link) (st : machine) : machine :=
  paging_set_user_writable L st USER_ZONE_START (USER_ZONE_END - USER_ZONE_START) true.

(** ** Vocabulary *)

(** The arrays are three different pages of the kernel's first 4 MB. *)
Record link_ok (L : link) : Prop := {
  lk_pages : page (page_directory L) /\ page (first_page_table L) /\ page (second_page_table L);
  lk_range : 0 < page_directory L < MANAGED_BASE /\ 0 < first_page_table L < MANAGED_BASE /\
    0 < second_page_table L < MANAGED_BASE;
  lk_diff : page_directory L <> first_page_table L /\ page_directory L <> second_page_table L /\
    first_page_table L <> second_page_table L
}.

Definition is_user (e : Z) : bool := tst e PAGE_USER.

(** Ring 3 reaches an address when it is mapped with USER at both levels. *)
Definition ring3_reaches (st : machine) (dir v : Z) : bool :=
  is_present (pte st dir v) && is_user (entry (ram st) dir (DIR_INDEX v)) && is_user (pte st dir v).

(** The pages [paging_set_user_writable] is asked to change. *)
Definition zone_page (addr len v : Z) : bool :=
  (USER_ZONE_START <=? v) && (v <? USER_ZONE_END) &&
  (addr / 4096 <=? v / 4096) && (v / 4096 * 4096 <? addr + len).

(** ** Lemmas *)

Lemma fill_table_entry m t word b i :
  page t -> page b -> 0 <= i < 1024 ->
  entry (fill_table m t word) b i = if t =? b then u32 (word i) else entry m b i.
Proof.
  intros Ht Hb Hi. unfold fill_table.
  pose proof (for_range_ind (fun n m' => forall j, 0 <= j < 1024 ->
    entry m' b j = if (t =? b) && (j <? n) then u32 (word j) else entry m b j)
    0 1024 (fun i m => set_entry m t i (word i)) m) as H.
  rewrite H; [|lia| | |assumption].
  - destruct (Z.ltb_spec i 1024); [|lia]. rewrite andb_true_r. reflexivity.
  - intros j Hj. destruct (Z.ltb_spec j 0); [lia|]. rewrite andb_false_r. reflexivity.
  - intros n m' Hn IH j Hj. rewrite entry_set, IH by assumption.
    destruct (t =? b); simpl; [|reflexivity].
    destruct (Z.eqb_spec n j) as [<-|]; zcase; lia || reflexivity.
Qed.

Lemma tst_lor e c f : tst (Z.lor e c) f = tst e f || tst c f.
Proof.
  unfold tst. rewrite Z.land_lor_distr_l.
  destruct (Z.eqb_spec (Z.land e f) 0) as [->|N]; [reflexivity|].
  destruct (Z.eqb_spec (Z.lor (Z.land e f) (Z.land c f)) 0) as [E|]; [|reflexivity].
  apply Z.lor_eq_0_iff in E. tauto.
Qed.

(** Flag [f] survives the mask [mk], and the frame does. *)
Lemma set_rw_facts e w :
  0 <= e < 0x100000000 ->
  (0 <= set_rw e w < 0x100000000) /\ FRAME_OF (set_rw e w) = FRAME_OF e /\
  is_present (set_rw e w) = is_present e /\ is_user (set_rw e w) = is_user e /\
  is_rw (set_rw e w) = w.
Proof.
  intros He. assert (Hm : forall f, Z.land (u32 (Z.lnot PAGE_RW)) f = f ->
    Z.land PAGE_RW f = 0 -> Z.land (set_rw e w) f = Z.land e f).
  { intros f Hf H0. unfold set_rw. destruct w; rewrite ?Z.land_lor_distr_l, <- ?Z.land_assoc, Hf, ?H0, ?Z.lor_0_r; reflexivity. }
  split; [|split; [apply Hm; reflexivity|]].
  - assert (Hl : 0 <= Z.land e (u32 (Z.lnot PAGE_RW)) < 2 ^ 32) by (apply land_range; lia).
    unfold set_rw. destruct w; [|assumption]. apply (lor_range 32); unfold PAGE_RW in *; lia.
  - unfold is_present, is_user, is_rw. split; [|split]; unfold tst;
      [rewrite Hm by reflexivity; reflexivity|rewrite Hm by reflexivity; reflexivity|].
    unfold set_rw. destruct w; rewrite ?Z.land_lor_distr_l, <- Z.land_assoc.
    + change (Z.land (u32 (Z.lnot PAGE_RW)) PF_RW) with 0. rewrite Z.land_0_r. reflexivity.
    + change (Z.land (u32 (Z.lnot PAGE_RW)) PF_RW) with 0. rewrite Z.land_0_r. reflexivity.
Qed.

Lemma first_word_eq i :
  0 <= i < 1024 ->
  first_word i = i * 4096 + (if (0x80 <=? i) && (i <? 0x100) then 7 else 3).
Proof.
  intros Hi. unfold first_word, USER_ZONE_START, USER_ZONE_END. rewrite u32_small by lia.
  replace (0x80000 <=? i * 4096) with (0x80 <=? i) by (zcase; lia || reflexivity).
  replace (i * 4096 <? 0x100000) with (i <? 0x100) by (zcase; lia || reflexivity).
  destruct (_ && _)%bool; apply lor_page; (unfold page; zdm) || (cbn; lia).
Qed.

Lemma second_word_eq i : 0 <= i < 1024 -> second_word i = 0x400000 + i * 4096 + 3.
Proof.
  intros Hi. unfold second_word. rewrite (u32_small (i * 4096)), u32_small, <- Z.lor_assoc by lia.
  apply lor_page; [zdm|cbn; lia].
Qed.

(** The entries [paging_install] leaves behind. *)
Lemma paging_install_entries L st cr0 :
  link_ok L ->
  let m := ram (fst (paging_install L st cr0)) in
  entry m (page_directory L) 0 = first_page_table L + 7 /\
  entry m (page_directory L) 1 = second_page_table L + 3 /\
  (forall i, 2 <= i < 1024 -> entry m (page_directory L) i = entry (ram st) (page_directory L) i) /\
  (forall i, 0 <= i < 1024 -> entry m (first_page_table L) i = first_word i) /\
  (forall i, 0 <= i < 1024 -> entry m (second_page_table L) i = second_word i).
Proof.
  intros [(P1 & P2 & P3) (R1 & R2 & R3) (D1 & D2 & D3)] m. unfold MANAGED_BASE in *.
  assert (E : forall b i, page b -> 0 <= i < 1024 -> entry m b i =
    if (page_directory L =? b) && (1 =? i) then second_page_table L + 3
    else if (page_directory L =? b) && (0 =? i) then first_page_table L + 7
    else if second_page_table L =? b then u32 (second_word i)
    else if first_page_table L =? b then u32 (first_word i) else entry (ram st) b i).
  { intros b i Hb Hi. unfold m, paging_install. cbn [fst]. mcbn.
    rewrite !entry_set, !fill_table_entry by (assumption || lia).
    rewrite <- !Z.lor_assoc.
    change (Z.lor PAGE_PRESENT PAGE_RW) with 3. change (Z.lor PAGE_PRESENT (Z.lor PAGE_RW PAGE_USER)) with 7.
    rewrite !lor_page by (assumption || lia).
    rewrite !(u32_small (_ + _)) by lia. reflexivity. }
  repeat split; intros; rewrite E by (assumption || lia);
    repeat (zcase1; try (exfalso; lia); cbn [andb]); try reflexivity.
  - apply u32_small. rewrite first_word_eq by assumption. zcase; lia.
  - apply u32_small. rewrite second_word_eq by assumption. lia.
Qed.

Lemma tab_facts b x :
  page b -> 0 <= b < 0x8000000 -> 0 <= x < 4096 ->
  FRAME_OF (b + x) = b /\ is_present (b + x) = tst x PF_PRESENT /\ is_user (b + x) = tst x PAGE_USER.
Proof.
  intros Hb Hr Hx. split; [apply FRAME_OF_add; auto; lia|].
  unfold is_present, is_user. split; rewrite tst_low, add_low; auto; unfold PF_PRESENT, PAGE_USER; lia.
Qed.

(** Translation and permissions of the boot address space. *)
Lemma paging_install_spec (L : link) (st : machine) (cr0 : Z) :
  link_ok L -> (forall i, 2 <= i < 1024 -> entry (ram st) (page_directory L) i = 0) ->
  let '(st', cr0') := paging_install L st cr0 in
  active_dir st' = page_directory L /\ tst cr0' 0x80000000 = true /\ tst cr0' 0x10000 = true /\
  forall v, 0 <= v < 0x100000000 ->
    vmm_translate st' (page_directory L) v = (if v <? 0x800000 then v else 0) /\
    ring3_reaches st' (page_directory L) v = (USER_ZONE_START <=? v) && (v <? USER_ZONE_END).
Proof.
  intros K Hz. pose proof (paging_install_entries L st cr0 K) as E.
  assert (Ea : cr3 (fst (paging_install L st cr0)) = page_directory L) by reflexivity.
  assert (Ec : snd (paging_install L st cr0) = Z.lor cr0 0x80010000) by reflexivity.
  destruct (paging_install L st cr0) as [st' cr0']. cbn [fst snd] in *. subst cr0'.
  destruct E as (E0 & E1 & Ei & Ef & Es). destruct K as [(P1 & P2 & P3) (R1 & R2 & R3) (D1 & D2 & D3)].
  unfold MANAGED_BASE in *.
  split; [unfold active_dir; rewrite Ea; apply FRAME_OF_id; [lia|assumption]|].
  split; [rewrite tst_lor; apply orb_true_r|]. split; [rewrite tst_lor; apply orb_true_r|].
  intros v Hv. pose proof (page_number v Hv) as Hn. pose proof (DIR_INDEX_range v) as Rd.
  pose proof (TAB_INDEX_range v) as Rt.
  destruct (tab_facts (first_page_table L) 7) as (F1 & F2 & F3); auto; try lia.
  destruct (tab_facts (second_page_table L) 3) as (G1 & G2 & G3); auto; try lia.
  assert (Hs : forall i, 2 <= i < 1024 -> slot_present (ram st') (page_directory L) i = false)
    by (intros i Hi; unfold slot_present; rewrite Ei, Hz by assumption; reflexivity).
  rewrite vmm_translate_pte.
  2:{ intros Ps. unfold slot_tab. destruct (Z.eq_dec (DIR_INDEX v) 0) as [->|];
      [rewrite E0, F1; lia|]. destruct (Z.eq_dec (DIR_INDEX v) 1) as [->|]; [rewrite E1, G1; lia|].
      rewrite Hs in Ps by lia. discriminate. }
  unfold ring3_reaches, pte, slot_present, slot_tab.
  destruct (Z.eq_dec (DIR_INDEX v) 0) as [Z0|N0]; [|destruct (Z.eq_dec (DIR_INDEX v) 1) as [Z1|N1]].
  - rewrite Z0, E0, F1, F2, F3, Ef, first_word_eq by assumption.
    destruct (tab_facts (TAB_INDEX v * 4096) (if (0x80 <=? TAB_INDEX v) && (TAB_INDEX v <? 0x100) then 7 else 3))
      as (H1 & H2 & H3); [unfold page; zdm|lia|zcase; lia|].
    change (tst 7 PF_PRESENT) with true. cbv iota. rewrite H1, H2, H3.
    unfold USER_ZONE_START, USER_ZONE_END. split.
    + destruct (_ && _)%bool; cbn; zcase; zdm.
    + zcase; try reflexivity; zdm.
  - rewrite Z1, E1, G1, G2, G3, Es, second_word_eq by assumption.
    destruct (tab_facts (0x400000 + TAB_INDEX v * 4096) 3) as (H1 & H2 & H3); [unfold page; zdm|lia|lia|].
    change (tst 3 PF_PRESENT) with true. cbv iota. rewrite H1, H2.
    unfold USER_ZONE_START, USER_ZONE_END. split; [cbn; zcase; zdm|zcase; try reflexivity; zdm].
  - fold (slot_present (ram st') (page_directory L) (DIR_INDEX v)). rewrite Hs by lia.
    unfold USER_ZONE_START, USER_ZONE_END. split; [zcase; [zdm|reflexivity]|zcase; try reflexivity; zdm].
Qed.

(** The boot address space.  After [paging_install] the CPU uses the boot
    directory with paging and write protection on; every address below 8 MB
    translates to itself and everything above is unmapped; and ring 3 reaches
    exactly the user zone 0x80000..0xFFFFF. *)
Theorem paging_install_identity (L : link) (st : machine) (cr0 : Z) :
  link_ok L -> (forall i, 2 <= i < 1024 -> entry (ram st) (page_directory L) i = 0) ->
  let '(st', cr0') := paging_install L st cr0 in
  active_dir st' = page_directory L /\ tst cr0' 0x80000000 = true /\ tst cr0' 0x10000 = true /\
  forall v, 0 <= v < 0x100000000 ->
    vmm_translate st' (page_directory L) v = (if v <? 0x800000 then v else 0) /\
    ring3_reaches st' (page_directory L) v = (USER_ZONE_START <=? v) && (v <? USER_ZONE_END).
Proof. exact (paging_install_spec L st cr0). Qed.

(** ** The user zone *)

Lemma rw_loop_spec L w lo hi st :
  page (first_page_table L) -> 0 <= lo -> lo <= hi <= 1024 ->
  let st' := rw_loop L w lo hi st in
  (forall i, 0 <= i < 1024 -> entry (ram st') (first_page_table L) i =
     if (lo <=? i) && (i <? hi) then set_rw (entry (ram st) (first_page_table L) i) w
     else entry (ram st) (first_page_table L) i) /\
  (forall x, pg x <> first_page_table L -> ld8 (ram st') x = ld8 (ram st) x) /\
  frames st' = frames st /\ cr3 st' = cr3 st.
Proof.
  intros Hp Hlo Hhi. unfold rw_loop.
  apply (for_range_ind (fun n s =>
    (forall i, 0 <= i < 1024 -> entry (ram s) (first_page_table L) i =
     if (lo <=? i) && (i <? n) then set_rw (entry (ram st) (first_page_table L) i) w
     else entry (ram st) (first_page_table L) i) /\
    (forall x, pg x <> first_page_table L -> ld8 (ram s) x = ld8 (ram st) x) /\
    frames s = frames st /\ cr3 s = cr3 st)); [lia| |].
  - split; [|auto]. intros i Hi. zcase; lia || reflexivity.
  - intros k s Hk (E & M & F & C). cbv zeta. rewrite Z.shiftr_div_pow2 by lia.
    replace (k * 4096 / 2 ^ 12) with k by (change (2 ^ 12) with 4096; zdm). mcbn.
    split; [|split; [|auto]].
    + intros i Hi. rewrite entry_set, Z.eqb_refl, !E by (assumption || lia). cbn [andb].
      destruct (Z.eqb_spec k i) as [<-|].
      * rewrite Z.ltb_irrefl, andb_false_r, u32_small by (apply set_rw_facts, entry_range).
        zcase; lia || reflexivity.
      * zcase; lia || reflexivity.
    + intros x Hx. rewrite ld8_set_entry by (assumption || lia). apply M. assumption.
Qed.

(** The clamped bounds, as page numbers. *)
Lemma user_writable_loop L st addr len w :
  0 <= addr -> 0 <= len -> addr + len + 0xFFF < 0x100000000 ->
  exists lo hi, 0x80 <= lo /\ hi <= 0x100 /\
    paging_set_user_writable L st addr len w = rw_loop L w lo hi st /\
    forall i, (lo <=? i) && (i <? hi)
      = (0x80 <=? i) && (i <? 0x100) && (addr / 4096 <=? i) && (i * 4096 <? addr + len).
Proof.
  intros Ha Hl Hs. unfold paging_set_user_writable, USER_ZONE_START, USER_ZONE_END.
  rewrite u32_small, !land_page by lia.
  exists ((if addr - addr mod 4096 <? 0x80000 then 0x80000 else addr - addr mod 4096) / 4096),
    ((if 0x100000 <? addr + len + 0xFFF - (addr + len + 0xFFF) mod 4096 then 0x100000
      else addr + len + 0xFFF - (addr + len + 0xFFF) mod 4096) / 4096).
  split; [zcase; zdm|]. split; [zcase; zdm|]. split; [reflexivity|].
  intros i. apply eq_bool_prop_intro. rewrite !Is_true_true, !andb_true_iff, !Z.leb_le, !Z.ltb_lt.
  destruct (Z.ltb_spec (addr - addr mod 4096) 0x80000);
    destruct (Z.ltb_spec 0x100000 (addr + len + 0xFFF - (addr + len + 0xFFF) mod 4096));
    split; intros; zdm.
Qed.

Lemma rw_loop_empty L w lo hi st : hi <= lo -> rw_loop L w lo hi st = st.
Proof. intros. apply for_range_empty. assumption. Qed.

Lemma set_user_writable_spec (L : link) (st : machine) (addr len : Z) (w : bool) :
  link_ok L -> entry (ram st) (page_directory L) 0 = first_page_table L + 7 ->
  0 <= addr -> 0 <= len -> addr + len + 0xFFF < 0x100000000 ->
  let st' := paging_set_user_writable L st addr len w in
  (forall v, 0 <= v < MANAGED_BASE ->
     vmm_translate st' (page_directory L) v = vmm_translate st (page_directory L) v /\
     ring3_reaches st' (page_directory L) v = ring3_reaches st (page_directory L) v /\
     writable st' (page_directory L) v
     = if zone_page addr len v then is_present (pte st (page_directory L) v) && w
       else writable st (page_directory L) v) /\
  (forall x, pg x <> first_page_table L -> ld8 (ram st') x = ld8 (ram st) x) /\
  frames st' = frames st /\ cr3 st' = cr3 st.
Proof.
  intros [(P1 & P2 & P3) (R1 & R2 & R3) (D1 & D2 & D3)] E0 Ha Hl Hs.
  destruct (user_writable_loop L st addr len w Ha Hl Hs) as (lo & hi & Hlo & Hhi & -> & Hb).
  destruct (Z.lt_ge_cases hi lo) as [Hgt|Hle].
  { rewrite rw_loop_empty by lia. cbv zeta. split; [|auto]. intros v Hv.
    repeat (split; [reflexivity|]). unfold zone_page, USER_ZONE_START, USER_ZONE_END.
    replace (_ && _)%bool with false; [reflexivity|]. specialize (Hb (v / 4096)). symmetry.
    apply not_true_iff_false. intros T. b2p.
    assert (Hf : (lo <=? v / 4096) && (v / 4096 <? hi) = true).
    { rewrite Hb, !andb_true_iff, !Z.leb_le, !Z.ltb_lt. zdm. }
    b2p. lia. }
  destruct (rw_loop_spec L w lo hi st P2 ltac:(lia) ltac:(lia)) as (E & M & F & C).
  set (st' := rw_loop L w lo hi st) in *. cbv zeta. split; [|auto]. intros v Hv.
  unfold MANAGED_BASE in *. pose proof (page_number v ltac:(lia)) as Hn.
  pose proof (DIR_INDEX_range v) as Rd. pose proof (TAB_INDEX_range v) as Rt.
  assert (Z0 : DIR_INDEX v = 0) by zdm. assert (Ht : TAB_INDEX v = v / 4096) by lia.
  assert (E0' : entry (ram st') (page_directory L) 0 = first_page_table L + 7).
  { rewrite <- E0. apply entry_ext; [assumption|lia|]. intros x Hx. apply M. congruence. }
  destruct (tab_facts (first_page_table L) 7) as (F1 & F2 & _); [assumption|lia|lia|].
  assert (Ep : forall s, entry (ram s) (page_directory L) 0 = first_page_table L + 7 ->
     pte s (page_directory L) v = entry (ram s) (first_page_table L) (TAB_INDEX v)).
  { intros s Es. unfold pte, slot_present, slot_tab. rewrite Z0, Es, F1, F2. reflexivity. }
  set (e := entry (ram st) (first_page_table L) (TAB_INDEX v)) in *.
  assert (E' : pte st' (page_directory L) v = if zone_page addr len v then set_rw e w else e).
  { rewrite Ep, E, Hb by assumption. unfold zone_page, USER_ZONE_START, USER_ZONE_END.
    unfold e. rewrite Ht. replace (0x80 <=? v / 4096) with (0x80000 <=? v) by (zcase; zdm || reflexivity).
    replace (v / 4096 <? 0x100) with (v <? 0x100000) by (zcase; zdm || reflexivity). reflexivity. }
  destruct (set_rw_facts e w (entry_range _ _ _)) as (Q1 & Q2 & Q3 & Q4 & Q5).
  rewrite !vmm_translate_pte by (rewrite Z0; unfold slot_tab; rewrite ?E0, ?E0', F1; lia).
  unfold ring3_reaches, writable. rewrite E', (Ep st E0), Z0, E0, E0'. fold e.
  destruct (zone_page addr len v); rewrite ?Q2, ?Q3, ?Q4, ?Q5; auto.
Qed.

(** Two page-table words that differ at most in the write permission. *)
Definition same_map (e e' : Z) : Prop :=
  FRAME_OF e' = FRAME_OF e /\ is_present e' = is_present e /\ is_user e' = is_user e /\ is_cow e' = is_cow e.

#[export] Instance same_map_preorder : PreOrder same_map.
Proof. split; [intros e; repeat split|]. intros a b c (? & ? & ? & ?) (? & ? & ? & ?). repeat split; congruence. Qed.

Lemma set_rw_map e w : 0 <= e < 0x100000000 -> same_map e (set_rw e w).
Proof.
  intros He. destruct (set_rw_facts e w He) as (_ & F & P & U & _). repeat split; [exact F|exact P|exact U|].
  unfold is_cow, tst, set_rw. destruct w; rewrite ?Z.land_lor_distr_l, <- !Z.land_assoc.
  - change (Z.land PAGE_RW PF_COW) with 0. rewrite Z.lor_0_r. reflexivity.
  - reflexivity.
Qed.

(** Only write permissions of the first page table have changed. *)
Record rw_change (L : link) (st st' : machine) : Prop := {
  rc_mem : forall x, pg x <> first_page_table L -> ld8 (ram st') x = ld8 (ram st) x;
  rc_tab : forall i, 0 <= i < 1024 ->
    same_map (entry (ram st) (first_page_table L) i) (entry (ram st') (first_page_table L) i);
  rc_regs : frames st' = frames st /\ cr3 st' = cr3 st /\ kernel_dir st' = kernel_dir st
}.

#[export] Instance rw_change_preorder (L : link) : PreOrder (rw_change L).
Proof.
  split; [intros st; constructor; auto; reflexivity|]. intros a b c [A1 A2 (A3 & A4 & A5)] [B1 B2 (B3 & B4 & B5)].
  constructor; [|intros i Hi; etransitivity; [apply A2, Hi|apply B2, Hi]|repeat split; congruence].
  intros x Hx. rewrite B1, A1 by exact Hx. reflexivity.
Qed.

Lemma rw_loop_change L w lo hi st :
  page (first_page_table L) -> 0 <= lo -> hi <= 1024 -> rw_change L st (rw_loop L w lo hi st).
Proof.
  intros Hp Hlo Hhi. destruct (Z.le_gt_cases hi lo) as [H|H]; [rewrite rw_loop_empty by exact H; reflexivity|].
  unfold rw_loop. apply (for_range_ind (fun _ t => rw_change L st t)); [lia|reflexivity|]. intros k t Hk I. etransitivity; [exact I|].
  cbv zeta. rewrite Z.shiftr_div_pow2 by lia. replace (k * 4096 / 2 ^ 12) with k by (change (2 ^ 12) with 4096; zdm).
  constructor; mcbn; [| |auto].
  - intros x Hx. apply ld8_set_entry; assumption || lia.
  - intros i Hi. rewrite entry_set, Z.eqb_refl by (assumption || lia). cbn [andb]. destruct (Z.eqb_spec k i) as [<-|]; [|reflexivity].
    pose proof (entry_range (ram t) (first_page_table L) k) as R. rewrite u32_small by (apply set_rw_facts, R). apply set_rw_map, R.
Qed.

(** Whatever range is asked for, the clamped loop stays in the user zone. *)
Lemma user_writable_change L st addr len w :
  page (first_page_table L) -> rw_change L st (paging_set_user_writable L st addr len w).
Proof.
  intros Hp. unfold paging_set_user_writable, USER_ZONE_START, USER_ZONE_END. cbv zeta. apply rw_loop_change; [exact Hp| |].
  - destruct (Z.ltb_spec (Z.land addr 0xFFFFF000) 0x80000); zdm.
  - destruct (Z.ltb_spec 0x100000 (Z.land (u32 (addr + len + 0xFFF)) 0xFFFFF000)); zdm.
Qed.

(** Segment permissions.  [paging_set_user_writable] makes the pages of the
    user zone that meet [addr, addr+len) writable or read-only as asked, and
    changes nothing else: no translation, no ring-3 permission, no page outside
    the zone, no other byte of memory. *)
Theorem paging_set_user_writable_exact (L : link) (st : machine) (addr len : Z) (w : bool) :
  link_ok L -> entry (ram st) (page_directory L) 0 = first_page_table L + 7 ->
  0 <= addr -> 0 <= len -> addr + len + 0xFFF < 0x100000000 ->
  let st' := paging_set_user_writable L st addr len w in
  (forall v, 0 <= v < MANAGED_BASE ->
     vmm_translate st' (page_directory L) v = vmm_translate st (page_directory L) v /\
     ring3_reaches st' (page_directory L) v = ring3_reaches st (page_directory L) v /\
     writable st' (page_directory L) v
     = if zone_page addr len v then is_present (pte st (page_directory L) v) && w
       else writable st (page_directory L) v) /\
  (forall x, pg x <> first_page_table L -> ld8 (ram st') x = ld8 (ram st) x) /\
  frames st' = frames st /\ cr3 st' = cr3 st.
Proof. exact (set_user_writable_spec L st addr len w). Qed.

(** ** A concrete layout *)

Definition demo_link : link := mk_link 0x20000 0x21000 0x22000.

Lemma demo_link_ok : link_ok demo_link.
Proof. constructor; repeat split; first [reflexivity|discriminate]. Qed.

Definition blank : machine := mk_machine ∅ (pmm_install 0x800000) 0 0 [].

Lemma paging_install_identity_witness :
  let '(st', cr0') := paging_install demo_link blank 0x11 in
  active_dir st' = page_directory demo_link /\ tst cr0' 0x80000000 = true /\ tst cr0' 0x10000 = true /\
  forall v, 0 <= v < 0x100000000 ->
    vmm_translate st' (page_directory demo_link) v = (if v <? 0x800000 then v else 0) /\
    ring3_reaches st' (page_directory demo_link) v = (USER_ZONE_START <=? v) && (v <? USER_ZONE_END).
Proof.
  apply (paging_install_identity demo_link blank 0x11); [apply demo_link_ok|].
  intros i Hi. apply entry_empty.
Defined.

Definition one_slot : machine := with_ram blank (set_entry ∅ 0x20000 0 0x21007).

Lemma paging_set_user_writable_exact_witness :
  let st' := paging_set_user_writable demo_link one_slot 0x80010 0x1200 false in
  (forall v, 0 <= v < MANAGED_BASE ->
     vmm_translate st' (page_directory demo_link) v = vmm_translate one_slot (page_directory demo_link) v /\
     ring3_reaches st' (page_directory demo_link) v = ring3_reaches one_slot (page_directory demo_link) v /\
     writable st' (page_directory demo_link) v
     = if zone_page 0x80010 0x1200 v then is_present (pte one_slot (page_directory demo_link) v) && false
       else writable one_slot (page_directory demo_link) v) /\
  (forall x, pg x <> first_page_table demo_link -> ld8 (ram st') x = ld8 (ram one_slot) x) /\
  frames st' = frames one_slot /\ cr3 st' = cr3 one_slot.
Proof.
  apply (paging_set_user_writable_exact demo_link one_slot 0x80010 0x1200 false);
    [apply demo_link_ok|vm_compute; reflexivity|lia|lia|lia].
Defined.
