(* ===== verification/Demand.v ===== *)
(** * Demand paging (kernel/demand.c)

    The table of promised regions and the fault handler that commits a zeroed
    frame on the first touch.  [vmm_map_alloc] is the operation of [Vmm]. *)

From stdpp Require Import base gmap list numbers option.
From Stdlib Require Import ZArith Lia Bool.
From S2P Require Import Prelude CString Pmm Vmm VmmLemmas VmmSpec VmmClone VmmTheorems VmmProps.

Definition MAX_REGIONS : Z := 16.

Record region := mk_region {
  r_dir : Z;
  r_start : Z;
  r_end : Z;
  r_flags : Z;
  r_active : bool
}.

Definition no_region : region := mk_region 0 0 0 0 false.

Record demand := mk_demand {
  regions : list region;
  faults_served : Z
}.

(** The statics at boot. *)
Definition demand_boot : demand := mk_demand (replicate 16 no_region) 0.

Definition reg (s : demand) (i : Z) : region := tget no_region (regions s) i.

Definition demand_region (s : demand) (dir start stop flags : Z) : demand :=
  match find_range 0 MAX_REGIONS (fun i => negb (r_active (reg s i))) with
  | Some i =>
      mk_demand
        (tset (regions s) i
          (mk_region dir (Z.land start 0xFFFFF000) (Z.land (u32 (stop + 0xFFF)) 0xFFFFF000)
             flags true))
        (faults_served s)
  | None => s
  end.

Definition demand_clear (s : demand) : demand :=
  mk_demand
    (for_range 0 MAX_REGIONS (fun i l =>
       let r := tget no_region l i in
       tset l i (mk_region (r_dir r) (r_start r) (r_end r) (r_flags r) false)) (regions s))
    0.

Definition demand_faults_served (s : demand) : Z := faults_served s.

(** The two [continue] conditions of the search loop, negated. *)
Definition covers (r : region) (current addr : Z) : bool :=
  r_active r && (r_dir r =? current) && (r_start r <=? addr) && (addr <? r_end r).

Definition demand_handle (s : demand) (st : machine) (addr err_code : Z)
    : demand * machine * Z :=
  if tst err_code 0x1 then (s, st, 0)
  else
    let current := active_dir st in
    match find_range 0 MAX_REGIONS (fun i => covers (reg s i) current addr) with
    | Some i =>
        let r := reg s i in
        let '(st, rc) := vmm_map_alloc st (r_dir r) (Z.land addr 0xFFFFF000) (r_flags r) in
        if negb (rc =? 0) then (s, st, 0)
        else (mk_demand (regions s) (u32 (faults_served s + 1)), st, 1)
    | None => (s, st, 0)
    end.

(** ** What is promised *)

(** Some active region of the address space contains the address. *)
Definition promised (s : demand) (dir addr : Z) : bool :=
  existsb (fun i => covers (reg s i) dir addr) (seqZ 0 MAX_REGIONS).

Lemma promised_find s dir addr :
  promised s dir addr = true <->
  exists i, find_range 0 MAX_REGIONS (fun i => covers (reg s i) dir addr) = Some i.
Proof.
  unfold promised. rewrite existsb_exists. split.
  - intros (i & Hi & Hc). apply list_elem_of_In, elem_of_seqZ in Hi.
    destruct (find_range 0 MAX_REGIONS _) as [k|] eqn:E; [eauto|].
    rewrite (find_range_none _ _ _ E i) in Hc; [discriminate|unfold MAX_REGIONS in *; lia].
  - intros (i & E). apply find_range_some in E as (Hi & Hc & _). exists i.
    split; [apply list_elem_of_In, elem_of_seqZ; lia|assumption].
Qed.

(** ** A frame on demand *)

(** Allocating a frame and writing to it leaves an address space alone. *)
Lemma space_wf_fresh p p' m m' f d :
  space_wf p m d -> fresh_frame p p' f -> (forall x, pg x <> f -> ld8 m' x = ld8 m x) ->
  space_wf p' m' d /\ metas m' d = metas m d /\
  (forall j, 0 <= j < 1024 -> slot_present m' d j = slot_present m d j).
Proof.
  intros S F M.
  assert (Ed : forall j, 0 <= j < 1024 -> entry m' d j = entry m d j).
  { intros j Hj. apply entry_ext; [apply S|assumption|]. intros x Hx. apply M. rewrite Hx.
    apply (ff_held _ _ _ F), S. }
  assert (Ps : forall j, 0 <= j < 1024 -> slot_present m' d j = slot_present m d j)
    by (intros; unfold slot_present; rewrite Ed by assumption; reflexivity).
  assert (Ts : forall j, 0 <= j < 1024 -> slot_tab m' d j = slot_tab m d j)
    by (intros; unfold slot_tab; rewrite Ed by assumption; reflexivity).
  assert (Et : forall j k, 2 <= j < 1024 -> slot_present m d j = true -> 0 <= k < 1024 ->
    entry m' (slot_tab m d j) k = entry m (slot_tab m d j) k).
  { intros j k Hj Pj Hk. apply entry_ext; [apply slot_tab_page|assumption|]. intros x Hx. apply M.
    rewrite Hx. apply (ff_held _ _ _ F), (sp_tab_held _ _ _ S); assumption. }
  split; [|split; [|assumption]].
  - constructor; try apply S.
    + apply (held_fresh _ _ _ _ (sp_page _ _ _ S) F), S.
    + intros j Hj. rewrite Ps, Ts by lia. intros Pj.
      apply (held_fresh _ _ _ _ (slot_tab_page _ _ _) F), (sp_tab_held _ _ _ S); assumption.
    + intros j Hj. rewrite Ps, Ts by lia. apply (sp_tab_nz _ _ _ S). assumption.
    + intros j Hj. rewrite Ps, Ts by lia. apply (sp_tab_dir _ _ _ S). assumption.
    + intros i j Hi Hj Hij. rewrite !Ps, !Ts by lia. apply (sp_tab_inj _ _ _ S); assumption.
    + intros j k Hj Hk. rewrite Ps, Ts by lia. intros Pj. rewrite Et by assumption. intros Pk.
      destruct (sp_data _ _ _ S j k Hj Hk Pj Pk) as (H1 & H2 & H3). cbv zeta.
      split; [apply (held_fresh _ _ _ _ (proj1 (entry_frame _ _ _)) F); assumption|]. split; [assumption|].
      intros i Hi. rewrite Ps, Ts by lia. apply H3. assumption.
  - unfold metas, slots. apply (f_equal (cons d)). rewrite (List.filter_ext_in _ (slot_present m d)).
    + apply map_ext_in. intros j Hj. apply filter_In in Hj as [Hj _].
      apply list_elem_of_In, elem_of_seqZ in Hj. apply Ts. lia.
    + intros j Hj. apply list_elem_of_In, elem_of_seqZ in Hj. apply Ps. lia.
Qed.

(** What a resolved fault leaves behind: a zeroed frame of the pool that was
    free behind the page of [v], and everything else as before. *)
Definition page_committed (st : machine) (d v : Z) (st' : machine) : Prop :=
  exists f, page f /\ pool_frame (frames st) f /\ owners (frames st) f = 0 /\
    vmm_translate st' d v = f + v mod 4096 /\
    (forall o, 0 <= o < 4096 -> ld8 (ram st') (f + o) = 0) /\
    (forall v', 2 <= DIR_INDEX v' ->
       DIR_INDEX v' <> DIR_INDEX v \/ TAB_INDEX v' <> TAB_INDEX v ->
       vmm_translate st' d v' = vmm_translate st d v') /\
    data_kept st d st'.

(** [vmm_map_alloc] on an address space: the new page is the only change. *)
Lemma vmm_map_alloc_page st d v flags :
  machine_ok st -> space_wf (frames st) (ram st) d -> 2 <= DIR_INDEX v ->
  let '(st', r) := vmm_map_alloc st d v flags in
  (r = -1 /\ cr3 st' = cr3 st /\
     (forall v', 2 <= DIR_INDEX v' ->
        pte st' d v' = pte st d v' /\ vmm_translate st' d v' = vmm_translate st d v') /\
     data_kept st d st' /\
     pmm_free_frames (frames st) < (if slot_present (ram st) d (DIR_INDEX v) then 1 else 2)) \/
  (r = 0 /\ page_committed st d v st').
Proof.
  intros MO S Hv. unfold vmm_map_alloc. pose proof (mo_pmm _ MO) as W.
  destruct (alloc_cases st W) as [[-> Hf]|(p & f & -> & Hf0 & F)].
  { left. cbn [Z.eqb]. unfold pmm_free_frames at 1. rewrite (pool_full_used _ W Hf), Z.sub_diag.
    split; [reflexivity|]. split; [reflexivity|]. split; [auto|]. split; [intros x _ _; reflexivity|].
    destruct (slot_present _ _ _); reflexivity. }
  destruct (Z.eqb_spec f 0); [contradiction|]. mcbn.
  set (st1 := with_ram (with_frames st p) (memset (ram st) f 0 PAGE_SIZE)).
  pose proof (ff_page _ _ _ F) as Hp. pose proof (ff_range _ _ _ F) as Hr. unfold MANAGED_BASE in Hr.
  assert (M : forall x, pg x <> f -> ld8 (ram st1) x = ld8 (ram st) x).
  { intros x Hx. unfold st1. mcbn. rewrite ld8_zero_page by assumption.
    destruct (Z.eqb_spec (pg x) f); [contradiction|reflexivity]. }
  destruct (space_wf_fresh _ p (ram st) (ram st1) f d S F M) as (S1 & Em & Ps).
  assert (Nf : forall g, In g (metas (ram st) d) -> g <> f)
    by (intros g Hg; apply (ff_held _ _ _ F), (metas_held _ _ _ _ S Hg)).
  assert (Tr : forall v', 2 <= DIR_INDEX v' ->
    pte st1 d v' = pte st d v' /\ vmm_translate st1 d v' = vmm_translate st d v').
  { intros v' Hv'. apply (pte_ext st st1 d v'); [apply S|assumption|].
    intros x Hx. apply M, Nf. assumption. }
  pose proof (vmm_map_spec st1 d v f flags (ff_wf _ _ _ F) S1 Hv ltac:(lia)) as V.
  destruct (vmm_map st1 d v f flags) as [st' r].
  destruct V as [(-> & -> & Pn & Hfree)|(-> & V1 & V2 & V3 & V4 & V5)]; [left|right].
  - rewrite <- Ps by apply DIR_INDEX_range. rewrite Pn. split; [reflexivity|]. split; [reflexivity|]. split; [assumption|].
    split; [intros x Hx _; apply M, (ff_held _ _ _ F); assumption|].
    rewrite free_frames_eq in * by (assumption || apply F).
    pose proof (ff_used _ _ _ F). pose proof (ff_total _ _ _ F). unfold st1 in *. revert Hfree. mcbn. lia.
  - split; [reflexivity|]. exists f. rewrite FRAME_OF_id in V1 by (assumption || lia).
    repeat (split; [assumption || apply F|]). split; [|split].
    + intros o Ho. assert (Hpg : pg (f + o) = f) by (apply pg_in; [assumption|lia]).
      rewrite V5.
      * unfold st1. mcbn. rewrite ld8_zero_page, Hpg, Z.eqb_refl by assumption. reflexivity.
      * rewrite Hpg. intros _. unfold st1. mcbn.
        rewrite (ff_owners _ _ _ F), Z.eqb_refl by assumption. lia.
      * rewrite Hpg, Em. intros Hin. apply (Nf f Hin). reflexivity.
    + intros v' Hv' N. rewrite V3 by assumption. apply Tr. assumption.
    + intros x Hx Hm. rewrite V5.
      * apply M, (ff_held _ _ _ F). assumption.
      * apply (held_fresh _ _ _ _ (pg_page x) F). assumption.
      * rewrite Em. assumption.
Qed.

(** Faults are answered on page boundaries. *)
Lemma page_index v :
  0 <= v < 0x100000000 ->
  DIR_INDEX (Z.land v 0xFFFFF000) = DIR_INDEX v /\ TAB_INDEX (Z.land v 0xFFFFF000) = TAB_INDEX v /\
  Z.land v 0xFFFFF000 mod 4096 = 0.
Proof.
  intros Hv. rewrite land_page by assumption.
  pose proof (page_number v Hv). pose proof (page_number (v - v mod 4096) ltac:(zdm)) as H1.
  replace ((v - v mod 4096) / 4096) with (v / 4096) in H1 by zdm.
  pose proof (TAB_INDEX_range v). pose proof (TAB_INDEX_range (v - v mod 4096)).
  split; [lia|]. split; [lia|]. zdm.
Qed.

(** The handler's cases, with the page-table entries of a failed commit. *)
Lemma demand_handle_spec (s : demand) (st : machine) (addr err : Z) :
  machine_ok st -> space_wf (frames st) (ram st) (active_dir st) ->
  0 <= addr < 0x100000000 -> 2 <= DIR_INDEX addr ->
  let '(s', st', r) := demand_handle s st addr err in
  if negb (tst err 0x1) && promised s (active_dir st) addr then
    (r = 1 /\ faults_served s' = u32 (faults_served s + 1) /\ regions s' = regions s /\
       page_committed st (active_dir st) (addr - addr mod 4096) st') \/
    (r = 0 /\ s' = s /\ pmm_free_frames (frames st) < 2 /\ data_kept st (active_dir st) st' /\
       active_dir st' = active_dir st /\
       forall v, 2 <= DIR_INDEX v ->
         pte st' (active_dir st) v = pte st (active_dir st) v /\
         vmm_translate st' (active_dir st) v = vmm_translate st (active_dir st) v)
  else r = 0 /\ s' = s /\ st' = st.
Proof.
  intros MO S Ha Hd. unfold demand_handle.
  destruct (tst err 1) eqn:Ee; cbn [negb andb]; [auto|].
  destruct (promised s (active_dir st) addr) eqn:Ep.
  - apply promised_find in Ep as (i & E). rewrite E. apply find_range_some in E as (_ & Hc & _).
    unfold covers in Hc. b2p. destruct (page_index addr Ha) as (D & T & _).
    pose proof (vmm_map_alloc_page st (active_dir st) (Z.land addr 0xFFFFF000) (r_flags (reg s i)) MO S)
      as V. rewrite D in V. specialize (V Hd). rewrite H2.
    destruct (vmm_map_alloc st (active_dir st) (Z.land addr 0xFFFFF000) (r_flags (reg s i))) as [st' rc].
    rewrite <- land_page by assumption.
    destruct V as [(-> & V0 & V1 & V2 & V3)|(-> & V1)]; cbn [Z.eqb negb]; [right|left; auto].
    repeat (split; [reflexivity|]). split; [destruct (slot_present _ _ _); lia|].
    split; [assumption|]. split; [unfold active_dir; rewrite V0; reflexivity|assumption].
  - destruct (find_range 0 MAX_REGIONS _) as [i|] eqn:E; [|auto].
    assert (promised s (active_dir st) addr = true) by (apply promised_find; eauto). congruence.
Qed.

(** Demand paging.  The handler resolves a fault only for a missing page
    (bit 0 of the error code clear) inside a region promised to the running
    address space.  It then backs exactly that page with a zeroed, previously
    free frame and leaves every other translation and every byte of data as
    they were; a fault it does not resolve changes no translation and no data,
    and an unpromised address changes nothing at all. *)
Theorem demand_handle_commits (s : demand) (st : machine) (addr err : Z) :
  machine_ok st -> space_wf (frames st) (ram st) (active_dir st) ->
  0 <= addr < 0x100000000 -> 2 <= DIR_INDEX addr ->
  let '(s', st', r) := demand_handle s st addr err in
  if negb (tst err 0x1) && promised s (active_dir st) addr then
    (r = 1 /\ faults_served s' = u32 (faults_served s + 1) /\ regions s' = regions s /\
       page_committed st (active_dir st) (addr - addr mod 4096) st') \/
    (r = 0 /\ s' = s /\ pmm_free_frames (frames st) < 2 /\ data_kept st (active_dir st) st' /\
       forall v, 2 <= DIR_INDEX v ->
         vmm_translate st' (active_dir st) v = vmm_translate st (active_dir st) v)
  else r = 0 /\ s' = s /\ st' = st.
Proof.
  intros MO S Ha Hd. pose proof (demand_handle_spec s st addr err MO S Ha Hd) as H.
  destruct (demand_handle s st addr err) as [[s' st'] r].
  destruct (negb (tst err 0x1) && promised s (active_dir st) addr)%bool; [|exact H].
  destruct H as [H|(H1 & H2 & H3 & H4 & _ & H5)]; [auto|]. right.
  repeat (split; [assumption|]). intros v Hv. apply (H5 v Hv).
Qed.

(** ** Promising and forgetting regions *)

(** There is room in the table. *)
Definition has_slot (s : demand) : bool := existsb (fun i => negb (r_active (reg s i))) (seqZ 0 MAX_REGIONS).

Lemma existsb_seqZ (p : Z -> bool) n : existsb p (seqZ 0 n) = true <-> exists i, 0 <= i < n /\ p i = true.
Proof.
  rewrite existsb_exists. split; intros (i & Hi & Hp); exists i.
  - apply list_elem_of_In, elem_of_seqZ in Hi. split; [lia|assumption].
  - split; [apply list_elem_of_In, elem_of_seqZ; lia|assumption].
Qed.

(** Changing one inactive entry of the table adds exactly what it covers. *)
Lemma promised_insert s i r n dir a :
  tlen (regions s) = MAX_REGIONS -> 0 <= i < MAX_REGIONS -> r_active (reg s i) = false ->
  promised (mk_demand (tset (regions s) i r) n) dir a = promised s dir a || covers r dir a.
Proof.
  intros Hl Hi Ha. apply eq_bool_prop_intro. rewrite !Is_true_true, orb_true_iff. unfold promised.
  rewrite !existsb_seqZ. unfold reg. cbn [regions]. split.
  - intros (k & Hk & Hc). rewrite tget_tset in Hc by lia.
    destruct (Z.eqb_spec i k); [right; assumption|left; eauto].
  - intros [(k & Hk & Hc)|Hc]; [exists k|exists i]; rewrite tget_tset by lia.
    + split; [assumption|]. destruct (Z.eqb_spec i k) as [<-|]; [|assumption].
      unfold covers in Hc. unfold reg in Ha. rewrite Ha in Hc. discriminate.
    + rewrite Z.eqb_refl. auto.
Qed.

(** [demand_region] promises the whole pages of [start, stop) to one
    address space, and nothing else; when the sixteen entries are taken the
    request is dropped, and the caller is not told. *)
Theorem demand_region_promises (s : demand) (dir start stop flags dir' a : Z) :
  tlen (regions s) = MAX_REGIONS ->
  0 <= start < 0x100000000 -> 0 <= stop -> stop + 0xFFF < 0x100000000 ->
  promised (demand_region s dir start stop flags) dir' a
  = promised s dir' a ||
    (has_slot s && (dir =? dir') && (start / 4096 * 4096 <=? a) && (a <? (stop + 4095) / 4096 * 4096)).
Proof.
  intros Hl Hs Ht Ho. unfold demand_region.
  destruct (find_range 0 MAX_REGIONS _) as [i|] eqn:E.
  - apply find_range_some in E as (Hi & Ha & _). apply negb_true_iff in Ha.
    rewrite promised_insert by assumption. f_equal. unfold covers. cbn [r_active r_dir r_start r_end andb].
    replace (has_slot s) with true.
    + cbn [andb]. rewrite u32_small, !land_page by lia. f_equal; [f_equal|]; zcase; zdm || reflexivity.
    + symmetry. apply existsb_seqZ. exists i. rewrite Ha. auto.
  - replace (has_slot s) with false; [cbn [andb]; rewrite orb_false_r; reflexivity|].
    symmetry. apply not_true_iff_false. intros H. apply existsb_seqZ in H as (i & Hi & Ha).
    rewrite (find_range_none _ _ _ E i Hi) in Ha. discriminate.
Qed.

(** ** Witnesses *)

Definition demo_promises : demand := demand_region demand_boot 0x400000 0xC00000 0xC02000 6.

Lemma demand_handle_commits_witness :
  let '(s', st', r) := demand_handle demo_promises demo 0xC01234 0x6 in
  if negb (tst 0x6 0x1) && promised demo_promises (active_dir demo) 0xC01234 then
    (r = 1 /\ faults_served s' = u32 (faults_served demo_promises + 1) /\
       regions s' = regions demo_promises /\
       page_committed demo (active_dir demo) (0xC01234 - 0xC01234 mod 4096) st') \/
    (r = 0 /\ s' = demo_promises /\ pmm_free_frames (frames demo) < 2 /\
       data_kept demo (active_dir demo) st' /\
       forall v, 2 <= DIR_INDEX v ->
         vmm_translate st' (active_dir demo) v = vmm_translate demo (active_dir demo) v)
  else r = 0 /\ s' = demo_promises /\ st' = demo.
Proof.
  apply (demand_handle_commits demo_promises demo 0xC01234 0x6);
    [apply demo_ok|apply demo_space|lia|vm_compute; discriminate].
Defined.

Lemma demand_region_promises_witness :
  promised (demand_region demand_boot 0x400000 0xC00010 0xC01FF0 6) 0x400000 0xC01FFF
  = promised demand_boot 0x400000 0xC01FFF ||
    (has_slot demand_boot && (0x400000 =? 0x400000) && (0xC00010 / 4096 * 4096 <=? 0xC01FFF)
     && (0xC01FFF <? (0xC01FF0 + 4095) / 4096 * 4096)).
Proof. apply demand_region_promises; [reflexivity|lia|lia|lia]. Defined.
