(* ===== verification/Proc.v ===== *)
(** * Process table (kernel/proc.c, kernel/proc.h)

    The fixed table of process slots and the UNIX calls on it.  A [proc_t *] is
    an index into the table.  The kernel state pairs the table with the machine
    of [Vmm], because fork, exit, wait and the context switch act on both. *)

From stdpp Require Import base gmap list numbers option.
From Stdlib Require Import ZArith Lia Bool.
From S2P Require Import Prelude CString Screen Pmm Vmm VmmLemmas VmmSpec VmmClone VmmTheorems VmmProps.

Definition MAX_PROCS : Z := 16.
Definition PROC_NAME : Z := 16.
Definition USER_HEAP_BASE : Z := 0x00090000.
Definition USER_HEAP_END : Z := 0x0009F000.

Inductive proc_state_t := PROC_UNUSED | PROC_READY | PROC_RUNNING | PROC_ZOMBIE.

#[export] Instance proc_state_eq_dec : EqDecision proc_state_t.
Proof. solve_decision. Defined.

Record proc_t := mk_proc {
  pid : Z;
  ppid : Z;
  state : proc_state_t;
  dir : Z;
  entry_pt : Z;
  brk : Z;
  exit_code : Z;
  name : list Z
}.

(** A slot of zero bytes. *)
Definition zero_proc : proc_t := mk_proc 0 0 PROC_UNUSED 0 0 0 0 (replicate 16 0).

Record kernel := mk_kernel {
  table : list proc_t;
  next_pid : Z;
  current_idx : Z;
  mach : machine
}.

(** [table[i]], and a slot with some of its fields assigned. *)
Definition slot (k : kernel) (i : Z) : proc_t := tget zero_proc (table k) i.
Definition set_slot (k : kernel) (i : Z) (p : proc_t) : kernel :=
  mk_kernel (tset (table k) i p) (next_pid k) (current_idx k) (mach k).
Definition with_mach (k : kernel) (m : machine) : kernel :=
  mk_kernel (table k) (next_pid k) (current_idx k) m.
Definition with_current (k : kernel) (i : Z) : kernel :=
  mk_kernel (table k) (next_pid k) i (mach k).

Definition with_state (p : proc_t) (s : proc_state_t) : proc_t :=
  mk_proc (pid p) (ppid p) s (dir p) (entry_pt p) (brk p) (exit_code p) (name p).
Definition with_dir (p : proc_t) (d : Z) : proc_t :=
  mk_proc (pid p) (ppid p) (state p) d (entry_pt p) (brk p) (exit_code p) (name p).
Definition with_ppid (p : proc_t) (x : Z) : proc_t :=
  mk_proc (pid p) x (state p) (dir p) (entry_pt p) (brk p) (exit_code p) (name p).
Definition with_brk (p : proc_t) (x : Z) : proc_t :=
  mk_proc (pid p) (ppid p) (state p) (dir p) (entry_pt p) x (exit_code p) (name p).

Definition unused (p : proc_t) : bool := bool_decide (state p = PROC_UNUSED).

Definition zombie (p : proc_t) : bool := bool_decide (state p = PROC_ZOMBIE).

(** ** The operations *)

Definition proc_install (k : kernel) : kernel :=
  mk_kernel
    (tset (replicate 16 zero_proc) 0
       (mk_proc 0 0 PROC_RUNNING (vmm_kernel_dir (mach k)) 0 0 0
          (strncpy_z (replicate 16 0) (lit "kernel") PROC_NAME)))
    (next_pid k) 0 (mach k).

Definition proc_current (k : kernel) : Z := current_idx k.

Definition proc_get (k : kernel) (p : Z) : option Z :=
  find_range 0 MAX_PROCS (fun i => negb (unused (slot k i)) && (pid (slot k i) =? p)).

(** [nm] is [None] for a null name pointer.  [next_pid] is a signed 32-bit
    counter. *)
Definition proc_alloc (k : kernel) (nm : option (list Z)) : kernel * option Z :=
  match find_range 1 MAX_PROCS (fun i => unused (slot k i)) with
  | Some i =>
      let p := mk_proc (next_pid k) (pid (slot k (proc_current k))) PROC_READY 0 0 0 0
                 (strncpy_z (replicate 16 0) (default (lit "proc") nm) PROC_NAME) in
      (mk_kernel (tset (table k) i p) (i32 (next_pid k + 1)) (current_idx k) (mach k), Some i)
  | None => (k, None)
  end.

Definition proc_free (k : kernel) (i : Z) : kernel :=
  let p := slot k i in
  if pid p =? 0 then k
  else
    let k := if negb (dir p =? 0) && negb (dir p =? vmm_kernel_dir (mach k))
             then with_mach k (vmm_destroy_dir (mach k) (dir p)) else k in
    set_slot k i zero_proc.

Definition proc_count (k : kernel) : Z := count_range 0 MAX_PROCS (fun i => negb (unused (slot k i))).

Definition proc_state_name (s : proc_state_t) : list Z :=
  match s with
  | PROC_READY => lit "ready"
  | PROC_RUNNING => lit "running"
  | PROC_ZOMBIE => lit "zombie"
  | PROC_UNUSED => lit "unused"
  end.

Definition proc_list (k : kernel) (s : screen) : screen :=
  let s := kprint s (lit "  pid  ppid  state    name        address space" ++ [10]) in
  let s := for_range 0 MAX_PROCS (fun i s =>
    let p := slot k i in
    if unused p then s
    else
      let s := kprint s (lit "  ") in
      let s := kprint_dec s (u32 (pid p)) in
      let s := kprint s (lit "    ") in
      let s := kprint_dec s (u32 (ppid p)) in
      let s := kprint s (lit "    ") in
      let s := kprint s (proc_state_name (state p)) in
      let s := kprint s (lit "  ") in
      let s := kprint s (name p) in
      let s := kprint s (lit "  ") in
      let s := kprint_hex s (dir p) in
      kprint_char s 10) s in
  let s := kprint s (lit "  frames in use: ") in
  let s := kprint_dec s (pmm_used_frames (frames (mach k))) in
  let s := kprint s (lit " of ") in
  let s := kprint_dec s (pmm_total_frames (frames (mach k))) in
  kprint_char s 10.

Definition proc_fork (k : kernel) : kernel * Z :=
  let parent := proc_current k in
  match proc_alloc k (Some (name (slot k parent))) with
  | (k, None) => (k, -1)
  | (k, Some c) =>
      let '(m, d) := vmm_clone_cow (mach k) (dir (slot k parent)) in
      let k := set_slot (with_mach k m) c (with_dir (slot k c) d) in
      if d =? 0 then (set_slot k c (with_state (slot k c) PROC_UNUSED), -1)
      else
        let k := if parent =? proc_current k
                 then with_mach k (vmm_switch (mach k) (dir (slot k parent))) else k in
        let p := slot k parent in
        let ch := slot k c in
        (set_slot k c (mk_proc (pid ch) (pid p) PROC_READY (dir ch) (entry_pt p) (brk p)
                         (exit_code ch) (name ch)), pid ch)
  end.

(** The loop that re-parents the children of slot [i]. *)
Definition reparent (i : Z) (k : kernel) : kernel :=
  for_range 1 MAX_PROCS (fun j k =>
    if negb (unused (slot k j)) && (ppid (slot k j) =? pid (slot k i))
    then set_slot k j (with_ppid (slot k j) 0) else k) k.

Definition proc_exit (k : kernel) (code : Z) : kernel :=
  let i := proc_current k in
  let p := slot k i in
  if pid p =? 0 then k
  else
    let k := set_slot k i (mk_proc (pid p) (ppid p) PROC_ZOMBIE (dir p) (entry_pt p) (brk p)
                             code (name p)) in
    let k := if i =? proc_current k then
               let k := with_mach k (vmm_switch (mach k) (vmm_kernel_dir (mach k))) in
               let k := with_current k 0 in
               set_slot k 0 (with_state (slot k 0) PROC_RUNNING)
             else k in
    let k := if negb (dir (slot k i) =? 0) && negb (dir (slot k i) =? vmm_kernel_dir (mach k)) then
               let k := with_mach k (vmm_destroy_dir (mach k) (dir (slot k i))) in
               set_slot k i (with_dir (slot k i) 0)
             else k in
    reparent i k.

(** The value stored through [status], if a child is reaped. *)
Definition proc_wait (k : kernel) : kernel * Z * option Z :=
  let me := slot k (proc_current k) in
  match find_range 1 MAX_PROCS (fun i =>
          zombie (slot k i) && (ppid (slot k i) =? pid me)) with
  | Some i => (proc_free k i, pid (slot k i), Some (exit_code (slot k i)))
  | None => (k, -1, None)
  end.

Definition proc_switch_to (k : kernel) (p : Z) : kernel * Z :=
  match proc_get k p with
  | None => (k, -1)
  | Some i =>
      if zombie (slot k i) || (dir (slot k i) =? 0) then (k, -1)
      else
        let old := proc_current k in
        let k := if bool_decide (state (slot k old) = PROC_RUNNING)
                 then set_slot k old (with_state (slot k old) PROC_READY) else k in
        let k := with_current k i in
        let k := set_slot k i (with_state (slot k i) PROC_RUNNING) in
        (with_mach k (vmm_switch (mach k) (dir (slot k i))), 0)
  end.

Definition proc_begin_user (k : kernel) (nm : option (list Z)) : kernel * Z :=
  match proc_alloc k nm with
  | (k, None) => (k, -1)
  | (k, Some i) =>
      let k := set_slot k i (with_dir (slot k i) (vmm_kernel_dir (mach k))) in
      let k := set_slot k i (with_brk (slot k i) USER_HEAP_BASE) in
      let k := fst (proc_switch_to k (pid (slot k i))) in
      (k, pid (slot k i))
  end.

Definition proc_end_user (k : kernel) (p : Z) : kernel :=
  let k := fst (proc_switch_to k 0) in
  match proc_get k p with
  | Some i => proc_free k i
  | None => k
  end.

(** ** Invariant *)

(** Slot 0 is the kernel; exactly the current slot is running and its address
    space is the one in CR3; pids are unique and below [next_pid], which has not
    overflowed, and so are the pids of the parents; a zombie has no address space
    of its own left. *)
Record proc_wf (k : kernel) : Prop := {
  pw_len : tlen (table k) = MAX_PROCS;
  pw_cur : 0 <= current_idx k < MAX_PROCS;
  pw_kernel : pid (slot k 0) = 0 /\ dir (slot k 0) = kernel_dir (mach k);
  pw_kdir : kernel_dir (mach k) <> 0;
  pw_next : 1 <= next_pid k <= INT_MAX;
  pw_running : forall i, 0 <= i < MAX_PROCS -> state (slot k i) = PROC_RUNNING <-> i = current_idx k;
  pw_alive : state (slot k 0) = PROC_READY \/ state (slot k 0) = PROC_RUNNING;
  pw_pid : forall i, 1 <= i < MAX_PROCS -> state (slot k i) <> PROC_UNUSED ->
    1 <= pid (slot k i) < next_pid k;
  pw_ppid : forall i, 0 <= i < MAX_PROCS -> state (slot k i) <> PROC_UNUSED ->
    0 <= ppid (slot k i) < next_pid k;
  pw_inj : forall i j, 0 <= i < MAX_PROCS -> 0 <= j < MAX_PROCS ->
    state (slot k i) <> PROC_UNUSED -> state (slot k j) <> PROC_UNUSED ->
    pid (slot k i) = pid (slot k j) -> i = j;
  pw_cr3 : cr3 (mach k) = dir (slot k (current_idx k));
  pw_zombie : forall i, 0 <= i < MAX_PROCS -> state (slot k i) = PROC_ZOMBIE ->
    dir (slot k i) = 0 \/ dir (slot k i) = kernel_dir (mach k)
}.

(** The calls the rest of the kernel makes. *)
Inductive proc_call :=
| Fork
| Exit (code : Z)
| Wait
| SwitchTo (p : Z)
| BeginUser (nm : option (list Z))
| EndUser (p : Z).

Definition proc_step (k : kernel) (c : proc_call) : kernel :=
  match c with
  | Fork => fst (proc_fork k)
  | Exit code => proc_exit k code
  | Wait => fst (fst (proc_wait k))
  | SwitchTo p => fst (proc_switch_to k p)
  | BeginUser nm => fst (proc_begin_user k nm)
  | EndUser p => proc_end_user k p
  end.

(** ** Registers the memory operations leave alone *)

Definition same_regs (st st' : machine) : Prop := cr3 st' = cr3 st /\ kernel_dir st' = kernel_dir st.

Lemma same_regs_refl st : same_regs st st.
Proof. split; reflexivity. Qed.

Lemma same_regs_trans a b c : same_regs a b -> same_regs b c -> same_regs a c.
Proof. unfold same_regs. intros [? ?] [? ?]. split; congruence. Qed.

#[export] Instance same_regs_preorder : PreOrder same_regs.
Proof. split; [exact same_regs_refl|exact same_regs_trans]. Qed.

Lemma with_frames_regs st s p : same_regs st s -> same_regs st (with_frames s p).
Proof. exact (fun H => H). Qed.

Lemma with_ram_regs st s m : same_regs st s -> same_regs st (with_ram s m).
Proof. exact (fun H => H). Qed.

#[export] Hint Resolve with_frames_regs with_ram_regs same_regs_refl : pyro.

Lemma alloc_regs st : same_regs st (fst (alloc st)).
Proof. unfold alloc. destruct (pmm_alloc (frames st)). split; reflexivity. Qed.

Lemma create_dir_regs st : same_regs st (fst (vmm_create_dir st)).
Proof.
  unfold vmm_create_dir. pose proof (alloc_regs st) as A. destruct (alloc st) as [s f]. cbn [fst] in A.
  destruct (f =? 0); cbn [fst]; auto with pyro.
Qed.

Lemma free_pages_regs s t : same_regs s (free_table_pages s t).
Proof.
  apply (for_range_ind (fun _ x => same_regs s x)); [lia|reflexivity|].
  intros k x _ Hx. destruct (tst _ _); auto with pyro.
Qed.

Lemma destroy_regs st d : same_regs st (vmm_destroy_dir st d).
Proof.
  unfold vmm_destroy_dir. destruct (_ || _)%bool; [reflexivity|]. apply with_frames_regs.
  apply (for_range_ind (fun _ s => same_regs st s)); [lia|reflexivity|].
  intros i s _ H. etransitivity; [exact H|]. unfold destroy_slot. destruct (negb _); [reflexivity|].
  apply with_ram_regs, with_frames_regs, free_pages_regs.
Qed.

Lemma share_slot_regs src dst i t : same_regs t (fst (share_slot src dst i t)).
Proof.
  unfold share_slot. destruct (negb _); [reflexivity|].
  pose proof (alloc_regs t) as A. destruct (alloc t) as [u f]. cbn [fst] in A.
  destruct (f =? 0); cbn [fst]; (etransitivity; [exact A|]); [apply destroy_regs|].
  apply (for_range_ind (fun _ x => same_regs u x)); [lia|auto with pyro|].
  intros k x _ Hx. unfold share_entry. destruct (negb _); auto with pyro.
Qed.

Lemma clone_cow_regs st src : same_regs st (fst (vmm_clone_cow st src)).
Proof.
  unfold vmm_clone_cow. destruct (src =? 0); [reflexivity|].
  pose proof (create_dir_regs st) as C. destruct (vmm_create_dir st) as [s dst]. cbn [fst] in C.
  destruct (dst =? 0); [exact C|].
  pose proof (for_range_ret_ind (fun _ x => same_regs st x) (fun (_ : Z) x => same_regs st x)
      2 1024 (share_slot src dst) s ltac:(lia) C) as L.
  assert (B : forall i t, same_regs st t ->
    match share_slot src dst i t with (t', _) => same_regs st t' end).
  { intros i t Ht. pose proof (share_slot_regs src dst i t) as R. destruct (share_slot src dst i t).
    etransitivity; eassumption. }
  destruct (for_range_ret 2 1024 (share_slot src dst) s) as [s' [r|]]; apply L;
    intros i t _ Ht; specialize (B i t Ht); destruct (share_slot src dst i t) as [t' [r'|]]; exact B.
Qed.

(** ** Slots *)

Lemma slot_set k i p j :
  tlen (table k) = MAX_PROCS -> 0 <= i < MAX_PROCS -> 0 <= j ->
  slot (set_slot k i p) j = if i =? j then p else slot k j.
Proof. intros Hl Hi Hj. unfold slot, set_slot. cbn [table]. apply tget_tset; lia. Qed.

Lemma unused_true p : unused p = true <-> state p = PROC_UNUSED.
Proof. apply bool_decide_eq_true. Qed.

Lemma unused_false p : unused p = false <-> state p <> PROC_UNUSED.
Proof. apply bool_decide_eq_false. Qed.

Lemma zombie_false p : negb (zombie p) = true <-> state p <> PROC_ZOMBIE.
Proof. unfold zombie. rewrite negb_true_iff. apply bool_decide_eq_false. Qed.

(** The facts about one slot that matter to the invariant. *)
Lemma proc_wf_ext k k' :
  proc_wf k -> tlen (table k') = MAX_PROCS -> next_pid k' = next_pid k -> current_idx k' = current_idx k ->
  same_regs (mach k) (mach k') ->
  (forall i, 0 <= i < MAX_PROCS -> pid (slot k' i) = pid (slot k i) /\
     state (slot k' i) = state (slot k i) /\ dir (slot k' i) = dir (slot k i) /\
     (ppid (slot k' i) = ppid (slot k i) \/ ppid (slot k' i) = 0)) ->
  proc_wf k'.
Proof.
  intros [] Hl Hn Hc [R1 R2] E. unfold MAX_PROCS in *.
  assert (E0 := E 0 ltac:(lia)). destruct E0 as (E1 & E2 & E3 & _).
  assert (Ec := E (current_idx k) pw_cur0). destruct Ec as (_ & _ & Ec & _).
  constructor; unfold MAX_PROCS; rewrite ?Hn, ?Hc, ?R1, ?R2, ?E1, ?E2, ?E3, ?Ec; auto.
  - intros i Hi. destruct (E i Hi) as (_ & -> & _). auto.
  - intros i Hi. destruct (E i ltac:(lia)) as (-> & -> & _). auto.
  - intros i Hi. destruct (E i Hi) as (_ & -> & _ & [-> | ->]); [auto|lia].
  - intros i j Hi Hj. destruct (E i Hi) as (-> & -> & _), (E j Hj) as (-> & -> & _). auto.
  - intros i Hi. destruct (E i Hi) as (_ & -> & -> & _). auto.
Qed.

(** Assigning one slot above 0. *)
Lemma proc_wf_set k k' i p :
  proc_wf k -> 1 <= i < MAX_PROCS ->
  table k' = tset (table k) i p -> next_pid k <= next_pid k' <= INT_MAX -> current_idx k' = current_idx k ->
  same_regs (mach k) (mach k') ->
  (state p = PROC_RUNNING <-> i = current_idx k) ->
  (i = current_idx k -> dir p = dir (slot k i)) ->
  (state p <> PROC_UNUSED -> 1 <= pid p < next_pid k' /\ 0 <= ppid p < next_pid k' /\
     forall j, 0 <= j < MAX_PROCS -> j <> i -> state (slot k j) <> PROC_UNUSED -> pid (slot k j) <> pid p) ->
  (state p = PROC_ZOMBIE -> dir p = 0 \/ dir p = kernel_dir (mach k)) ->
  proc_wf k'.
Proof.
  intros [] Hi Ht Hn Hc [R1 R2] Hrun Hdir Hpid Hz. unfold MAX_PROCS in *.
  assert (Es : forall j, 0 <= j -> slot k' j = if i =? j then p else slot k j).
  { intros j Hj. unfold slot. rewrite Ht. apply tget_tset; lia. }
  assert (E0 : slot k' 0 = slot k 0) by (rewrite Es by lia; destruct (Z.eqb_spec i 0); [lia|reflexivity]).
  constructor; unfold MAX_PROCS; rewrite ?E0, ?Hc, ?R1, ?R2; auto; try lia.
  - rewrite Ht, tlen_tset. assumption.
  - intros j Hj. rewrite Es by lia. destruct (Z.eqb_spec i j) as [<-|]; auto.
  - intros j Hj. rewrite Es by lia. destruct (Z.eqb_spec i j) as [<-|].
    + intros U. apply Hpid in U. lia.
    + intros U. specialize (pw_pid0 j Hj U). lia.
  - intros j Hj. rewrite Es by lia. destruct (Z.eqb_spec i j) as [<-|].
    + intros U. apply Hpid in U. lia.
    + intros U. specialize (pw_ppid0 j Hj U). lia.
  - intros a b Ha Hb. rewrite !Es by lia.
    destruct (Z.eqb_spec i a) as [<-|Na], (Z.eqb_spec i b) as [<-|Nb]; auto.
    + intros U V E. exfalso. apply (proj2 (proj2 (Hpid U)) b Hb); auto.
    + intros U V E. exfalso. apply (proj2 (proj2 (Hpid V)) a Ha); auto.
  - rewrite Es by lia. destruct (Z.eqb_spec i (current_idx k)) as [E|]; [|assumption].
    rewrite Hdir, E by assumption. assumption.
  - intros j Hj. rewrite Es by lia. destruct (Z.eqb_spec i j) as [<-|]; auto.
Qed.

Lemma proc_get_some k p i :
  proc_get k p = Some i -> 0 <= i < MAX_PROCS /\ state (slot k i) <> PROC_UNUSED /\ pid (slot k i) = p.
Proof.
  intros H. apply find_range_some in H as (Hi & Hp & _). b2p. split; [lia|].
  split; [apply unused_false; assumption|assumption].
Qed.

(** Unique pids make the lookup a function of the pid. *)
Lemma proc_get_unique k i :
  proc_wf k -> 0 <= i < MAX_PROCS -> state (slot k i) <> PROC_UNUSED -> proc_get k (pid (slot k i)) = Some i.
Proof.
  intros W Hi U. apply find_range_least; [assumption| |].
  - apply unused_false in U. rewrite U, Z.eqb_refl. reflexivity.
  - intros j Hj. destruct (unused (slot k j)) eqn:V; [reflexivity|]. apply unused_false in V. simpl.
    apply Z.eqb_neq. intros E. pose proof (pw_inj k W j i ltac:(lia) Hi V U E). lia.
Qed.

(** The slot [proc_alloc] fills, and the kernel it leaves. *)
Definition new_proc (k : kernel) (nm : option (list Z)) : proc_t :=
  mk_proc (next_pid k) (pid (slot k (current_idx k))) PROC_READY 0 0 0 0
    (strncpy_z (replicate 16 0) (default (lit "proc") nm) PROC_NAME).
Definition alloc_kernel (k : kernel) (i : Z) (nm : option (list Z)) : kernel :=
  mk_kernel (tset (table k) i (new_proc k nm)) (i32 (next_pid k + 1)) (current_idx k) (mach k).

(** The counter can be incremented. *)
Definition pids_left (k : kernel) : Prop := next_pid k < INT_MAX.

Lemma next_pid_step k : proc_wf k -> pids_left k -> i32 (next_pid k + 1) = next_pid k + 1.
Proof. intros W P. pose proof (pw_next k W). unfold pids_left, INT_MAX in *. apply i32_small. lia. Qed.

Lemma current_pid k : proc_wf k -> 0 <= pid (slot k (current_idx k)) < next_pid k.
Proof.
  intros W. pose proof (pw_cur k W) as C. pose proof (pw_next k W).
  destruct (Z.eq_dec (current_idx k) 0) as [E|]; [rewrite E, (proj1 (pw_kernel k W)); lia|].
  assert (R : state (slot k (current_idx k)) = PROC_RUNNING) by (apply (pw_running k W); auto).
  pose proof (pw_pid k W (current_idx k) ltac:(lia)). rewrite R in *. specialize (H0 ltac:(discriminate)). lia.
Qed.

Lemma proc_alloc_cases k nm :
  proc_wf k -> pids_left k ->
  (proc_alloc k nm = (k, None) /\ forall i, 1 <= i < MAX_PROCS -> state (slot k i) <> PROC_UNUSED) \/
  exists i, 1 <= i < MAX_PROCS /\ state (slot k i) = PROC_UNUSED /\
    (forall j, 1 <= j < i -> state (slot k j) <> PROC_UNUSED) /\
    proc_alloc k nm = (alloc_kernel k i nm, Some i) /\ proc_wf (alloc_kernel k i nm) /\
    forall j, 0 <= j -> slot (alloc_kernel k i nm) j = if i =? j then new_proc k nm else slot k j.
Proof.
  intros W Pl. pose proof (next_pid_step k W Pl) as En. unfold proc_alloc.
  destruct (find_range 1 MAX_PROCS _) as [i|] eqn:E.
  - right. apply find_range_some in E as (Hi & Hu & Hlt). apply unused_true in Hu. exists i.
    split; [assumption|]. split; [assumption|].
    split; [intros j Hj; apply unused_false, Hlt; assumption|].
    split; [reflexivity|].
    assert (Hrun : i <> current_idx k).
    { intros ->. assert (state (slot k (current_idx k)) = PROC_RUNNING)
        by (apply (pw_running k W); [apply (pw_cur k W)|reflexivity]). congruence. }
    split.
    + refine (proc_wf_set k (alloc_kernel k i nm) i (new_proc k nm) W Hi eq_refl _ eq_refl
        (same_regs_refl _) _ _ _ _); cbn [alloc_kernel new_proc next_pid state pid ppid dir]; rewrite ?En; [unfold pids_left, INT_MAX in *; lia| | | |].
      * split; [discriminate|intros; contradiction].
      * intros; contradiction.
      * intros _. pose proof (pw_next k W). pose proof (current_pid k W). split; [lia|]. split; [lia|]. intros j Hj Hne U.
        destruct (Z.eq_dec j 0) as [->|]; [rewrite (proj1 (pw_kernel k W)); lia|].
        pose proof (pw_pid k W j ltac:(lia) U). lia.
      * discriminate.
    + intros j Hj. unfold slot, alloc_kernel. cbn [table]. apply tget_tset; [|assumption].
      rewrite (pw_len k W). lia.
  - left. split; [reflexivity|]. intros i Hi. apply unused_false, (find_range_none _ _ _ E). assumption.
Qed.

Lemma proc_free_wf k i :
  proc_wf k -> 0 <= i < MAX_PROCS -> i <> current_idx k -> proc_wf (proc_free k i).
Proof.
  intros W Hi Hc. unfold proc_free. destruct (Z.eqb_spec (pid (slot k i)) 0) as [E|N]; [assumption|].
  assert (i <> 0) by (intros ->; apply N, (pw_kernel k W)).
  match goal with |- proc_wf (set_slot ?x i zero_proc) => set (k' := x) end.
  assert (T : table k' = table k /\ next_pid k' = next_pid k /\ current_idx k' = current_idx k /\
              same_regs (mach k) (mach k')).
  { unfold k'. destruct (_ && _)%bool; cbn; auto using destroy_regs with pyro. }
  destruct T as (T1 & T2 & T3 & T4).
  refine (proc_wf_set k (set_slot k' i zero_proc) i zero_proc W _ _ _ T3 T4 _ _ _ _); cbn [set_slot table next_pid state zero_proc];
    [lia|congruence|rewrite T2; pose proof (pw_next k W); lia|split; congruence|congruence|congruence|congruence].
Qed.

Lemma proc_switch_to_wf k p : proc_wf k -> proc_wf (fst (proc_switch_to k p)).
Proof.
  intros W. unfold proc_switch_to, zombie. destruct (proc_get k p) as [i|] eqn:G; [|assumption].
  apply proc_get_some in G as (Hi & U & Hp).
  destruct (bool_decide (state (slot k i) = PROC_ZOMBIE)) eqn:Z; [assumption|].
  destruct (Z.eqb_spec (dir (slot k i)) 0) as [|Nd]; [assumption|]. cbn [orb].
  apply bool_decide_eq_false in Z. pose proof (pw_cur k W) as Hcur. pose proof (pw_len k W) as Hlen.
  assert (Rc : state (slot k (current_idx k)) = PROC_RUNNING) by (apply (pw_running k W); auto).
  unfold proc_current. rewrite bool_decide_eq_true_2 by assumption. cbn [fst].
  set (k1 := set_slot k (current_idx k) _).
  set (k2 := set_slot (with_current k1 i) i _).
  assert (L1 : tlen (table k1) = MAX_PROCS) by (unfold k1, set_slot; cbn [table]; rewrite tlen_tset; assumption).
  assert (S1 : forall j, 0 <= j -> slot k1 j
    = if current_idx k =? j then with_state (slot k (current_idx k)) PROC_READY else slot k j)
    by (intros; apply slot_set; auto).
  assert (S2 : forall j, 0 <= j -> slot k2 j
    = if i =? j then with_state (slot k1 i) PROC_RUNNING else slot k1 j).
  { intros j Hj. unfold k2. rewrite slot_set by auto. destruct (i =? j); reflexivity. }
  assert (Pp : forall j, 0 <= j -> ppid (slot k2 j) = ppid (slot k j)).
  { intros j Hj. rewrite S2 by assumption. destruct (Z.eqb_spec i j) as [<-|]; rewrite S1 by lia.
    - destruct (Z.eqb_spec (current_idx k) i) as [->|]; reflexivity.
    - destruct (Z.eqb_spec (current_idx k) j) as [->|]; reflexivity. }
  assert (P : forall j, 0 <= j -> pid (slot k2 j) = pid (slot k j) /\ dir (slot k2 j) = dir (slot k j) /\
    (state (slot k2 j) = if i =? j then PROC_RUNNING else if current_idx k =? j then PROC_READY
                         else state (slot k j))).
  { intros j Hj. rewrite S2 by assumption. destruct (Z.eqb_spec i j) as [<-|].
    - rewrite S1 by lia. destruct (Z.eqb_spec (current_idx k) i) as [->|]; auto.
    - rewrite S1 by lia. destruct (Z.eqb_spec (current_idx k) j) as [->|]; auto. }
  assert (Used : forall j, 0 <= j < MAX_PROCS -> state (slot k2 j) <> PROC_UNUSED -> state (slot k j) <> PROC_UNUSED).
  { intros j Hj. destruct (P j ltac:(lia)) as (_ & _ & ->). destruct (Z.eqb_spec i j) as [<-|]; [auto|].
    destruct (Z.eqb_spec (current_idx k) j) as [<-|]; [congruence|auto]. }
  assert (T : same_regs (mach k) (mach k2)) by (split; reflexivity).
  destruct W. unfold MAX_PROCS in *.
  destruct (P 0 ltac:(lia)) as (P1 & P2 & P3). destruct (P i ltac:(lia)) as (_ & P5 & _).
  constructor; unfold MAX_PROCS; cbn [table current_idx next_pid mach with_mach];
    change (slot (with_mach k2 ?m) ?j) with (slot k2 j); auto.
  - unfold k2, set_slot. cbn [table with_current]. rewrite tlen_tset. assumption.
  - rewrite P1, P2. assumption.
  - intros j Hj. destruct (P j ltac:(lia)) as (_ & _ & ->). unfold k2. cbn [set_slot current_idx with_current].
    destruct (Z.eqb_spec i j) as [<-|]; [tauto|]. destruct (Z.eqb_spec (current_idx k) j) as [<-|].
    + split; [discriminate|congruence].
    + rewrite pw_running0 by assumption. split; congruence.
  - rewrite P3. destruct (i =? 0); [auto|]. destruct (current_idx k =? 0); auto.
  - intros j Hj U2. destruct (P j ltac:(lia)) as (-> & _). apply pw_pid0; auto.
    apply Used; [lia|assumption].
  - intros j Hj U2. rewrite Pp by lia. apply pw_ppid0; [assumption|]. apply Used; assumption.
  - intros a b Ha Hb Ua Ub. destruct (P a ltac:(lia)) as (-> & _), (P b ltac:(lia)) as (-> & _).
    apply pw_inj0; auto.
  - intros j Hj. destruct (P j ltac:(lia)) as (_ & -> & ->).
    destruct (i =? j); [discriminate|]. destruct (current_idx k =? j); [discriminate|]. apply pw_zombie0. assumption.
Qed.

(** The state of a fork that found a slot [c] and cloned into directory [d]. *)
Lemma proc_fork_wf k : proc_wf k -> pids_left k -> proc_wf (fst (proc_fork k)).
Proof.
  intros W Pl. unfold proc_fork.
  destruct (proc_alloc_cases k (Some (name (slot k (proc_current k)))) W Pl) as
    [[-> _]|(c & Hc & Hu & _ & -> & W1 & S1)]; [assumption|].
  set (k1 := alloc_kernel k c _) in *. cbv zeta. unfold proc_current.
  pose proof (clone_cow_regs (mach k1) (dir (slot k1 (current_idx k)))) as R.
  destruct (vmm_clone_cow (mach k1) (dir (slot k1 (current_idx k)))) as [m d]. cbn [fst] in R.
  assert (Nc : c <> current_idx k1).
  { intros E. pose proof (proj2 (pw_running k1 W1 (current_idx k1) (pw_cur k1 W1)) eq_refl) as Hr.
    rewrite <- E, S1, Z.eqb_refl in Hr by lia. discriminate. }
  pose proof (S1 c ltac:(lia)) as Sc. rewrite Z.eqb_refl in Sc.
  pose proof (pw_len k1 W1) as L1.
  set (k2 := set_slot (with_mach k1 m) c _).
  assert (S2 : slot k2 c = with_dir (slot k1 c) d)
    by (unfold k2; rewrite slot_set, Z.eqb_refl by (auto; lia); reflexivity).
  destruct (Z.eqb_spec d 0); cbn [fst].
  - refine (proc_wf_set k1 (set_slot k2 c (with_state (slot k2 c) PROC_UNUSED)) c
      (with_state (slot k2 c) PROC_UNUSED) W1 Hc _ _ _ R _ _ _ _);
      cbn [set_slot table next_pid current_idx mach with_mach k2]; [|split; [lia|apply (pw_next k1 W1)]|reflexivity| | | |].
    + apply tset_tset.
    + cbn. split; [discriminate|contradiction].
    + intros; contradiction.
    + cbn. congruence.
    + discriminate.
  - change (current_idx k2) with (current_idx k). rewrite Z.eqb_refl.
    assert (Sp : slot k2 (current_idx k) = slot k1 (current_idx k)).
    { unfold k2. rewrite slot_set by (auto; pose proof (pw_cur k W); lia).
      destruct (Z.eqb_spec c (current_idx k)) as [E|]; [contradiction|reflexivity]. }
    set (k3 := with_mach k2 _).
    change (slot k3 (current_idx k)) with (slot k2 (current_idx k)). change (slot k3 c) with (slot k2 c).
    rewrite Sp, S2, Sc. cbn [fst with_dir new_proc pid dir exit_code name].
    match goal with |- proc_wf (set_slot k3 c ?p) =>
      refine (proc_wf_set k1 (set_slot k3 c p) c p W1 Hc _ _ _ _ _ _ _ _) end;
      cbn [set_slot table next_pid current_idx mach with_mach k2 k3 state pid ppid dir]; [| |reflexivity| | | | |].
    + apply tset_tset.
    + split; [lia|apply (pw_next k1 W1)].
    + destruct R as [R1 R2]. split; cbn [vmm_switch cr3 kernel_dir]; [|assumption].
      rewrite Sp. symmetry. apply (pw_cr3 k1 W1).
    + split; [discriminate|contradiction].
    + intros; contradiction.
    + intros _. assert (U : state (slot k1 c) <> PROC_UNUSED) by (rewrite Sc; discriminate).
      pose proof (pw_pid k1 W1 c Hc U) as B. rewrite Sc in B. cbn [new_proc pid] in B. split; [lia|].
      split; [exact (current_pid k1 W1)|]. intros j Hj Hne Uj E. apply Hne. apply (pw_inj k1 W1 j c Hj ltac:(lia) Uj U).
      rewrite Sc. exact E.
    + discriminate.
Qed.

Definition is_child (k : kernel) (i j : Z) : bool :=
  (1 <=? j) && negb (unused (slot k j)) && (ppid (slot k j) =? pid (slot k i)).

(** It changes the parents of exactly those slots. *)
Lemma reparent_spec k i :
  tlen (table k) = MAX_PROCS -> 0 <= i ->
  let k' := reparent i k in
  tlen (table k') = MAX_PROCS /\ mach k' = mach k /\ current_idx k' = current_idx k /\
  next_pid k' = next_pid k /\
  forall j, 0 <= j < MAX_PROCS ->
    slot k' j = if is_child k i j then with_ppid (slot k j) 0 else slot k j.
Proof.
  intros Hl Hi. unfold reparent, is_child.
  pose proof (for_range_ind (fun n x =>
    (tlen (table x) = MAX_PROCS /\ mach x = mach k /\ current_idx x = current_idx k /\
     next_pid x = next_pid k) /\
    forall j, 0 <= j -> slot x j =
      if (1 <=? j) && (j <? n) && (negb (unused (slot k j)) && (ppid (slot k j) =? pid (slot k i)))
      then with_ppid (slot k j) 0 else slot k j)
    1 MAX_PROCS (fun j k0 => if negb (unused (slot k0 j)) && (ppid (slot k0 j) =? pid (slot k0 i))
       then set_slot k0 j (with_ppid (slot k0 j) 0) else k0) k) as L.
  destruct L as [[L1 [L2 [L3 L4]]] L5]; [unfold MAX_PROCS; lia| | |].
  - split; [auto|]. intros j Hj. zcase; try lia; reflexivity.
  - intros n x Hn [(X1 & X2 & X3 & X4) X5].
    assert (Pi : pid (slot x i) = pid (slot k i)).
    { rewrite X5 by assumption. destruct (_ && _)%bool; reflexivity. }
    pose proof (X5 n ltac:(lia)) as Xn. rewrite Z.ltb_irrefl, andb_false_r in Xn. cbn [andb] in Xn.
    rewrite Xn, Pi. destruct (negb (unused (slot k n)) && (ppid (slot k n) =? pid (slot k i))) eqn:E.
    + split; [cbn [set_slot table mach current_idx next_pid]; rewrite tlen_tset; auto|].
      intros j Hj. rewrite slot_set, X5 by (auto; lia).
      destruct (Z.eqb_spec n j) as [<-|]; [rewrite E; zcase; try lia; reflexivity|].
      replace (j <? n + 1) with (j <? n) by (zcase; lia || reflexivity). reflexivity.
    + split; [auto|]. intros j Hj. rewrite X5 by assumption. destruct (Z.eq_dec j n) as [->|].
      * rewrite E, !andb_false_r. reflexivity.
      * replace (j <? n + 1) with (j <? n) by (zcase; lia || reflexivity). reflexivity.
  - cbv zeta. split; [assumption|]. split; [assumption|]. split; [assumption|]. split; [assumption|].
    intros j Hj. rewrite L5 by lia. destruct (Z.ltb_spec j MAX_PROCS); [|lia].
    rewrite andb_true_r, andb_assoc. reflexivity.
Qed.

Lemma reparent_wf k i : proc_wf k -> 0 <= i -> proc_wf (reparent i k).
Proof.
  intros W Hi. destruct (reparent_spec k i (pw_len k W) Hi) as (L & M & C & N & S).
  apply (proc_wf_ext k); auto.
  - rewrite M. reflexivity.
  - intros j Hj. rewrite S by assumption. destruct (is_child k i j); cbn; auto.
Qed.

(** The state of [proc_exit] before the children are re-parented. *)
Definition exit_state (k : kernel) (code : Z) : kernel :=
  let i := current_idx k in
  let p := slot k i in
  let own := negb (dir p =? 0) && negb (dir p =? kernel_dir (mach k)) in
  let m := vmm_switch (mach k) (kernel_dir (mach k)) in
  mk_kernel
    (tset (tset (table k) i (mk_proc (pid p) (ppid p) PROC_ZOMBIE (if own then 0 else dir p)
                               (entry_pt p) (brk p) code (name p)))
          0 (with_state (slot k 0) PROC_RUNNING))
    (next_pid k) 0 (if own then vmm_destroy_dir m (dir p) else m).

Lemma proc_exit_eq k code :
  proc_wf k -> pid (slot k (current_idx k)) <> 0 ->
  proc_exit k code = reparent (current_idx k) (exit_state k code).
Proof.
  intros W Hp. unfold proc_exit, proc_current. destruct (Z.eqb_spec (pid (slot k (current_idx k))) 0); [contradiction|].
  pose proof (pw_cur k W) as Hc. pose proof (pw_len k W) as Hl.
  assert (N0 : current_idx k <> 0) by (intros E; apply Hp; rewrite E; apply (pw_kernel k W)).
  set (z := mk_proc _ _ _ _ _ _ _ _). set (k1 := set_slot k (current_idx k) z).
  assert (L1 : tlen (table k1) = MAX_PROCS) by (unfold k1; cbn [set_slot table]; rewrite tlen_tset; assumption).
  change (current_idx k1) with (current_idx k). rewrite Z.eqb_refl.
  set (k2 := set_slot (with_current (with_mach k1 _) 0) 0 _).
  assert (S2 : slot k2 (current_idx k) = z).
  { unfold k2. rewrite slot_set by (auto; unfold MAX_PROCS; lia).
    destruct (Z.eqb_spec 0 (current_idx k)); [congruence|].
    change (slot k1 (current_idx k) = z). unfold k1. rewrite slot_set, Z.eqb_refl by (auto; lia). reflexivity. }
  rewrite S2. cbn [z dir]. change (vmm_kernel_dir (mach k2)) with (kernel_dir (mach k)).
  assert (Z0 : slot k1 0 = slot k 0).
  { unfold k1. rewrite slot_set by (auto; lia). destruct (Z.eqb_spec (current_idx k) 0); [contradiction|reflexivity]. }
  f_equal. unfold exit_state. fold z.
  destruct (negb (dir (slot k (current_idx k)) =? 0) && _) eqn:O.
  - change (slot (with_mach k2 ?m) ?j) with (slot k2 j). rewrite S2.
    unfold k2, with_mach, with_current, set_slot. cbn [table next_pid current_idx mach].
    change (slot (mk_kernel (table k1) (next_pid k1) 0 _) 0) with (slot k1 0). rewrite Z0.
    unfold k1, set_slot. cbn [table next_pid current_idx mach]. f_equal.
    unfold tset. rewrite (list_insert_insert_ne _ (Z.to_nat (current_idx k)) (Z.to_nat 0)) by lia.
    rewrite list_insert_insert_eq. reflexivity.
  - unfold k2, with_mach, with_current, set_slot. cbn [table next_pid current_idx mach].
    change (slot (mk_kernel (table k1) (next_pid k1) 0 _) 0) with (slot k1 0). rewrite Z0. reflexivity.
Qed.

Lemma exit_state_slot k code j :
  proc_wf k -> current_idx k <> 0 -> 0 <= j ->
  slot (exit_state k code) j =
    if 0 =? j then with_state (slot k 0) PROC_RUNNING
    else if current_idx k =? j then
      let p := slot k (current_idx k) in
      mk_proc (pid p) (ppid p) PROC_ZOMBIE
        (if negb (dir p =? 0) && negb (dir p =? kernel_dir (mach k)) then 0 else dir p)
        (entry_pt p) (brk p) code (name p)
    else slot k j.
Proof.
  intros W N0 Hj. pose proof (pw_cur k W). pose proof (pw_len k W) as Hl. unfold slot at 1, exit_state.
  cbn [table]. unfold MAX_PROCS in *. rewrite tget_tset by (rewrite ?tlen_tset; lia).
  destruct (0 =? j); [reflexivity|]. rewrite tget_tset by lia. reflexivity.
Qed.

Lemma exit_state_wf k code : proc_wf k -> current_idx k <> 0 -> proc_wf (exit_state k code).
Proof.
  intros W N0. pose proof (fun j => exit_state_slot k code j W N0) as S.
  assert (M : cr3 (mach (exit_state k code)) = kernel_dir (mach k) /\
              kernel_dir (mach (exit_state k code)) = kernel_dir (mach k)).
  { unfold exit_state. cbn [mach]. destruct (_ && _)%bool; [|auto].
    destruct (destroy_regs (vmm_switch (mach k) (kernel_dir (mach k))) (dir (slot k (current_idx k)))).
    auto. }
  destruct M as [M1 M2]. destruct W. unfold MAX_PROCS in *.
  assert (Same : forall j, 0 <= j -> pid (slot (exit_state k code) j) = pid (slot k j) /\
    state (slot (exit_state k code) j)
    = if 0 =? j then PROC_RUNNING else if current_idx k =? j then PROC_ZOMBIE else state (slot k j)).
  { intros j Hj. rewrite S by assumption. destruct (Z.eqb_spec 0 j) as [<-|]; [auto|].
    destruct (Z.eqb_spec (current_idx k) j) as [<-|]; auto. }
  assert (Used : forall j, 0 <= j < 16 -> state (slot (exit_state k code) j) <> PROC_UNUSED ->
     state (slot k j) <> PROC_UNUSED).
  { intros j Hj. rewrite (proj2 (Same j ltac:(lia))). destruct (Z.eqb_spec 0 j) as [<-|].
    - intros _. destruct pw_alive0; congruence.
    - destruct (Z.eqb_spec (current_idx k) j) as [<-|]; [|auto].
      rewrite (proj2 (pw_running0 (current_idx k) pw_cur0)); congruence. }
  destruct (Same 0 ltac:(lia)) as [P0 T0]. pose proof (S 0 ltac:(lia)) as S0. cbn [Z.eqb] in S0, T0.
  assert (Pp : forall j, 0 <= j -> ppid (slot (exit_state k code) j) = ppid (slot k j)).
  { intros j Hj. rewrite S by assumption. destruct (Z.eqb_spec 0 j) as [<-|]; [reflexivity|].
    destruct (Z.eqb_spec (current_idx k) j) as [<-|]; reflexivity. }
  constructor; unfold MAX_PROCS; rewrite ?M1, ?M2; auto.
  - unfold exit_state. cbn [table]. rewrite !tlen_tset. assumption.
  - cbn. lia.
  - rewrite P0, S0. split; [apply pw_kernel0|apply pw_kernel0].
  - intros j Hj. rewrite (proj2 (Same j ltac:(lia))). cbn [exit_state current_idx].
    destruct (Z.eqb_spec 0 j) as [<-|]; [tauto|]. destruct (Z.eqb_spec (current_idx k) j) as [<-|].
    + split; [discriminate|lia].
    + rewrite pw_running0 by assumption. split; [congruence|lia].
  - intros j Hj U. rewrite (proj1 (Same j ltac:(lia))). apply pw_pid0; [assumption|].
    apply Used; [lia|assumption].
  - intros j Hj U. rewrite Pp by lia. apply pw_ppid0; [assumption|]. apply Used; assumption.
  - intros a b Ha Hb Ua Ub. rewrite (proj1 (Same a ltac:(lia))), (proj1 (Same b ltac:(lia))).
    apply pw_inj0; auto.
  - cbn [exit_state current_idx]. rewrite S0. symmetry. apply pw_kernel0.
  - intros j Hj. rewrite S by lia. destruct (Z.eqb_spec 0 j); [discriminate|].
    destruct (Z.eqb_spec (current_idx k) j) as [<-|]; [|apply pw_zombie0; assumption]. intros _. cbn [dir].
    destruct (Z.eqb_spec (dir (slot k (current_idx k))) 0); [auto|].
    destruct (Z.eqb_spec (dir (slot k (current_idx k))) (kernel_dir (mach k))); auto.
Qed.

Lemma current_pid_zero k : proc_wf k -> pid (slot k (current_idx k)) = 0 <-> current_idx k = 0.
Proof.
  intros W. split; [|intros ->; apply (pw_kernel k W)]. intros E.
  destruct (Z.eq_dec (current_idx k) 0) as [|N]; [assumption|]. exfalso.
  pose proof (pw_cur k W) as Hc. pose proof (proj2 (pw_running k W _ Hc) eq_refl) as R.
  pose proof (pw_pid k W (current_idx k) ltac:(lia)). rewrite R in *. specialize (H ltac:(discriminate)). lia.
Qed.

Lemma proc_exit_wf k code : proc_wf k -> proc_wf (proc_exit k code).
Proof.
  intros W. destruct (Z.eq_dec (pid (slot k (current_idx k))) 0) as [E|N].
  - unfold proc_exit, proc_current. rewrite E. assumption.
  - rewrite proc_exit_eq by assumption. apply reparent_wf; [|pose proof (pw_cur k W); lia].
    apply exit_state_wf; [assumption|]. intros E. apply N, current_pid_zero; assumption.
Qed.

(** What [proc_wait] finds. *)
Lemma proc_wait_cases k :
  proc_wf k ->
  (proc_wait k = (k, -1, None) /\ forall i, 1 <= i < MAX_PROCS -> state (slot k i) = PROC_ZOMBIE ->
     ppid (slot k i) <> pid (slot k (current_idx k))) \/
  exists i, 1 <= i < MAX_PROCS /\ state (slot k i) = PROC_ZOMBIE /\ i <> current_idx k /\
    ppid (slot k i) = pid (slot k (current_idx k)) /\
    (forall j, 1 <= j < i -> state (slot k j) = PROC_ZOMBIE ->
       ppid (slot k j) <> pid (slot k (current_idx k))) /\
    proc_wait k = (proc_free k i, pid (slot k i), Some (exit_code (slot k i))).
Proof.
  intros W. unfold proc_wait, proc_current, zombie. destruct (find_range 1 MAX_PROCS _) as [i|] eqn:E.
  - right. exists i. apply find_range_some in E as (Hi & Hp & Hlt). b2p. apply bool_decide_eq_true in H.
    split; [assumption|]. split; [assumption|]. split; [|split; [assumption|split; [|reflexivity]]].
    + intros Ei. pose proof (proj2 (pw_running k W i ltac:(lia)) Ei). congruence.
    + intros j Hj Zj Ej. specialize (Hlt j Hj). rewrite bool_decide_eq_true_2, Ej, Z.eqb_refl in Hlt by assumption.
      discriminate.
  - left. split; [reflexivity|]. intros i Hi Zi Ei. pose proof (find_range_none _ _ _ E i Hi) as F. cbv beta in F.
    rewrite bool_decide_eq_true_2, Ei, Z.eqb_refl in F by assumption. discriminate.
Qed.

(** The kernel with the new process [i] just before [proc_begin_user] switches. *)
Definition begin_kernel (k : kernel) (i : Z) (nm : option (list Z)) : kernel :=
  let k := alloc_kernel k i nm in
  let k := set_slot k i (with_dir (slot k i) (vmm_kernel_dir (mach k))) in
  set_slot k i (with_brk (slot k i) USER_HEAP_BASE).

Lemma begin_kernel_slot k i nm j :
  tlen (table k) = MAX_PROCS -> 0 <= i < MAX_PROCS -> 0 <= j ->
  slot (begin_kernel k i nm) j
  = if i =? j then with_brk (with_dir (new_proc k nm) (kernel_dir (mach k))) USER_HEAP_BASE else slot k j.
Proof.
  intros Hl Hi Hj. unfold begin_kernel. cbv zeta. set (k1 := alloc_kernel k i nm).
  assert (L1 : tlen (table k1) = MAX_PROCS) by (unfold k1, alloc_kernel; cbn [table]; rewrite tlen_tset; exact Hl).
  assert (S1 : forall j, 0 <= j -> slot k1 j = if i =? j then new_proc k nm else slot k j)
    by (intros j' Hj'; unfold k1, alloc_kernel, slot; cbn [table]; apply tget_tset; lia).
  rewrite !slot_set; try assumption; try lia; [|cbn [set_slot table]; rewrite tlen_tset; exact L1].
  rewrite !S1 by lia. rewrite !Z.eqb_refl. destruct (i =? j); reflexivity.
Qed.

Lemma begin_kernel_wf k i nm :
  proc_wf k -> 1 <= i < MAX_PROCS -> state (slot k i) = PROC_UNUSED -> proc_wf (alloc_kernel k i nm) ->
  proc_wf (begin_kernel k i nm).
Proof.
  intros W Hi Hu W1. unfold begin_kernel. set (k1 := alloc_kernel k i nm) in *. cbv zeta.
  assert (S1 : forall j, 0 <= j -> slot k1 j = if i =? j then new_proc k nm else slot k j)
    by (intros j Hj; unfold k1, alloc_kernel, slot; cbn [table]; apply tget_tset; rewrite ?(pw_len k W); lia).
  set (k2 := set_slot k1 i _).
  assert (N : i <> current_idx k1).
  { intros E. pose proof (proj2 (pw_running k1 W1 (current_idx k1) (pw_cur k1 W1)) eq_refl) as Hr.
    rewrite <- E, S1, Z.eqb_refl in Hr by lia. discriminate. }
  assert (S2 : slot k2 i = with_dir (slot k1 i) (vmm_kernel_dir (mach k1)))
    by (unfold k2; rewrite slot_set, Z.eqb_refl by (lia || apply (pw_len k1 W1)); reflexivity).
  pose proof (S1 i ltac:(lia)) as Sc. rewrite Z.eqb_refl in Sc.
  rewrite S2, Sc.
  match goal with |- proc_wf (set_slot k2 i ?p) =>
    refine (proc_wf_set k1 (set_slot k2 i p) i p W1 Hi _ _ _ _ _ _ _ _) end;
    cbn [set_slot table next_pid current_idx mach k2 with_brk with_dir new_proc state pid ppid dir].
  - rewrite Sc. apply tset_tset.
  - split; [lia|apply (pw_next k1 W1)].
  - reflexivity.
  - reflexivity.
  - split; [discriminate|contradiction].
  - intros; contradiction.
  - intros _. assert (U : state (slot k1 i) <> PROC_UNUSED) by (rewrite Sc; discriminate).
    pose proof (pw_pid k1 W1 i Hi U) as B. rewrite Sc in B. cbn [new_proc pid] in B. split; [lia|].
    split; [pose proof (pw_ppid k1 W1 i ltac:(lia) U) as Bp; rewrite Sc in Bp; exact Bp|]. intros j Hj Hne Uj E. apply Hne. apply (pw_inj k1 W1 j i Hj ltac:(lia) Uj U). rewrite Sc. exact E.
  - discriminate.
Qed.

Lemma proc_begin_user_wf k nm : proc_wf k -> pids_left k -> proc_wf (fst (proc_begin_user k nm)).
Proof.
  intros W Pl. unfold proc_begin_user.
  destruct (proc_alloc_cases k nm W Pl) as [[-> _]|(i & Hi & Hu & _ & -> & W1 & S1)]; [assumption|].
  cbv zeta. cbn [fst]. apply proc_switch_to_wf. exact (begin_kernel_wf k i nm W Hi Hu W1).
Qed.

(** Switching to the kernel always works. *)
Lemma proc_switch_kernel k :
  proc_wf k -> proc_wf (fst (proc_switch_to k 0)) /\ current_idx (fst (proc_switch_to k 0)) = 0.
Proof.
  intros W. split; [apply proc_switch_to_wf; assumption|]. unfold proc_switch_to, zombie.
  assert (G : proc_get k 0 = Some 0).
  { rewrite <- (proj1 (pw_kernel k W)) at 1. apply proc_get_unique; [assumption|unfold MAX_PROCS; lia|].
    destruct (pw_alive k W); congruence. }
  rewrite G. rewrite bool_decide_eq_false_2 by (destruct (pw_alive k W); congruence).
  destruct (Z.eqb_spec (dir (slot k 0)) 0) as [E|]; [|reflexivity].
  exfalso. apply (pw_kdir k W). rewrite <- E. symmetry. apply (pw_kernel k W).
Qed.

Lemma proc_end_user_wf k p : proc_wf k -> proc_wf (proc_end_user k p).
Proof.
  intros W. unfold proc_end_user. destruct (proc_switch_kernel k W) as [W1 C1].
  set (k1 := fst (proc_switch_to k 0)) in *. destruct (proc_get k1 p) as [i|] eqn:G; [|assumption].
  apply proc_get_some in G as (Hi & U & _). destruct (Z.eq_dec i 0) as [->|N].
  - unfold proc_free. rewrite (proj1 (pw_kernel k1 W1)). assumption.
  - apply proc_free_wf; [assumption|assumption|congruence].
Qed.

(** The calls that create a process. *)
Definition spawns (c : proc_call) : Z := match c with Fork | BeginUser _ => 1 | _ => 0 end.

Lemma proc_step_wf k c : proc_wf k -> next_pid k + spawns c <= INT_MAX -> proc_wf (proc_step k c).
Proof.
  intros W Hn. destruct c; simpl; cbn [spawns] in Hn.
  - apply proc_fork_wf; [exact W|unfold pids_left; lia].
  - apply proc_exit_wf, W.
  - destruct (proc_wait_cases k W) as [[-> _]|(i & Hi & _ & N & _ & _ & ->)]; [assumption|].
    apply proc_free_wf; [assumption|lia|assumption].
  - apply proc_switch_to_wf, W.
  - apply proc_begin_user_wf; [exact W|unfold pids_left; lia].
  - apply proc_end_user_wf, W.
Qed.

Lemma free_next k i : next_pid (proc_free k i) = next_pid k.
Proof. unfold proc_free. destruct (_ =? 0); [reflexivity|]. destruct (_ && _); reflexivity. Qed.

Lemma switch_next k p : next_pid (fst (proc_switch_to k p)) = next_pid k.
Proof.
  unfold proc_switch_to. destruct (proc_get k p); [|reflexivity]. destruct (_ || _); [reflexivity|].
  cbn. destruct (bool_decide _); reflexivity.
Qed.

(** At most one pid a call. *)
Lemma proc_step_next k c :
  proc_wf k -> next_pid k + spawns c <= INT_MAX -> next_pid (proc_step k c) <= next_pid k + spawns c.
Proof.
  intros W Hn. destruct c; simpl; cbn [spawns] in Hn |- *.
  - unfold proc_fork. destruct (proc_alloc_cases k (Some (name (slot k (proc_current k)))) W) as
      [[-> _]|(i & _ & _ & _ & -> & _)]; [unfold pids_left; lia|cbn; lia|]. cbv zeta.
    pose proof (next_pid_step k W ltac:(unfold pids_left; lia)) as E.
    destruct (vmm_clone_cow _ _) as [m d]. destruct (d =? 0); [cbn; rewrite E; lia|].
    destruct (_ =? proc_current _); cbn; rewrite E; lia.
  - destruct (Z.eq_dec (pid (slot k (current_idx k))) 0) as [E|N]; [unfold proc_exit, proc_current; rewrite E; cbn; lia|].
    rewrite proc_exit_eq by assumption. pose proof (exit_state_wf k code W) as We.
    rewrite current_pid_zero in N by assumption. pose proof (pw_cur k W).
    destruct (reparent_spec (exit_state k code) (current_idx k) (pw_len _ (We N)) ltac:(lia)) as (_ & _ & _ & -> & _). cbn. lia.
  - destruct (proc_wait_cases k W) as [[-> _]|(i & _ & _ & _ & _ & _ & ->)]; cbn [fst]; rewrite ?free_next; lia.
  - rewrite switch_next. lia.
  - unfold proc_begin_user. destruct (proc_alloc_cases k nm W) as
      [[-> _]|(i & _ & _ & _ & -> & _)]; [unfold pids_left; lia|cbn; lia|]. cbv zeta. cbn [fst]. rewrite switch_next.
    cbn. rewrite (next_pid_step k W) by (unfold pids_left; lia). lia.
  - unfold proc_end_user. destruct (proc_get _ p); rewrite ?free_next, switch_next; lia.
Qed.

Lemma proc_install_wf k :
  1 <= next_pid k <= INT_MAX -> kernel_dir (mach k) <> 0 -> cr3 (mach k) = kernel_dir (mach k) ->
  proc_wf (proc_install k).
Proof.
  intros Hn Hk Hc.
  assert (S : forall j, 0 <= j -> slot (proc_install k) j
    = if 0 =? j then mk_proc 0 0 PROC_RUNNING (kernel_dir (mach k)) 0 0 0
                      (strncpy_z (replicate 16 0) (lit "kernel") PROC_NAME) else zero_proc).
  { intros j Hj. unfold slot, proc_install. cbn [table]. rewrite tget_tset by (rewrite ?tlen_replicate; lia).
    destruct (0 =? j); [reflexivity|]. apply tget_replicate. }
  constructor; unfold MAX_PROCS; auto.
  - split; reflexivity.
  - intros i Hi. rewrite S by lia. cbn [proc_install current_idx].
    destruct (Z.eqb_spec 0 i) as [<-|]; cbn; split; congruence || lia.
  - intros i Hi. rewrite S by lia. destruct (Z.eqb_spec 0 i); [lia|cbn; congruence].
  - intros i Hi. rewrite S by lia. destruct (Z.eqb_spec 0 i); cbn; [lia|congruence].
  - intros i j Hi Hj. rewrite !S by lia.
    destruct (Z.eqb_spec 0 i) as [<-|], (Z.eqb_spec 0 j) as [<-|]; cbn; congruence.
  - intros i Hi. rewrite S by lia. destruct (Z.eqb_spec 0 i); cbn; congruence.
Qed.

Fixpoint spawned (cs : list proc_call) : Z :=
  match cs with
  | [] => 0
  | c :: cs => spawns c + spawned cs
  end.

Lemma spawned_nonneg cs : 0 <= spawned cs.
Proof. induction cs as [|[] cs IH]; cbn; lia. Qed.

(** The bound is needed: the id after 2147483647 is negative. *)
Lemma pid_counter_wraps k nm :
  next_pid k = INT_MAX -> snd (proc_alloc k nm) <> None -> next_pid (fst (proc_alloc k nm)) = -0x80000000.
Proof.
  intros E. unfold proc_alloc. destruct (find_range 1 MAX_PROCS _); [|contradiction]. intros _. cbn [fst next_pid].
  rewrite E. reflexivity.
Qed.

(** C21. Whatever sequence of fork, exit, wait, switch and program runs follows
    [proc_install], the process table stays consistent: slot 0 is the living
    kernel, exactly one process is running and CR3 holds its address space,
    pids are unique and below the next one to be given, parents' pids have been
    given, and a zombie owns no address space.  The calls may create processes
    as long as the 32-bit pid counter does not overflow: from its initial value 1
    up to 2147483646 of them. *)
Theorem proc_invariant (k : kernel) (cs : list proc_call) :
  1 <= next_pid k -> next_pid k + spawned cs <= INT_MAX ->
  kernel_dir (mach k) <> 0 -> cr3 (mach k) = kernel_dir (mach k) ->
  proc_wf (fold_left proc_step cs (proc_install k)).
Proof.
  intros Hn Hs Hk Hc. pose proof (spawned_nonneg cs). pose proof (proc_install_wf k ltac:(lia) Hk Hc) as W. revert W.
  change (next_pid k) with (next_pid (proc_install k)) in Hs. revert Hs. generalize (proc_install k).
  induction cs as [|c cs IH]; intros k' Hs W; simpl; [assumption|]. cbn [spawned] in Hs. pose proof (spawned_nonneg cs).
  pose proof (proc_step_next k' c W ltac:(lia)). apply IH; [lia|lia|]. apply proc_step_wf; [exact W|lia].
Qed.

(** ** What each call does *)

Lemma switch_to_spec k i :
  proc_wf k -> 0 <= i < MAX_PROCS -> state (slot k i) <> PROC_UNUSED ->
  state (slot k i) <> PROC_ZOMBIE -> dir (slot k i) <> 0 ->
  exists k', proc_switch_to k (pid (slot k i)) = (k', 0) /\
    mach k' = vmm_switch (mach k) (dir (slot k i)) /\ current_idx k' = i /\ next_pid k' = next_pid k /\
    forall j, 0 <= j -> slot k' j =
      if i =? j then with_state (slot k j) PROC_RUNNING
      else if current_idx k =? j then with_state (slot k j) PROC_READY else slot k j.
Proof.
  intros W Hi U NZ Nd. pose proof (pw_cur k W) as Hcur. pose proof (pw_len k W) as Hlen.
  unfold proc_switch_to, zombie. rewrite proc_get_unique by assumption.
  rewrite bool_decide_eq_false_2 by assumption. destruct (Z.eqb_spec (dir (slot k i)) 0); [contradiction|].
  assert (Rc : state (slot k (current_idx k)) = PROC_RUNNING) by (apply (pw_running k W); auto).
  unfold proc_current. cbn [orb]. rewrite bool_decide_eq_true_2 by assumption.
  set (k1 := set_slot k (current_idx k) _).
  assert (L1 : tlen (table k1) = MAX_PROCS) by (unfold k1, set_slot; cbn [table]; rewrite tlen_tset; assumption).
  assert (S1 : forall j, 0 <= j -> slot k1 j
    = if current_idx k =? j then with_state (slot k (current_idx k)) PROC_READY else slot k j)
    by (intros; apply slot_set; auto).
  eexists. split; [reflexivity|]. change (slot (with_current k1 i) i) with (slot k1 i).
  set (k2 := set_slot (with_current k1 i) i _).
  assert (S2 : forall j, 0 <= j -> slot k2 j
    = if i =? j then with_state (slot k1 i) PROC_RUNNING else slot k1 j).
  { intros j Hj. unfold k2. rewrite slot_set by auto. destruct (i =? j); reflexivity. }
  assert (Di : dir (slot k2 i) = dir (slot k i)).
  { rewrite S2, Z.eqb_refl, S1 by lia. destruct (Z.eqb_spec (current_idx k) i) as [->|]; reflexivity. }
  cbn [mach with_mach current_idx next_pid]. rewrite Di. repeat (split; [reflexivity|]).
  intros j Hj. change (slot (with_mach k2 ?m) j) with (slot k2 j). rewrite S2 by assumption.
  destruct (Z.eqb_spec i j) as [<-|]; rewrite S1 by lia.
  - destruct (Z.eqb_spec (current_idx k) i) as [->|]; reflexivity.
  - destruct (Z.eqb_spec (current_idx k) j) as [->|]; reflexivity.
Qed.

(** A fork that returns a pid. *)
Lemma fork_spec k k1 c :
  proc_wf k -> pids_left k -> proc_fork k = (k1, c) -> c <> -1 ->
  exists i m d, 1 <= i < MAX_PROCS /\ state (slot k i) = PROC_UNUSED /\
    vmm_clone_cow (mach k) (dir (slot k (current_idx k))) = (m, d) /\ d <> 0 /\ c = next_pid k /\
    mach k1 = vmm_switch m (dir (slot k (current_idx k))) /\ current_idx k1 = current_idx k /\
    next_pid k1 = next_pid k + 1 /\
    forall j, 0 <= j -> slot k1 j = if i =? j then
        let p := slot k (current_idx k) in
        mk_proc (next_pid k) (pid p) PROC_READY d (entry_pt p) (brk p) 0
          (strncpy_z (replicate 16 0) (name p) PROC_NAME)
      else slot k j.
Proof.
  intros W Pl E Hc. pose proof (next_pid_step k W Pl) as En. unfold proc_fork in E.
  destruct (proc_alloc_cases k (Some (name (slot k (proc_current k)))) W Pl) as
    [[Ea _]|(i & Hi & Hu & _ & Ea & W1 & S1)]; rewrite Ea in E; [congruence|].
  set (ka := alloc_kernel k i _) in *. cbv zeta in E. unfold proc_current in *.
  pose proof (pw_cur k W) as Hcur.
  assert (Ni : i <> current_idx k).
  { intros ->. pose proof (proj2 (pw_running k W _ Hcur) eq_refl). congruence. }
  assert (Sp : slot ka (current_idx k) = slot k (current_idx k)).
  { rewrite S1 by lia. destruct (Z.eqb_spec i (current_idx k)); [contradiction|reflexivity]. }
  rewrite Sp in E. change (mach ka) with (mach k) in E.
  destruct (vmm_clone_cow (mach k) (dir (slot k (current_idx k)))) as [m d] eqn:Ev.
  assert (La : tlen (table ka) = MAX_PROCS) by apply W1.
  set (k2 := set_slot (with_mach ka m) i (with_dir (slot ka i) d)) in *.
  assert (S2 : forall j, 0 <= j -> slot k2 j = if i =? j then with_dir (slot ka i) d else slot ka j).
  { intros j Hj. unfold k2. rewrite slot_set by (auto; lia). destruct (i =? j); reflexivity. }
  destruct (Z.eqb_spec d 0); [congruence|].
  change (current_idx k2) with (current_idx k) in E. rewrite Z.eqb_refl in E.
  set (k3 := with_mach k2 _) in E.
  assert (S3 : forall j, slot k3 j = slot k2 j) by reflexivity.
  assert (L3 : tlen (table k3) = MAX_PROCS).
  { unfold k3, k2, with_mach, set_slot. cbn [table]. rewrite tlen_tset. assumption. }
  rewrite !S3, !S2, S1, Z.eqb_refl in E by lia.
  destruct (Z.eqb_spec i (current_idx k)) as [|_]; [contradiction|]. rewrite Sp in E.
  cbn [new_proc with_dir pid dir exit_code name default] in E.
  injection E as <- <-. exists i, m, d. repeat (split; [assumption || reflexivity|]).
  split; [|split; [reflexivity|split; [exact En|]]].
  - cbn [mach set_slot with_mach k3 k2]. change (mach k2) with m. rewrite S2 by lia.
    destruct (Z.eqb_spec i (current_idx k)) as [|_]; [contradiction|]. rewrite Sp. reflexivity.
  - intros j Hj. rewrite slot_set, S3, S2 by (auto; lia). destruct (Z.eqb_spec i j); [reflexivity|].
    rewrite S1 by assumption. destruct (Z.eqb_spec i j); [contradiction|reflexivity].
Qed.

Lemma proc_free_slot k i j :
  proc_wf k -> 0 <= i < MAX_PROCS -> pid (slot k i) <> 0 -> 0 <= j ->
  slot (proc_free k i) j = if i =? j then zero_proc else slot k j.
Proof.
  intros W Hi Hp Hj. unfold proc_free. destruct (Z.eqb_spec (pid (slot k i)) 0); [contradiction|].
  rewrite slot_set; [|destruct (_ && _)%bool; apply (pw_len k W)|assumption|assumption].
  destruct (_ && _)%bool; reflexivity.
Qed.

(** [proc_begin_user]: refused, or a new process in the kernel's own space. *)
Lemma begin_user_spec k nm :
  proc_wf k -> pids_left k -> current_idx k = 0 ->
  let '(k', p) := proc_begin_user k nm in
  (p = -1 /\ k' = k /\ forall i, 1 <= i < MAX_PROCS -> state (slot k i) <> PROC_UNUSED) \/
  exists i, 1 <= i < MAX_PROCS /\ state (slot k i) = PROC_UNUSED /\ p = next_pid k /\
    current_idx k' = i /\ next_pid k' = next_pid k + 1 /\ mach k' = vmm_switch (mach k) (kernel_dir (mach k)) /\
    (forall j, 0 <= j -> j <> i -> slot k' j = if j =? 0 then with_state (slot k 0) PROC_READY else slot k j) /\
    pid (slot k' i) = p /\ dir (slot k' i) = kernel_dir (mach k) /\ brk (slot k' i) = USER_HEAP_BASE.
Proof.
  intros W Pl C0. pose proof (next_pid_step k W Pl) as En. unfold proc_begin_user.
  destruct (proc_alloc_cases k nm W Pl) as [[-> Full]|(i & Hi & Hu & _ & -> & W1 & S1)]; [left; auto|].
  right. exists i. cbv zeta. fold (begin_kernel k i nm). pose proof (begin_kernel_wf k i nm W Hi Hu W1) as W3.
  pose proof (begin_kernel_slot k i nm) as S3. set (k3 := begin_kernel k i nm) in *. pose proof (pw_len k W) as Hl. unfold MAX_PROCS in *.
  assert (Si : slot k3 i = with_brk (with_dir (new_proc k nm) (kernel_dir (mach k))) USER_HEAP_BASE)
    by (rewrite S3, Z.eqb_refl by lia; reflexivity).
  destruct (switch_to_spec k3 i W3) as (k' & E & M & C & N & S);
    [unfold MAX_PROCS; lia|rewrite Si; discriminate|rewrite Si; discriminate|rewrite Si; apply (pw_kdir k W)|].
  rewrite E. cbn [fst]. rewrite Si in M. cbn in M. split; [exact Hi|]. split; [exact Hu|].
  pose proof (S i ltac:(lia)) as Si'. rewrite Z.eqb_refl, Si in Si'. rewrite Si'.
  split; [reflexivity|]. split; [exact C|]. split; [rewrite N; exact En|]. split; [exact M|]. split; [|auto].
  intros j Hj Ne. rewrite S by exact Hj. rewrite (proj2 (Z.eqb_neq i j)) by congruence.
  change (current_idx k3) with (current_idx k). rewrite C0, (Z.eqb_sym 0 j), S3 by lia.
  rewrite (proj2 (Z.eqb_neq i j)) by congruence. destruct (Z.eqb_spec j 0) as [->|]; reflexivity.
Qed.

(** Back to the kernel. *)
Lemma switch_kernel_spec k :
  proc_wf k ->
  exists k', fst (proc_switch_to k 0) = k' /\ mach k' = vmm_switch (mach k) (kernel_dir (mach k)) /\
    current_idx k' = 0 /\ next_pid k' = next_pid k /\
    forall j, 0 <= j -> slot k' j =
      if 0 =? j then with_state (slot k j) PROC_RUNNING
      else if current_idx k =? j then with_state (slot k j) PROC_READY else slot k j.
Proof.
  intros W. destruct (pw_kernel k W) as [P0 D0].
  destruct (switch_to_spec k 0 W) as (k' & E & M & C & N & S);
    [unfold MAX_PROCS; lia|destruct (pw_alive k W); congruence|destruct (pw_alive k W); congruence|rewrite D0; apply (pw_kdir k W)|].
  rewrite P0 in E. rewrite D0 in M. exists k'. rewrite E. auto.
Qed.

(** [proc_end_user] for the process [proc_begin_user] made. *)
Lemma end_user_spec k i :
  proc_wf k -> current_idx k = i -> 1 <= i -> dir (slot k i) = kernel_dir (mach k) ->
  let k' := proc_end_user k (pid (slot k i)) in
  current_idx k' = 0 /\ next_pid k' = next_pid k /\ mach k' = vmm_switch (mach k) (kernel_dir (mach k)) /\
  forall j, 0 <= j -> slot k' j
    = if i =? j then zero_proc else if 0 =? j then with_state (slot k 0) PROC_RUNNING else slot k j.
Proof.
  intros W C Hi Hd. pose proof (pw_cur k W) as Hc. rewrite C in Hc. unfold proc_end_user.
  pose proof (proc_switch_to_wf k 0 W) as W1. destruct (switch_kernel_spec k W) as (k1 & E & M & C1 & N1 & S1). rewrite E in *.
  assert (Ri : state (slot k i) = PROC_RUNNING) by (apply (pw_running k W); auto).
  assert (Si : slot k1 i = with_state (slot k i) PROC_READY)
    by (rewrite S1, C, Z.eqb_refl, (proj2 (Z.eqb_neq 0 i)) by lia; reflexivity).
  replace (pid (slot k i)) with (pid (slot k1 i)) by (rewrite Si; reflexivity).
  rewrite proc_get_unique by (assumption || (rewrite Si; discriminate)).
  assert (Pi : pid (slot k1 i) <> 0).
  { pose proof (pw_pid k W i ltac:(lia) ltac:(congruence)). rewrite Si. cbn. lia. }
  assert (F : proc_free k1 i = set_slot k1 i zero_proc).
  { unfold proc_free. rewrite (proj2 (Z.eqb_neq _ _) Pi). cbv zeta. rewrite Si, M. cbn [with_state dir vmm_switch vmm_kernel_dir kernel_dir].
    rewrite Hd, Z.eqb_refl, andb_false_r. reflexivity. }
  rewrite F. split; [exact C1|]. split; [exact N1|]. split; [exact M|]. intros j Hj.
  rewrite slot_set by (exact (pw_len k1 W1) || assumption || lia). destruct (Z.eqb_spec i j) as [|Ne]; [reflexivity|].
  rewrite S1 by exact Hj. destruct (Z.eqb_spec 0 j) as [<-|]; [reflexivity|].
  rewrite C. destruct (Z.eqb_spec i j); [contradiction|reflexivity].
Qed.

(** [proc_end_user(-1)], for a program that had no process. *)
Lemma end_user_none k :
  proc_wf k -> current_idx k = 0 ->
  let k' := proc_end_user k (-1) in
  current_idx k' = 0 /\ next_pid k' = next_pid k /\ mach k' = vmm_switch (mach k) (kernel_dir (mach k)) /\
  forall j, 0 <= j -> slot k' j = slot k j.
Proof.
  intros W C. unfold proc_end_user. pose proof (proc_switch_to_wf k 0 W) as W1.
  destruct (switch_kernel_spec k W) as (k1 & E & M & C1 & N1 & S1). rewrite E in *.
  assert (G : proc_get k1 (-1) = None).
  { destruct (proc_get k1 (-1)) as [i|] eqn:G; [|reflexivity]. apply proc_get_some in G as (Hi & U & P).
    destruct (Z.eq_dec i 0) as [->|]; [rewrite (proj1 (pw_kernel k1 W1)) in P; discriminate|].
    pose proof (pw_pid k1 W1 i ltac:(lia) U). lia. }
  rewrite G. split; [exact C1|]. split; [exact N1|]. split; [exact M|]. intros j Hj. rewrite S1, C by exact Hj.
  destruct (Z.eqb_spec 0 j) as [<-|]; [|reflexivity].
  assert (R : state (slot k 0) = PROC_RUNNING) by (apply (pw_running k W); [unfold MAX_PROCS; lia|auto]).
  destruct (slot k 0). cbn in R. rewrite R. reflexivity.
Qed.

(** What exit does.  The caller becomes a zombie that keeps its pid, its
    parent and the exit code; the CPU is on the kernel's directory before the
    caller's own address space is destroyed; the kernel is running again; and
    no process is left with the dead one as its parent. *)
Theorem proc_exit_effect (k : kernel) (code : Z) :
  proc_wf k -> current_idx k <> 0 ->
  let i := current_idx k in
  let p := slot k i in
  let k' := proc_exit k code in
  state (slot k' i) = PROC_ZOMBIE /\ pid (slot k' i) = pid p /\ exit_code (slot k' i) = code /\
  current_idx k' = 0 /\ state (slot k' 0) = PROC_RUNNING /\ cr3 (mach k') = kernel_dir (mach k) /\
  (dir p <> 0 -> dir p <> kernel_dir (mach k) ->
     dir (slot k' i) = 0 /\
     mach k' = vmm_destroy_dir (vmm_switch (mach k) (kernel_dir (mach k))) (dir p)) /\
  (forall j, 1 <= j < MAX_PROCS -> state (slot k' j) <> PROC_UNUSED -> ppid (slot k' j) <> pid p).
Proof.
  intros W N0 i p k'. unfold k', p, i. pose proof (pw_cur k W) as Hcur.
  assert (Np : pid (slot k (current_idx k)) <> 0) by (intros E; apply N0, current_pid_zero; assumption).
  rewrite proc_exit_eq by assumption.
  pose proof (exit_state_wf k code W N0) as We. pose proof (fun j => exit_state_slot k code j W N0) as Se.
  destruct (reparent_spec (exit_state k code) (current_idx k) (pw_len _ We) ltac:(lia)) as (_ & M & C & _ & S).
  set (kr := reparent (current_idx k) (exit_state k code)) in *.
  pose proof (Se (current_idx k) ltac:(lia)) as Si. rewrite Z.eqb_refl in Si.
  destruct (Z.eqb_spec 0 (current_idx k)); [congruence|].
  assert (Sr : forall j, 0 <= j < MAX_PROCS -> state (slot kr j) = state (slot (exit_state k code) j) /\
     pid (slot kr j) = pid (slot (exit_state k code) j) /\ dir (slot kr j) = dir (slot (exit_state k code) j) /\
     exit_code (slot kr j) = exit_code (slot (exit_state k code) j)).
  { intros j Hj. rewrite S by assumption. destruct (is_child _ _ _); auto. }
  destruct (Sr (current_idx k) Hcur) as (-> & -> & -> & ->). rewrite Si.
  destruct (Sr 0 ltac:(unfold MAX_PROCS; lia)) as (-> & _). rewrite (Se 0), M, C by lia.
  repeat (split; [reflexivity|]). split; [|split].
  - rewrite (pw_cr3 _ We). cbn [exit_state current_idx]. rewrite (Se 0) by lia. apply (pw_kernel k W).
  - intros H1 H2. cbn [dir exit_state mach].
    destruct (Z.eqb_spec (dir (slot k (current_idx k))) 0); [contradiction|].
    destruct (Z.eqb_spec (dir (slot k (current_idx k))) (kernel_dir (mach k))); [contradiction|]. auto.
  - intros j Hj. destruct (Sr j ltac:(lia)) as (-> & _). intros U. rewrite S by lia.
    unfold is_child. apply unused_false in U. rewrite U, Si. cbn [negb andb pid].
    destruct (Z.leb_spec 1 j); [|lia]. cbn [andb].
    destruct (Z.eqb_spec (ppid (slot (exit_state k code) j)) (pid (slot k (current_idx k)))); [|assumption].
    cbn [with_ppid ppid]. congruence.
Qed.

(** What wait does.  It reaps the first zombie child of the caller and
    reports that child's pid and exit code, frees that slot and touches no
    other; when the caller has no finished child it returns -1 and changes
    nothing. *)
Theorem proc_wait_reaps (k : kernel) :
  proc_wf k ->
  let '(k', r, status) := proc_wait k in
  (r = -1 /\ status = None /\ k' = k /\
     forall i, 1 <= i < MAX_PROCS -> state (slot k i) = PROC_ZOMBIE ->
       ppid (slot k i) <> pid (slot k (current_idx k))) \/
  (exists i, 1 <= i < MAX_PROCS /\ state (slot k i) = PROC_ZOMBIE /\
     ppid (slot k i) = pid (slot k (current_idx k)) /\
     (forall j, 1 <= j < i -> state (slot k j) = PROC_ZOMBIE ->
        ppid (slot k j) <> pid (slot k (current_idx k))) /\
     r = pid (slot k i) /\ status = Some (exit_code (slot k i)) /\ proc_get k' r = None /\
     mach k' = mach k /\
     forall j, 0 <= j < MAX_PROCS -> slot k' j = if i =? j then zero_proc else slot k j).
Proof.
  intros W. destruct (proc_wait_cases k W) as [[-> H]|(i & Hi & Hz & Nc & Hp & Hlt & ->)]; [left; auto|].
  right. exists i. repeat (split; [assumption || reflexivity|]).
  assert (U : state (slot k i) <> PROC_UNUSED) by congruence. pose proof (pw_pid k W i Hi U) as P.
  assert (S : forall j, 0 <= j < MAX_PROCS -> slot (proc_free k i) j = if i =? j then zero_proc else slot k j)
    by (intros; apply proc_free_slot; auto; lia).
  split; [|split; [|assumption]].
  - apply find_range_none_iff. intros j Hj. rewrite S by assumption.
    destruct (Z.eqb_spec i j) as [<-|N]; [reflexivity|].
    destruct (unused (slot k j)) eqn:Uj; [reflexivity|]. apply unused_false in Uj. cbn [negb andb].
    apply Z.eqb_neq. intros E. apply N. symmetry. apply (pw_inj k W); auto. lia.
  - unfold proc_free. destruct (Z.eqb_spec (pid (slot k i)) 0); [lia|].
    replace (_ && _)%bool with false; [reflexivity|].
    destruct (pw_zombie k W i ltac:(lia) Hz) as [-> | ->]; unfold vmm_kernel_dir; rewrite Z.eqb_refl;
      rewrite ?andb_false_r; reflexivity.
Qed.

(** ** Fork, exit and wait together *)

(** Destroying a finished clone only looks at memory, frames and the kernel
    directory, so context switches in between make no difference. *)
Lemma destroy_frames_ext st src d m m' :
  share_inv st src d 1024 m -> page d -> d <> 0 -> d <> kernel_dir st ->
  ram m' = ram m -> frames m' = frames m -> kernel_dir m' = kernel_dir m ->
  frames (vmm_destroy_dir m' d) = frames (vmm_destroy_dir m d).
Proof.
  intros I Hp H0 Hk Er Ef Ek.
  assert (Ht : forall j, 2 <= j < 1024 -> slot_present (ram m) d j = true -> slot_tab (ram m) d j <> d).
  { intros j Hj Pj. rewrite (child_present st src d 1024 m I) in Pj by assumption. b2p.
    apply (si_tab_dst _ _ _ _ _ I); auto; lia. }
  pose proof (si_kernel _ _ _ _ _ I) as Km.
  destruct (vmm_destroy_dir_eq m d) as (E & _); auto; [congruence|].
  destruct (vmm_destroy_dir_eq m' d) as (E' & _); auto; [congruence|rewrite Er; assumption|].
  rewrite E, E', Er, Ef. reflexivity.
Qed.

(** The child just forked, in slot [i], runs and exits. *)
Lemma run_child k i d code :
  proc_wf k -> 1 <= i < MAX_PROCS -> i <> current_idx k -> state (slot k i) = PROC_READY ->
  dir (slot k i) = d -> d <> 0 -> d <> kernel_dir (mach k) ->
  (forall j, 0 <= j < MAX_PROCS -> state (slot k j) <> PROC_UNUSED -> ppid (slot k j) <> pid (slot k i)) ->
  exists k2, proc_switch_to k (pid (slot k i)) = (k2, 0) /\
  let k3 := proc_exit k2 code in
  proc_wf k3 /\ current_idx k3 = 0 /\ next_pid k3 = next_pid k /\
  mach k3 = vmm_destroy_dir (vmm_switch (vmm_switch (mach k) d) (kernel_dir (mach k))) d /\
  (forall j, 0 <= j < MAX_PROCS -> slot k3 j =
     if 0 =? j then with_state (slot k 0) PROC_RUNNING
     else if i =? j then
       mk_proc (pid (slot k i)) (ppid (slot k i)) PROC_ZOMBIE 0 (entry_pt (slot k i)) (brk (slot k i)) code (name (slot k i))
     else if current_idx k =? j then with_state (slot k j) PROC_READY else slot k j).
Proof.
  intros W Hi Ni Sr Hd Nd Nk Hpp.
  destruct (switch_to_spec k i W ltac:(lia)) as (k2 & E2 & M2 & C2 & N2 & S2); try congruence.
  exists k2. split; [assumption|].
  assert (W2 : proc_wf k2) by (pose proof (proc_switch_to_wf k (pid (slot k i)) W) as X; rewrite E2 in X; exact X).
  assert (U : state (slot k i) <> PROC_UNUSED) by congruence. pose proof (pw_pid k W i Hi U) as Hpid.
  pose proof (S2 i ltac:(lia)) as Si. rewrite Z.eqb_refl in Si.
  assert (Np : pid (slot k2 (current_idx k2)) <> 0) by (rewrite C2, Si; cbn [with_state pid]; lia).
  assert (N0 : current_idx k2 <> 0) by (rewrite C2; lia).
  cbv zeta. rewrite proc_exit_eq by assumption.
  pose proof (exit_state_wf k2 code W2 N0) as We. pose proof (fun j => exit_state_slot k2 code j W2 N0) as Se.
  destruct (reparent_spec (exit_state k2 code) (current_idx k2) (pw_len _ We) ltac:(lia)) as (_ & M & C & Nx & S).
  split; [apply reparent_wf; [exact We|lia]|]. set (kr := reparent (current_idx k2) (exit_state k2 code)) in *. rewrite C2 in *.
  assert (Kd : kernel_dir (mach k2) = kernel_dir (mach k)) by (rewrite M2; reflexivity).
  assert (Eo : (negb (d =? 0) && negb (d =? kernel_dir (mach k)))%bool = true)
    by (rewrite (proj2 (Z.eqb_neq d 0)), (proj2 (Z.eqb_neq d _)) by assumption; reflexivity).
  assert (Sx : forall j, 0 <= j -> slot (exit_state k2 code) j =
     if 0 =? j then with_state (slot k 0) PROC_RUNNING
     else if i =? j then
       mk_proc (pid (slot k i)) (ppid (slot k i)) PROC_ZOMBIE 0 (entry_pt (slot k i)) (brk (slot k i)) code (name (slot k i))
     else if current_idx k =? j then with_state (slot k j) PROC_READY else slot k j).
  { intros j Hj. rewrite Se by exact Hj. destruct (Z.eqb_spec 0 j) as [<-|].
    - rewrite S2, (proj2 (Z.eqb_neq i 0)) by lia. destruct (current_idx k =? 0); reflexivity.
    - destruct (Z.eqb_spec i j) as [<-|]; [|rewrite S2 by exact Hj; rewrite (proj2 (Z.eqb_neq i j)) by assumption; reflexivity].
      rewrite Si, Kd. cbn [with_state pid ppid dir entry_pt brk name]. rewrite Hd, Eo. reflexivity. }
  split; [rewrite C; reflexivity|]. split; [rewrite Nx; exact N2|]. split.
  - rewrite M. unfold exit_state. cbn [mach]. rewrite C2, Si, Kd. cbn [with_state dir]. rewrite Hd, M2, Hd, Eo. reflexivity.
  - intros j Hj. rewrite S by assumption. replace (is_child (exit_state k2 code) i j) with false; [apply Sx; lia|].
    symmetry. unfold is_child. destruct (Z.leb_spec 1 j); [cbn [andb]|reflexivity].
    rewrite (Sx i), (proj2 (Z.eqb_neq 0 i)), Z.eqb_refl by lia. cbn [pid].
    destruct (unused (slot (exit_state k2 code) j)) eqn:Uj; [reflexivity|]. cbn [negb andb]. apply Z.eqb_neq.
    apply unused_false in Uj. rewrite Sx in Uj |- * by lia. rewrite (proj2 (Z.eqb_neq 0 j)) in * by lia.
    destruct (Z.eqb_spec i j) as [<-|]; [exact (Hpp i ltac:(lia) U)|].
    destruct (Z.eqb_spec (current_idx k) j) as [<-|]; [cbn [with_state ppid]|exact (Hpp j Hj Uj)].
    apply Hpp; [exact Hj|]. rewrite (proj2 (pw_running k W _ Hj) eq_refl). discriminate.
Qed.

(** A slot whose state is written back. *)
Lemma with_state_id p st : state p = st -> with_state p st = p.
Proof. intros <-. destruct p. reflexivity. Qed.

(** Back to process [q], which was running before the child. *)
Lemma resume_parent k k3 i q z :
  proc_wf k -> proc_wf k3 -> q = current_idx k -> 1 <= i < MAX_PROCS -> i <> q -> current_idx k3 = 0 -> dir (slot k q) <> 0 ->
  (forall j, 0 <= j < MAX_PROCS -> slot k3 j =
     if 0 =? j then with_state (slot k 0) PROC_RUNNING
     else if i =? j then z else if q =? j then with_state (slot k j) PROC_READY else slot k j) ->
  exists k4, proc_switch_to k3 (pid (slot k q)) = (k4, 0) /\ proc_wf k4 /\ current_idx k4 = q /\ next_pid k4 = next_pid k3 /\
    mach k4 = vmm_switch (mach k3) (dir (slot k q)) /\
    forall j, 0 <= j < MAX_PROCS -> slot k4 j = if i =? j then z else slot k j.
Proof.
  intros W W3 Eq Hi Ni C3 Dq S3. pose proof (pw_cur k W) as Hq. rewrite <- Eq in Hq.
  assert (Rq : state (slot k q) = PROC_RUNNING) by (apply (pw_running k W); auto).
  assert (Q : exists st, slot k3 q = with_state (slot k q) st /\ (st = PROC_READY \/ st = PROC_RUNNING)).
  { rewrite S3 by exact Hq. destruct (Z.eqb_spec 0 q) as [<-|]; [eauto|].
    rewrite (proj2 (Z.eqb_neq i q)), Z.eqb_refl by assumption. eauto. }
  destruct Q as (st & Q & Hst).
  destruct (switch_to_spec k3 q W3 Hq) as (k4 & E & M & C & N & S); rewrite ?Q; cbn [with_state state dir];
    try assumption; try (destruct Hst as [-> | ->]; discriminate).
  rewrite Q in E, M. cbn [with_state pid dir] in E, M. exists k4. split; [exact E|].
  split; [pose proof (proc_switch_to_wf k3 (pid (slot k q)) W3) as X; rewrite E in X; exact X|]. repeat (split; [assumption|]).
  intros j Hj. rewrite S by lia. rewrite C3. destruct (Z.eqb_spec q j) as [<-|Nq].
  - rewrite Q, (proj2 (Z.eqb_neq i q)) by assumption. apply (with_state_id _ _ Rq).
  - rewrite S3 by exact Hj. destruct (Z.eqb_spec 0 j) as [<-|]; [|destruct (i =? j); [reflexivity|]; rewrite (proj2 (Z.eqb_neq q j)) by exact Nq; reflexivity].
    rewrite (proj2 (Z.eqb_neq i 0)) by lia. apply (with_state_id (slot k 0)).
    destruct (pw_alive k W) as [A|A]; [exact A|]. apply (pw_running k W) in A; [congruence|unfold MAX_PROCS; lia].
Qed.

(** Reaping the only zombie child of the running process. *)
Lemma wait_only k i :
  proc_wf k -> 1 <= i < MAX_PROCS -> state (slot k i) = PROC_ZOMBIE -> dir (slot k i) = 0 ->
  ppid (slot k i) = pid (slot k (current_idx k)) ->
  (forall j, 1 <= j < MAX_PROCS -> j <> i -> state (slot k j) = PROC_ZOMBIE -> ppid (slot k j) <> pid (slot k (current_idx k))) ->
  proc_wait k = (set_slot k i zero_proc, pid (slot k i), Some (exit_code (slot k i))) /\ proc_wf (set_slot k i zero_proc) /\
  proc_get (set_slot k i zero_proc) (pid (slot k i)) = None.
Proof.
  intros W Hi Z D P O. assert (U : state (slot k i) <> PROC_UNUSED) by congruence. pose proof (pw_pid k W i Hi U) as Hp.
  assert (F : proc_free k i = set_slot k i zero_proc)
    by (unfold proc_free; rewrite D; destruct (Z.eqb_spec (pid (slot k i)) 0); [lia|reflexivity]).
  destruct (proc_wait_cases k W) as [[_ H]|(i' & Hi' & Z' & N' & P' & _ & E)]; [exfalso; exact (H i Hi Z P)|].
  assert (i' = i) as -> by (destruct (Z.eq_dec i' i); [assumption|exfalso; exact (O i' Hi' ltac:(assumption) Z' P')]).
  rewrite F in E. split; [exact E|]. rewrite <- F. split; [apply proc_free_wf; [assumption|lia|exact N']|].
  apply find_range_none_iff. intros j Hj. rewrite proc_free_slot by (assumption || lia).
  destruct (Z.eqb_spec i j) as [<-|N]; [reflexivity|].
  destruct (unused (slot k j)) eqn:Uj; [reflexivity|]. apply unused_false in Uj. cbn [negb andb].
  apply Z.eqb_neq. intros Ep. apply N. symmetry. apply (pw_inj k W); auto; lia.
Qed.

(** The machine after the child's life: its address space is gone. *)
Lemma child_accounting st src d m m' :
  machine_ok st -> no_saturation st src -> page d -> d <> 0 -> d <> kernel_dir st -> owners (frames st) d = 0 ->
  share_inv st src d 1024 m -> ram m' = ram m -> frames m' = frames m -> kernel_dir m' = kernel_dir m ->
  same_accounting st (vmm_destroy_dir m' d).
Proof.
  intros MO Sat Hp Nd Nk Ho I Er Ef Ek.
  destruct (destroy_restores st src d (mo_pmm _ MO) Hp Ho 1024 m ltac:(lia) I Nd Nk) as (W' & T' & O' & _).
  pose proof (destroy_frames_ext st src d m m' I Hp Nd Nk Er Ef Ek) as E.
  apply same_accounting_intro; rewrite ?E; auto. apply MO.
Qed.

(** C22. A child's whole life.  When a process with no finished child left to
    reap forks, the child runs and exits, and the parent runs again and waits:
    wait returns the child's pid and exit code; every frame and every reference
    count is what it was before the fork; the parent is running in its own
    address space again; and the process table is exactly what it was, every
    field of every other slot included, with the child's slot free. *)
Theorem fork_exit_wait (k : kernel) (code : Z) :
  let q := current_idx k in
  let p := slot k q in
  proc_wf k -> pids_left k -> dir p <> 0 ->
  (forall i, 1 <= i < MAX_PROCS -> state (slot k i) = PROC_ZOMBIE -> ppid (slot k i) <> pid p) ->
  machine_ok (mach k) -> space_wf (frames (mach k)) (ram (mach k)) (dir p) -> no_saturation (mach k) (dir p) ->
  let '(k1, c) := proc_fork k in
  c <> -1 ->
  let '(k2, r) := proc_switch_to k1 c in
  let '(k4, r') := proc_switch_to (proc_exit k2 code) (pid p) in
  let '(k5, w, status) := proc_wait k4 in
  r = 0 /\ r' = 0 /\ w = c /\ status = Some code /\ same_accounting (mach k) (mach k5) /\
  cr3 (mach k5) = cr3 (mach k) /\ current_idx k5 = q /\ next_pid k5 = next_pid k + 1 /\ proc_get k5 c = None /\
  exists i, 1 <= i < MAX_PROCS /\ state (slot k i) = PROC_UNUSED /\
    forall j, 0 <= j < MAX_PROCS -> slot k5 j = if i =? j then zero_proc else slot k j.
Proof.
  intros q p W Pl Dp NZ MO S Sat. destruct (proc_fork k) as [k1 c] eqn:Ef. intros Hc.
  destruct (fork_spec k k1 c W Pl Ef Hc) as (i & m & d & Hi & Hu & Ev & Hd & Ec & M1 & C1 & N1 & S1).
  fold q in Ev, M1, C1, S1. fold p in Ev, M1, S1.
  assert (W1 : proc_wf k1) by (pose proof (proc_fork_wf k W Pl) as X; rewrite Ef in X; exact X).
  pose proof (clone_cow_outcome (mach k) (dir p) MO S Sat Dp) as O.
  rewrite Ev in O. destruct O as [(-> & _)|(_ & Hk & Hp & _ & Ho & I)]; [contradiction|].
  pose proof (S1 i ltac:(lia)) as Si. rewrite Z.eqb_refl in Si. cbv zeta in Si.
  pose proof (pw_cur k W) as Hq. fold q in Hq.
  assert (Ni : i <> q) by (intros ->; pose proof (proj2 (pw_running k W q Hq) eq_refl); congruence).
  assert (So : forall j, 0 <= j -> j <> i -> slot k1 j = slot k j)
    by (intros j Hj Nj; rewrite S1, (proj2 (Z.eqb_neq i j)) by congruence; reflexivity).
  assert (Kd : kernel_dir (mach k1) = kernel_dir (mach k))
    by (rewrite M1; cbn [vmm_switch kernel_dir]; apply (si_kernel _ _ _ _ _ I)).
  assert (Fresh : forall j, 0 <= j < MAX_PROCS -> state (slot k1 j) <> PROC_UNUSED -> ppid (slot k1 j) <> pid (slot k1 i)).
  { intros j Hj Uj. rewrite Si. cbn [pid]. destruct (Z.eq_dec j i) as [->|N]; [rewrite Si; cbn [ppid]|].
    - pose proof (current_pid k W) as B. fold q in B. unfold p. lia.
    - rewrite So in Uj |- * by lia. pose proof (pw_ppid k W j Hj Uj). lia. }
  destruct (run_child k1 i d code W1 Hi ltac:(congruence)) as (k2 & E2 & W3 & C3 & N3 & M3 & S3);
    [rewrite Si; reflexivity|rewrite Si; reflexivity|assumption|congruence|exact Fresh|].
  set (k3 := proc_exit k2 code) in *. set (z := mk_proc _ _ PROC_ZOMBIE _ _ _ _ _) in S3.
  assert (P1 : slot k1 q = p) by (apply So; lia || congruence).
  destruct (resume_parent k1 k3 i q z W1 W3 (eq_sym C1) Hi Ni C3 ltac:(rewrite P1; exact Dp)) as (k4 & E4 & W4 & C4 & N4 & M4 & S4);
    [rewrite <- C1; exact S3|]. rewrite Si in E2. cbn [pid] in E2. rewrite P1 in E4, M4. rewrite Ec, E2. fold k3. rewrite E4.
  pose proof (S4 i ltac:(lia)) as Z4. rewrite Z.eqb_refl in Z4.
  assert (P4 : slot k4 q = p) by (rewrite S4, (proj2 (Z.eqb_neq i q)), P1 by lia || assumption; reflexivity).
  destruct (wait_only k4 i W4 Hi) as (-> & W5 & G5);
    [rewrite Z4; reflexivity|rewrite Z4; reflexivity|rewrite Z4, C4, P4; unfold z; rewrite Si; reflexivity| |].
  { intros j Hj Nj. rewrite C4, P4, S4, (proj2 (Z.eqb_neq i j)), So by lia || congruence. apply NZ. exact Hj. }
  rewrite Z4 in G5 |- *. unfold z in G5 |- *. rewrite Si in G5 |- *. cbn [pid exit_code] in G5 |- *.
  cbn [set_slot mach current_idx next_pid] in *. repeat (split; [reflexivity|]).
  split; [|split; [|split; [exact C4|split; [congruence|split; [exact G5|]]]]].
  - rewrite M4, M3. apply (child_accounting (mach k) (dir p) d m); rewrite ?M1, ?Kd; auto.
  - rewrite M4. cbn [vmm_switch cr3]. symmetry. apply (pw_cr3 k W).
  - exists i. split; [exact Hi|]. split; [exact Hu|]. intros j Hj. rewrite slot_set by (exact (pw_len k4 W4) || lia).
    destruct (Z.eqb_spec i j); [reflexivity|]. rewrite S4, (proj2 (Z.eqb_neq i j)) by assumption. apply So; [lia|congruence].
Qed.

(** ** Witnesses *)

Definition demo_kernel : kernel :=
  mk_kernel [] 1 0 (mk_machine demo_ram demo_pool 0x20000 0x20000 []).

(** The kernel after boot, and with a program running. *)
Definition demo_booted : kernel := proc_install demo_kernel.
Definition demo_running : kernel := proc_step demo_booted (BeginUser (Some (lit "calc"))).

Lemma demo_booted_wf : proc_wf demo_booted.
Proof. apply proc_install_wf; [vm_compute; split; discriminate|discriminate|reflexivity]. Qed.

Lemma demo_running_wf : proc_wf demo_running.
Proof. apply proc_step_wf; [exact demo_booted_wf|vm_compute; discriminate]. Qed.

Lemma proc_invariant_witness :
  proc_wf (fold_left proc_step [Fork; BeginUser None; Exit 3; Wait; Wait] (proc_install demo_kernel)).
Proof. apply proc_invariant; [cbn; lia|vm_compute; discriminate|discriminate|reflexivity]. Defined.

Lemma proc_exit_effect_witness :
  let i := current_idx demo_running in
  let p := slot demo_running i in
  let k' := proc_exit demo_running 7 in
  state (slot k' i) = PROC_ZOMBIE /\ pid (slot k' i) = pid p /\ exit_code (slot k' i) = 7 /\
  current_idx k' = 0 /\ state (slot k' 0) = PROC_RUNNING /\
  cr3 (mach k') = kernel_dir (mach demo_running) /\
  (dir p <> 0 -> dir p <> kernel_dir (mach demo_running) ->
     dir (slot k' i) = 0 /\
     mach k' = vmm_destroy_dir (vmm_switch (mach demo_running) (kernel_dir (mach demo_running))) (dir p)) /\
  (forall j, 1 <= j < MAX_PROCS -> state (slot k' j) <> PROC_UNUSED -> ppid (slot k' j) <> pid p).
Proof. apply (proc_exit_effect demo_running 7); [apply demo_running_wf|vm_compute; discriminate]. Defined.

Lemma proc_wait_reaps_witness :
  let k := proc_exit demo_running 7 in
  let '(k', r, status) := proc_wait k in
  (r = -1 /\ status = None /\ k' = k /\
     forall i, 1 <= i < MAX_PROCS -> state (slot k i) = PROC_ZOMBIE ->
       ppid (slot k i) <> pid (slot k (current_idx k))) \/
  (exists i, 1 <= i < MAX_PROCS /\ state (slot k i) = PROC_ZOMBIE /\
     ppid (slot k i) = pid (slot k (current_idx k)) /\
     (forall j, 1 <= j < i -> state (slot k j) = PROC_ZOMBIE ->
        ppid (slot k j) <> pid (slot k (current_idx k))) /\
     r = pid (slot k i) /\ status = Some (exit_code (slot k i)) /\ proc_get k' r = None /\
     mach k' = mach k /\
     forall j, 0 <= j < MAX_PROCS -> slot k' j = if i =? j then zero_proc else slot k j).
Proof. apply (proc_wait_reaps (proc_exit demo_running 7)). apply proc_exit_wf, demo_running_wf. Defined.

Lemma fork_exit_wait_witness :
  let q := current_idx demo_booted in
  let p := slot demo_booted q in
  let '(k1, c) := proc_fork demo_booted in
  c <> -1 ->
  let '(k2, r) := proc_switch_to k1 c in
  let '(k4, r') := proc_switch_to (proc_exit k2 42) (pid p) in
  let '(k5, w, status) := proc_wait k4 in
  r = 0 /\ r' = 0 /\ w = c /\ status = Some 42 /\ same_accounting (mach demo_booted) (mach k5) /\
  cr3 (mach k5) = cr3 (mach demo_booted) /\ current_idx k5 = q /\ next_pid k5 = next_pid demo_booted + 1 /\
  proc_get k5 c = None /\
  exists i, 1 <= i < MAX_PROCS /\ state (slot demo_booted i) = PROC_UNUSED /\
    forall j, 0 <= j < MAX_PROCS -> slot k5 j = if i =? j then zero_proc else slot demo_booted j.
Proof.
  apply (fork_exit_wait demo_booted 42).
  - apply demo_booted_wf.
  - vm_compute. reflexivity.
  - vm_compute. discriminate.
  - intros i Hi Zi. exfalso. revert Zi. apply zombie_false.
    apply (proj1 (forallb_seqZ (fun i => negb (zombie (slot demo_booted i))) 0 16)); [vm_compute; reflexivity|unfold MAX_PROCS in Hi; lia].
  - apply machine_okb_sound. vm_compute. reflexivity.
  - apply space_wfb_sound. vm_compute. reflexivity.
  - apply no_saturationb_sound; [apply pmm_wfb_sound|]; vm_compute; reflexivity.
Defined.

(** The fork of the example does succeed. *)
Example demo_fork_succeeds : snd (proc_fork demo_booted) = 1.
Proof. vm_compute. reflexivity. Qed.
