(* ===== verification/FreeList.v ===== *)
(** * First-fit free lists

    kernel/kheap.c and user/umalloc.h share one design: blocks laid end to end,
    each a header (size, free flag, next pointer, ...) followed by its payload,
    searched first-fit, split when the remainder is worth a header, merged with
    a free successor.  They differ in the header size and in the smallest
    remainder worth splitting.  This file has the shared code on byte memory
    and its specification on lists of blocks. *)

From stdpp Require Import base gmap list numbers option.
From Stdlib Require Import ZArith Lia Bool.
From S2P Require Import Prelude CString.

(** The fields of the header at [b]. *)
Definition blk_size (m : mem) (b : Z) : Z := ld32 m b.
Definition blk_free (m : mem) (b : Z) : bool := negb (ld32 m (b + 4) =? 0).
Definition blk_next (m : mem) (b : Z) : Z := ld32 m (b + 8).
Definition set_size (m : mem) (b v : Z) : mem := st32 m b v.
Definition set_free (m : mem) (b v : Z) : mem := st32 m (b + 4) v.
Definition set_next (m : mem) (b v : Z) : mem := st32 m (b + 8) v.

(** [for (cur = head; cur; cur = cur->next) if (cur->free && cur->size >= want)]:
    the block the loop stops at.  Each step follows one link, so as many steps
    as there are blocks, and one more, are enough. *)
Fixpoint first_fit (fuel : nat) (m : mem) (cur want : Z) : option Z :=
  match fuel with
  | O => None
  | S fuel =>
      if cur =? 0 then None
      else if blk_free m cur && (want <=? blk_size m cur) then Some cur
      else first_fit fuel m (blk_next m cur) want
  end.

Section Ops.
(** The header size and the least remainder kept as a block. *)
Context (hdr slack : Z).

(** The body of that [if]: split the block if there is room, mark it used. *)
Definition take_block (m : mem) (cur want : Z) : mem :=
  let m :=
    if u32 (u32 (want + hdr) + slack) <=? blk_size m cur then
      let rest := u32 (u32 (cur + hdr) + want) in
      let m := set_size m rest (u32 (u32 (blk_size m cur - want) - hdr)) in
      let m := set_free m rest 1 in
      let m := set_next m rest (blk_next m cur) in
      let m := set_size m cur want in
      set_next m cur rest
    else m in
  set_free m cur 0.

(** Absorb the successor [n] of [b]. *)
Definition absorb (m : mem) (b : Z) : mem :=
  let n := blk_next m b in
  let m := set_size m b (u32 (blk_size m b + u32 (hdr + blk_size m n))) in
  set_next m b (blk_next m (blk_next m b)).

End Ops.

(** ** Lists of blocks *)

Record block := mk_block { b_size : Z; b_free : bool }.

Definition fits (want : Z) (b : block) : bool := b_free b && (want <=? b_size b).

Section Spec.
Context (hdr slack : Z).

(** Bytes covered by a list of blocks. *)
Fixpoint span (bs : list block) : Z :=
  match bs with
  | [] => 0
  | b :: bs' => hdr + b_size b + span bs'
  end.

(** The memory from [a] on holds the blocks [bs], linked in address order. *)
Fixpoint chain (m : mem) (a : Z) (bs : list block) : Prop :=
  match bs with
  | [] => True
  | b :: bs' =>
      blk_size m a = b_size b /\ ld32 m (a + 4) = (if b_free b then 1 else 0) /\
      blk_next m a = (match bs' with [] => 0 | _ => a + hdr + b_size b end) /\
      chain m (a + hdr + b_size b) bs'
  end.

(** The blocks fill a range of the address space above the first page. *)
Definition in_bounds (a : Z) (bs : list block) : Prop :=
  4096 <= a /\ a + span bs <= 0x100000000 /\ Forall (fun b => 0 <= b_size b) bs.

(** What [take_block] makes of a block. *)
Definition taken (want : Z) (b : block) : list block :=
  if want + hdr + slack <=? b_size b
  then [mk_block want false; mk_block (b_size b - want - hdr) true]
  else [mk_block (b_size b) false].

End Spec.

(** The blocks before the first that fits, that block, and the rest. *)
Fixpoint find_fit (want : Z) (bs : list block) : option (list block * block * list block) :=
  match bs with
  | [] => None
  | b :: bs' =>
      if fits want b then Some ([], b, bs')
      else match find_fit want bs' with
           | Some (pre, c, post) => Some (b :: pre, c, post)
           | None => None
           end
  end.

(** No two neighbours are both free. *)
Fixpoint merged (bs : list block) : bool :=
  match bs with
  | b :: ((c :: _) as bs') => negb (b_free b && b_free c) && merged bs'
  | _ => true
  end.

(** ** Lemmas *)

Lemma find_fit_some want bs pre b post :
  find_fit want bs = Some (pre, b, post) ->
  bs = pre ++ b :: post /\ fits want b = true /\ Forall (fun c => fits want c = false) pre.
Proof.
  revert pre b post. induction bs as [|c bs IH]; intros pre b post; simpl; [discriminate|].
  destruct (fits want c) eqn:F.
  - intros [= <- <- <-]. auto.
  - destruct (find_fit want bs) as [[[p x] q]|]; [|discriminate]. intros [= <- <- <-].
    destruct (IH p x q eq_refl) as (-> & H1 & H2). auto.
Qed.

Lemma find_fit_none want bs :
  find_fit want bs = None -> Forall (fun c => fits want c = false) bs.
Proof.
  induction bs as [|c bs IH]; simpl; [constructor|]. destruct (fits want c) eqn:F; [discriminate|].
  destruct (find_fit want bs) as [[[p x] q]|]; [discriminate|]. auto.
Qed.

Section Lemmas.
Context (hdr slack : Z).
Hypothesis Hhdr : 12 <= hdr <= 64.
Hypothesis Hslack : 0 <= slack <= 64.

Abbreviation chain := (chain hdr).
Abbreviation span := (span hdr).

Lemma span_app bs1 bs2 : span (bs1 ++ bs2) = span bs1 + span bs2.
Proof. induction bs1; simpl; lia. Qed.

Lemma span_nonneg bs : Forall (fun b => 0 <= b_size b) bs -> 0 <= span bs.
Proof. induction 1; simpl; lia. Qed.

(** The chain only depends on the bytes of the headers. *)
Lemma chain_ext m m' bs : forall a,
  Forall (fun b => 0 <= b_size b) bs ->
  (forall x, a <= x < a + span bs -> ld8 m' x = ld8 m x) -> chain m a bs -> chain m' a bs.
Proof.
  induction bs as [|b bs IH]; intros a Hs H; simpl; [auto|].
  apply Forall_cons_iff in Hs as [Hb0 Hs]. pose proof (span_nonneg bs Hs). simpl in H.
  intros (H1 & H2 & H3 & H4). unfold blk_size, blk_next in *.
  assert (E : forall k, 0 <= k <= 8 -> ld32 m' (a + k) = ld32 m (a + k))
    by (intros; apply ld32_ext; intros; apply H; lia).
  pose proof (E 0 ltac:(lia)) as E0. rewrite Z.add_0_r in E0.
  rewrite E0, !E by lia. repeat (split; [assumption|]).
  apply IH; [assumption| |assumption]. intros x Hx. apply H. lia.
Qed.

(** The first-fit loop finds the first block that fits. *)
Lemma first_fit_spec m want bs : forall a fuel,
  in_bounds hdr a bs -> chain m a bs -> (length bs < fuel)%nat ->
  first_fit fuel m (match bs with [] => 0 | _ => a end) want
  = match find_fit want bs with
    | Some (pre, _, _) => Some (a + span pre)
    | None => None
    end.
Proof.
  induction bs as [|b bs IH]; intros a fuel (Ha & Hb & Hs) C Hf; (destruct fuel as [|fuel]; [simpl in Hf; lia|]).
  - reflexivity.
  - destruct C as (C1 & C2 & C3 & C4). apply Forall_cons_iff in Hs as [Hb0 Hs]. simpl in Hb.
    pose proof (span_nonneg bs Hs).
    cbn [first_fit find_fit]. destruct (Z.eqb_spec a 0); [lia|].
    replace (blk_free m a) with (b_free b) by (unfold blk_free; rewrite C2; destruct (b_free b); reflexivity).
    rewrite C1. fold (fits want b). destruct (fits want b); [simpl; f_equal; lia|].
    rewrite C3, IH.
    + destruct (find_fit want bs) as [[[p x] q]|]; [simpl; f_equal; lia|reflexivity].
    + split; [lia|]. split; [lia|assumption].
    + assumption.
    + simpl in Hf. lia.
Qed.

(** The tail of a chain is a chain, and a tail can be replaced. *)
Lemma chain_tail m bs2 bs1 : forall a, chain m a (bs1 ++ bs2) -> chain m (a + span bs1) bs2.
Proof.
  induction bs1 as [|b bs1 IH]; intros a; simpl; [rewrite Z.add_0_r; auto|].
  intros (_ & _ & _ & C). apply IH in C. replace (a + (hdr + b_size b + span bs1)) with
    (a + hdr + b_size b + span bs1) by lia. assumption.
Qed.

Lemma chain_replace m m' b new bs2 bs1 : forall a,
  Forall (fun b => 0 <= b_size b) bs1 ->
  chain m a (bs1 ++ b :: bs2) -> new <> [] ->
  (forall x, a <= x < a + span bs1 -> ld8 m' x = ld8 m x) ->
  chain m' (a + span bs1) new -> chain m' a (bs1 ++ new).
Proof.
  induction bs1 as [|c bs1 IH]; intros a Hs C Hn E C'; simpl in *; [rewrite Z.add_0_r in C'; assumption|].
  apply Forall_cons_iff in Hs as [Hc Hs]. pose proof (span_nonneg bs1 Hs) as Hp.
  destruct C as (C1 & C2 & C3 & C4). unfold blk_size, blk_next in *.
  assert (Ek : forall k, 0 <= k <= 8 -> ld32 m' (a + k) = ld32 m (a + k))
    by (intros; apply ld32_ext; intros; apply E; lia).
  pose proof (Ek 0 ltac:(lia)) as E0. rewrite Z.add_0_r in E0. rewrite E0, !Ek by lia.
  split; [assumption|]. split; [assumption|]. split.
  - rewrite C3. destruct bs1; simpl; [destruct new; [contradiction|reflexivity]|reflexivity].
  - apply IH; auto; [intros x Hx; apply E; lia|].
    replace (a + hdr + b_size c + span bs1) with (a + (hdr + b_size c + span bs1)) by lia. assumption.
Qed.

(** Reading the fields of other headers, or other fields of the same header. *)
Lemma ld8_set32 m a v x : x < a \/ a + 4 <= x -> ld8 (st32 m a v) x = ld8 m x.
Proof. apply ld8_st32_out. Qed.

Lemma ld32_st32_eq' m a v : 0 <= v < 0x100000000 -> ld32 (st32 m a v) a = v.
Proof. intros. rewrite ld32_st32_eq. apply u32_small. assumption. Qed.

(** [take_block] on the head of a chain. *)
Lemma take_block_spec m a want b post :
  in_bounds hdr a (b :: post) -> chain m a (b :: post) -> 0 <= want <= b_size b ->
  let m' := take_block hdr slack m a want in
  chain m' a (taken hdr slack want b ++ post) /\
  (forall x, x < a \/ a + hdr + b_size b <= x -> ld8 m' x = ld8 m x) /\
  (forall x, a + hdr <= x < a + hdr + want -> ld8 m' x = ld8 m x).
Proof.
  intros (Ha & Hb & Hs) (C1 & C2 & C3 & C4) Hw. apply Forall_cons_iff in Hs as [Hb0 Hs]. simpl in Hb.
  pose proof (span_nonneg post Hs) as Hp. unfold take_block, taken. rewrite C1.
  destruct (Z.lt_ge_cases (want + hdr + slack) 0x100000000) as [Hsm|Hbig].
  2:{ exfalso. lia. }
  rewrite (u32_small (want + hdr)), u32_small by lia. fold (blk_size m a).
  destruct (Z.leb_spec (want + hdr + slack) (b_size b)) as [Hsp|Hsp].
  - rewrite (u32_small (a + hdr)), (u32_small (a + hdr + want)) by lia.
    rewrite (u32_small (b_size b - want)), u32_small by lia.
    set (r := a + hdr + want).
    unfold set_size, set_free, set_next, blk_size, blk_next in *.
    assert (E8 : forall x, ~ (a <= x < a + 12) -> ~ (r <= x < r + 12) ->
      forall p, ld8 (st32 (st32 (st32 (st32 (st32 (st32 m r (b_size b - want - hdr)) (r + 4) 1) (r + 8) p) a want) (a + 8) r) (a + 4) 0) x
                = ld8 m x) by (intros; rewrite !ld8_set32 by lia; reflexivity).
    rewrite !(ld32_st32_out _ _ _ (a + 8)) by (unfold r; lia).
    set (p := ld32 m (a + 8)) in *.
    assert (Hpr : 0 <= p < 0x100000000) by apply ld32_range.
    set (m' := st32 _ (a + 4) 0). split; [|split].
    + simpl. unfold blk_size, blk_next.
      assert (F1 : ld32 m' a = want) by (unfold m'; rewrite !(ld32_st32_out _ _ _ a) by lia; apply ld32_st32_eq'; lia).
      assert (F2 : ld32 m' (a + 4) = 0) by (apply ld32_st32_eq'; lia).
      assert (F3 : ld32 m' (a + 8) = r).
      { unfold m'. rewrite ld32_st32_out by lia. apply ld32_st32_eq'. unfold r; lia. }
      assert (F4 : ld32 m' r = b_size b - want - hdr).
      { unfold m'. rewrite !(ld32_st32_out _ _ _ r) by (unfold r; lia). apply ld32_st32_eq'. lia. }
      assert (F5 : ld32 m' (r + 4) = 1).
      { unfold m'. rewrite !(ld32_st32_out _ _ _ (r + 4)) by (unfold r; lia). apply ld32_st32_eq'. lia. }
      assert (F6 : ld32 m' (r + 8) = p).
      { unfold m'. rewrite !(ld32_st32_out _ _ _ (r + 8)) by (unfold r; lia). apply ld32_st32_eq'. assumption. }
      fold r. rewrite F1, F2, F3, F4, F5, F6. repeat (split; [reflexivity|]).
      rewrite C3. replace (r + hdr + (b_size b - want - hdr)) with (a + hdr + b_size b) by (unfold r; lia).
      split; [reflexivity|]. apply (chain_ext m); auto. intros x Hx. apply E8; unfold r; lia.
    + intros x Hx. apply E8; unfold r; lia.
    + intros x Hx. apply E8; unfold r; lia.
  - unfold set_free. assert (E8 : forall x, x < a + 4 \/ a + 8 <= x -> ld8 (st32 m (a + 4) 0) x = ld8 m x)
      by (intros; apply ld8_set32; lia).
    split; [|split; intros; apply E8; lia]. simpl. unfold blk_size, blk_next in *.
    rewrite !(ld32_st32_out _ _ _ a), (ld32_st32_out _ _ _ (a + 8)) by lia.
    split; [assumption|]. split; [apply ld32_st32_eq'; lia|]. split; [assumption|].
    apply (chain_ext m); auto. intros x Hx. apply E8. lia.
Qed.

(** [absorb] on the head of a chain. *)
Lemma absorb_spec m a b c post :
  in_bounds hdr a (b :: c :: post) -> chain m a (b :: c :: post) ->
  let m' := absorb hdr m a in
  chain m' a (mk_block (b_size b + hdr + b_size c) (b_free b) :: post) /\
  (forall x, x < a \/ a + 12 <= x -> ld8 m' x = ld8 m x).
Proof.
  intros (Ha & Hb & Hs) (C1 & C2 & C3 & D1 & D2 & D3 & D4).
  apply Forall_cons_iff in Hs as [Hb0 Hs]. apply Forall_cons_iff in Hs as [Hc0 Hs]. simpl in Hb.
  pose proof (span_nonneg post Hs) as Hp. unfold absorb. rewrite C3, C1, D1.
  rewrite (u32_small (hdr + b_size c)), u32_small by lia.
  set (n := a + hdr + b_size b) in *. unfold set_size, set_next, blk_size, blk_next in *.
  rewrite (ld32_st32_out _ _ _ (a + 8)), C3, (ld32_st32_out _ _ _ (n + 8)), D3 by (unfold n; lia).
  set (q := match post with [] => 0 | _ => n + hdr + b_size c end).
  assert (Hq : 0 <= q < 0x100000000).
  { unfold q, n. destruct post as [|p ps]; [lia|]. apply Forall_cons_iff in Hs as [Hp0 Hs].
    pose proof (span_nonneg ps Hs). simpl in Hb. lia. }
  assert (E8 : forall x v, x < a \/ a + 12 <= x -> ld8 (st32 (st32 m a v) (a + 8) q) x = ld8 m x)
    by (intros; rewrite !ld8_set32 by lia; reflexivity).
  split; [|intros; apply E8; assumption]. simpl. unfold blk_size, blk_next.
  rewrite !(ld32_st32_out _ _ _ a), !(ld32_st32_out _ _ _ (a + 4)) by lia.
  rewrite !ld32_st32_eq' by (lia || assumption). split; [lia|]. split; [assumption|].
  replace (a + hdr + (b_size b + hdr + b_size c)) with (n + hdr + b_size c) by (unfold n; lia).
  split; [reflexivity|]. apply (chain_ext m); auto. intros x Hx. apply E8. unfold n in Hx. lia.
Qed.

(** [set_free] on the head of a chain. *)
Lemma set_free_spec m a b post :
  in_bounds hdr a (b :: post) -> chain m a (b :: post) ->
  chain (set_free m a 1) a (mk_block (b_size b) true :: post) /\
  (forall x, x < a + 4 \/ a + 8 <= x -> ld8 (set_free m a 1) x = ld8 m x).
Proof.
  intros (Ha & Hb & Hs) (C1 & C2 & C3 & C4). apply Forall_cons_iff in Hs as [Hb0 Hs].
  unfold set_free. assert (E8 : forall x, x < a + 4 \/ a + 8 <= x -> ld8 (st32 m (a + 4) 1) x = ld8 m x)
    by (intros; apply ld8_set32; lia).
  split; [|assumption]. simpl. unfold blk_size, blk_next in *.
  rewrite !(ld32_st32_out _ _ _ a), (ld32_st32_out _ _ _ (a + 8)) by lia.
  split; [assumption|]. split; [apply ld32_st32_eq'; lia|]. split; [assumption|].
  apply (chain_ext m); auto. intros x Hx. apply E8. lia.
Qed.

(** Bounds of the parts of a list. *)
Lemma in_bounds_tail a bs1 bs2 : in_bounds hdr a (bs1 ++ bs2) -> in_bounds hdr (a + span bs1) bs2.
Proof.
  intros (Ha & Hb & Hs). rewrite span_app in Hb. apply Forall_app in Hs as [H1 H2].
  pose proof (span_nonneg bs1 H1). split; [lia|]. split; [lia|assumption].
Qed.

Lemma in_bounds_replace a bs1 x y bs2 :
  in_bounds hdr a (bs1 ++ x ++ bs2) -> Forall (fun b => 0 <= b_size b) y -> span y = span x ->
  in_bounds hdr a (bs1 ++ y ++ bs2).
Proof.
  intros (Ha & Hb & Hs) Hy E. unfold in_bounds. rewrite !span_app in *. rewrite !Forall_app in *.
  split; [assumption|]. split; [lia|]. tauto.
Qed.

Lemma taken_span want b : span (taken hdr slack want b) = span [b].
Proof. unfold taken. zcase; lia. Qed.

Lemma taken_sizes want b :
  0 <= want -> 0 <= b_size b -> Forall (fun b => 0 <= b_size b) (taken hdr slack want b).
Proof. intros Hw Hb. unfold taken. zcase; repeat constructor; simpl; lia. Qed.

(** The result of a successful search, split and mark: the first block [b] that
    fits, between [pre] and [post], was taken; only its own bytes changed. *)
Record alloc_result (m : mem) (a want : Z) (bs pre : list block) (b : block) (post : list block)
    (m' : mem) : Prop := {
  ar_split : bs = pre ++ b :: post;
  ar_first : Forall (fun c => fits want c = false) pre;
  ar_fits : fits want b = true;
  ar_chain : chain m' a (pre ++ taken hdr slack want b ++ post);
  ar_bounds : in_bounds hdr a (pre ++ taken hdr slack want b ++ post);
  ar_span : span (pre ++ taken hdr slack want b ++ post) = span bs;
  ar_outside : forall x, x < a + span pre \/ a + span pre + hdr + b_size b <= x ->
    ld8 m' x = ld8 m x
}.

Lemma first_fit_take m a want bs fuel :
  in_bounds hdr a bs -> chain m a bs -> (length bs < fuel)%nat -> 0 <= want ->
  match first_fit fuel m (match bs with [] => 0 | _ => a end) want with
  | None => Forall (fun c => fits want c = false) bs
  | Some cur => exists pre b post, cur = a + span pre /\
      alloc_result m a want bs pre b post (take_block hdr slack m cur want)
  end.
Proof.
  intros B C Hf Hw. rewrite (first_fit_spec m want bs a fuel B C Hf).
  destruct (find_fit want bs) as [[[pre b] post]|] eqn:E; [|apply find_fit_none; assumption].
  apply find_fit_some in E as (-> & F & Fp). exists pre, b, post. split; [reflexivity|].
  pose proof (in_bounds_tail _ _ _ B) as Bt. pose proof (chain_tail _ _ _ _ C) as Ct.
  assert (Hwb : 0 <= want <= b_size b) by (unfold fits in F; b2p; lia).
  destruct (take_block_spec m (a + span pre) want b post Bt Ct Hwb) as (C' & O' & _).
  assert (Sp : Forall (fun b => 0 <= b_size b) pre) by (destruct B as (_ & _ & S); apply Forall_app in S; tauto).
  constructor; auto.
  - apply (chain_replace m _ b _ post pre); auto.
    + unfold taken. zcase; discriminate.
    + intros x Hx. apply O'. lia.
  - apply (in_bounds_replace a pre [b] (taken hdr slack want b) post); [assumption| |].
    + apply taken_sizes; [assumption|lia].
    + apply taken_span.
  - rewrite !span_app, taken_span. simpl. lia.
Qed.

End Lemmas.
