(* ===== verification/Kheap.v ===== *)
(** * Kernel heap (kernel/kheap.c)

    The 3 MB heap of the kernel, as an instance of the free lists of
    [FreeList]: 12-byte headers in the byte memory at [HEAP_START]. *)

From stdpp Require Import base gmap list numbers option.
From Stdlib Require Import ZArith Lia Bool.
From S2P Require Import Prelude CString FreeList.

Definition HEAP_START : Z := 0x00100000.
Definition HEAP_SIZE : Z := 0x00300000.

(** [sizeof(block_t)] *)
Definition KHDR : Z := 12.

Record kheap := mk_kheap {
  h_mem : mem;
  heap_head : Z
}.

(** A block takes at least its header, so the list has at most
    HEAP_SIZE / 12 blocks. *)
Definition HEAP_FUEL : nat := Z.to_nat (HEAP_SIZE / KHDR + 1).

Definition heap_install (h : kheap) : kheap :=
  let m := set_size (h_mem h) HEAP_START (HEAP_SIZE - KHDR) in
  let m := set_free m HEAP_START 1 in
  let m := set_next m HEAP_START 0 in
  mk_kheap m HEAP_START.

Definition kmalloc (h : kheap) (size : Z) : kheap * Z :=
  let size := Z.land (u32 (size + 3)) 0xFFFFFFFC in
  match first_fit HEAP_FUEL (h_mem h) (heap_head h) size with
  | Some cur => (mk_kheap (take_block KHDR 4 (h_mem h) cur size) (heap_head h), u32 (cur + KHDR))
  | None => (h, 0)
  end.

Definition kfree (h : kheap) (ptr : Z) : kheap :=
  if ptr =? 0 then h
  else
    let b := u32 (ptr - KHDR) in
    let m := set_free (h_mem h) b 1 in
    let m := if negb (blk_next m b =? 0) && blk_free m (blk_next m b) then absorb KHDR m b else m in
    mk_kheap m (heap_head h).

(** ** The invariant *)

(** The heap region is exactly covered by the blocks [bs]. *)
Record heap_ok (h : kheap) (bs : list block) : Prop := {
  ho_head : heap_head h = HEAP_START;
  ho_chain : chain KHDR (h_mem h) HEAP_START bs;
  ho_sizes : Forall (fun b => 0 <= b_size b) bs;
  ho_span : span KHDR bs = HEAP_SIZE
}.

(** What freeing block [b] leaves in front of [post]. *)
Definition freed (b : block) (post : list block) : list block :=
  match post with
  | c :: post' => if b_free c then mk_block (b_size b + KHDR + b_size c) true :: post'
                  else mk_block (b_size b) true :: post
  | [] => [mk_block (b_size b) true]
  end.

Lemma KHDR_ok : 12 <= KHDR <= 64.
Proof. unfold KHDR. lia. Qed.

Lemma slack4_ok : 0 <= 4 <= 64.
Proof. lia. Qed.

Lemma heap_bounds h bs : heap_ok h bs -> in_bounds KHDR HEAP_START bs.
Proof.
  intros [H1 H2 H3 H4]. split; [unfold HEAP_START; lia|].
  split; [rewrite H4; unfold HEAP_START, HEAP_SIZE; lia|assumption].
Qed.

Lemma heap_nonempty h bs : heap_ok h bs -> bs <> [].
Proof. intros [_ _ _ H] ->. discriminate. Qed.

Lemma heap_length h bs : heap_ok h bs -> (length bs < HEAP_FUEL)%nat.
Proof.
  intros [_ _ Hs Hp]. assert (L : KHDR * Z.of_nat (length bs) <= span KHDR bs).
  { clear Hp. induction Hs as [|b bs Hb Hs IH]; cbn [span length]; [lia|].
    rewrite Nat2Z.inj_succ. unfold KHDR in *. lia. }
  unfold HEAP_FUEL. rewrite Hp in L. unfold KHDR, HEAP_SIZE in *.
  change (0x300000 / 12 + 1) with 262145. lia.
Qed.

(** The search starts at the head of the list. *)
Lemma heap_start h bs : heap_ok h bs -> heap_head h = match bs with [] => 0 | _ => HEAP_START end.
Proof. intros H. pose proof (heap_nonempty _ _ H). rewrite (ho_head _ _ H). destruct bs; [contradiction|reflexivity]. Qed.

Lemma heap_install_ok h : heap_ok (heap_install h) [mk_block (HEAP_SIZE - KHDR) true].
Proof.
  constructor; [reflexivity| |repeat constructor; discriminate|reflexivity].
  unfold heap_install, set_size, set_free, set_next. cbn [h_mem chain b_size b_free]. unfold blk_size, blk_next.
  rewrite (ld32_st32_out _ (HEAP_START + 8) _ HEAP_START), (ld32_st32_out _ (HEAP_START + 4) _ HEAP_START),
    (ld32_st32_out _ (HEAP_START + 8) _ (HEAP_START + 4)) by lia.
  rewrite !ld32_st32_eq. repeat split; reflexivity.
Qed.

(** The outcome of [kmalloc] for a request that rounds up to [want]. *)
Definition allocated (h : kheap) (bs : list block) (want : Z) (h' : kheap) (p : Z) : Prop :=
  exists pre b post, bs = pre ++ b :: post /\ Forall (fun c => fits want c = false) pre /\
    fits want b = true /\ p = HEAP_START + span KHDR pre + KHDR /\
    heap_ok h' (pre ++ taken KHDR 4 want b ++ post) /\
    (forall x, x < p - KHDR \/ p + b_size b <= x -> ld8 (h_mem h') x = ld8 (h_mem h) x).

Lemma kmalloc_cases h bs n :
  heap_ok h bs -> 0 <= n <= 0xFFFFFFFC ->
  let want := (n + 3) / 4 * 4 in
  let '(h', p) := kmalloc h n in
  (p = 0 /\ h' = h /\ Forall (fun c => fits want c = false) bs) \/ allocated h bs want h' p.
Proof.
  intros O Hn want. unfold kmalloc. rewrite u32_small by lia.
  replace (Z.land (n + 3) 0xFFFFFFFC) with want.
  2:{ symmetry. change 0xFFFFFFFC with (0x100000000 - 2 ^ 2). rewrite land_align_down by lia.
      unfold want. change (2 ^ 2) with 4. zdm. }
  pose proof (first_fit_take KHDR 4 KHDR_ok slack4_ok (h_mem h) HEAP_START want bs HEAP_FUEL
    (heap_bounds _ _ O) (ho_chain _ _ O) (heap_length _ _ O) ltac:(unfold want; zdm)) as F.
  rewrite <- (heap_start _ _ O) in F. destruct (first_fit _ _ _ _) as [cur|]; [|left; auto].
  destruct F as (pre & b & post & -> & A). right. exists pre, b, post.
  pose proof (ar_bounds _ _ _ _ _ _ _ _ _ _ A) as Bd. destruct Bd as (_ & Bd & Bs).
  pose proof (ho_sizes _ _ O) as S. pose proof (ho_span _ _ O) as B.
  rewrite (ar_split _ _ _ _ _ _ _ _ _ _ A), span_app in B.
  rewrite (ar_split _ _ _ _ _ _ _ _ _ _ A) in S. apply Forall_app in S as [S1 S2].
  apply Forall_cons_iff in S2 as [S2 S3]. simpl in B.
  pose proof (span_nonneg KHDR KHDR_ok pre S1). pose proof (span_nonneg KHDR KHDR_ok post S3).
  unfold KHDR, HEAP_START, HEAP_SIZE in *. rewrite u32_small by lia.
  split; [apply A|]. split; [apply A|]. split; [apply A|]. split; [reflexivity|]. split.
  - constructor; [apply (ho_head _ _ O)|apply A|assumption|].
    etransitivity; [apply (ar_span _ _ _ _ _ _ _ _ _ _ A)|apply (ho_span _ _ O)].
  - intros x Hx. apply (ar_outside _ _ _ _ _ _ _ _ _ _ A). unfold KHDR. lia.
Qed.

(** C24. [kmalloc] is first fit.  It returns null, changing nothing, exactly when
    no free block holds the request rounded up to four bytes; otherwise it
    returns the payload of the first free block that does, split when the
    remainder is worth a header.  The blocks still cover the heap exactly, and
    no byte outside the chosen free block is written. *)
Theorem kmalloc_first_fit (h : kheap) (bs : list block) (n : Z) :
  heap_ok h bs -> 0 <= n <= 0xFFFFFFFC ->
  let want := (n + 3) / 4 * 4 in
  let '(h', p) := kmalloc h n in
  (p = 0 /\ h' = h /\ Forall (fun c => fits want c = false) bs) \/ allocated h bs want h' p.
Proof. apply kmalloc_cases. Qed.

Lemma kfree_spec h pre b post :
  heap_ok h (pre ++ b :: post) ->
  let p := HEAP_START + span KHDR pre + KHDR in
  heap_ok (kfree h p) (pre ++ freed b post) /\
  (forall x, x < p - KHDR \/ p <= x -> ld8 (h_mem (kfree h p)) x = ld8 (h_mem h) x).
Proof.
  intros O. cbv zeta. pose proof (heap_bounds _ _ O) as B. pose proof (ho_chain _ _ O) as C.
  pose proof (in_bounds_tail KHDR KHDR_ok _ _ _ B) as Bt. pose proof (chain_tail KHDR _ _ _ _ C) as Ct.
  pose proof (ho_sizes _ _ O) as S. apply Forall_app in S as [S1 S2]. apply Forall_cons_iff in S2 as [Sb S3].
  pose proof (span_nonneg KHDR KHDR_ok pre S1) as P1. pose proof (span_nonneg KHDR KHDR_ok post S3) as P3.
  pose proof (ho_span _ _ O) as Hsp. rewrite span_app in Hsp. simpl in Hsp.
  set (a := HEAP_START + span KHDR pre) in *.
  assert (Ha : 4096 <= a /\ a + KHDR < 0x100000000)
    by (unfold a, HEAP_START, HEAP_SIZE, KHDR in *; lia).
  unfold kfree. destruct (Z.eqb_spec (a + KHDR) 0); [unfold KHDR in *; lia|].
  replace (a + KHDR - KHDR) with a by lia. rewrite u32_small by (unfold KHDR in *; lia).
  destruct (set_free_spec KHDR KHDR_ok (h_mem h) a b post Bt Ct) as (C1 & E1).
  set (m1 := set_free (h_mem h) a 1) in *.
  assert (R : forall m' new, new <> [] -> chain KHDR m' a new -> span KHDR new = span KHDR (b :: post) ->
     Forall (fun b => 0 <= b_size b) new -> (forall x, x < a \/ a + KHDR <= x -> ld8 m' x = ld8 (h_mem h) x) ->
     heap_ok (mk_kheap m' (heap_head h)) (pre ++ new)).
  { intros m' new Hn Cn Sn Fn En. constructor; cbn [heap_head h_mem].
    - apply (ho_head _ _ O).
    - apply (chain_replace KHDR KHDR_ok (h_mem h) m' b new post pre); auto.
      intros x Hx. apply En. unfold a. lia.
    - apply Forall_app. auto.
    - rewrite span_app, Sn, <- (ho_span _ _ O), span_app. reflexivity. }
  pose proof C1 as (_ & _ & N1 & N2). destruct post as [|c post].
  - rewrite N1. cbn [Z.eqb negb andb freed].
    assert (E : forall x, x < a \/ a + KHDR <= x -> ld8 m1 x = ld8 (h_mem h) x)
      by (intros; apply E1; unfold KHDR in *; lia).
    split; [apply R; auto; discriminate|].
    intros x Hx. apply E. lia.
  - destruct N2 as (_ & F2 & _). cbn [b_size] in N1, F2.
    rewrite N1. destruct (Z.eqb_spec (a + KHDR + b_size b) 0); [unfold KHDR in *; lia|]. cbn [negb andb].
    replace (blk_free m1 (a + KHDR + b_size b)) with (b_free c)
      by (unfold blk_free; rewrite F2; destruct (b_free c); reflexivity).
    apply Forall_cons_iff in S3 as [Sc S3]. cbn [freed]. destruct (b_free c) eqn:Fc.
    + assert (B1 : in_bounds KHDR a (mk_block (b_size b) true :: c :: post))
        by (destruct Bt as (T1 & T2 & T3); split; [assumption|split; [exact T2|]]; constructor; auto).
      destruct (absorb_spec KHDR KHDR_ok m1 a (mk_block (b_size b) true) c post B1 C1) as (C2 & E2).
      cbn [b_size b_free] in C2.
      assert (E : forall x, x < a \/ a + KHDR <= x -> ld8 (absorb KHDR m1 a) x = ld8 (h_mem h) x)
        by (intros; rewrite E2, E1 by (unfold KHDR in *; lia); reflexivity).
      split; [|intros x Hx; apply E; lia].
      apply R; try assumption; [discriminate|simpl; lia|].
      constructor; [simpl; unfold KHDR; lia|assumption].
    + assert (E : forall x, x < a \/ a + KHDR <= x -> ld8 m1 x = ld8 (h_mem h) x)
        by (intros; apply E1; unfold KHDR in *; lia).
      split; [|intros x Hx; apply E; lia]. apply R; auto; discriminate.
Qed.

(** [kfree] of any block of the heap marks it free, absorbs its successor
    if that is free too, and keeps the blocks covering the heap exactly; no byte
    of any payload changes. *)
Theorem kfree_merges (h : kheap) (pre : list block) (b : block) (post : list block) :
  heap_ok h (pre ++ b :: post) ->
  let p := HEAP_START + span KHDR pre + KHDR in
  heap_ok (kfree h p) (pre ++ freed b post) /\
  (forall x, x < p - KHDR \/ p <= x -> ld8 (h_mem (kfree h p)) x = ld8 (h_mem h) x).
Proof. apply kfree_spec. Qed.

Lemma merged_next pre b post :
  merged (pre ++ b :: post) = true -> b_free b = true ->
  match post with [] => True | c :: _ => b_free c = false end.
Proof.
  induction pre as [|x pre IH]; simpl.
  - destruct post as [|c post]; [auto|]. intros H F. rewrite F in H. b2p. assumption.
  - intros H F. apply IH; [|assumption]. destruct pre; simpl in *; b2p; assumption.
Qed.

(** Allocating and freeing at once is the identity: on a heap without
    neighbouring free blocks, [kfree] of what [kmalloc] returned restores the
    very list of blocks there was before. *)
Theorem kmalloc_kfree_restores (h : kheap) (bs : list block) (n : Z) :
  heap_ok h bs -> merged bs = true -> 0 <= n <= 0xFFFFFFFC ->
  let '(h', p) := kmalloc h n in heap_ok (kfree h' p) bs.
Proof.
  intros O M Hn. pose proof (kmalloc_cases h bs n O Hn) as K. cbv zeta in K.
  destruct (kmalloc h n) as [h' p]. destruct K as [(-> & -> & _)|(pre & b & post & -> & _ & F & -> & O' & _)];
    [exact O|].
  set (want := (n + 3) / 4 * 4) in *. unfold fits in F. b2p. pose proof (merged_next pre b post M H) as Nx.
  destruct b as [sz fr]. cbn [b_free b_size] in *. subst fr. unfold taken in O'. cbn [b_size] in O'.
  destruct (Z.leb_spec (want + KHDR + 4) sz).
  - cbn [app] in O'. pose proof (proj1 (kfree_spec h' pre _ _ O')) as R. cbn [freed b_free b_size] in R.
    replace (want + KHDR + (sz - want - KHDR)) with sz in R by lia. exact R.
  - cbn [app] in O'. pose proof (proj1 (kfree_spec h' pre _ _ O')) as R. cbn [b_size] in R.
    destruct post as [|c post]; cbn [freed b_size] in R; [exact R|]. rewrite Nx in R. exact R.
Qed.

(** ** The heap as a set of pointers *)

(** The addresses of the blocks in use, for blocks that start at [a]. *)
Fixpoint pointers (a : Z) (bs : list block) : list Z :=
  match bs with
  | [] => []
  | b :: bs => (if b_free b then [] else [a + KHDR]) ++ pointers (a + KHDR + b_size b) bs
  end.

Lemma pointers_app bs1 : forall a bs2, pointers a (bs1 ++ bs2) = pointers a bs1 ++ pointers (a + span KHDR bs1) bs2.
Proof.
  induction bs1 as [|b bs1 IH]; intros a bs2; cbn [app pointers span]; [rewrite Z.add_0_r; reflexivity|].
  rewrite IH, app_assoc. do 2 f_equal. lia.
Qed.

Lemma pointers_split a bs p : In p (pointers a bs) ->
  exists pre b post, bs = pre ++ b :: post /\ b_free b = false /\ p = a + span KHDR pre + KHDR.
Proof.
  revert a. induction bs as [|b bs IH]; intros a H; cbn [pointers] in H; [contradiction|].
  apply in_app_iff in H as [H|H].
  - destruct (b_free b) eqn:F; [contradiction|]. destruct H as [<-|[]]. exists [], b, bs. cbn. rewrite Z.add_0_r. auto.
  - destruct (IH _ H) as (pre & c & post & -> & F & ->). exists (b :: pre), c, post. cbn [app span]. split; [reflexivity|]. split; [exact F|lia].
Qed.

Definition outside_heap (x : Z) : Prop := x < HEAP_START \/ HEAP_START + HEAP_SIZE <= x.

(** [kmalloc] adds a pointer that was not there, or returns null. *)
Lemma kmalloc_pointers h bs n :
  heap_ok h bs -> 0 <= n <= 0xFFFFFFFC ->
  let '(h', p) := kmalloc h n in
  exists bs', heap_ok h' bs' /\
    ((p = 0 /\ bs' = bs) \/ (0 < p /\ pointers HEAP_START bs' ≡ₚ p :: pointers HEAP_START bs)) /\
    forall x, outside_heap x -> ld8 (h_mem h') x = ld8 (h_mem h) x.
Proof.
  intros O Hn. pose proof (kmalloc_cases h bs n O Hn) as K. cbv zeta in K. destruct (kmalloc h n) as [h' p].
  destruct K as [(-> & -> & _)|(pre & b & post & -> & _ & F & -> & O' & M)]; [exists bs; auto|].
  set (want := (n + 3) / 4 * 4) in *. unfold fits in F. apply andb_true_iff in F as [F _].
  pose proof (ho_sizes _ _ O) as S. apply Forall_app in S as [S1 S2]. apply Forall_cons_iff in S2 as [Sb S3].
  pose proof (span_nonneg KHDR KHDR_ok pre S1). pose proof (span_nonneg KHDR KHDR_ok post S3).
  pose proof (ho_span _ _ O) as Sp. rewrite span_app in Sp. cbn [span] in Sp.
  eexists. split; [exact O'|]. split.
  - right. split; [unfold HEAP_START, KHDR in *; lia|]. rewrite !pointers_app. cbn [pointers]. rewrite F, taken_span. cbn [app span].
    assert (T : pointers (HEAP_START + span KHDR pre) (taken KHDR 4 want b) = [HEAP_START + span KHDR pre + KHDR])
      by (unfold taken; destruct (_ <=? _); reflexivity).
    rewrite T. cbn [app]. replace (HEAP_START + span KHDR pre + (KHDR + b_size b + 0)) with (HEAP_START + span KHDR pre + KHDR + b_size b) by lia.
    symmetry. apply Permutation_middle.
  - intros x Hx. apply M. unfold outside_heap, HEAP_START, HEAP_SIZE, KHDR in *. lia.
Qed.

(** [kfree] of a pointer in use takes it away. *)
Lemma kfree_pointers h bs p :
  heap_ok h bs -> In p (pointers HEAP_START bs) ->
  exists bs', heap_ok (kfree h p) bs' /\ pointers HEAP_START bs ≡ₚ p :: pointers HEAP_START bs' /\
    forall x, outside_heap x -> ld8 (h_mem (kfree h p)) x = ld8 (h_mem h) x.
Proof.
  intros O H. destruct (pointers_split _ _ _ H) as (pre & b & post & -> & F & ->).
  destruct (kfree_spec h pre b post O) as [O' M]. eexists. split; [exact O'|].
  pose proof (ho_sizes _ _ O) as S. apply Forall_app in S as [S1 S2]. apply Forall_cons_iff in S2 as [Sb S3].
  pose proof (span_nonneg KHDR KHDR_ok pre S1). pose proof (span_nonneg KHDR KHDR_ok post S3).
  pose proof (ho_span _ _ O) as Sp. rewrite span_app in Sp. cbn [span] in Sp. split.
  - assert (E : pointers (HEAP_START + span KHDR pre) (freed b post) = pointers (HEAP_START + span KHDR pre + KHDR + b_size b) post).
    { destruct post as [|c post]; cbn [freed pointers b_free b_size]; [reflexivity|].
      destruct (b_free c) eqn:Fc; cbn [pointers b_free b_size app]; [f_equal; lia|rewrite Fc; reflexivity]. }
    rewrite !pointers_app, E. cbn [pointers]. rewrite F. cbn [app]. symmetry. apply Permutation_middle.
  - intros x Hx. apply M. unfold outside_heap, HEAP_START, HEAP_SIZE, KHDR in *. lia.
Qed.

(** A request of 0xFFFFFFFD bytes or more wraps round to zero when it is
    rounded up: [kmalloc] then behaves as for 0 bytes, and on a fresh heap
    returns a block with no payload at all instead of null. *)
Theorem kmalloc_wraps (h : kheap) (n : Z) :
  0xFFFFFFFD <= n <= 0xFFFFFFFF ->
  kmalloc h n = kmalloc h 0 /\
  snd (kmalloc (heap_install h) n) = HEAP_START + KHDR /\
  blk_size (h_mem (fst (kmalloc (heap_install h) n))) HEAP_START = 0.
Proof.
  intros Hn. assert (E : forall h, kmalloc h n = kmalloc h 0).
  { intros h0. unfold kmalloc. replace (Z.land (u32 (n + 3)) 0xFFFFFFFC) with 0; [reflexivity|].
    assert (C : n = 0xFFFFFFFD \/ n = 0xFFFFFFFE \/ n = 0xFFFFFFFF) by lia.
    destruct C as [-> | [-> | ->]]; reflexivity. }
  split; [apply E|]. rewrite E. pose proof (heap_install_ok h) as O.
  pose proof (kmalloc_cases (heap_install h) _ 0 O ltac:(lia)) as K. cbv zeta in K.
  change ((0 + 3) / 4 * 4) with 0 in K. destruct (kmalloc (heap_install h) 0) as [h' p]. cbn [fst snd].
  destruct K as [(_ & _ & F)|(pre & b & post & Eb & Fp & _ & -> & O' & _)].
  - apply Forall_cons_iff in F as [F _]. discriminate.
  - destruct pre as [|x pre].
    + injection Eb as <- <-. cbn [app span] in *. split; [unfold HEAP_START, KHDR; lia|].
      destruct (ho_chain _ _ O') as (C1 & _). exact C1.
    + injection Eb as <- _. apply Forall_cons_iff in Fp as [F _]. discriminate.
Qed.

(** ** Witnesses *)

Definition demo_heap : kheap := heap_install (mk_kheap ∅ 0).
Definition demo_blocks : list block := [mk_block (HEAP_SIZE - KHDR) true].

Lemma kmalloc_first_fit_witness :
  let want := (100 + 3) / 4 * 4 in
  let '(h', p) := kmalloc demo_heap 100 in
  (p = 0 /\ h' = demo_heap /\ Forall (fun c => fits want c = false) demo_blocks) \/
  allocated demo_heap demo_blocks want h' p.
Proof. apply (kmalloc_first_fit demo_heap demo_blocks 100); [apply heap_install_ok|lia]. Defined.

Lemma kfree_merges_witness :
  let p := HEAP_START + span KHDR [] + KHDR in
  heap_ok (kfree demo_heap p) ([] ++ freed (mk_block (HEAP_SIZE - KHDR) true) []) /\
  (forall x, x < p - KHDR \/ p <= x -> ld8 (h_mem (kfree demo_heap p)) x = ld8 (h_mem demo_heap) x).
Proof. apply (kfree_merges demo_heap [] (mk_block (HEAP_SIZE - KHDR) true) []). apply heap_install_ok. Defined.

Lemma kmalloc_kfree_restores_witness :
  let '(h', p) := kmalloc demo_heap 1000 in heap_ok (kfree h' p) demo_blocks.
Proof. apply (kmalloc_kfree_restores demo_heap demo_blocks 1000); [apply heap_install_ok|reflexivity|lia]. Defined.

Lemma kmalloc_wraps_witness :
  kmalloc demo_heap 0xFFFFFFFE = kmalloc demo_heap 0 /\
  snd (kmalloc (heap_install demo_heap) 0xFFFFFFFE) = HEAP_START + KHDR /\
  blk_size (h_mem (fst (kmalloc (heap_install demo_heap) 0xFFFFFFFE))) HEAP_START = 0.
Proof. apply kmalloc_wraps. lia. Defined.
