(* ===== verification/Keyboard.v ===== *)
(** * PS/2 keyboard (kernel/keyboard.c)

    The interrupt handler that decodes scancodes, and the ring buffer between
    it (the producer) and [keyboard_getchar] (the consumer).  The interleaving
    of the two is a sequence of steps; the buffer is shown to be a queue of at
    most 255 characters that loses input only when it is full. *)

From stdpp Require Import base gmap list numbers option.
From Stdlib Require Import ZArith Lia Bool.
From S2P Require Import Prelude CString.

Definition BUF_SIZE : Z := 256.
Definition LSHIFT : Z := 0x2A.
Definition RSHIFT : Z := 0x36.
Definition KEY_UP : Z := 0x11.
Definition KEY_DOWN : Z := 0x12.
Definition KEY_LEFT : Z := 0x13.
Definition KEY_RIGHT : Z := 0x14.

(** The initialised part of the two tables; the rest of the 128 entries is 0. *)
Definition scancode_ascii : list Z :=
  [0; 27] ++ lit "1234567890-=" ++ [8; 9] ++ lit "qwertyuiop[]" ++ [10; 0] ++
  lit "asdfghjkl;'`" ++ [0] ++ lit "\zxcvbnm,./" ++ [0] ++ lit "*" ++ [0] ++ lit " ".

Definition scancode_ascii_shift : list Z :=
  [0; 27] ++ lit "!@#$%^&*()_+" ++ [8; 9] ++ lit "QWERTYUIOP{}" ++ [10; 0] ++
  lit "ASDFGHJKL:" ++ [34] ++ lit "~" ++ [0] ++ lit "|ZXCVBNM<>?" ++ [0] ++ lit "*" ++ [0] ++ lit " ".

Record kbd := mk_kbd {
  buffer : arr;
  head : Z;
  tail : Z;
  shift : bool;
  extended : bool
}.

Definition kbd_boot : kbd := mk_kbd ∅ 0 0 false false.

Definition enqueue (s : kbd) (c : Z) : kbd :=
  let next := u32 (head s + 1) mod BUF_SIZE in
  if negb (next =? tail s)
  then mk_kbd (aset (buffer s) (head s) c) next (tail s) (shift s) (extended s)
  else s.

Definition set_shift (s : kbd) (b : bool) : kbd :=
  mk_kbd (buffer s) (head s) (tail s) b (extended s).
Definition set_extended (s : kbd) (b : bool) : kbd :=
  mk_kbd (buffer s) (head s) (tail s) (shift s) b.

(** [scancode] is the byte read from the data port. *)
Definition keyboard_callback (s : kbd) (scancode : Z) : kbd :=
  if scancode =? 0xE0 then set_extended s true
  else if tst scancode 0x80 then
    let code := Z.land scancode 0x7F in
    let s := if (code =? LSHIFT) || (code =? RSHIFT) then set_shift s false else s in
    set_extended s false
  else if extended s then
    let s := set_extended s false in
    if scancode =? 0x48 then enqueue s KEY_UP
    else if scancode =? 0x50 then enqueue s KEY_DOWN
    else if scancode =? 0x4B then enqueue s KEY_LEFT
    else if scancode =? 0x4D then enqueue s KEY_RIGHT
    else s
  else if (scancode =? LSHIFT) || (scancode =? RSHIFT) then set_shift s true
  else
    let c := if shift s then tget 0 scancode_ascii_shift scancode else tget 0 scancode_ascii scancode in
    if negb (c =? 0) then enqueue s c else s.

Definition keyboard_getchar (s : kbd) : kbd * Z :=
  if tail s =? head s then (s, -1)
  else
    let c := aget (buffer s) (tail s) in
    (mk_kbd (buffer s) (head s) (u32 (tail s + 1) mod BUF_SIZE) (shift s) (extended s), u8 c).

(** ** Interleavings *)

(** An interrupt with its scancode, or a call of [keyboard_getchar]. *)
Inductive kbd_event := Irq (scancode : Z) | Get.

(** One event and the characters it returned to the caller. *)
Definition kbd_step (s : kbd) (e : kbd_event) : kbd * list Z :=
  match e with
  | Irq sc => (keyboard_callback s sc, [])
  | Get => let '(s', c) := keyboard_getchar s in (s', [c])
  end.

Fixpoint kbd_run (s : kbd) (es : list kbd_event) : kbd * list Z :=
  match es with
  | [] => (s, [])
  | e :: es' =>
      let '(s1, o1) := kbd_step s e in
      let '(s2, o2) := kbd_run s1 es' in (s2, o1 ++ o2)
  end.

(** ** The specification: a typed queue *)

(** The modifier state, and the characters typed but not yet read. *)
Record typist := mk_typist {
  ty_shift : bool;
  ty_ext : bool;
  ty_queue : list Z
}.

(** What one scancode means: the new modifiers and the character typed. *)
Definition meaning (sh ext : bool) (sc : Z) : bool * bool * option Z :=
  if sc =? 0xE0 then (sh, true, None)
  else if tst sc 0x80 then
    (sh && negb ((Z.land sc 0x7F =? LSHIFT) || (Z.land sc 0x7F =? RSHIFT)), false, None)
  else if ext then
    (sh, false,
     if sc =? 0x48 then Some KEY_UP else if sc =? 0x50 then Some KEY_DOWN
     else if sc =? 0x4B then Some KEY_LEFT else if sc =? 0x4D then Some KEY_RIGHT else None)
  else if (sc =? LSHIFT) || (sc =? RSHIFT) then (true, false, None)
  else
    let c := tget 0 (if sh then scancode_ascii_shift else scancode_ascii) sc in
    (sh, false, if c =? 0 then None else Some c).

(** At most 255 characters wait; one typed when the queue is full is lost. *)
Definition typed (q : list Z) (c : option Z) : list Z :=
  match c with
  | Some x => if Z.of_nat (length q) <? 255 then q ++ [x] else q
  | None => q
  end.

Definition typist_step (t : typist) (e : kbd_event) : typist * list Z :=
  match e with
  | Irq sc =>
      let '(sh, ext, c) := meaning (ty_shift t) (ty_ext t) sc in
      (mk_typist sh ext (typed (ty_queue t) c), [])
  | Get =>
      match ty_queue t with
      | [] => (t, [-1])
      | x :: q => (mk_typist (ty_shift t) (ty_ext t) q, [x])
      end
  end.

Fixpoint typist_run (t : typist) (es : list kbd_event) : typist * list Z :=
  match es with
  | [] => (t, [])
  | e :: es' =>
      let '(t1, o1) := typist_step t e in
      let '(t2, o2) := typist_run t1 es' in (t2, o1 ++ o2)
  end.

(** ** Refinement *)

(** The ring between [tail] and [head] holds the queue. *)
Record holds (s : kbd) (q : list Z) : Prop := {
  kh_head : 0 <= head s < 256;
  kh_tail : 0 <= tail s < 256;
  kh_len : Z.of_nat (length q) = (head s - tail s) mod 256;
  kh_chars : forall i, (i < length q)%nat ->
    aget (buffer s) ((tail s + Z.of_nat i) mod 256) = nth i q 0;
  kh_bytes : Forall (fun c => 0 < c < 256) q
}.

Lemma ring_next x : 0 <= x < 256 -> u32 (x + 1) mod BUF_SIZE = (x + 1) mod 256.
Proof. intros. rewrite u32_small by lia. reflexivity. Qed.

Lemma enqueue_holds s q c :
  holds s q -> 0 < c < 256 -> holds (enqueue s c) (typed q (Some c)).
Proof.
  intros [Hh Ht Hl Hc Hb] Hcr. unfold enqueue, typed. rewrite ring_next by assumption.
  destruct (Z.eqb_spec ((head s + 1) mod 256) (tail s)) as [E|N].
  - cbn [negb]. destruct (Z.ltb_spec (Z.of_nat (length q)) 255); [exfalso; zdm|]. constructor; assumption.
  - cbn [negb]. destruct (Z.ltb_spec (Z.of_nat (length q)) 255); [|exfalso; zdm].
    constructor; cbn [head tail buffer].
    + zdm.
    + assumption.
    + rewrite length_app. cbn [length]. zdm.
    + intros i Hi. rewrite length_app in Hi. cbn [length] in Hi. rewrite aget_aset.
      destruct (Nat.eq_dec i (length q)) as [->|].
      * rewrite app_nth2, Nat.sub_diag by lia. cbn [nth].
        destruct (Z.eqb_spec (head s) ((tail s + Z.of_nat (length q)) mod 256)); [reflexivity|exfalso; zdm].
      * rewrite app_nth1 by lia.
        destruct (Z.eqb_spec (head s) ((tail s + Z.of_nat i) mod 256)); [exfalso; zdm|apply Hc; lia].
    + apply Forall_app. split; [assumption|]. constructor; [assumption|constructor].
Qed.

Lemma getchar_holds s q :
  holds s q ->
  match q with
  | [] => keyboard_getchar s = (s, -1)
  | x :: q' => exists s', keyboard_getchar s = (s', x) /\ holds s' q' /\
                 shift s' = shift s /\ extended s' = extended s
  end.
Proof.
  intros [Hh Ht Hl Hc Hb]. unfold keyboard_getchar. destruct q as [|x q].
  - cbn [length] in Hl. destruct (Z.eqb_spec (tail s) (head s)); [reflexivity|exfalso; zdm].
  - destruct (Z.eqb_spec (tail s) (head s)) as [E|N]; [exfalso; cbn [length] in Hl; zdm|].
    apply Forall_cons_iff in Hb as [Hx Hb]. pose proof (Hc O ltac:(cbn; lia)) as H0. cbn [nth] in H0.
    rewrite Z.add_0_r, Z.mod_small in H0 by lia. rewrite ring_next, H0, u8_small by lia.
    eexists. split; [reflexivity|]. split; [|auto]. constructor; cbn [head tail buffer].
    + assumption.
    + zdm.
    + cbn [length] in Hl. zdm.
    + intros i Hi. specialize (Hc (S i) ltac:(cbn; lia)). cbn [nth] in Hc. rewrite <- Hc. f_equal. zdm.
    + assumption.
Qed.

(** Characters of the tables are bytes. *)
Lemma table_bytes (sh : bool) sc :
  let c := tget 0 (if sh then scancode_ascii_shift else scancode_ascii) sc in 0 <= c < 256.
Proof.
  assert (H : forall l i, forallb (fun c => (0 <=? c) && (c <? 256)) l = true -> 0 <= tget 0 l i < 256).
  { intros l i F. unfold tget. rewrite forallb_forall in F.
    destruct (nth_in_or_default (Z.to_nat i) l 0) as [Hin| ->]; [|lia].
    specialize (F _ Hin). b2p. lia. }
  destruct sh; apply H; vm_compute; reflexivity.
Qed.

(** A set modifier bit without a change of the buffer. *)
Lemma holds_mods s q a b : holds s q -> holds (mk_kbd (buffer s) (head s) (tail s) a b) q.
Proof. intros []. constructor; assumption. Qed.

Lemma enqueue_mods s c : shift (enqueue s c) = shift s /\ extended (enqueue s c) = extended s.
Proof. unfold enqueue. destruct (negb _); auto. Qed.

Lemma callback_holds s q sc :
  holds s q ->
  let '(sh, ext, c) := meaning (shift s) (extended s) sc in
  let s' := keyboard_callback s sc in
  holds s' (typed q c) /\ shift s' = sh /\ extended s' = ext.
Proof.
  intros H. unfold meaning, keyboard_callback.
  destruct (sc =? 0xE0); [split; [exact (holds_mods s q _ _ H)|auto]|].
  destruct (tst sc 0x80).
  { destruct ((Z.land sc 0x7F =? LSHIFT) || (Z.land sc 0x7F =? RSHIFT)); cbn [negb].
    - rewrite andb_false_r. split; [exact (holds_mods s q _ _ H)|auto].
    - rewrite andb_true_r. split; [exact (holds_mods s q _ _ H)|auto]. }
  destruct (extended s) eqn:Ex.
  { pose proof (holds_mods s q (shift s) false H) as H'. fold (set_extended s false) in H'.
    assert (K : forall k, 0 < k < 256 -> holds (enqueue (set_extended s false) k) (typed q (Some k)) /\
      shift (enqueue (set_extended s false) k) = shift s /\
      extended (enqueue (set_extended s false) k) = false).
    { intros k Hk. destruct (enqueue_mods (set_extended s false) k) as [-> ->].
      split; [apply enqueue_holds; assumption|auto]. }
    repeat match goal with |- context [if sc =? ?x then _ else _] =>
      destruct (sc =? x); [apply K; unfold KEY_UP, KEY_DOWN, KEY_LEFT, KEY_RIGHT; lia|] end.
    split; [exact H'|auto]. }
  destruct ((sc =? LSHIFT) || (sc =? RSHIFT)); [split; [exact (holds_mods s q _ _ H)|auto]|].
  pose proof (table_bytes (shift s) sc) as B. cbv zeta in B.
  replace (if shift s then tget 0 scancode_ascii_shift sc else tget 0 scancode_ascii sc)
    with (tget 0 (if shift s then scancode_ascii_shift else scancode_ascii) sc)
    by (destruct (shift s); reflexivity).
  set (c := tget 0 _ sc) in *. destruct (Z.eqb_spec c 0); cbn [negb]; [auto|].
  destruct (enqueue_mods s c) as [-> ->]. split; [apply enqueue_holds; [assumption|lia]|auto].
Qed.

Lemma kbd_run_refines es : forall s t,
  holds s (ty_queue t) -> shift s = ty_shift t -> extended s = ty_ext t ->
  let '(s', o) := kbd_run s es in
  let '(t', o') := typist_run t es in
  o = o' /\ holds s' (ty_queue t') /\ (length (ty_queue t') <= 255)%nat.
Proof.
  induction es as [|e es IH]; intros s t H Hs He; cbn [kbd_run typist_run].
  - split; [reflexivity|]. split; [assumption|]. pose proof (kh_len _ _ H). zdm.
  - destruct e as [sc|]; cbn [kbd_step typist_step].
    + rewrite <- Hs, <- He. pose proof (callback_holds s (ty_queue t) sc H) as C.
      destruct (meaning (shift s) (extended s) sc) as [[sh ext] c]. destruct C as (C1 & C2 & C3).
      specialize (IH (keyboard_callback s sc) (mk_typist sh ext (typed (ty_queue t) c)) C1 C2 C3).
      destruct (kbd_run _ es) as [s' o], (typist_run _ es) as [t' o']. destruct IH as (-> & IH). auto.
    + pose proof (getchar_holds s (ty_queue t) H) as G. destruct (ty_queue t) as [|x q] eqn:Q.
      * rewrite G. rewrite <- Q in H. specialize (IH s t H Hs He).
        destruct (kbd_run s es) as [s' o], (typist_run t es) as [t' o']. destruct IH as (-> & IH). auto.
      * destruct G as (s1 & -> & H1 & H2 & H3).
        specialize (IH s1 (mk_typist (ty_shift t) (ty_ext t) q) H1 ltac:(cbn; congruence) ltac:(cbn; congruence)).
        destruct (kbd_run s1 es) as [s' o], (typist_run _ es) as [t' o']. destruct IH as (-> & IH). auto.
Qed.

(** C25. Refinement: whatever the interleaving of keyboard interrupts and reads,
    the driver returns exactly what a queue of at most 255 typed characters
    would: every character in order, none duplicated, none lost unless 255 are
    already waiting, and -1 exactly when none is waiting. *)
Theorem keyboard_is_a_queue (es : list kbd_event) :
  let '(s', o) := kbd_run kbd_boot es in
  let '(t', o') := typist_run (mk_typist false false []) es in
  o = o' /\ holds s' (ty_queue t') /\ (length (ty_queue t') <= 255)%nat.
Proof.
  apply kbd_run_refines; [|reflexivity|reflexivity].
  constructor; [cbn; lia|cbn; lia|reflexivity|intros i Hi; inversion Hi|constructor].
Qed.

(** Typing "A" with Shift, an arrow key and a letter, reading as we go. *)
Example demo_typing :
  snd (kbd_run kbd_boot [Get; Irq 0x2A; Irq 0x1E; Irq 0xAA; Get; Irq 0xE0; Irq 0x48; Irq 0x1E; Get; Get])
  = [-1; 65; KEY_UP; 97].
Proof. vm_compute. reflexivity. Qed.
