(* ===== verification/Interfaces.v ===== *)
(** * Interfaces between components

    What one component promises to another, as classes: the client is verified
    against the class, and the component that implements it gives an instance.

    - [Sbrk]: the program break, promised by the system calls
      (kernel/syscall.c, SYS_SBRK) to the user-space allocator
      (user/umalloc.h).
    - [Disk]: one-sector transfers, promised by the disk driver
      (kernel/ata.c) to the filesystem (kernel/fs.c).
    - [Ports]: the I/O ports a driver reaches with the instructions of
      kernel/ports.h; [AtaLaws] is the ATA protocol of a drive behind them. *)

From stdpp Require Import base gmap list numbers option.
From Stdlib Require Import ZArith Lia Bool.
From S2P Require Import Prelude.

(** A state [K] with a program break in [heap_base, heap_end]. *)
Class Sbrk (K : Type) := {
  heap_base : Z;
  heap_end : Z;
  brk_of : K -> Z;
  sbrk : K -> Z -> K * Z
}.

(** [sbrk] moves the break up and returns the old one, or refuses with -1 and
    leaves it; an increment of 0 only reads it. *)
Class SbrkLaws (K : Type) `{Sbrk K} := {
  brk_ok : K -> Prop;
  heap_range : 4096 <= heap_base /\ heap_base <= heap_end /\ heap_end < 0x100000000;
  heap_aligned : heap_base mod 8 = 0;
  brk_range : forall k, brk_ok k -> heap_base <= brk_of k <= heap_end;
  sbrk_zero : forall k, brk_ok k -> sbrk k 0 = (k, brk_of k);
  sbrk_step : forall k n, brk_ok k -> 0 < n < 0x100000000 ->
    let '(k', r) := sbrk k n in
    brk_ok k' /\
    if brk_of k + n <=? heap_end then r = brk_of k /\ brk_of k' = brk_of k + n
    else r = U32_MAX /\ brk_of k' = brk_of k
}.

(** A disk [D].  [read_sector d lba buf] fills the first 512 bytes of [buf];
    both transfers return 0, or -1 on an error. *)
Class Disk (D : Type) := {
  read_sector : D -> Z -> mem -> D * mem * Z;
  write_sector : D -> Z -> mem -> D * Z
}.

(** A disk that works: [sector d lba k] is the byte it stores. *)
Class DiskLaws (D : Type) `{Disk D} := {
  disk_ok : D -> Prop;
  disk_size : Z;
  sector : D -> Z -> Z -> Z;
  sector_range : forall d l k, 0 <= sector d l k < 256;
  read_law : forall d lba buf, disk_ok d -> 0 <= lba < disk_size ->
    let '(d', buf', r) := read_sector d lba buf in
    r = 0 /\ disk_ok d' /\ (forall l k, sector d' l k = sector d l k) /\
    (forall x, ld8 buf' x = if (0 <=? x) && (x <? 512) then sector d lba x else ld8 buf x);
  write_law : forall d lba buf, disk_ok d -> 0 <= lba < disk_size ->
    let '(d', r) := write_sector d lba buf in
    r = 0 /\ disk_ok d' /\
    (forall l k, 0 <= k < 512 -> sector d' l k = if l =? lba then ld8 buf k else sector d l k)
}.

(** I/O ports (inb, outb, inw, outw) of some hardware [H]. *)
Class Ports (H : Type) := {
  inb : H -> Z -> H * Z;
  outb : H -> Z -> Z -> H;
  inw : H -> Z -> H * Z;
  outw : H -> Z -> Z -> H
}.

(** What a drive is doing: nothing, handing out word [k] of a sector next, or
    expecting word [k] of a sector; [n] is the number of sectors the command has
    left, this one included. *)
Inductive ata_phase := Idle | Sending (lba k n : Z) | Receiving (lba k n : Z).

(** The phase after word [k] of a sector: the next word, the next sector, or the
    end of the command. *)
Definition after_word (mk : Z -> Z -> Z -> ata_phase) (lba k n : Z) : ata_phase :=
  if k <? 255 then mk lba (k + 1) n else if n <=? 1 then Idle else mk (lba + 1) 0 (n - 1).

(** The sector number in the address registers (28 bits, LBA mode, master). *)
Definition addressed (reg : Z -> Z) : Z :=
  reg 0x1F3 + 0x100 * reg 0x1F4 + 0x10000 * reg 0x1F5 + 0x1000000 * Z.land (reg 0x1F6) 0x0F.

(** A drive that follows the ATA PIO protocol and reports no error: it may be
    busy for [delay] status reads after a command or a sector, and meanwhile
    the other status bits mean nothing; once it is not busy it requests data
    exactly while a transfer is under way.  A command transfers as many
    consecutive sectors as the count register says (1 to 255; the protocol's 0
    for 256 is not used). *)
Class AtaLaws (H : Type) `{Ports H} := {
  phase_of : H -> ata_phase;
  delay : H -> Z;
  reg_of : H -> Z -> Z;
  word_of : H -> Z -> Z -> Z;
  drive_size : Z;
  drive_lba28 : 0 <= drive_size <= 0x10000000;
  delay_range : forall h, 0 <= delay h < 1000000;
  word_range : forall h l k, 0 <= word_of h l k < 0x10000;
  status_law : forall h, let '(h', s) := inb h 0x1F7 in
    phase_of h' = phase_of h /\ reg_of h' = reg_of h /\ word_of h' = word_of h /\
    (0 < delay h -> tst s 0x80 = true /\ delay h' = delay h - 1) /\
    (delay h = 0 -> tst s 0x80 = false /\ tst s 0x21 = false /\ delay h' = 0 /\
       tst s 0x08 = match phase_of h with Idle => false | _ => true end);
  register_law : forall h p v, phase_of h = Idle -> delay h = 0 -> 0x1F2 <= p <= 0x1F6 -> 0 <= v < 256 ->
    let h' := outb h p v in
    phase_of h' = Idle /\ delay h' = 0 /\ word_of h' = word_of h /\
    (forall q, reg_of h' q = if q =? p then v else reg_of h q);
  read_command : forall h n, phase_of h = Idle -> delay h = 0 -> reg_of h 0x1F2 = n -> 1 <= n < 256 ->
    Z.land (reg_of h 0x1F6) 0xF0 = 0xE0 -> addressed (reg_of h) + n <= drive_size ->
    let h' := outb h 0x1F7 0x20 in
    phase_of h' = Sending (addressed (reg_of h)) 0 n /\ word_of h' = word_of h;
  write_command : forall h n, phase_of h = Idle -> delay h = 0 -> reg_of h 0x1F2 = n -> 1 <= n < 256 ->
    Z.land (reg_of h 0x1F6) 0xF0 = 0xE0 -> addressed (reg_of h) + n <= drive_size ->
    let h' := outb h 0x1F7 0x30 in
    phase_of h' = Receiving (addressed (reg_of h)) 0 n /\ word_of h' = word_of h;
  flush_command : forall h, phase_of h = Idle -> delay h = 0 ->
    let h' := outb h 0x1F7 0xE7 in phase_of h' = Idle /\ word_of h' = word_of h;
  inw_law : forall h l k n, phase_of h = Sending l k n -> delay h = 0 -> 0 <= k < 256 ->
    let '(h', w) := inw h 0x1F0 in
    w = word_of h l k /\ word_of h' = word_of h /\ phase_of h' = after_word Sending l k n /\
    (k < 255 -> delay h' = 0);
  outw_law : forall h l k n w, phase_of h = Receiving l k n -> delay h = 0 -> 0 <= k < 256 -> 0 <= w < 0x10000 ->
    let h' := outw h 0x1F0 w in
    (forall l' k', word_of h' l' k' = if (l' =? l) && (k' =? k) then w else word_of h l' k') /\
    phase_of h' = after_word Receiving l k n /\ (k < 255 -> delay h' = 0)
}.
