(* ===== verification/Umalloc.v ===== *)
(** * User-space allocator (user/umalloc.h)

    The first-fit free list a ring-3 program keeps in its heap, grown by the
    SYS_SBRK system call.  It is the free list of [FreeList] with 16-byte
    headers, over any implementation of the [Sbrk] interface. *)

From stdpp Require Import base gmap list numbers option.
From Stdlib Require Import ZArith Lia Bool.
From S2P Require Import Prelude CString FreeList Interfaces.

(** [sizeof(u_block_t)]: three words and the padding word. *)
Definition U_HDR : Z := 16.

Section Umalloc.
Context {K : Type} {SK : Sbrk K} {LK : SbrkLaws K}.

Record uheap := mk_uheap {
  u_mem : mem;
  u_head : Z;
  u_kern : K
}.

(** [u_sbrk]: the system call, on the kernel's side of the state. *)
Definition u_sbrk (h : uheap) (incr : Z) : uheap * Z :=
  let '(k, old) := sbrk (u_kern h) incr in (mk_uheap (u_mem h) (u_head h) k, old).

(** A block takes at least its header, so a list in the heap has at most
    this many blocks. *)
Definition UFUEL : nat := Z.to_nat ((heap_end - heap_base) / U_HDR + 1).

(** The loop of [u_coalesce] from the block [b] on: every turn absorbs a block
    or passes one. *)
Fixpoint coalesce_from (fuel : nat) (m : mem) (b : Z) : mem :=
  match fuel with
  | O => m
  | S fuel =>
      if (b =? 0) || (blk_next m b =? 0) then m
      else if blk_free m b && blk_free m (blk_next m b) then coalesce_from fuel (absorb U_HDR m b) b
      else coalesce_from fuel m (blk_next m b)
  end.

Definition u_coalesce (h : uheap) : uheap :=
  mk_uheap (coalesce_from UFUEL (u_mem h) (u_head h)) (u_head h) (u_kern h).

(** [while (t->next) t = t->next;] *)
Fixpoint last_block (fuel : nat) (m : mem) (t : Z) : Z :=
  match fuel with
  | O => t
  | S fuel => if blk_next m t =? 0 then t else last_block fuel m (blk_next m t)
  end.

(** The part of [umalloc] after the search: one more block from [u_sbrk]. *)
Definition grow (h : uheap) (want : Z) : uheap * Z :=
  let '(h, b) := u_sbrk h (u32 (U_HDR + want)) in
  if b =? U32_MAX then (h, 0)
  else
    let m := set_size (u_mem h) b want in
    let m := set_free m b 0 in
    let m := set_next m b 0 in
    if u_head h =? 0 then (mk_uheap m b (u_kern h), u32 (b + U_HDR))
    else
      let t := last_block UFUEL m (u_head h) in
      (mk_uheap (set_next m t b) (u_head h) (u_kern h), u32 (b + U_HDR)).

Definition umalloc (h : uheap) (want : Z) : uheap * Z :=
  if want =? 0 then (h, 0)
  else
    let want := Z.land (u32 (want + 7)) 0xFFFFFFF8 in
    match first_fit UFUEL (u_mem h) (u_head h) want with
    | Some b => (mk_uheap (take_block U_HDR 8 (u_mem h) b want) (u_head h) (u_kern h), u32 (b + U_HDR))
    | None => grow h want
    end.

Definition ufree (h : uheap) (p : Z) : uheap :=
  if p =? 0 then h
  else
    let b := u32 (p - U_HDR) in
    u_coalesce (mk_uheap (set_free (u_mem h) b 1) (u_head h) (u_kern h)).

(** ** The invariant *)

(** The blocks [bs] fill the program's heap from [base], where its break was at
    the start, up to the break; sizes keep the payloads 8-byte aligned. *)
Record uheap_ok (h : uheap) (base : Z) (bs : list block) : Prop := {
  uo_kern : brk_ok (u_kern h);
  uo_base : heap_base <= base /\ base mod 8 = 0;
  uo_head : u_head h = match bs with [] => 0 | _ => base end;
  uo_chain : chain U_HDR (u_mem h) base bs;
  uo_sizes : Forall (fun b => 0 <= b_size b /\ b_size b mod 8 = 0) bs;
  uo_span : base + span U_HDR bs = brk_of (u_kern h)
}.

(** ** Coalescing on lists of blocks *)

Fixpoint coal (b : block) (bs : list block) : list block :=
  match bs with
  | [] => [b]
  | c :: bs' =>
      if b_free b && b_free c then coal (mk_block (b_size b + U_HDR + b_size c) true) bs'
      else b :: coal c bs'
  end.

Definition coalesced (bs : list block) : list block :=
  match bs with
  | [] => []
  | b :: bs' => coal b bs'
  end.

(** [x] lies in no header of the blocks [bs] laid out from [a]. *)
Fixpoint off_headers (a : Z) (bs : list block) (x : Z) : Prop :=
  match bs with
  | [] => True
  | b :: bs' => (x < a \/ a + U_HDR <= x) /\ off_headers (a + U_HDR + b_size b) bs' x
  end.

Lemma U_HDR_ok : 12 <= U_HDR <= 64.
Proof. unfold U_HDR. lia. Qed.

Lemma slack8_ok : 0 <= 8 <= 64.
Proof. lia. Qed.

Lemma coal_merged bs : forall b, merged (coal b bs) = true.
Proof.
  assert (G : forall bs b, merged (coal b bs) = true /\
    match coal b bs with [] => False | c :: _ => b_free c = b_free b end).
  { clear bs. induction bs as [|c bs IH]; intros b; cbn [coal]; [auto|].
    destruct (b_free b && b_free c) eqn:E.
    - destruct (IH (mk_block (b_size b + U_HDR + b_size c) true)) as [I1 I2]. split; [exact I1|].
      destruct (coal _ bs); [exact I2|]. rewrite I2. apply andb_true_iff in E as [-> _]. reflexivity.
    - destruct (IH c) as [I1 I2]. split; [|reflexivity].
      destruct (coal c bs) as [|d ds]; [reflexivity|].
      change (negb (b_free b && b_free d) && merged (d :: ds) = true). rewrite I2, E, I1. reflexivity. }
  intros b. apply G.
Qed.

Lemma coal_span bs : forall b, span U_HDR (coal b bs) = span U_HDR (b :: bs).
Proof.
  induction bs as [|c bs IH]; intros b; cbn [coal]; [reflexivity|].
  destruct (_ && _); [rewrite IH|cbn [span]; rewrite IH]; cbn [span b_size]; lia.
Qed.

Lemma coal_nonempty bs b : coal b bs <> [].
Proof.
  revert b. induction bs as [|c bs IH]; intros b; cbn [coal]; [discriminate|].
  destruct (_ && _); [apply IH|discriminate].
Qed.

Lemma coal_sizes bs : forall b,
  Forall (fun b => 0 <= b_size b /\ b_size b mod 8 = 0) (b :: bs) ->
  Forall (fun b => 0 <= b_size b /\ b_size b mod 8 = 0) (coal b bs).
Proof.
  induction bs as [|c bs IH]; intros b H; cbn [coal]; [exact H|].
  apply Forall_cons_iff in H as [Hb H]. apply Forall_cons_iff in H as [Hc H].
  destruct (_ && _).
  - apply IH. constructor; [|exact H]. cbn [b_size]. unfold U_HDR. zdm.
  - constructor; [exact Hb|]. apply IH. constructor; assumption.
Qed.

(** ** The loops *)

Lemma off_headers_skip bs : forall a x,
  Forall (fun b => 0 <= b_size b) bs -> x < a \/ a + span U_HDR bs <= x -> off_headers a bs x.
Proof.
  induction bs as [|b bs IH]; intros a x F Hx; cbn [off_headers]; [exact I|].
  apply Forall_cons_iff in F as [Fb F]. cbn [span] in Hx.
  pose proof (span_nonneg U_HDR U_HDR_ok bs F). unfold U_HDR in *.
  split; [lia|]. apply IH; [exact F|lia].
Qed.

(** The coalescing loop implements [coal] and writes headers only. *)
Lemma coalesce_from_spec bs : forall fuel m a b,
  in_bounds U_HDR a (b :: bs) -> chain U_HDR m a (b :: bs) -> (length bs < fuel)%nat ->
  chain U_HDR (coalesce_from fuel m a) a (coal b bs) /\
  (forall x, off_headers a (b :: bs) x -> ld8 (coalesce_from fuel m a) x = ld8 m x).
Proof.
  induction bs as [|c bs IH]; intros fuel m a b B C Hf; (destruct fuel as [|fuel]; [cbn [length] in Hf; lia|]).
  - cbn [coalesce_from coal]. destruct C as (C1 & C2 & C3 & C4). rewrite C3. rewrite orb_true_r.
    split; [repeat split; assumption|reflexivity].
  - pose proof B as (Ba & Bb & Bs). apply Forall_cons_iff in Bs as [Hb Bs]. apply Forall_cons_iff in Bs as [Hc Bs].
    cbn [span] in Bb. pose proof (span_nonneg U_HDR U_HDR_ok bs Bs) as Hp.
    pose proof C as (C1 & C2 & C3 & D1 & D2 & D3 & D4).
    cbn [coalesce_from coal]. rewrite C3.
    rewrite (proj2 (Z.eqb_neq a 0)), (proj2 (Z.eqb_neq (a + U_HDR + b_size b) 0)) by (unfold U_HDR; lia). cbn [orb].
    replace (blk_free m a) with (b_free b) by (unfold blk_free; rewrite C2; destruct (b_free b); reflexivity).
    replace (blk_free m (a + U_HDR + b_size b)) with (b_free c)
      by (unfold blk_free; rewrite D2; destruct (b_free c); reflexivity).
    cbn [length] in Hf. destruct (b_free b && b_free c) eqn:E.
    + destruct (absorb_spec U_HDR U_HDR_ok m a b c bs B C) as [A1 A2].
      apply andb_true_iff in E as [E _]. rewrite E in A1.
      destruct (IH fuel (absorb U_HDR m a) a (mk_block (b_size b + U_HDR + b_size c) true)) as [I1 I2].
      * split; [exact Ba|]. cbn [span b_size]. split; [lia|]. constructor; [cbn [b_size]; unfold U_HDR; lia|exact Bs].
      * exact A1.
      * lia.
      * split; [exact I1|]. intros x (X1 & X2 & X3). rewrite I2, A2; [reflexivity|unfold U_HDR in *; lia|].
        split; [exact X1|]. cbn [b_size]. replace (a + U_HDR + (b_size b + U_HDR + b_size c))
          with (a + U_HDR + b_size b + U_HDR + b_size c) by lia. exact X3.
    + destruct (IH fuel m (a + U_HDR + b_size b) c) as [I1 I2].
      * split; [unfold U_HDR; lia|]. cbn [span]. split; [unfold U_HDR in *; lia|]. constructor; assumption.
      * split; [exact D1|]. split; [exact D2|]. split; [exact D3|exact D4].
      * lia.
      * assert (Hd : forall k, 0 <= k <= 8 -> ld32 (coalesce_from fuel m (a + U_HDR + b_size b)) (a + k) = ld32 m (a + k)).
        { intros k Hk. apply ld32_ext. intros j Hj. apply I2. apply off_headers_skip; [constructor; assumption|].
          left. unfold U_HDR. lia. }
        split; [|intros x (X1 & X2); apply I2; exact X2].
        cbn [chain]. pose proof (Hd 0 ltac:(lia)) as H0. rewrite Z.add_0_r in H0.
        unfold blk_size, blk_next in *. rewrite H0, !Hd by lia. split; [exact C1|]. split; [exact C2|].
        split; [|exact I1]. rewrite C3. pose proof (coal_nonempty bs c). destruct (coal c bs); [contradiction|reflexivity].
Qed.

Lemma last_block_spec m bs : forall fuel a b,
  in_bounds U_HDR a (bs ++ [b]) -> chain U_HDR m a (bs ++ [b]) -> (length bs < fuel)%nat ->
  last_block fuel m a = a + span U_HDR bs.
Proof.
  induction bs as [|c bs IH]; intros fuel a b B C Hf; (destruct fuel as [|fuel]; [cbn [length] in Hf; lia|]);
    cbn [last_block app] in *; destruct C as (C1 & C2 & C3 & C4); rewrite C3.
  - cbn. lia.
  - destruct B as (Ba & Bb & Bs). apply Forall_cons_iff in Bs as [Hc Bs]. cbn [span] in Bb.
    replace (match bs ++ [b] with [] => 0 | _ => a + U_HDR + b_size c end) with (a + U_HDR + b_size c)
      by (destruct bs; reflexivity).
    rewrite (proj2 (Z.eqb_neq _ 0)) by (unfold U_HDR; lia). cbn [length] in Hf.
    rewrite (IH fuel _ b); [cbn [span]; lia| |exact C4|lia].
    split; [unfold U_HDR; lia|]. split; [lia|exact Bs].
Qed.

(** ** Consequences of the invariant *)

Lemma uheap_sizes bs : Forall (fun b => 0 <= b_size b /\ b_size b mod 8 = 0) bs -> Forall (fun b => 0 <= b_size b) bs.
Proof. apply List.Forall_impl. intros b [Hb _]. exact Hb. Qed.

Lemma uheap_bounds h base bs : uheap_ok h base bs -> in_bounds U_HDR base bs.
Proof.
  intros [Hk [Hb _] _ _ Hs Hp]. pose proof heap_range as R. pose proof (brk_range _ Hk).
  split; [lia|]. split; [lia|apply uheap_sizes; exact Hs].
Qed.

Lemma span_length bs : Forall (fun b => 0 <= b_size b) bs -> U_HDR * Z.of_nat (length bs) <= span U_HDR bs.
Proof. induction 1; cbn [span length]; [lia|]. rewrite Nat2Z.inj_succ. lia. Qed.

Lemma uheap_length h base bs : uheap_ok h base bs -> (length bs < UFUEL)%nat.
Proof.
  intros O. pose proof (span_length bs (uheap_sizes bs (uo_sizes _ _ _ O))) as L.
  pose proof (brk_range _ (uo_kern _ _ _ O)). pose proof (uo_span _ _ _ O). pose proof (uo_base _ _ _ O).
  unfold UFUEL, U_HDR in *. assert (Z.of_nat (length bs) <= (heap_end - heap_base) / 16) by zdm. lia.
Qed.

Lemma span_mod8 bs : Forall (fun b => 0 <= b_size b /\ b_size b mod 8 = 0) bs -> span U_HDR bs mod 8 = 0.
Proof.
  induction 1 as [|b bs [_ Hb] _ IH]; cbn [span]; [reflexivity|]. unfold U_HDR in *. zdm.
Qed.

(** A block written behind the last one. *)
Lemma append_block m base bs want :
  in_bounds U_HDR base (bs ++ [mk_block want false]) -> chain U_HDR m base bs ->
  let e := base + span U_HDR bs in
  let m1 := set_next (set_free (set_size m e want) e 0) e 0 in
  (forall x, x < e \/ e + 12 <= x -> ld8 m1 x = ld8 m x) /\
  chain U_HDR m1 base bs /\ chain U_HDR m1 e [mk_block want false].
Proof.
  intros (Ba & Bb & Bs) C e m1. rewrite (span_app U_HDR) in Bb. apply Forall_app in Bs as [Bs Bw].
  apply Forall_cons_iff in Bw as [Bw _]. cbn [b_size span] in *.
  pose proof (span_nonneg U_HDR U_HDR_ok bs Bs) as Hp. unfold U_HDR in Bb at 2.
  assert (E8 : forall x, x < e \/ e + 12 <= x -> ld8 m1 x = ld8 m x).
  { intros x Hx. unfold m1, set_next, set_free, set_size. rewrite !ld8_st32_out by lia. reflexivity. }
  split; [exact E8|]. split.
  - apply (chain_ext U_HDR U_HDR_ok m); [exact Bs| |exact C]. intros x Hx. apply E8. unfold e. lia.
  - cbn [chain b_size b_free]. unfold m1, blk_size, blk_next, set_next, set_free, set_size.
    rewrite !(ld32_st32_out _ _ _ e), (ld32_st32_out _ (e + 8) _ (e + 4)) by lia.
    rewrite !ld32_st32_eq. split; [apply u32_small; unfold e; lia|]. repeat split; reflexivity.
Qed.

(** Linking it behind the last block [l] of the list. *)
Lemma link_block m base pre l want e :
  e = base + span U_HDR (pre ++ [l]) ->
  in_bounds U_HDR base ((pre ++ [l]) ++ [mk_block want false]) -> chain U_HDR m base (pre ++ [l]) ->
  chain U_HDR m e [mk_block want false] ->
  chain U_HDR (set_next m (base + span U_HDR pre) e) base ((pre ++ [l]) ++ [mk_block want false]).
Proof.
  intros -> (Ba & Bb & Bs) C. rewrite !(span_app U_HDR) in *. intros Cn.
  apply Forall_app in Bs as [Bs Bw]. apply Forall_cons_iff in Bw as [Bw _].
  apply Forall_app in Bs as [Bs Bl]. apply Forall_cons_iff in Bl as [Bl _]. cbn [b_size span] in *.
  pose proof (span_nonneg U_HDR U_HDR_ok pre Bs) as Hp. set (a := base + span U_HDR pre) in *.
  pose proof (chain_tail U_HDR m _ _ _ C) as (C1 & C2 & _ & _). fold a in C1, C2.
  cbn [span]. cbn [span] in Cn.
  replace (base + (span U_HDR pre + (U_HDR + b_size l + 0))) with (a + U_HDR + b_size l) in * by (unfold a; lia).
  destruct Cn as (N1 & N2 & N3 & _). cbn [b_size b_free] in *.
  set (m' := set_next m a (a + U_HDR + b_size l)).
  assert (E8 : forall x, x < a + 8 \/ a + 12 <= x -> ld8 m' x = ld8 m x)
    by (intros x Hx; unfold m', set_next; apply ld8_st32_out; lia).
  assert (E32 : forall y, y + 4 <= a + 8 \/ a + 12 <= y -> ld32 m' y = ld32 m y)
    by (intros y Hy; apply ld32_ext; intros; apply E8; lia).
  rewrite <- app_assoc. apply (chain_replace U_HDR U_HDR_ok m m' l _ [] pre base Bs C); [discriminate| |].
  - intros x Hx. apply E8. unfold a. lia.
  - fold a. cbn [app chain b_size b_free]. unfold blk_size, blk_next in *.
    rewrite !E32 by (unfold U_HDR; lia). split; [exact C1|]. split; [exact C2|]. split.
    + unfold m', set_next. rewrite ld32_st32_eq. apply u32_small. unfold U_HDR in *. lia.
    + rewrite !E32 by (unfold U_HDR; lia). auto.
Qed.

(** ** The operations *)

(** The break moved up by one block: the heap is extended by it. *)
Lemma grow_spec h base bs want :
  uheap_ok h base bs -> 0 <= want -> want mod 8 = 0 -> U_HDR + want < 0x100000000 ->
  let '(h', p) := grow h want in
  if brk_of (u_kern h) + U_HDR + want <=? heap_end then
    p = brk_of (u_kern h) + U_HDR /\ uheap_ok h' base (bs ++ [mk_block want false]) /\
    (forall x, x < brk_of (u_kern h) -> off_headers base bs x -> ld8 (u_mem h') x = ld8 (u_mem h) x)
  else p = 0 /\ uheap_ok h' base bs /\ u_mem h' = u_mem h.
Proof.
  intros O Hw Hm Hb. pose proof O as [Hk Ho Hh Hc Hs Hp]. pose proof heap_range as R.
  pose proof (brk_range _ Hk) as Rb. unfold grow, u_sbrk. rewrite u32_small by (unfold U_HDR in *; lia).
  pose proof (sbrk_step (u_kern h) (U_HDR + want) Hk ltac:(unfold U_HDR in *; lia)) as St.
  destruct (sbrk (u_kern h) (U_HDR + want)) as [k r]. destruct St as [Hk' St]. rewrite Z.add_assoc in St.
  destruct (Z.leb_spec (brk_of (u_kern h) + U_HDR + want) heap_end) as [Hle|Hgt]; destruct St as [-> Ek].
  2:{ rewrite Z.eqb_refl. split; [reflexivity|]. split; [|reflexivity].
      constructor; cbn [u_kern u_head u_mem]; auto. congruence. }
  rewrite (proj2 (Z.eqb_neq (brk_of (u_kern h)) U32_MAX)) by (unfold U32_MAX, U_HDR in *; lia).
  cbn [u_head u_mem u_kern]. rewrite u32_small by (unfold U_HDR in *; lia).
  set (e := brk_of (u_kern h)) in *. set (nb := mk_block want false).
  assert (Sz : Forall (fun b => 0 <= b_size b /\ b_size b mod 8 = 0) (bs ++ [nb]))
    by (apply Forall_app; split; [exact Hs|repeat constructor; assumption]).
  assert (Sp : base + span U_HDR (bs ++ [nb]) = e + U_HDR + want)
    by (rewrite (span_app U_HDR); cbn [span b_size nb]; lia).
  assert (B : in_bounds U_HDR base (bs ++ [nb]))
    by (split; [lia|]; split; [lia|apply uheap_sizes; exact Sz]).
  destruct (append_block (u_mem h) base bs want B Hc) as (E8 & C1 & C2). rewrite Hp in E8, C1, C2. fold e nb in E8, C1, C2.
  set (m1 := set_next (set_free (set_size (u_mem h) e want) e 0) e 0) in *.
  destruct (decide (bs = [])) as [->|Ne].
  - rewrite Hh. cbn [Z.eqb app span] in *. rewrite Z.add_0_r in Hp. split; [reflexivity|]. split.
    + constructor; cbn [u_kern u_head u_mem app]; try assumption; [auto|rewrite Hp; exact C2|cbn [span b_size nb]; lia].
    + intros x Hx _. apply E8. lia.
  - destruct (exists_last Ne) as (pre & l & ->).
    rewrite Hh. replace (match pre ++ [l] with [] => 0 | _ => base end) with base by (destruct pre; reflexivity).
    rewrite (proj2 (Z.eqb_neq base 0)) by lia.
    pose proof (uheap_length _ _ _ O) as Hl. rewrite length_app in Hl. cbn [length] in Hl.
    rewrite (last_block_spec m1 pre UFUEL base l); [|exact (uheap_bounds _ _ _ O)|exact C1|lia].
    split; [reflexivity|]. split.
    + constructor; cbn [u_kern u_head u_mem]; try assumption; [|apply (link_block m1 base pre l want e); auto|lia].
      destruct pre; reflexivity.
    + intros x Hx Ox. cbn [u_mem]. unfold set_next at 1. rewrite ld8_st32_out; [apply E8; lia|].
      clear - Ox. revert base Ox. induction pre as [|c pre IH]; intros base; cbn [app off_headers span].
      * unfold U_HDR. lia.
      * intros [_ Ox]. apply IH in Ox. lia.
Qed.

Lemma round8 n : 0 <= n <= 0xFFFFFFF8 -> Z.land (u32 (n + 7)) 0xFFFFFFF8 = (n + 7) / 8 * 8.
Proof.
  intros Hn. rewrite u32_small by lia. change 0xFFFFFFF8 with (0x100000000 - 2 ^ 3).
  rewrite land_align_down by lia. change (2 ^ 3) with 8. zdm.
Qed.

Lemma taken_mod8 want b :
  0 <= want -> want mod 8 = 0 -> 0 <= b_size b /\ b_size b mod 8 = 0 ->
  Forall (fun b => 0 <= b_size b /\ b_size b mod 8 = 0) (taken U_HDR 8 want b).
Proof.
  intros H1 H2 H3. unfold taken. destruct (Z.leb_spec (want + U_HDR + 8) (b_size b)); repeat constructor;
    cbn [b_size]; unfold U_HDR in *; zdm.
Qed.

(** The three outcomes of [umalloc]: a reused block, a new block at the break,
    or null. *)
Definition reused (h : uheap) (base : Z) (bs : list block) (want : Z) (h' : uheap) (p : Z) : Prop :=
  exists pre b post, bs = pre ++ b :: post /\ Forall (fun c => fits want c = false) pre /\
    fits want b = true /\ p = base + span U_HDR pre + U_HDR /\
    uheap_ok h' base (pre ++ taken U_HDR 8 want b ++ post) /\ u_kern h' = u_kern h /\
    (forall x, x < p - U_HDR \/ p + b_size b <= x -> ld8 (u_mem h') x = ld8 (u_mem h) x).

Definition extended (h : uheap) (base : Z) (bs : list block) (want : Z) (h' : uheap) (p : Z) : Prop :=
  brk_of (u_kern h) + U_HDR + want <= heap_end /\ p = brk_of (u_kern h) + U_HDR /\
  uheap_ok h' base (bs ++ [mk_block want false]) /\
  (forall x, x < brk_of (u_kern h) -> off_headers base bs x -> ld8 (u_mem h') x = ld8 (u_mem h) x).

(** The outcomes of [umalloc]. *)
Lemma umalloc_spec (h : uheap) (base : Z) (bs : list block) (n : Z) :
  uheap_ok h base bs -> 1 <= n <= 0xFFFFFFE8 ->
  let want := (n + 7) / 8 * 8 in
  let '(h', p) := umalloc h n in
  p mod 8 = 0 /\
  (reused h base bs want h' p \/
   (Forall (fun c => fits want c = false) bs /\
    (extended h base bs want h' p \/
     (heap_end < brk_of (u_kern h) + U_HDR + want /\ p = 0 /\ uheap_ok h' base bs /\ u_mem h' = u_mem h)))).
Proof.
  intros O Hn want. unfold umalloc. rewrite (proj2 (Z.eqb_neq n 0)), round8 by lia. fold want.
  assert (Hw : 0 <= want /\ want mod 8 = 0 /\ U_HDR + want < 0x100000000) by (unfold want, U_HDR; zdm).
  destruct Hw as (W1 & W2 & W3). pose proof O as [Hk [Hb Hb8] Hh Hc Hs Hp].
  pose proof heap_range as R. pose proof (brk_range _ Hk) as Rb.
  pose proof (first_fit_take U_HDR 8 U_HDR_ok slack8_ok (u_mem h) base want bs UFUEL
    (uheap_bounds _ _ _ O) Hc (uheap_length _ _ _ O) W1) as F.
  rewrite <- Hh in F. destruct (first_fit _ _ _ _) as [cur|].
  - destruct F as (pre & b & post & -> & A). destruct A as [As Af Afit Ac Ab Asp Ao].
    rewrite As in Hs, Hp. apply Forall_app in Hs as [Hs1 Hs2]. apply Forall_cons_iff in Hs2 as [Hs2 Hs3].
    rewrite (span_app U_HDR) in Hp. cbn [span] in Hp.
    pose proof (span_nonneg U_HDR U_HDR_ok pre (uheap_sizes _ Hs1)).
    pose proof (span_nonneg U_HDR U_HDR_ok post (uheap_sizes _ Hs3)).
    pose proof (span_mod8 pre Hs1) as M8. rewrite u32_small by (unfold U_HDR in *; lia).
    split; [unfold U_HDR in *; zdm|]. left. exists pre, b, post. repeat (split; [assumption || reflexivity|]).
    split; [|split; [reflexivity|]].
    + constructor; cbn [u_kern u_head u_mem]; auto.
      * rewrite Hh, As. unfold taken. destruct pre; [|reflexivity].
        destruct (_ <=? _); reflexivity.
      * apply Forall_app. split; [exact Hs1|]. apply Forall_app. split; [apply taken_mod8; assumption|exact Hs3].
      * rewrite Asp, As, (span_app U_HDR). cbn [span]. lia.
    + intros x Hx. cbn [u_mem]. apply Ao. lia.
  - pose proof (grow_spec h base bs want O W1 W2 W3) as G. destruct (grow h want) as [h' p].
    destruct (Z.leb_spec (brk_of (u_kern h) + U_HDR + want) heap_end).
    + destruct G as (-> & G1 & G2). pose proof (span_mod8 bs Hs). split; [unfold U_HDR in *; zdm|].
      right. split; [exact F|]. left. repeat split; try assumption; apply G1.
    + destruct G as (-> & G1 & G2). split; [reflexivity|]. right. split; [exact F|]. right. auto.
Qed.

(** [umalloc] for any request up to 0xFFFFFFE8 bytes: the first free block
    that holds the request rounded up to eight bytes is reused (and split);
    if there is none the heap grows by exactly one block at the old break; and
    null is returned only when the heap cannot grow, with nothing changed.  The
    pointer is 8-byte aligned and no other block's payload is written. *)
Theorem umalloc_first_fit (h : uheap) (base : Z) (bs : list block) (n : Z) :
  uheap_ok h base bs -> 1 <= n <= 0xFFFFFFE8 ->
  let want := (n + 7) / 8 * 8 in
  let '(h', p) := umalloc h n in
  p mod 8 = 0 /\
  (reused h base bs want h' p \/
   (Forall (fun c => fits want c = false) bs /\
    (extended h base bs want h' p \/
     (heap_end < brk_of (u_kern h) + U_HDR + want /\ p = 0 /\ uheap_ok h' base bs /\ u_mem h' = u_mem h)))).
Proof. exact (umalloc_spec h base bs n). Qed.

(** [ufree] of any block marks it free and leaves no two neighbouring free
    blocks anywhere in the heap: the list becomes the coalescing of the list
    with that block freed.  The break and the extent of the heap stay, and no
    byte of a payload is written. *)
Theorem ufree_coalesces (h : uheap) (base : Z) (pre : list block) (b : block) (post : list block) :
  uheap_ok h base (pre ++ b :: post) ->
  let h' := ufree h (base + span U_HDR pre + U_HDR) in
  let bs' := coalesced (pre ++ mk_block (b_size b) true :: post) in
  uheap_ok h' base bs' /\ merged bs' = true /\
  span U_HDR bs' = span U_HDR (pre ++ b :: post) /\ u_kern h' = u_kern h /\
  (forall x, off_headers base (pre ++ b :: post) x -> ld8 (u_mem h') x = ld8 (u_mem h) x).
Proof.
  intros O. pose proof O as [Hk Ho Hh Hc Hs Hp]. pose proof (uheap_bounds _ _ _ O) as B.
  pose proof heap_range as R. pose proof (brk_range _ Hk) as Rb.
  pose proof (uheap_length _ _ _ O) as Hl.
  apply Forall_app in Hs as [S1 S2]. apply Forall_cons_iff in S2 as [S2 S3].
  pose proof (span_nonneg U_HDR U_HDR_ok pre (uheap_sizes _ S1)) as P1.
  pose proof (span_nonneg U_HDR U_HDR_ok post (uheap_sizes _ S3)) as P3.
  pose proof Hp as Hp'. rewrite (span_app U_HDR) in Hp'. cbn [span] in Hp'.
  set (a := base + span U_HDR pre) in *. cbv zeta. unfold ufree.
  rewrite (proj2 (Z.eqb_neq (a + U_HDR) 0)) by (unfold a, U_HDR in *; lia).
  replace (a + U_HDR - U_HDR) with a by lia. rewrite u32_small by (unfold a, U_HDR in *; lia).
  set (f := mk_block (b_size b) true).
  destruct (set_free_spec U_HDR U_HDR_ok (u_mem h) a b post (in_bounds_tail U_HDR U_HDR_ok _ _ _ B)
    (chain_tail U_HDR _ _ _ _ Hc)) as (C1 & E1). fold f in C1.
  set (m1 := set_free (u_mem h) a 1) in *.
  assert (C2 : chain U_HDR m1 base (pre ++ f :: post)).
  { apply (chain_replace U_HDR U_HDR_ok (u_mem h) m1 b (f :: post) post pre);
      [apply uheap_sizes; exact S1|exact Hc|discriminate| |exact C1].
    intros x Hx. apply E1. unfold a. lia. }
  assert (Sp : span U_HDR (pre ++ f :: post) = span U_HDR (pre ++ b :: post))
    by (rewrite !(span_app U_HDR); reflexivity).
  assert (Sf : Forall (fun b => 0 <= b_size b /\ b_size b mod 8 = 0) (pre ++ f :: post))
    by (apply Forall_app; split; [exact S1|constructor; [exact S2|exact S3]]).
  assert (B2 : in_bounds U_HDR base (pre ++ f :: post)).
  { destruct B as (B1 & B2 & _). split; [exact B1|]. split; [rewrite Sp; exact B2|apply uheap_sizes; exact Sf]. }
  assert (Hd : u_head h = base) by (rewrite Hh; destruct pre; reflexivity).
  assert (Eo : forall x, off_headers base (pre ++ b :: post) x -> off_headers base (pre ++ f :: post) x /\ (x < a \/ a + U_HDR <= x)).
  { unfold a. clear. revert base. induction pre as [|c pre IH]; intros base x; cbn [app off_headers span].
    - rewrite Z.add_0_r. cbn [b_size f]. tauto.
    - intros [X1 X2]. destruct (IH _ _ X2) as [I1 I2]. split; [auto|]. lia. }
  unfold u_coalesce. cbn [u_mem u_head u_kern]. rewrite Hd.
  rewrite length_app in Hl. cbn [length] in Hl.
  destruct (pre ++ f :: post) as [|c l] eqn:El; [destruct pre; discriminate|].
  assert (Ll : (length l < UFUEL)%nat).
  { apply (f_equal length) in El. rewrite length_app in El. cbn [length] in El. lia. }
  destruct (coalesce_from_spec l UFUEL m1 base c B2 C2 Ll) as [C3 E3]. cbn [coalesced].
  split; [|split; [apply coal_merged|split; [rewrite coal_span; exact Sp|split; [reflexivity|]]]].
  - constructor; cbn [u_mem u_head u_kern]; auto.
    + pose proof (coal_nonempty l c). destruct (coal c l); [contradiction|reflexivity].
    + apply coal_sizes. exact Sf.
    + rewrite coal_span, Sp. exact Hp.
  - intros x Hx. destruct (Eo x Hx) as [X1 X2]. cbn [u_mem]. rewrite E3 by exact X1. apply E1. unfold U_HDR in *. lia.
Qed.

(** The size computation of [umalloc] wraps.  A request of 0xFFFFFFE9 to
    0xFFFFFFF0 bytes on an empty heap asks [sbrk] for 0 bytes, which succeeds:
    the caller gets a non-null pointer to a block of 0xFFFFFFF0 bytes although
    the break has not moved and no memory was granted. *)
Theorem umalloc_wraps (h : uheap) (n : Z) :
  brk_ok (u_kern h) -> u_head h = 0 -> brk_of (u_kern h) <= heap_end - U_HDR ->
  0xFFFFFFE9 <= n <= 0xFFFFFFF0 ->
  let '(h', p) := umalloc h n in
  p = brk_of (u_kern h) + U_HDR /\ p <> 0 /\ u_kern h' = u_kern h /\
  blk_size (u_mem h') (u_head h') = 0xFFFFFFF0.
Proof.
  intros Hk Hh Hb Hn. pose proof heap_range as R. pose proof (brk_range _ Hk) as Rb. unfold umalloc.
  rewrite (proj2 (Z.eqb_neq n 0)), round8 by lia.
  replace ((n + 7) / 8 * 8) with 0xFFFFFFF0 by zdm.
  replace (first_fit UFUEL (u_mem h) (u_head h) 0xFFFFFFF0) with (@None Z)
    by (rewrite Hh; destruct UFUEL; reflexivity).
  unfold grow, u_sbrk. change (u32 (U_HDR + 0xFFFFFFF0)) with 0. rewrite sbrk_zero by exact Hk.
  rewrite (proj2 (Z.eqb_neq _ _)) by (unfold U32_MAX, U_HDR in *; lia). cbn [u_head u_mem u_kern].
  rewrite Hh. cbn [Z.eqb u_mem u_kern u_head]. rewrite u32_small by (unfold U_HDR in *; lia).
  split; [reflexivity|]. split; [unfold U_HDR; lia|]. split; [reflexivity|].
  unfold blk_size, set_next, set_free, set_size. rewrite !ld32_st32_out by lia. apply ld32_st32_eq.
Qed.

End Umalloc.

(** ** A concrete break: one word, over the 60 KB user heap *)

#[local] Instance word_sbrk : Sbrk Z := {
  heap_base := 0x90000;
  heap_end := 0x9F000;
  brk_of := fun k => k;
  sbrk := fun k n => if n =? 0 then (k, k) else if k + n <=? 0x9F000 then (k + n, k) else (k, U32_MAX)
}.

#[local] Instance word_sbrk_laws : SbrkLaws Z.
Proof.
  refine {| brk_ok := fun k => 0x90000 <= k <= 0x9F000 |}; cbn [heap_base heap_end brk_of sbrk word_sbrk].
  - lia.
  - reflexivity.
  - auto.
  - reflexivity.
  - intros k n Hk Hn. rewrite (proj2 (Z.eqb_neq n 0)) by lia.
    destruct (Z.leb_spec (k + n) 0x9F000); split; auto; lia.
Defined.

Definition demo_uheap : uheap (K := Z) := mk_uheap ∅ 0 0x90000.

Lemma demo_uheap_ok : uheap_ok demo_uheap 0x90000 [].
Proof. constructor; cbn; auto; [lia|]. split; [lia|reflexivity]. Qed.

Lemma umalloc_first_fit_witness :
  let '(h', p) := umalloc demo_uheap 100 in
  p mod 8 = 0 /\
  (reused demo_uheap 0x90000 [] 104 h' p \/
   (Forall (fun c => fits 104 c = false) [] /\
    (extended demo_uheap 0x90000 [] 104 h' p \/
     (heap_end < brk_of (u_kern demo_uheap) + U_HDR + 104 /\ p = 0 /\ uheap_ok h' 0x90000 [] /\
      u_mem h' = u_mem demo_uheap)))).
Proof. apply (umalloc_first_fit demo_uheap 0x90000 [] 100 demo_uheap_ok). lia. Defined.

(** The heap after one allocation of 104 bytes. *)
Definition demo_used : uheap (K := Z) := fst (umalloc demo_uheap 100).

Lemma demo_used_ok : uheap_ok demo_used 0x90000 ([] ++ [mk_block 104 false]).
Proof.
  constructor.
  - change (0x90000 <= u_kern demo_used <= 0x9F000).
    replace (u_kern demo_used) with 0x90078 by (vm_compute; reflexivity). lia.
  - split; [reflexivity|reflexivity].
  - vm_compute. reflexivity.
  - split; [vm_compute; reflexivity|]. split; [vm_compute; reflexivity|].
    split; [vm_compute; reflexivity|exact I].
  - constructor; [|constructor]. split; [discriminate|reflexivity].
  - vm_compute. reflexivity.
Qed.

Lemma ufree_coalesces_witness :
  let h' := ufree demo_used (0x90000 + span U_HDR [] + U_HDR) in
  uheap_ok h' 0x90000 [mk_block 104 true] /\ u_kern h' = u_kern demo_used.
Proof.
  destruct (ufree_coalesces demo_used 0x90000 [] (mk_block 104 false) [] demo_used_ok) as (T1 & _ & _ & T2 & _).
  split; [exact T1|exact T2].
Defined.

Lemma umalloc_wraps_witness :
  let '(h', p) := umalloc demo_uheap 0xFFFFFFF0 in
  p = 0x90010 /\ u_kern h' = 0x90000 /\ blk_size (u_mem h') (u_head h') = 0xFFFFFFF0.
Proof.
  pose proof (umalloc_wraps demo_uheap 0xFFFFFFF0) as T.
  destruct (umalloc demo_uheap 0xFFFFFFF0) as [h' p].
  destruct T as (T1 & _ & T3 & T4); [cbn; lia|reflexivity|vm_compute; discriminate|lia|auto].
Defined.
