(* ===== verification/Elf.v ===== *)
(** * ELF32 executables (kernel/elf.c, kernel/elf.h)

    Validation, inspection, loading and protection of an executable image.  The
    image is a range of memory; a field of a packed header is the load at its
    offset.  Offsets are compared in 64 bits in the source, where no sum of two
    32-bit fields can wrap, so the sums here are those of [Z]. *)

From stdpp Require Import base gmap list numbers option.
From Stdlib Require Import ZArith Lia Bool.
From S2P Require Import Prelude CString Screen Pmm Vmm VmmLemmas VmmSpec VmmClone VmmTheorems VmmProps Paging.

Definition ELF_MAGIC0 : Z := 0x7F.
Definition ELF_MAGIC1 : Z := 69.
Definition ELF_MAGIC2 : Z := 76.
Definition ELF_MAGIC3 : Z := 70.
Definition ELFCLASS32 : Z := 1.
Definition ELFDATA2LSB : Z := 1.
Definition ET_EXEC : Z := 2.
Definition EM_386 : Z := 3.
Definition PT_LOAD : Z := 1.
Definition PF_X : Z := 0x1.
Definition PF_W : Z := 0x2.

Inductive elf_status_t :=
| ELF_OK
| ELF_BAD_MAGIC
| ELF_BAD_CLASS
| ELF_BAD_TYPE
| ELF_BAD_MACHINE
| ELF_BAD_HEADERS
| ELF_NO_SEGMENTS.

#[export] Instance elf_status_eq_dec : EqDecision elf_status_t.
Proof. solve_decision. Defined.

(** ** The packed headers

    [elf32_ehdr_t] is 52 bytes and [elf32_phdr_t] 32 bytes. *)

Definition sizeof_ehdr : Z := 52.
Definition sizeof_phdr : Z := 32.

Definition e_ident (m : mem) (image i : Z) : Z := ld8 m (image + i).
Definition e_type (m : mem) (image : Z) : Z := ld16 m (image + 16).
Definition e_machine (m : mem) (image : Z) : Z := ld16 m (image + 18).
Definition e_entry (m : mem) (image : Z) : Z := ld32 m (image + 24).
Definition e_phoff (m : mem) (image : Z) : Z := ld32 m (image + 28).
Definition e_phentsize (m : mem) (image : Z) : Z := ld16 m (image + 42).
Definition e_phnum (m : mem) (image : Z) : Z := ld16 m (image + 44).

(** [ph[i]], an address. *)
Definition phdr (m : mem) (image i : Z) : Z := image + e_phoff m image + sizeof_phdr * i.

Definition p_type (m : mem) (p : Z) : Z := ld32 m p.
Definition p_offset (m : mem) (p : Z) : Z := ld32 m (p + 4).
Definition p_vaddr (m : mem) (p : Z) : Z := ld32 m (p + 8).
Definition p_filesz (m : mem) (p : Z) : Z := ld32 m (p + 16).
Definition p_memsz (m : mem) (p : Z) : Z := ld32 m (p + 20).
Definition p_flags (m : mem) (p : Z) : Z := ld32 m (p + 24).

(** ** Validation *)

(** One turn of the segment loop; the state counts the loadable segments. *)
Definition check_segment (m : mem) (ph size i : Z) (loadable : Z) : Z * option elf_status_t :=
  let p := ph + sizeof_phdr * i in
  if negb (p_type m p =? PT_LOAD) then (loadable, None)
  else
    let loadable := loadable + 1 in
    if p_memsz m p <? p_filesz m p then (loadable, Some ELF_BAD_HEADERS)
    else if size <? p_offset m p + p_filesz m p then (loadable, Some ELF_BAD_HEADERS)
    else (loadable, None).

Definition elf_validate (m : mem) (image size : Z) : elf_status_t :=
  if (image =? 0) || (size <? sizeof_ehdr) then ELF_BAD_MAGIC
  else if negb (e_ident m image 0 =? ELF_MAGIC0) || negb (e_ident m image 1 =? ELF_MAGIC1)
       || negb (e_ident m image 2 =? ELF_MAGIC2) || negb (e_ident m image 3 =? ELF_MAGIC3)
  then ELF_BAD_MAGIC
  else if negb (e_ident m image 4 =? ELFCLASS32) || negb (e_ident m image 5 =? ELFDATA2LSB)
  then ELF_BAD_CLASS
  else if negb (e_type m image =? ET_EXEC) then ELF_BAD_TYPE
  else if negb (e_machine m image =? EM_386) then ELF_BAD_MACHINE
  else if (e_phnum m image =? 0) || negb (e_phentsize m image =? sizeof_phdr)
  then ELF_NO_SEGMENTS
  else if size <? e_phoff m image + e_phnum m image * e_phentsize m image then ELF_BAD_HEADERS
  else
    let ph := image + e_phoff m image in
    match for_range_ret 0 (e_phnum m image) (check_segment m ph size) 0 with
    | (_, Some st) => st
    | (loadable, None) => if loadable =? 0 then ELF_NO_SEGMENTS else ELF_OK
    end.

Definition elf_status_name (s : elf_status_t) : list Z :=
  match s with
  | ELF_OK => lit "ok"
  | ELF_BAD_MAGIC => lit "not an ELF file"
  | ELF_BAD_CLASS => lit "not 32-bit little-endian"
  | ELF_BAD_TYPE => lit "not an executable"
  | ELF_BAD_MACHINE => lit "wrong architecture"
  | ELF_BAD_HEADERS => lit "headers point outside the file"
  | ELF_NO_SEGMENTS => lit "nothing to load"
  end.

(** The body of the loop of [elf_dump] for a loadable segment. *)
Definition dump_segment (m : mem) (p : Z) (s : screen) : screen :=
  let s := kprint s (lit "  load ") in
  let s := kprint_hex s (p_vaddr m p) in
  let s := kprint s (lit " file ") in
  let s := kprint_dec s (p_filesz m p) in
  let s := kprint s (lit " mem ") in
  let s := kprint_dec s (p_memsz m p) in
  let s := kprint s (if tst (p_flags m p) PF_W then lit " rw" else lit " r-") in
  let s := kprint s (if tst (p_flags m p) PF_X then lit "x" else lit "-") in
  let s := if p_filesz m p <? p_memsz m p then
             let s := kprint s (lit "  (bss ") in
             let s := kprint_dec s (u32 (p_memsz m p - p_filesz m p)) in
             kprint s (lit " bytes)")
           else s in
  kprint_char s 10.

Definition elf_dump (m : mem) (image size : Z) (s : screen) : screen :=
  let st := elf_validate m image size in
  let s := kprint s (lit "  validation: ") in
  let s := kprint s (elf_status_name st) in
  let s := kprint_char s 10 in
  if negb (bool_decide (st = ELF_OK)) then s
  else
    let s := kprint s (lit "  entry point: ") in
    let s := kprint_hex s (e_entry m image) in
    let s := kprint s (lit ", ") in
    let s := kprint_dec s (e_phnum m image) in
    let s := kprint s (lit " program headers" ++ [10]) in
    for_range 0 (e_phnum m image) (fun i s =>
      if negb (p_type m (phdr m image i) =? PT_LOAD) then s
      else dump_segment m (phdr m image i) s) s.

(** ** Loading *)

Definition skipped (m : mem) (p : Z) : bool := negb (p_type m p =? PT_LOAD) || (p_memsz m p =? 0).

(** The first loop of [elf_load]: [Some (-2)] when a segment leaves [lo, hi). *)
Definition check_window (m : mem) (image lo hi i : Z) (u : unit) : unit * option Z :=
  let p := phdr m image i in
  if skipped m p then (tt, None)
  else
    let start := p_vaddr m p in
    let stop := start + p_memsz m p in
    if (start <? lo) || (hi <? stop) then (tt, Some (-2)) else (tt, None).

(** The second loop: the file bytes, then zeroes.  The headers are read from
    memory as it is at that turn. *)
Definition load_segment (image phoff i : Z) (m : mem) : mem :=
  let p := image + phoff + sizeof_phdr * i in
  if skipped m p then m
  else
    let dst := p_vaddr m p in
    let src := image + p_offset m p in
    let fsz := p_filesz m p in
    let m1 := memcpy m dst src fsz in
    memset m1 (u32 (dst + p_filesz m1 p)) 0 (u32 (p_memsz m1 p - p_filesz m1 p)).

(** [e_phnum] is re-read at each turn, like every field of the image; the
    16-bit counter stays below a 16-bit bound, so the loop ends within 65536
    turns. *)
Definition load_loop (image phoff : Z) (m : mem) : mem :=
  for_while 0 0x10000 (fun i m => i <? e_phnum m image) (load_segment image phoff) m.

(** The memory after the call, the result, and the value stored through
    [entry_out] on success. *)
Definition elf_load (m : mem) (image size lo hi : Z) : mem * Z * option Z :=
  if negb (bool_decide (elf_validate m image size = ELF_OK)) then (m, -1, None)
  else
    let phoff := e_phoff m image in
    match for_range_ret 0 (e_phnum m image) (check_window m image lo hi) tt with
    | (_, Some r) => (m, r, None)
    | (_, None) =>
        if (e_entry m image <? lo) || (hi <=? e_entry m image) then (m, -3, None)
        else
          let m := load_loop image phoff m in
          (m, 0, Some (e_entry m image))
    end.

Definition protect_segment (L : link) (image phoff i : Z) (st : machine) : machine :=
  let p := image + phoff + sizeof_phdr * i in
  if skipped (ram st) p then st
  else if negb (tst (p_flags (ram st) p) PF_W)
  then paging_set_user_writable L st (p_vaddr (ram st) p) (p_memsz (ram st) p) false
  else st.

Definition elf_protect (L : link) (st : machine) (image : Z) : machine :=
  let phoff := e_phoff (ram st) image in
  for_while 0 0x10000 (fun i st => i <? e_phnum (ram st) image) (protect_segment L image phoff) st.

(** ** Specification *)

(** Two memories with the same bytes in a range. *)
Definition agree (m m' : mem) (a n : Z) : Prop := forall x, a <= x < a + n -> ld8 m' x = ld8 m x.

(** What a loader may rely on: the program header table and the file bytes of
    every loadable segment lie inside the image. *)
Record elf_ok (m : mem) (image size : Z) : Prop := {
  ok_image : image <> 0 /\ sizeof_ehdr <= size;
  ok_magic : e_ident m image 0 = ELF_MAGIC0 /\ e_ident m image 1 = ELF_MAGIC1 /\
    e_ident m image 2 = ELF_MAGIC2 /\ e_ident m image 3 = ELF_MAGIC3;
  ok_class : e_ident m image 4 = ELFCLASS32 /\ e_ident m image 5 = ELFDATA2LSB;
  ok_target : e_type m image = ET_EXEC /\ e_machine m image = EM_386;
  ok_table : e_phentsize m image = sizeof_phdr /\
    e_phoff m image + sizeof_phdr * e_phnum m image <= size;
  ok_segments : forall i, 0 <= i < e_phnum m image -> p_type m (phdr m image i) = PT_LOAD ->
    p_filesz m (phdr m image i) <= p_memsz m (phdr m image i) /\
    p_offset m (phdr m image i) + p_filesz m (phdr m image i) <= size;
  ok_some : exists i, 0 <= i < e_phnum m image /\ p_type m (phdr m image i) = PT_LOAD
}.

(** Every segment with bytes in memory lies in [lo, hi). *)
Definition segments_fit (m : mem) (image lo hi : Z) : Prop :=
  forall i, 0 <= i < e_phnum m image -> skipped m (phdr m image i) = false ->
    lo <= p_vaddr m (phdr m image i) /\
    p_vaddr m (phdr m image i) + p_memsz m (phdr m image i) <= hi.

(** The memory a program should find: the byte at [x] is the one of the last
    segment that covers [x], a file byte or a zero of its .bss, or else the
    byte that was there. *)
Definition segment_byte (m : mem) (image p x : Z) : Z :=
  let k := x - p_vaddr m p in
  if k <? p_filesz m p then ld8 m (image + p_offset m p + k) else 0.

Definition in_segment (m : mem) (p x : Z) : bool :=
  negb (skipped m p) && in_range x (p_vaddr m p) (p_memsz m p).

Fixpoint loaded_byte (m : mem) (image : Z) (n : nat) (x : Z) : Z :=
  match n with
  | O => ld8 m x
  | S n' =>
      let p := phdr m image (Z.of_nat n') in
      if in_segment m p x then segment_byte m image p x else loaded_byte m image n' x
  end.

(** The pages that a read-only segment among the first [n] touches. *)
Definition readonly_page (m : mem) (image n v : Z) : bool :=
  existsb (fun i => let p := phdr m image i in
    negb (skipped m p) && negb (tst (p_flags m p) PF_W) && zone_page (p_vaddr m p) (p_memsz m p) v)
    (seqZ 0 n).

(** ** Lemmas on headers *)

Lemma agree_ld8 m m' a n x : agree m m' a n -> a <= x -> x + 1 <= a + n -> ld8 m' x = ld8 m x.
Proof. intros H ? ?. apply H. lia. Qed.

Lemma agree_ld16 m m' a n x : agree m m' a n -> a <= x -> x + 2 <= a + n -> ld16 m' x = ld16 m x.
Proof. intros H ? ?. apply ld16_ext. intros. apply H. lia. Qed.

Lemma agree_ld32 m m' a n x : agree m m' a n -> a <= x -> x + 4 <= a + n -> ld32 m' x = ld32 m x.
Proof. intros H ? ?. apply ld32_ext. intros. apply H. lia. Qed.

(** The fields of a header read the same from memories that agree on it. *)
Lemma ehdr_agree m m' image size :
  agree m m' image size -> sizeof_ehdr <= size ->
  (forall i, 0 <= i < 16 -> e_ident m' image i = e_ident m image i) /\
  e_type m' image = e_type m image /\ e_machine m' image = e_machine m image /\
  e_entry m' image = e_entry m image /\ e_phoff m' image = e_phoff m image /\
  e_phentsize m' image = e_phentsize m image /\ e_phnum m' image = e_phnum m image.
Proof.
  unfold sizeof_ehdr. intros H Hs. repeat split; intros;
    first [eapply agree_ld8|eapply agree_ld16|eapply agree_ld32]; (eassumption || lia).
Qed.

Lemma phdr_agree m m' a n p :
  agree m m' a n -> a <= p -> p + sizeof_phdr <= a + n ->
  p_type m' p = p_type m p /\ p_offset m' p = p_offset m p /\ p_vaddr m' p = p_vaddr m p /\
  p_filesz m' p = p_filesz m p /\ p_memsz m' p = p_memsz m p /\ p_flags m' p = p_flags m p /\
  skipped m' p = skipped m p.
Proof.
  unfold sizeof_phdr. intros H Ha Hp.
  assert (E : forall k, 0 <= k -> k + 4 <= 32 -> ld32 m' (p + k) = ld32 m (p + k))
    by (intros; eapply agree_ld32; [exact H|lia|lia]).
  pose proof (E 0 ltac:(lia) ltac:(lia)) as E0. rewrite Z.add_0_r in E0.
  unfold skipped, p_type, p_offset, p_vaddr, p_filesz, p_memsz, p_flags.
  rewrite E0, !E by lia. repeat split.
Qed.

Lemma phdr_inside m image size i :
  elf_ok m image size -> 0 <= i < e_phnum m image ->
  image <= phdr m image i /\ phdr m image i + sizeof_phdr <= image + size.
Proof.
  intros [_ _ _ _ [_ Ht] _ _] Hi. unfold phdr, sizeof_phdr in *.
  pose proof (ld32_range m (image + 28)). unfold e_phoff in *. lia.
Qed.

(** ** Validation *)

Definition segment_fine (m : mem) (p size : Z) : Prop :=
  p_type m p = PT_LOAD -> p_filesz m p <= p_memsz m p /\ p_offset m p + p_filesz m p <= size.

Lemma check_segment_cases m ph size i l :
  let p := ph + sizeof_phdr * i in
  (check_segment m ph size i l = (l + (if p_type m p =? PT_LOAD then 1 else 0), None) /\ segment_fine m p size) \/
  (check_segment m ph size i l = (l + 1, Some ELF_BAD_HEADERS) /\ ~ segment_fine m p size).
Proof.
  intros p. unfold check_segment, segment_fine. fold p.
  destruct (Z.eqb_spec (p_type m p) PT_LOAD) as [E|N]; cbn [negb].
  - destruct (Z.ltb_spec (p_memsz m p) (p_filesz m p)); [right; split; [reflexivity|lia]|].
    destruct (Z.ltb_spec size (p_offset m p + p_filesz m p)); [right; split; [reflexivity|lia]|].
    left. split; [reflexivity|lia].
  - left. rewrite Z.add_0_r. split; [reflexivity|contradiction].
Qed.

Lemma check_segments m image size :
  match for_range_ret 0 (e_phnum m image) (check_segment m (image + e_phoff m image) size) 0 with
  | (l, None) => (forall i, 0 <= i < e_phnum m image -> segment_fine m (phdr m image i) size) /\ 0 <= l /\
      (l <> 0 <-> exists i, 0 <= i < e_phnum m image /\ p_type m (phdr m image i) = PT_LOAD)
  | (l, Some st) => st = ELF_BAD_HEADERS /\ exists i, 0 <= i < e_phnum m image /\ ~ segment_fine m (phdr m image i) size
  end.
Proof.
  set (n := e_phnum m image). assert (Hn : 0 <= n) by apply ld16_range.
  apply (for_range_ret_ind
    (fun k l => (forall i, 0 <= i < k -> segment_fine m (phdr m image i) size) /\ 0 <= l /\
      (l <> 0 <-> exists i, 0 <= i < k /\ p_type m (phdr m image i) = PT_LOAD))
    (fun st _ => st = ELF_BAD_HEADERS /\ exists i, 0 <= i < n /\ ~ segment_fine m (phdr m image i) size));
    [assumption| |].
  - split; [lia|]. split; [lia|]. split; [lia|]. intros (i & Hi & _). lia.
  - intros i l Hi (F & L & X).
    destruct (check_segment_cases m (image + e_phoff m image) size i l) as [[-> G]|[-> G]];
      fold (phdr m image i) in *; [|eauto].
    split; [|split; [destruct (_ =? _); lia|split]].
    + intros j Hj. destruct (Z.eq_dec j i) as [->|]; [exact G|apply F; lia].
    + destruct (Z.eqb_spec (p_type m (phdr m image i)) PT_LOAD); intros Hl; [exists i; split; [lia|assumption]|].
      destruct X as [X _]. destruct X as (j & Hj & E); [lia|]. exists j. split; [lia|assumption].
    + intros (j & Hj & E). destruct (Z.eq_dec j i) as [->|].
      * rewrite E. cbn. lia.
      * destruct X as [_ X]. assert (l <> 0) by (apply X; exists j; split; [lia|assumption]).
        destruct (_ =? _); lia.
Qed.

Lemma elf_validate_ok m image size : elf_validate m image size = ELF_OK <-> elf_ok m image size.
Proof.
  pose proof (check_segments m image size) as C. unfold elf_validate.
  destruct (for_range_ret 0 _ _ 0) as [l r].
  split.
  - intros V. repeat match type of V with (if ?b then _ else _) = _ => destruct b eqn:?; [discriminate|] end.
    destruct r as [st|].
    { destruct C as (-> & _). discriminate. }
    destruct (Z.eqb_spec l 0); [discriminate|]. destruct C as (F & _ & X). b2p.
    constructor; [tauto..| | |apply X; assumption]; [|exact F].
    split; [assumption|]. rewrite Z.mul_comm. congruence.

  - intros [[I1 I2] (M0 & M1 & M2 & M3) (K1 & K2) (T1 & T2) (P1 & P2) Hs (j & Hj & Ej)].
    apply Z.eqb_neq in I1. rewrite I1, M0, M1, M2, M3, K1, K2, T1, T2, P1.
    rewrite (proj2 (Z.ltb_ge size sizeof_ehdr)) by assumption. cbn [orb negb].
    rewrite (proj2 (Z.eqb_neq (e_phnum m image) 0)) by lia.
    rewrite (proj2 (Z.ltb_ge size (e_phoff m image + e_phnum m image * sizeof_phdr))) by lia.
    rewrite !Z.eqb_refl. cbn [orb negb].
    destruct r as [st|].
    { destruct C as (_ & i & Hi & N). destruct N. intros E. apply Hs; assumption. }
    destruct C as (_ & _ & X). rewrite (proj2 (Z.eqb_neq l 0)); [reflexivity|]. apply X. eauto.
Qed.

Lemma elf_validate_agree m m' image size :
  agree m m' image size -> elf_validate m' image size = elf_validate m image size.
Proof.
  intros A. unfold elf_validate. destruct (_ || (size <? sizeof_ehdr)) eqn:E; [reflexivity|]. b2p.
  destruct (ehdr_agree m m' image size A) as (H1 & H2 & H3 & _ & H5 & H6 & H7); [assumption|].
  rewrite !H1, H2, H3, H5, H6, H7 by lia.
  destruct (_ || _); [reflexivity|]. destruct (_ || _); [reflexivity|].
  destruct (negb _); [reflexivity|]. destruct (negb _); [reflexivity|].
  destruct ((e_phnum m image =? 0) || negb (e_phentsize m image =? sizeof_phdr)) eqn:E2; [reflexivity|].
  destruct (size <? _) eqn:E3; [reflexivity|]. b2p.
  erewrite for_range_ret_ext; [reflexivity|].
  intros i t Hi. unfold check_segment.
  destruct (phdr_agree m m' image size (image + e_phoff m image + sizeof_phdr * i) A)
    as (-> & -> & _ & -> & -> & _); [| |reflexivity];
    pose proof (ld32_range m (image + 28)); unfold e_phoff, sizeof_phdr in *; nia.
Qed.

(** C26. Validation.  An image is accepted exactly when it is a 32-bit x86
    executable whose program header table and loadable segments lie inside it,
    with at least one segment to load; and the verdict depends on no byte
    outside the image, whatever offsets a hostile header claims. *)
Theorem elf_validate_exact (m : mem) (image size : Z) :
  (elf_validate m image size = ELF_OK <-> elf_ok m image size) /\
  (forall m', agree m m' image size -> elf_validate m' image size = elf_validate m image size).
Proof. split; [apply elf_validate_ok|intros m'; apply elf_validate_agree]. Qed.

(** ** Loading *)

Section loading.
  Context (m : mem) (image size lo hi : Z).
  Hypothesis Hok : elf_ok m image size.
  Hypothesis Hfit : segments_fit m image lo hi.
  Hypothesis Hapart : image + size <= lo \/ hi <= image.
  Hypothesis Hwin : 0 <= lo /\ hi < 0x100000000.

Lemma loaded_byte_outside n x :
  Z.of_nat n <= e_phnum m image -> x < lo \/ hi <= x -> loaded_byte m image n x = ld8 m x.
Proof.
  intros Hn Hx. induction n as [|n IH]; simpl; [reflexivity|].
  destruct (in_segment _ _ _) eqn:E; [|apply IH; lia]. unfold in_segment in E.
  apply andb_true_iff in E as [E1 E2]. apply negb_true_iff in E1.
  destruct (Hfit (Z.of_nat n) ltac:(lia) E1). apply in_range_true in E2. lia.
Qed.

(** Memory after the first [k] segments. *)
Definition loaded (k : Z) (t : mem) : Prop := forall x, ld8 t x = loaded_byte m image (Z.to_nat k) x.

Lemma loaded_agree k t : 0 <= k <= e_phnum m image -> loaded k t -> agree m t image size.
Proof. intros Hk J x Hx. rewrite J. apply loaded_byte_outside; lia. Qed.

Lemma load_segment_step k t :
  0 <= k < e_phnum m image -> loaded k t -> loaded (k + 1) (load_segment image (e_phoff m image) k t).
Proof.
  intros Hk J. pose proof (loaded_agree k t ltac:(lia) J) as A.
  destruct (phdr_inside m image size k Hok Hk) as [I1 I2].
  destruct (phdr_agree m t image size _ A I1 I2) as (_ & Ho & Hv & Hf & Hm & _ & Hs).
  unfold load_segment. change (image + e_phoff m image + sizeof_phdr * k) with (phdr m image k).
  set (p := phdr m image k) in *. rewrite Hs, Hv, Ho, Hf. intros x.
  replace (Z.to_nat (k + 1)) with (S (Z.to_nat k)) by lia. cbn [loaded_byte].
  replace (Z.of_nat (Z.to_nat k)) with k by lia. fold p. unfold in_segment.
  destruct (skipped m p) eqn:Es; cbn [negb andb]; [apply J|].
  destruct (Hfit k Hk Es) as [F1 F2]. fold p in F1, F2.
  assert (T : p_type m p = PT_LOAD).
  { unfold skipped in Es. apply orb_false_iff in Es as [Es _].
    apply negb_false_iff, Z.eqb_eq in Es. exact Es. }
  destruct (ok_segments _ _ _ Hok k Hk T) as [G1 G2]. fold p in G1, G2.
  pose proof (ld32_range m (p + 4)) as R1. pose proof (ld32_range m (p + 16)) as R2.
  pose proof (ld32_range m (p + 20)) as R3. fold (p_offset m p) in R1. fold (p_filesz m p) in R2.
  fold (p_memsz m p) in R3.
  assert (D : image + p_offset m p + p_filesz m p <= p_vaddr m p \/
              p_vaddr m p + p_filesz m p <= image + p_offset m p) by lia.
  set (t1 := memcpy t (p_vaddr m p) (image + p_offset m p) (p_filesz m p)).
  assert (A1 : agree m t1 image size).
  { intros y Hy. unfold t1. rewrite ld8_memcpy_out by lia. apply A. exact Hy. }
  destruct (phdr_agree m t1 image size _ A1 I1 I2) as (_ & _ & _ & -> & -> & _).
  rewrite !u32_small by lia. rewrite ld8_memset by lia. unfold t1. rewrite ld8_memcpy by (assumption || lia).
  unfold segment_byte, in_range. rewrite J.
  destruct (Z.leb_spec (p_vaddr m p) x); destruct (Z.ltb_spec x (p_vaddr m p + p_memsz m p));
    destruct (Z.ltb_spec (x - p_vaddr m p) (p_filesz m p)); zcase; try lia; try reflexivity; try apply J.
  rewrite loaded_byte_outside; [reflexivity|lia|lia].
Qed.

Lemma load_loop_spec : loaded (e_phnum m image) (load_loop image (e_phoff m image) m).
Proof.
  pose proof (ld16_range m (image + 44)) as R. fold (e_phnum m image) in R.
  assert (J0 : loaded 0 m) by (intros x; reflexivity).
  unfold load_loop. rewrite (for_while_range loaded (e_phnum m image)); [|lia|exact J0| |].
  - apply for_range_ind; [lia|exact J0|]. intros i t Hi. apply load_segment_step. exact Hi.
  - intros i t Hi J. pose proof (loaded_agree i t ltac:(lia) J) as A.
    destruct (ehdr_agree m t image size A) as (_ & _ & _ & _ & _ & _ & ->); [apply Hok|reflexivity].
  - intros i t Hi. apply load_segment_step. exact Hi.
Qed.

End loading.

Lemma check_window_spec m image lo hi :
  match for_range_ret 0 (e_phnum m image) (check_window m image lo hi) tt with
  | (_, None) => segments_fit m image lo hi
  | (_, Some r) => r = -2 /\ ~ segments_fit m image lo hi
  end.
Proof.
  pose proof (ld16_range m (image + 44)) as R. fold (e_phnum m image) in R.
  apply (for_range_ret_ind
    (fun k _ => forall i, 0 <= i < k -> skipped m (phdr m image i) = false ->
       lo <= p_vaddr m (phdr m image i) /\ p_vaddr m (phdr m image i) + p_memsz m (phdr m image i) <= hi)
    (fun r _ => r = -2 /\ ~ segments_fit m image lo hi)); [lia|lia|].
  intros i [] Hi J. unfold check_window. destruct (skipped m (phdr m image i)) eqn:Es.
  { intros j Hj Ej. apply J; [|exact Ej]. destruct (Z.eq_dec j i) as [->|]; [congruence|lia]. }
  destruct (_ || _) eqn:E.
  - split; [reflexivity|]. intros F. destruct (F i Hi Es). apply orb_true_iff in E as [E|E]; b2p; lia.
  - b2p. intros j Hj Ej. destruct (Z.eq_dec j i) as [->|]; [lia|apply J; [lia|exact Ej]].
Qed.

Lemma elf_load_spec (m : mem) (image size lo hi : Z) :
  0 <= lo -> hi < 0x100000000 -> image + size <= lo \/ hi <= image ->
  let '(m', r, entry) := elf_load m image size lo hi in
  (r = -1 /\ m' = m /\ entry = None /\ ~ elf_ok m image size) \/
  (r = -2 /\ m' = m /\ entry = None /\ elf_ok m image size /\ ~ segments_fit m image lo hi) \/
  (r = -3 /\ m' = m /\ entry = None /\ elf_ok m image size /\ segments_fit m image lo hi /\
     ~ lo <= e_entry m image < hi) \/
  (r = 0 /\ elf_ok m image size /\ segments_fit m image lo hi /\
     entry = Some (e_entry m image) /\ lo <= e_entry m image < hi /\
     (forall x, ld8 m' x = loaded_byte m image (Z.to_nat (e_phnum m image)) x) /\
     (forall x, x < lo \/ hi <= x -> ld8 m' x = ld8 m x)).
Proof.
  intros Hlo Hhi Ha. unfold elf_load.
  destruct (decide (elf_validate m image size = ELF_OK)) as [V|V].
  2:{ rewrite bool_decide_eq_false_2 by exact V. left. rewrite <- elf_validate_ok. auto. }
  rewrite bool_decide_eq_true_2 by exact V. cbn [negb]. apply elf_validate_ok in V.
  pose proof (check_window_spec m image lo hi) as C.
  destruct (for_range_ret 0 _ _ tt) as [u [r|]]; [destruct C as [-> C]; right; left; auto 10|].
  cbv zeta. destruct (_ || _) eqn:E; right; right.
  - left. repeat (split; [assumption || reflexivity|]). apply orb_true_iff in E as [E|E]; b2p; lia.
  - right. b2p. pose proof (load_loop_spec m image size lo hi V C Ha ltac:(lia)) as J.
    pose proof (ld16_range m (image + 44)) as R. fold (e_phnum m image) in R.
    pose proof (loaded_agree m image size lo hi C Ha (e_phnum m image) _ ltac:(lia) J) as A.
    destruct (ehdr_agree m _ image size A) as (_ & _ & _ & -> & _); [apply V|].
    repeat (split; [assumption || reflexivity|]). split; [lia|]. split; [exact J|].
    intros x Hx. rewrite J. apply (loaded_byte_outside m image lo hi C); lia.
Qed.

(** C27. Loading.  [elf_load] refuses an invalid image (-1), a segment outside
    the window (-2) and an entry point outside it (-3), each before a byte of
    memory changes.  Otherwise memory holds exactly the segments, file bytes
    followed by a zeroed .bss, nothing outside the window has changed, and the
    entry point handed back lies inside it. *)
Theorem elf_load_exact (m : mem) (image size lo hi : Z) :
  0 <= lo -> hi < 0x100000000 -> image + size <= lo \/ hi <= image ->
  let '(m', r, entry) := elf_load m image size lo hi in
  (r = -1 /\ m' = m /\ entry = None /\ ~ elf_ok m image size) \/
  (r = -2 /\ m' = m /\ entry = None /\ elf_ok m image size /\ ~ segments_fit m image lo hi) \/
  (r = -3 /\ m' = m /\ entry = None /\ elf_ok m image size /\ segments_fit m image lo hi /\
     ~ lo <= e_entry m image < hi) \/
  (r = 0 /\ elf_ok m image size /\ segments_fit m image lo hi /\
     entry = Some (e_entry m image) /\ lo <= e_entry m image < hi /\
     (forall x, ld8 m' x = loaded_byte m image (Z.to_nat (e_phnum m image)) x) /\
     (forall x, x < lo \/ hi <= x -> ld8 m' x = ld8 m x)).
Proof. exact (elf_load_spec m image size lo hi). Qed.

(** ** Protection *)

Section protecting.
  Context (L : link) (st : machine) (image size lo hi : Z).
  Hypothesis HL : link_ok L.
  Hypothesis Hdir : entry (ram st) (page_directory L) 0 = first_page_table L + 7.
  Hypothesis Hok : elf_ok (ram st) image size.
  Hypothesis Hfit : segments_fit (ram st) image lo hi.
  Hypothesis Hhi : hi + 0xFFF < 0x100000000.
  Hypothesis Hapart : image + size <= first_page_table L \/ first_page_table L + 4096 <= image.

(** The address space after the permissions of the first [k] segments. *)
Definition protected (k : Z) (t : machine) : Prop :=
  (forall v, 0 <= v < MANAGED_BASE ->
     vmm_translate t (page_directory L) v = vmm_translate st (page_directory L) v /\
     ring3_reaches t (page_directory L) v = ring3_reaches st (page_directory L) v /\
     writable t (page_directory L) v
     = writable st (page_directory L) v && negb (readonly_page (ram st) image k v)) /\
  (forall x, pg x <> first_page_table L -> ld8 (ram t) x = ld8 (ram st) x) /\
  frames t = frames st /\ cr3 t = cr3 st.

Lemma protected_agree k t : protected k t -> agree (ram st) (ram t) image size.
Proof.
  intros (_ & M & _) x Hx. apply M. rewrite pg_in by apply HL. lia.
Qed.

Lemma protected_dir k t : protected k t -> entry (ram t) (page_directory L) 0 = first_page_table L + 7.
Proof.
  intros (_ & M & _). rewrite <- Hdir. destruct HL as [(P1 & _) _ (D1 & _)].
  apply entry_ext; [assumption|lia|]. intros x Hx. apply M. congruence.
Qed.

Lemma readonly_page_next m k v :
  0 <= k -> readonly_page m image (k + 1) v
  = readonly_page m image k v || (let p := phdr m image k in
      negb (skipped m p) && negb (tst (p_flags m p) PF_W) && zone_page (p_vaddr m p) (p_memsz m p) v).
Proof.
  intros Hk. unfold readonly_page. rewrite seqZ_app, existsb_app by lia. cbn [existsb seqZ].
  rewrite (seqZ_cons (0 + k) 1), (seqZ_nil _ (Z.pred 1)) by lia. cbn [existsb]. rewrite orb_false_r.
  reflexivity.
Qed.

Lemma protect_segment_step k t :
  0 <= k < e_phnum (ram st) image -> protected k t ->
  protected (k + 1) (protect_segment L image (e_phoff (ram st) image) k t).
Proof.
  intros Hk J. pose proof (protected_agree k t J) as A. pose proof (protected_dir k t J) as D.
  destruct (phdr_inside (ram st) image size k Hok Hk) as [I1 I2].
  destruct (phdr_agree _ _ image size _ A I1 I2) as (_ & _ & Hv & _ & Hm & Hf & Hs).
  unfold protect_segment.
  change (image + e_phoff (ram st) image + sizeof_phdr * k) with (phdr (ram st) image k).
  rewrite Hs, Hf, Hv, Hm. clear Hs Hf Hv Hm. destruct J as (JV & JM & JF & JC).
  assert (Same : (let p := phdr (ram st) image k in
     negb (skipped (ram st) p) && negb (tst (p_flags (ram st) p) PF_W) = false) -> protected (k + 1) t).
  { cbv zeta. intros F. split; [|auto]. intros v Hv'. rewrite readonly_page_next by lia. cbv zeta.
    rewrite F. cbn [andb]. rewrite orb_false_r. apply JV. exact Hv'. }
  destruct (skipped _ _) eqn:Es; [apply Same; cbv zeta; rewrite Es; reflexivity|].
  destruct (tst (p_flags _ _) PF_W) eqn:Ef; cbn [negb]; [apply Same; cbv zeta; rewrite Ef; apply andb_false_r|].
  clear Same. destruct (Hfit k Hk Es) as [F1 F2].
  pose proof (ld32_range (ram st) (phdr (ram st) image k + 8)) as R1.
  pose proof (ld32_range (ram st) (phdr (ram st) image k + 20)) as R2.
  fold (p_vaddr (ram st) (phdr (ram st) image k)) in R1.
  fold (p_memsz (ram st) (phdr (ram st) image k)) in R2.
  destruct (set_user_writable_spec L t (p_vaddr (ram st) (phdr (ram st) image k))
    (p_memsz (ram st) (phdr (ram st) image k)) false HL D) as (W & M & F & C); try lia.
  split; [|split; [|split; congruence]].
  - intros v Hv'. destruct (W v Hv') as (W1 & W2 & W3), (JV v Hv') as (V1 & V2 & V3).
    split; [congruence|]. split; [congruence|]. rewrite W3, V3, readonly_page_next by lia. cbv zeta.
    rewrite Es, Ef. cbn [negb andb]. rewrite andb_false_r.
    destruct (zone_page _ _ v); [rewrite orb_true_r, andb_false_r|rewrite orb_false_r]; reflexivity.
  - intros x Hx. rewrite M by exact Hx. apply JM. exact Hx.
Qed.

Lemma elf_protect_spec : protected (e_phnum (ram st) image) (elf_protect L st image).
Proof.
  pose proof (ld16_range (ram st) (image + 44)) as R. fold (e_phnum (ram st) image) in R.
  assert (J0 : protected 0 st).
  { split; [|auto]. intros v Hv. cbn. rewrite andb_true_r. auto. }
  unfold elf_protect. rewrite (for_while_range protected (e_phnum (ram st) image)); [|lia|exact J0| |].
  - apply for_range_ind; [lia|exact J0|]. intros i t Hi. apply protect_segment_step. exact Hi.
  - intros i t Hi J. destruct (ehdr_agree _ _ image size (protected_agree i t J))
      as (_ & _ & _ & _ & _ & _ & ->); [apply Hok|reflexivity].
  - intros i t Hi. apply protect_segment_step. exact Hi.
Qed.

End protecting.

(** Whatever the image says, only write permissions in the user zone change. *)
Lemma elf_protect_change L st image : page (first_page_table L) -> rw_change L st (elf_protect L st image).
Proof.
  intros Hp. unfold elf_protect, for_while. apply (for_range_ret_keeps (fun t => rw_change L st t)); [reflexivity|].
  intros i t I. destruct (_ <? _); cbn [fst]; [|exact I]. etransitivity; [exact I|]. unfold protect_segment.
  destruct (skipped _ _); [reflexivity|]. destruct (negb _); [|reflexivity]. apply user_writable_change, Hp.
Qed.

(** Protection.  For a loaded image, [elf_protect] takes the write
    permission of exactly the user-zone pages a segment without PF_W touches;
    translations, ring-3 access and every byte outside the page table are as
    before. *)
Theorem elf_protect_exact (L : link) (st : machine) (image size lo hi : Z) :
  link_ok L -> entry (ram st) (page_directory L) 0 = first_page_table L + 7 ->
  elf_ok (ram st) image size -> segments_fit (ram st) image lo hi -> hi + 0xFFF < 0x100000000 ->
  image + size <= first_page_table L \/ first_page_table L + 4096 <= image ->
  let st' := elf_protect L st image in
  (forall v, 0 <= v < MANAGED_BASE ->
     vmm_translate st' (page_directory L) v = vmm_translate st (page_directory L) v /\
     ring3_reaches st' (page_directory L) v = ring3_reaches st (page_directory L) v /\
     writable st' (page_directory L) v
     = writable st (page_directory L) v
       && negb (readonly_page (ram st) image (e_phnum (ram st) image) v)) /\
  (forall x, pg x <> first_page_table L -> ld8 (ram st') x = ld8 (ram st) x) /\
  frames st' = frames st /\ cr3 st' = cr3 st.
Proof. intros HL Hd Ho Hf Hh Ha. exact (elf_protect_spec L st image size lo hi HL Hd Ho Hf Hh Ha). Qed.

(** ** A small executable

    Two loadable segments: read-only code at 0x80000 (16 file bytes) and
    writable data at 0x81000 (4 file bytes and 12 of .bss), stored at 0x30000. *)

Definition st16 (m : mem) (a v : Z) : mem := st8 (st8 m a v) (a + 1) (v / 0x100).

Definition put_phdr (m : mem) (p off vaddr fsz msz flags : Z) : mem :=
  let m := st32 m p PT_LOAD in
  let m := st32 m (p + 4) off in
  let m := st32 m (p + 8) vaddr in
  let m := st32 m (p + 16) fsz in
  let m := st32 m (p + 20) msz in
  st32 m (p + 24) flags.

Definition demo_image : Z := 0x30000.
Definition demo_size : Z := 0x100.

Definition demo_elf (m : mem) : mem :=
  let m := st32 m demo_image 0x464C457F in
  let m := st16 m (demo_image + 4) 0x0101 in
  let m := st16 m (demo_image + 16) ET_EXEC in
  let m := st16 m (demo_image + 18) EM_386 in
  let m := st32 m (demo_image + 24) 0x80000 in
  let m := st32 m (demo_image + 28) 52 in
  let m := st16 m (demo_image + 42) 32 in
  let m := st16 m (demo_image + 44) 2 in
  let m := put_phdr m (demo_image + 52) 0x80 0x80000 16 16 5 in
  let m := put_phdr m (demo_image + 84) 0x90 0x81000 4 16 6 in
  st32 (st32 m (demo_image + 0x80) 0xC3909090) (demo_image + 0x90) 0xCAFE.

Lemma elf_validate_exact_witness : elf_ok (demo_elf ∅) demo_image demo_size.
Proof. apply (elf_validate_exact (demo_elf ∅) demo_image demo_size). vm_compute. reflexivity. Defined.

Lemma demo_elf_fits m :
  for_range_ret 0 (e_phnum m demo_image) (check_window m demo_image 0x80000 0xF0000) tt = (tt, None) ->
  segments_fit m demo_image 0x80000 0xF0000.
Proof. intros E. pose proof (check_window_spec m demo_image 0x80000 0xF0000) as C. rewrite E in C. exact C. Qed.

Lemma elf_load_exact_witness :
  let '(m', r, entry) := elf_load (demo_elf ∅) demo_image demo_size 0x80000 0xF0000 in
  r = 0 /\ entry = Some 0x80000 /\ ld32 m' 0x80000 = 0xC3909090 /\ ld32 m' 0x81000 = 0xCAFE /\
  forall x, x < 0x80000 \/ 0xF0000 <= x -> ld8 m' x = ld8 (demo_elf ∅) x.
Proof.
  pose proof (elf_load_exact (demo_elf ∅) demo_image demo_size 0x80000 0xF0000
    ltac:(lia) ltac:(lia) ltac:(unfold demo_image, demo_size; lia)) as T.
  assert (R : let '(m', r, entry) := elf_load (demo_elf ∅) demo_image demo_size 0x80000 0xF0000 in
    (r =? 0) && bool_decide (entry = Some 0x80000) && (ld32 m' 0x80000 =? 0xC3909090)
    && (ld32 m' 0x81000 =? 0xCAFE) = true) by (vm_compute; reflexivity).
  destruct (elf_load _ _ _ _ _) as [[m' r] entry]. b2p. subst r.
  destruct T as [T|[T|[T|T]]]; destruct T as (T0 & T); try discriminate T0.
  split; [reflexivity|]. split; [eapply bool_decide_eq_true_1; eassumption|].
  split; [assumption|]. split; [assumption|]. apply T.
Defined.

Definition demo_loaded : machine := with_ram one_slot (demo_elf (ram one_slot)).

Lemma elf_protect_exact_witness :
  let st' := elf_protect demo_link demo_loaded demo_image in
  (forall v, 0 <= v < MANAGED_BASE ->
     vmm_translate st' (page_directory demo_link) v
       = vmm_translate demo_loaded (page_directory demo_link) v /\
     ring3_reaches st' (page_directory demo_link) v
       = ring3_reaches demo_loaded (page_directory demo_link) v /\
     writable st' (page_directory demo_link) v
     = writable demo_loaded (page_directory demo_link) v
       && negb (readonly_page (ram demo_loaded) demo_image (e_phnum (ram demo_loaded) demo_image) v)) /\
  (forall x, pg x <> first_page_table demo_link -> ld8 (ram st') x = ld8 (ram demo_loaded) x) /\
  frames st' = frames demo_loaded /\ cr3 st' = cr3 demo_loaded.
Proof.
  apply (elf_protect_exact demo_link demo_loaded demo_image demo_size 0x80000 0xF0000).
  - apply demo_link_ok.
  - vm_compute. reflexivity.
  - apply elf_validate_ok. vm_compute. reflexivity.
  - apply demo_elf_fits. vm_compute. reflexivity.
  - lia.
  - right. vm_compute. discriminate.
Defined.
