(* ===== verification/Args.v ===== *)
(** * Building argc and argv on the user stack (kernel/args.c)

    [args_build] splits a command line on spaces and lays out, downwards from
    the top of the user stack, the argument strings, the argv array, and the
    frame a cdecl entry point expects.  The line is a character buffer of the
    kernel; the stack is memory. *)

From stdpp Require Import base gmap list numbers option.
From Stdlib Require Import ZArith Lia Bool.
From S2P Require Import Prelude CString.

Definition ARG_MAX : Z := 8.
Definition ARG_BYTES : Z := 256.

(** [while ( *p == ' ') p++;] *)
Fixpoint skip_spaces (p : list Z) : list Z :=
  match p with
  | [] => []
  | c :: p' => if c =? 32 then skip_spaces p' else p
  end.

(** The characters passed by [while ( *p && *p != ' ') p++;] *)
Fixpoint word (p : list Z) : list Z :=
  match p with
  | [] => []
  | c :: p' => if negb (c =? 0) && negb (c =? 32) then c :: word p' else []
  end.

(** The splitting loop: [argp[i]] with its [arglen[i]] is the i-th word. *)
Fixpoint split_args (room : nat) (p : list Z) : list (list Z) :=
  match room with
  | O => []
  | S room' =>
      if cur p =? 0 then []
      else
        let p := skip_spaces p in
        if cur p =? 0 then []
        else
          let w := word p in
          w :: split_args room' (drop (length w) p)
  end.

(** [total]: the bytes of the words with their terminators. *)
Fixpoint total_bytes (ws : list (list Z)) : Z :=
  match ws with
  | [] => 0
  | w :: ws' => tlen w + 1 + total_bytes ws'
  end.

(** The copying loop, with the array [slot] it fills. *)
Fixpoint put_args (m : mem) (text off : Z) (ws : list (list Z)) : mem * list Z :=
  match ws with
  | [] => (m, [])
  | w :: ws' =>
      let dst := u32 (text + off) in
      let m := put_bytes m dst w in
      let m := st8 m (dst + tlen w) 0 in
      let '(m, slots) := put_args m text (u32 (off + tlen w + 1)) ws' in
      (m, u32 (text + off) :: slots)
  end.

(** [for (i = 0; i < argc; i++) argv[i] = slot[i];] *)
Fixpoint put_ptrs (m : mem) (argv : Z) (slots : list Z) : mem :=
  match slots with
  | [] => m
  | s :: slots' => put_ptrs (st32 m argv s) (argv + 4) slots'
  end.

Definition args_build (m : mem) (line : list Z) (stack_top : Z) : mem * Z :=
  let ws := split_args (Z.to_nat ARG_MAX) line in
  let argc := tlen ws in
  let total := total_bytes ws in
  if ARG_BYTES <? total then (m, 0)
  else
    let sp := u32 (stack_top - total) in
    let sp := Z.land sp (u32 (Z.lnot 3)) in
    let text := sp in
    let '(m, slots) := put_args m text 0 ws in
    let sp := u32 (sp - (argc + 1) * 4) in
    let argv := sp in
    let m := put_ptrs m argv slots in
    let m := st32 m (argv + 4 * argc) 0 in
    let argv_addr := sp in
    let sp := u32 (sp - 4) in
    let m := st32 m sp argv_addr in
    let sp := u32 (sp - 4) in
    let m := st32 m sp argc in
    let sp := u32 (sp - 4) in
    let m := st32 m sp 0 in
    (m, sp).

(** ** Specification *)

(** The words of a line: its maximal runs of characters other than space. *)
Definition flush (w : list Z) (l : list (list Z)) : list (list Z) :=
  match w with [] => l | _ => w :: l end.

Fixpoint words (acc s : list Z) : list (list Z) :=
  match s with
  | [] => flush acc []
  | c :: s' => if c =? 32 then flush acc (words [] s') else words (acc ++ [c]) s'
  end.

(** A terminated string in memory. *)
Definition string_at (m : mem) (a : Z) (w : list Z) : Prop :=
  (forall k, 0 <= k < tlen w -> ld8 m (a + k) = tget 0 w k) /\ ld8 m (a + tlen w) = 0.

(** What a program finds at [esp]: a return address of 0, argc, argv, and the
    argument strings, all below [top]. *)
Record arg_frame (m : mem) (esp top : Z) (ws : list (list Z)) : Prop := {
  fr_ret : ld32 m esp = 0;
  fr_argc : ld32 m (esp + 4) = tlen ws;
  fr_argv : ld32 m (esp + 8) = esp + 12;
  fr_null : ld32 m (esp + 12 + 4 * tlen ws) = 0;
  fr_strings : forall i, 0 <= i < tlen ws ->
    let a := ld32 m (esp + 12 + 4 * i) in
    esp + 16 + 4 * tlen ws <= a /\ a + tlen (tget [] ws i) < top /\ string_at m a (tget [] ws i)
}.

(** ** Splitting *)

Lemma text_skip p : text (skip_spaces p) = skip_spaces (text p).
Proof.
  induction p as [|c p IH]; simpl; [reflexivity|].
  destruct (Z.eqb_spec c 32) as [->|N]; simpl; [apply IH|].
  destruct (c =? 0); simpl; [reflexivity|]. apply Z.eqb_neq in N. rewrite N. reflexivity.
Qed.

Lemma word_text p : word p = word (text p).
Proof.
  induction p as [|c p IH]; simpl; [reflexivity|].
  destruct (Z.eqb_spec c 0); simpl; [reflexivity|].
  destruct (Z.eqb_spec c 0); [contradiction|]. simpl. destruct (c =? 32); simpl; congruence.
Qed.

Lemma text_drop_word p : text (drop (length (word p)) p) = drop (length (word p)) (text p).
Proof.
  induction p as [|c p IH]; simpl; [reflexivity|].
  destruct (Z.eqb_spec c 0) as [->|N]; simpl; [reflexivity|].
  destruct (c =? 32); simpl; [|exact IH]. apply Z.eqb_neq in N. rewrite N. reflexivity.
Qed.

Lemma cur_text p : cur (text p) = cur p.
Proof. destruct p as [|c p]; simpl; [reflexivity|]. destruct (Z.eqb_spec c 0); simpl; congruence. Qed.

(** The splitting loop sees the text of its buffer only. *)
Lemma split_args_text room : forall p, split_args room p = split_args room (text p).
Proof.
  induction room as [|room IH]; intros p; simpl; [reflexivity|].
  rewrite cur_text, <- text_skip, cur_text.
  destruct (cur p =? 0); [reflexivity|]. destruct (cur (skip_spaces p) =? 0); [reflexivity|].
  rewrite <- word_text, IH, text_drop_word. reflexivity.
Qed.

Lemma words_skip s : words [] s = words [] (skip_spaces s).
Proof.
  induction s as [|c s IH]; [reflexivity|]. cbn [skip_spaces]. destruct (c =? 32) eqn:E; [|reflexivity].
  cbn [words]. rewrite E. exact IH.
Qed.

Lemma words_word acc s :
  Forall (fun c => c <> 0) s ->
  words acc s = flush (acc ++ word s) (words [] (drop (length (word s)) s)).
Proof.
  revert acc. induction s as [|c s IH]; intros acc F; simpl.
  - rewrite app_nil_r. reflexivity.
  - apply Forall_cons_iff in F as [Hc F]. apply Z.eqb_neq in Hc. rewrite Hc. simpl.
    destruct (c =? 32) eqn:E; simpl.
    + rewrite app_nil_r, E. reflexivity.
    + rewrite IH by exact F. rewrite <- app_assoc. reflexivity.
Qed.

Lemma skip_no_nul s : Forall (fun c => c <> 0) s -> Forall (fun c => c <> 0) (skip_spaces s).
Proof. induction 1; simpl; [constructor|]. destruct (_ =? 32); auto. Qed.

Lemma skip_not_space s : cur (skip_spaces s) <> 32.
Proof. induction s as [|c s IH]; simpl; [lia|]. destruct (Z.eqb_spec c 32); simpl; auto. Qed.

(** The loop produces the first words of the line, in order. *)
Lemma split_args_words room : forall s,
  Forall (fun c => c <> 0) s -> split_args room s = take room (words [] s).
Proof.
  induction room as [|room IH]; intros s F; [reflexivity|]. cbn [split_args].
  destruct s as [|c s]; [reflexivity|].
  rewrite (proj2 (Z.eqb_neq (cur (c :: s)) 0)) by (apply Forall_cons_iff in F; apply F).
  rewrite words_skip. pose proof (skip_no_nul _ F) as F'. pose proof (skip_not_space (c :: s)) as N.
  destruct (skip_spaces (c :: s)) as [|d t]; [reflexivity|]. cbn [cur] in N.
  pose proof F' as G. apply Forall_cons_iff in G as [Hd _]. cbn [cur].
  rewrite (proj2 (Z.eqb_neq d 0)) by exact Hd. rewrite (words_word [] (d :: t)) by exact F'.
  cbn [app word]. rewrite (proj2 (Z.eqb_neq d 0)), (proj2 (Z.eqb_neq d 32)) by assumption.
  cbn [negb andb flush take]. f_equal. apply IH. apply Forall_drop. exact F'.
Qed.

Lemma split_args_spec room line : split_args room line = take room (words [] (text line)).
Proof. rewrite split_args_text. apply split_args_words, text_no_nul. Qed.

(** ** Layout *)

Lemma total_bytes_nonneg ws : 0 <= total_bytes ws.
Proof. induction ws as [|w ws IH]; cbn [total_bytes]; [lia|]. pose proof (tlen_nonneg w). lia. Qed.

Lemma put_args_spec ws : forall m text off,
  0 <= text -> 0 <= off -> text + off + total_bytes ws < 0x100000000 -> Forall bytes ws ->
  let '(m', slots) := put_args m text off ws in
  tlen slots = tlen ws /\
  (forall x, x < text + off \/ text + off + total_bytes ws <= x -> ld8 m' x = ld8 m x) /\
  (forall i, 0 <= i < tlen ws ->
     let a := tget 0 slots i in
     text + off <= a /\ a + tlen (tget [] ws i) < text + off + total_bytes ws /\
     string_at m' a (tget [] ws i)).
Proof.
  induction ws as [|w ws IH]; intros m text off Ht Ho Hb Fw; cbn [put_args].
  { split; [reflexivity|]. split; [reflexivity|]. intros i Hi. unfold tlen in Hi. cbn [length] in Hi. lia. }
  cbn [total_bytes] in Hb |- *. pose proof (tlen_nonneg w) as Hw. pose proof (total_bytes_nonneg ws) as Hws.
  apply Forall_cons_iff in Fw as [Bw Fw]. rewrite !u32_small by lia.
  set (m2 := st8 (put_bytes m (text + off) w) (text + off + tlen w) 0).
  specialize (IH m2 text (off + tlen w + 1) Ht ltac:(lia) ltac:(lia) Fw).
  destruct (put_args m2 text (off + tlen w + 1) ws) as [m' slots]. destruct IH as (Hl & Hout & Hin).
  rewrite !tlen_cons. split; [lia|]. split.
  - intros x Hx. rewrite Hout by lia. unfold m2. rewrite ld8_st8, ld8_put_bytes. unfold in_range. zcase; lia || reflexivity.
  - intros i Hi. rewrite !tget_cons by lia. destruct (Z.eqb_spec i 0) as [->|].
    + split; [lia|]. split; [lia|]. split.
      * intros k Hk. rewrite Hout by lia. unfold m2. rewrite ld8_st8, ld8_put_bytes. unfold in_range.
        destruct (Z.eqb_spec (text + off + tlen w) (text + off + k)); [lia|].
        rewrite (proj2 (Z.leb_le (text + off) (text + off + k))) by lia.
        rewrite (proj2 (Z.ltb_lt (text + off + k) (text + off + tlen w))) by lia. cbn [andb].
        replace (text + off + k - (text + off)) with k by lia. apply u8_small.
        apply bytes_tget. exact Bw.
      * rewrite Hout by lia. unfold m2. rewrite ld8_st8, Z.eqb_refl. reflexivity.
    + destruct (Hin (i - 1) ltac:(lia)) as (A & B & C). split; [lia|]. split; [lia|exact C].
Qed.

Lemma put_ptrs_spec slots : forall m argv,
  (forall x, x < argv \/ argv + 4 * tlen slots <= x -> ld8 (put_ptrs m argv slots) x = ld8 m x) /\
  (forall i, 0 <= i < tlen slots -> ld32 (put_ptrs m argv slots) (argv + 4 * i) = u32 (tget 0 slots i)).
Proof.
  induction slots as [|s slots IH]; intros m argv; cbn [put_ptrs].
  { split; [reflexivity|]. intros i Hi. unfold tlen in Hi. cbn [length] in Hi. lia. }
  rewrite tlen_cons. pose proof (tlen_nonneg slots). destruct (IH (st32 m argv s) (argv + 4)) as [O I]. split.
  - intros x Hx. rewrite O by lia. apply ld8_st32_out. lia.
  - intros i Hi. rewrite tget_cons by lia. destruct (Z.eqb_spec i 0) as [->|].
    + rewrite Z.mul_0_r, Z.add_0_r. rewrite <- (ld32_st32_eq m argv s). apply ld32_ext. intros. apply O. lia.
    + replace (argv + 4 * i) with (argv + 4 + 4 * (i - 1)) by lia. apply I. lia.
Qed.

Lemma split_args_length room p : (length (split_args room p) <= room)%nat.
Proof.
  revert p. induction room as [|room IH]; intros p; cbn [split_args]; [cbn; lia|].
  destruct (_ =? 0); [cbn; lia|]. destruct (_ =? 0); [cbn; lia|]. cbn [length]. specialize (IH (drop (length (word (skip_spaces p))) (skip_spaces p))). lia.
Qed.

Lemma skip_bytes p : bytes p -> bytes (skip_spaces p).
Proof. unfold bytes. induction 1; simpl; [constructor|]. destruct (_ =? 32); auto. Qed.

Lemma word_bytes p : bytes p -> bytes (word p).
Proof. unfold bytes. induction 1; simpl; [constructor|]. destruct (_ && _); auto. Qed.

Lemma split_args_bytes room : forall p, bytes p -> Forall bytes (split_args room p).
Proof.
  induction room as [|room IH]; intros p B; cbn [split_args]; [constructor|].
  destruct (_ =? 0); [constructor|]. destruct (_ =? 0); [constructor|]. apply skip_bytes in B.
  constructor; [apply word_bytes; exact B|]. apply IH. apply Forall_drop. exact B.
Qed.

(** The four stores that finish the frame. *)
Definition finish_frame (m : mem) (esp argc : Z) : mem :=
  st32 (st32 (st32 (st32 m (esp + 12 + 4 * argc) 0) (esp + 8) (esp + 12)) (esp + 4) argc) esp 0.

Lemma finish_frame_spec m esp argc :
  0 <= esp -> esp + 12 < 0x100000000 -> 0 <= argc <= 8 ->
  let m' := finish_frame m esp argc in
  ld32 m' esp = 0 /\ ld32 m' (esp + 4) = argc /\ ld32 m' (esp + 8) = esp + 12 /\
  ld32 m' (esp + 12 + 4 * argc) = 0 /\
  forall x, x < esp \/ esp + 12 <= x < esp + 12 + 4 * argc \/ esp + 16 + 4 * argc <= x ->
    ld8 m' x = ld8 m x.
Proof.
  intros He Hb Hc. unfold finish_frame. cbv zeta.
  rewrite ld32_st32_eq. split; [reflexivity|].
  rewrite ld32_st32_out, ld32_st32_eq, u32_small by lia. split; [reflexivity|].
  rewrite !ld32_st32_out, ld32_st32_eq, u32_small by lia. split; [reflexivity|].
  rewrite !ld32_st32_out, ld32_st32_eq by lia. split; [reflexivity|].
  intros x Hx. rewrite !ld8_st32_out by lia. reflexivity.
Qed.

Lemma string_at_ext m m' a w :
  (forall x, a <= x <= a + tlen w -> ld8 m' x = ld8 m x) -> string_at m a w -> string_at m' a w.
Proof.
  intros E [H1 H2]. pose proof (tlen_nonneg w). split.
  - intros k Hk. rewrite E by lia. apply H1. exact Hk.
  - rewrite E by lia. exact H2.
Qed.

Lemma args_build_spec (m : mem) (line : list Z) (stack_top : Z) :
  bytes line -> 0x200 <= stack_top < 0x100000000 ->
  let ws := take 8 (words [] (text line)) in
  let '(m', esp) := args_build m line stack_top in
  (esp = 0 /\ m' = m /\ ARG_BYTES < total_bytes ws) \/
  (total_bytes ws <= ARG_BYTES /\ esp mod 4 = 0 /\ stack_top - 0x133 <= esp < stack_top /\
   arg_frame m' esp stack_top ws /\
   forall x, x < esp \/ stack_top <= x -> ld8 m' x = ld8 m x).
Proof.
  intros B Hs ws. unfold args_build. change (Z.to_nat ARG_MAX) with 8%nat.
  pose proof (split_args_length 8 line) as Hn. pose proof (split_args_bytes 8 line B) as Fb.
  rewrite split_args_spec in *. fold ws in Hn, Fb |- *. unfold ARG_BYTES.
  pose proof (total_bytes_nonneg ws) as Hp. pose proof (tlen_nonneg ws) as Ha.
  assert (Hc : tlen ws <= 8) by (unfold tlen; lia).
  destruct (Z.ltb_spec 256 (total_bytes ws)); [left; auto|].
  rewrite (u32_small (stack_top - total_bytes ws)) by lia.
  change (u32 (Z.lnot 3)) with (0x100000000 - 2 ^ 2). rewrite land_align_down by lia.
  set (txt := stack_top - total_bytes ws - (stack_top - total_bytes ws) mod 2 ^ 2).
  assert (T : txt mod 4 = 0 /\ stack_top - 259 <= txt <= stack_top - total_bytes ws)
    by (unfold txt; change (2 ^ 2) with 4; zdm).
  clearbody txt. pose proof (put_args_spec ws m txt 0 ltac:(lia) ltac:(lia) ltac:(lia) Fb) as P.
  destruct (put_args m txt 0 ws) as [m1 slots]. destruct P as (Pl & Po & Pi).
  set (esp := txt - (tlen ws + 1) * 4 - 12).
  assert (He : 0 <= esp /\ esp + 12 < 0x100000000) by (unfold esp; lia).
  rewrite (u32_small (txt - (tlen ws + 1) * 4)) by (unfold esp in He; lia).
  replace (txt - (tlen ws + 1) * 4) with (esp + 12) by (unfold esp; lia).
  rewrite (u32_small (esp + 12 - 4)) by lia. replace (esp + 12 - 4) with (esp + 8) by lia.
  rewrite (u32_small (esp + 8 - 4)) by lia. replace (esp + 8 - 4) with (esp + 4) by lia.
  rewrite (u32_small (esp + 4 - 4)) by lia. replace (esp + 4 - 4) with esp by lia.
  fold (finish_frame (put_ptrs m1 (esp + 12) slots) esp (tlen ws)).
  destruct (put_ptrs_spec slots m1 (esp + 12)) as [Qo Qi]. rewrite Pl in Qo, Qi.
  destruct (finish_frame_spec (put_ptrs m1 (esp + 12) slots) esp (tlen ws)) as (F0 & F1 & F2 & F3 & Fo);
    [lia..|].
  right. split; [lia|]. split; [unfold esp; zdm|]. split; [unfold esp; lia|]. split.
  - constructor; auto. intros i Hi.
    assert (E : ld32 (finish_frame (put_ptrs m1 (esp + 12) slots) esp (tlen ws)) (esp + 12 + 4 * i)
      = tget 0 slots i).
    { destruct (Pi i Hi) as (A1 & A2 & _). pose proof (tlen_nonneg (tget [] ws i)).
      rewrite <- (u32_small (tget 0 slots i)) by lia. rewrite <- Qi by lia.
      apply ld32_ext. intros k Hk. apply Fo. lia. }
    cbv zeta. rewrite E. destruct (Pi i Hi) as (A1 & A2 & A3).
    split; [unfold esp; lia|]. split; [lia|].
    apply (string_at_ext m1); [|exact A3]. intros x Hx. rewrite Fo, Qo by (unfold esp in *; lia). reflexivity.
  - intros x Hx. rewrite Fo, Qo, Po by (unfold esp in *; lia). reflexivity.
Qed.

(** C28. The argument frame.  The arguments are the first eight words of the
    line.  When their text exceeds 256 bytes the call fails and memory is
    untouched; otherwise the program finds, at a 4-byte aligned stack pointer,
    a null return address, argc, argv, a null-terminated array of pointers and
    the words themselves as terminated strings, and no byte outside the frame
    has changed. *)
Theorem args_build_frame (m : mem) (line : list Z) (stack_top : Z) :
  bytes line -> 0x200 <= stack_top < 0x100000000 ->
  let ws := take 8 (words [] (text line)) in
  let '(m', esp) := args_build m line stack_top in
  (esp = 0 /\ m' = m /\ ARG_BYTES < total_bytes ws) \/
  (total_bytes ws <= ARG_BYTES /\ esp mod 4 = 0 /\ stack_top - 0x133 <= esp < stack_top /\
   arg_frame m' esp stack_top ws /\
   forall x, x < esp \/ stack_top <= x -> ld8 m' x = ld8 m x).
Proof. exact (args_build_spec m line stack_top). Qed.

Lemma args_build_frame_witness :
  let '(m', esp) := args_build ∅ (lit "prog.elf  hello") 0xF0000 in
  arg_frame m' esp 0xF0000 [lit "prog.elf"; lit "hello"] /\ esp mod 4 = 0.
Proof.
  pose proof (args_build_frame ∅ (lit "prog.elf  hello") 0xF0000
    (lit_bytes _) ltac:(lia)) as T. cbv zeta in T.
  assert (R : snd (args_build ∅ (lit "prog.elf  hello") 0xF0000) <> 0) by (vm_compute; discriminate).
  destruct (args_build ∅ _ _) as [m' esp]. cbn [snd] in R.
  change (take 8 (words [] (text (lit "prog.elf  hello")))) with [lit "prog.elf"; lit "hello"] in T.
  destruct T as [(T & _)|(_ & T1 & _ & T2 & _)]; [contradiction|auto].
Defined.
