(* ===== verification/Ata.v ===== *)
(** * Disk driver (kernel/ata.c)

    The PIO driver on the port interface of [Interfaces].  For a drive that
    follows the ATA protocol it implements the interface [Disk] the filesystem
    is verified against. *)

From stdpp Require Import base gmap list numbers option.
From Stdlib Require Import ZArith Lia Bool.
From S2P Require Import Prelude CString Interfaces.

Definition ATA_DATA : Z := 0x1F0.
Definition ATA_SECCNT : Z := 0x1F2.
Definition ATA_LBA_LO : Z := 0x1F3.
Definition ATA_LBA_MID : Z := 0x1F4.
Definition ATA_LBA_HI : Z := 0x1F5.
Definition ATA_DRIVE : Z := 0x1F6.
Definition ATA_STATUS : Z := 0x1F7.
Definition ATA_CMD : Z := 0x1F7.
Definition ST_BSY : Z := 0x80.
Definition ST_DF : Z := 0x20.
Definition ST_DRQ : Z := 0x08.
Definition ST_ERR : Z := 0x01.
Definition ATA_TIMEOUT : Z := 1000000.

(** A 16-bit store, [buf[i] = w]. *)
Definition put16 (m : mem) (a w : Z) : mem := st8 (st8 m a (Z.land w 0xFF)) (a + 1) (Z.shiftr w 8).

Section Driver.
Context {H : Type} {PH : Ports H}.

Definition ata_wait (h : H) : H * Z :=
  let '(h, r) := for_range_ret 0 ATA_TIMEOUT (fun _ h =>
    let '(h, s) := inb h ATA_STATUS in
    if tst s ST_BSY then (h, None)
    else if tst s (Z.lor ST_ERR ST_DF) then (h, Some (-1))
    else if tst s ST_DRQ then (h, Some 0) else (h, None)) h in
  (h, default (-1) r).

Definition ata_idle (h : H) : H * Z :=
  let '(h, r) := for_range_ret 0 ATA_TIMEOUT (fun _ h =>
    let '(h, s) := inb h ATA_STATUS in
    if negb (tst s ST_BSY) then (h, Some (if tst s (Z.lor ST_ERR ST_DF) then -1 else 0)) else (h, None)) h in
  (h, default (-1) r).

(** The polling loop of [ata_select] leaves with 0 when the drive is not busy. *)
Definition select_poll (h : H) : H * Z :=
  let '(h, r) := for_range_ret 0 (ATA_TIMEOUT + 1) (fun i h =>
    let '(h, s) := inb h ATA_STATUS in
    if tst s ST_BSY then (h, if i =? ATA_TIMEOUT then Some (-1) else None) else (h, Some 0)) h in
  (h, default (-1) r).

Definition ata_select (h : H) (lba sectors : Z) : H * Z :=
  let '(h, r) := select_poll h in
  if negb (r =? 0) then (h, -1)
  else
    let h := outb h ATA_DRIVE (Z.lor 0xE0 (Z.land (Z.shiftr lba 24) 0x0F)) in
    let h := outb h ATA_SECCNT sectors in
    let h := outb h ATA_LBA_LO (u8 (Z.land lba 0xFF)) in
    let h := outb h ATA_LBA_MID (u8 (Z.land (Z.shiftr lba 8) 0xFF)) in
    let h := outb h ATA_LBA_HI (u8 (Z.land (Z.shiftr lba 16) 0xFF)) in
    (h, 0).

(** The 256 words of a sector into [buf], or out of it. *)
Definition read_words (buf : Z) (t : H * mem) : H * mem :=
  for_range 0 256 (fun i t => let '(h, w) := inw (fst t) ATA_DATA in (h, put16 (snd t) (buf + 2 * i) w)) t.

Definition write_words (m : mem) (buf : Z) (h : H) : H :=
  for_range 0 256 (fun i h => outw h ATA_DATA (ld16 m (buf + 2 * i))) h.

(** One turn of the transfer loops: sector [s] of the command.  The code moves
    [buf] on by 256 words a turn. *)
Definition read_turn (buf s : Z) (t : H * mem) : (H * mem) * option Z :=
  let '(h, r) := ata_wait (fst t) in
  if negb (r =? 0) then ((h, snd t), Some (-1)) else (read_words (buf + 512 * s) (h, snd t), None).

Definition write_turn (m : mem) (buf s : Z) (h : H) : H * option Z :=
  let '(h, r) := ata_wait h in
  if negb (r =? 0) then (h, Some (-1)) else (write_words m (buf + 512 * s) h, None).

Definition ata_read (h : H) (lba sectors : Z) (m : mem) (buf : Z) : H * mem * Z :=
  let '(h, r) := ata_select h lba sectors in
  if negb (r =? 0) then (h, m, -1)
  else
    let h := outb h ATA_CMD 0x20 in
    let '((h, m), r) := for_range_ret 0 sectors (read_turn buf) (h, m) in
    (h, m, default 0 r).

Definition ata_write (h : H) (lba sectors : Z) (m : mem) (buf : Z) : H * Z :=
  let '(h, r) := ata_select h lba sectors in
  if negb (r =? 0) then (h, -1)
  else
    let h := outb h ATA_CMD 0x30 in
    let '(h, r) := for_range_ret 0 sectors (write_turn m buf) h in
    match r with
    | Some r => (h, r)
    | None =>
        let '(h, r) := ata_idle h in
        if negb (r =? 0) then (h, -1) else ata_idle (outb h ATA_CMD 0xE7)
    end.

(** ** On a drive that follows the protocol *)

Context {LH : AtaLaws H}.

(** Byte [k] of sector [l]. *)
Definition sector_byte (h : H) (l k : Z) : Z :=
  if k mod 2 =? 0 then Z.land (word_of h l (k / 2)) 0xFF else Z.shiftr (word_of h l (k / 2)) 8.

(** Polling the status register until the drive is not busy. *)
Lemma poll_settles (ph : ata_phase) (r : Z) (body : Z -> H -> H * option Z) :
  (forall i h, phase_of h = ph -> 0 < delay h -> i < ATA_TIMEOUT -> body i h = (fst (inb h 0x1F7), None)) ->
  (forall i h, phase_of h = ph -> delay h = 0 -> body i h = (fst (inb h 0x1F7), Some r)) ->
  forall b, ATA_TIMEOUT <= b -> forall d i h, 0 <= d -> delay h = d -> phase_of h = ph -> i + d < ATA_TIMEOUT ->
  let '(h', o) := for_range_ret i b body h in
  o = Some r /\ phase_of h' = ph /\ delay h' = 0 /\ word_of h' = word_of h /\ reg_of h' = reg_of h.
Proof.
  intros Hb Hr b B d i h Hd. revert i h. pattern d. apply natlike_ind; [| |exact Hd]; clear d Hd.
  - intros i h D P Hi. rewrite for_range_ret_step, (proj2 (Z.ltb_lt i b)) by lia. rewrite Hr by assumption.
    pose proof (status_law h) as S. destruct (inb h 0x1F7) as [h' st]. destruct S as (S1 & S2 & S3 & _ & S4).
    destruct (S4 D) as (_ & _ & S5 & _). cbn [fst]. rewrite S1. auto.
  - intros d Hd IH i h D P Hi. rewrite for_range_ret_step, (proj2 (Z.ltb_lt i b)) by lia. rewrite Hb by (assumption || lia).
    pose proof (status_law h) as S. destruct (inb h 0x1F7) as [h' st]. destruct S as (S1 & S2 & S3 & S4 & _).
    destruct S4 as [_ S4]; [lia|]. cbn [fst]. specialize (IH (i + 1) h' ltac:(lia) ltac:(congruence) ltac:(lia)).
    destruct (for_range_ret (i + 1) b body h') as [h2 o]. rewrite <- S2, <- S3. exact IH.
Qed.

(** The outcome of a wait that settles. *)
Definition settled (h : H) (t : H * Z) : Prop :=
  snd t = 0 /\ phase_of (fst t) = phase_of h /\ delay (fst t) = 0 /\ word_of (fst t) = word_of h /\
  reg_of (fst t) = reg_of h.

Lemma status_bits h : let '(_, s) := inb h 0x1F7 in
  tst s 0x80 = (0 <? delay h) /\
  (delay h = 0 -> tst s 0x21 = false /\ tst s 0x08 = match phase_of h with Idle => false | _ => true end).
Proof.
  pose proof (status_law h) as S. pose proof (delay_range h). destruct (inb h 0x1F7) as [h' s].
  destruct S as (_ & _ & _ & S1 & S2). destruct (Z.ltb_spec 0 (delay h)).
  - split; [apply S1; lia|lia].
  - destruct S2 as (T1 & T2 & _ & T3); [lia|]. auto.
Qed.

(** One turn of a polling loop. *)
Ltac poll := intros i t P; intros; pose proof (status_bits t) as B; rewrite P in B;
  unfold ATA_STATUS, ST_BSY, ST_DRQ in *; change (Z.lor ST_ERR ST_DF) with 0x21;
  destruct (inb t 0x1F7) as [t' s]; cbn [fst]; destruct B as [-> B];
  match goal with
  | D : delay t = 0 |- _ => destruct (B D) as [B1 B2]; rewrite D; cbn; rewrite ?B1, ?B2; try reflexivity
  | D : 0 < delay t |- _ => destruct (Z.ltb_spec 0 (delay t)); [|lia]; cbn [negb]; try reflexivity
  end.

Lemma poll_loop (body : Z -> H -> H * option Z) (b : Z) (h : H) :
  ATA_TIMEOUT <= b ->
  (forall i t, phase_of t = phase_of h -> 0 < delay t -> i < ATA_TIMEOUT -> body i t = (fst (inb t 0x1F7), None)) ->
  (forall i t, phase_of t = phase_of h -> delay t = 0 -> body i t = (fst (inb t 0x1F7), Some 0)) ->
  settled h (let '(h', r) := for_range_ret 0 b body h in (h', default (-1) r)).
Proof.
  intros Hb H1 H2. pose proof (delay_range h) as R.
  pose proof (poll_settles (phase_of h) 0 body H1 H2 b Hb (delay h) 0 h (proj1 R) eq_refl eq_refl) as Q.
  destruct (for_range_ret 0 b body h) as [h' o]. destruct Q as (-> & Q); [unfold ATA_TIMEOUT; lia|].
  exact (conj eq_refl Q).
Qed.

Lemma ata_wait_ok h : phase_of h <> Idle -> settled h (ata_wait h).
Proof.
  intros N. apply poll_loop; [apply Z.le_refl|poll|poll].
  destruct (phase_of h); [contradiction|reflexivity|reflexivity].
Qed.

Lemma ata_idle_ok h : phase_of h = Idle -> settled h (ata_idle h).
Proof. intros E. apply poll_loop; [apply Z.le_refl|poll|poll]. Qed.

Lemma select_poll_ok h : settled h (select_poll h).
Proof.
  apply poll_loop; [unfold ATA_TIMEOUT; lia|poll|poll]. destruct (Z.eqb_spec i ATA_TIMEOUT); [lia|reflexivity].
Qed.

(** ** Addressing *)

Lemma drive_byte t : 0 <= t < 16 ->
  Z.lor 0xE0 t = 0xE0 + t /\ Z.land (0xE0 + t) 0x0F = t /\ Z.land (0xE0 + t) 0xF0 = 0xE0.
Proof.
  intros Ht. assert (E : t = 0 \/ t = 1 \/ t = 2 \/ t = 3 \/ t = 4 \/ t = 5 \/ t = 6 \/ t = 7 \/ t = 8 \/ t = 9 \/
    t = 10 \/ t = 11 \/ t = 12 \/ t = 13 \/ t = 14 \/ t = 15) by lia.
  repeat destruct E as [->|E]; try subst t; auto.
Qed.

Lemma byte_of lba k : 0 <= k -> u8 (Z.land (Z.shiftr lba k) 0xFF) = lba / 2 ^ k mod 256.
Proof.
  intros Hk. rewrite Z.shiftr_div_pow2 by assumption. change 0xFF with (Z.ones 8). rewrite Z.land_ones by lia.
  apply u8_small. apply Z.mod_pos_bound. reflexivity.
Qed.

Lemma lba_split lba :
  0 <= lba ->
  lba mod 256 + 0x100 * (lba / 0x100 mod 256) + 0x10000 * (lba / 0x10000 mod 256) + 0x1000000 * (lba / 0x1000000) = lba.
Proof.
  intros Hl. change 0x10000 with (0x100 * 0x100). change 0x1000000 with (0x100 * 0x100 * 0x100).
  rewrite <- !Z.div_div by lia. pose proof (Z.div_mod lba 0x100 ltac:(lia)).
  pose proof (Z.div_mod (lba / 0x100) 0x100 ltac:(lia)). pose proof (Z.div_mod (lba / 0x100 / 0x100) 0x100 ltac:(lia)).
  lia.
Qed.

(** After [ata_select] the drive is addressed at [lba], [n] sectors. *)
Lemma ata_select_ok h lba n :
  phase_of h = Idle -> 0 <= lba < 0x10000000 -> 0 <= n < 256 ->
  let '(h', r) := ata_select h lba n in
  r = 0 /\ phase_of h' = Idle /\ delay h' = 0 /\ word_of h' = word_of h /\ reg_of h' 0x1F2 = n /\
  Z.land (reg_of h' 0x1F6) 0xF0 = 0xE0 /\ addressed (reg_of h') = lba.
Proof.
  intros P Hl Hn. unfold ata_select. destruct (select_poll h) as [h0 r0] eqn:E0.
  pose proof (select_poll_ok h) as S. rewrite E0 in S. destruct S as (S0 & S1 & S2 & S3 & _). cbn [fst snd] in *.
  subst r0. rewrite P in S1. cbn [Z.eqb negb].
  assert (T : Z.land (Z.shiftr lba 24) 0x0F = lba / 0x1000000).
  { rewrite Z.shiftr_div_pow2 by lia. change 0x0F with (Z.ones 4). rewrite Z.land_ones by lia.
    change (2 ^ 24) with 0x1000000. apply Z.mod_small.
    split; [apply Z.div_pos|apply Z.div_lt_upper_bound]; lia. }
  assert (Ht : 0 <= lba / 0x1000000 < 16) by (split; [apply Z.div_pos|apply Z.div_lt_upper_bound]; lia).
  assert (M : forall x, 0 <= x mod 256 < 256) by (intros x; apply Z.mod_pos_bound; reflexivity).
  destruct (drive_byte (lba / 0x1000000) Ht) as (D1 & D2 & D3). rewrite T, D1.
  assert (B0 : u8 (Z.land lba 0xFF) = lba mod 256)
    by (rewrite <- (Z.shiftr_0_r lba) at 1; rewrite byte_of by lia; rewrite Z.div_1_r; reflexivity).
  rewrite B0, !byte_of by lia. unfold ATA_DRIVE, ATA_SECCNT, ATA_LBA_LO, ATA_LBA_MID, ATA_LBA_HI.
  change (2 ^ 8) with 0x100. change (2 ^ 16) with 0x10000.
  destruct (register_law h0 0x1F6 (0xE0 + lba / 0x1000000) S1 S2 ltac:(lia) ltac:(lia)) as (A1 & A2 & A3 & A4).
  set (h1 := outb h0 _ _) in *.
  destruct (register_law h1 0x1F2 n A1 A2 ltac:(lia) ltac:(lia)) as (C1 & C2 & C3 & C4). set (h2 := outb h1 _ _) in *.
  destruct (register_law h2 0x1F3 (lba mod 256) C1 C2 ltac:(lia) (M _)) as (F1 & F2 & F3 & F4).
  set (h3 := outb h2 _ _) in *.
  destruct (register_law h3 0x1F4 (lba / 0x100 mod 256) F1 F2 ltac:(lia) (M _)) as (G1 & G2 & G3 & G4).
  set (h4 := outb h3 _ _) in *.
  destruct (register_law h4 0x1F5 (lba / 0x10000 mod 256) G1 G2 ltac:(lia) (M _)) as (I1 & I2 & I3 & I4).
  split; [reflexivity|]. split; [exact I1|]. split; [exact I2|]. split; [congruence|].
  unfold addressed. rewrite !I4, !G4, !F4, !C4, !A4. cbn [Z.eqb Pos.eqb]. rewrite D2.
  split; [reflexivity|]. split; [exact D3|]. apply lba_split. lia.
Qed.

(** ** Transfers *)

Lemma ld8_put16 m a w x :
  0 <= w < 0x10000 ->
  ld8 (put16 m a w) x = if x =? a then Z.land w 0xFF else if x =? a + 1 then Z.shiftr w 8 else ld8 m x.
Proof.
  intros Hw. unfold put16. rewrite !ld8_st8.
  assert (0 <= Z.land w 0xFF < 256) by (change 0xFF with (Z.ones 8); rewrite Z.land_ones by lia; zdm).
  assert (0 <= Z.shiftr w 8 < 256) by (rewrite Z.shiftr_div_pow2 by lia; change (2 ^ 8) with 256; zdm).
  rewrite !u8_small by assumption. rewrite (Z.eqb_sym x a), (Z.eqb_sym x (a + 1)).
  destruct (Z.eqb_spec (a + 1) x), (Z.eqb_spec a x); try lia; reflexivity.
Qed.

(** The phase after a whole sector. *)
Definition after_sector (mk : Z -> Z -> Z -> ata_phase) (lba n : Z) : ata_phase := after_word mk lba 255 n.

Lemma read_words_ok h l n m buf :
  phase_of h = Sending l 0 n -> delay h = 0 ->
  let '(h', m') := read_words buf (h, m) in
  phase_of h' = after_sector Sending l n /\ word_of h' = word_of h /\
  forall x, ld8 m' x = if in_range x buf 512 then sector_byte h l (x - buf) else ld8 m x.
Proof.
  intros P D0. unfold read_words.
  pose proof (for_range_ind (fun i t =>
    (if i =? 256 then phase_of (fst t) = after_sector Sending l n else phase_of (fst t) = Sending l i n /\ delay (fst t) = 0) /\
    word_of (fst t) = word_of h /\
    forall x, ld8 (snd t) x = if in_range x buf (2 * i) then sector_byte h l (x - buf) else ld8 m x)
    0 256 (fun i t => let '(h, w) := inw (fst t) ATA_DATA in (h, put16 (snd t) (buf + 2 * i) w)) (h, m)) as Q.
  destruct (for_range 0 256 _ (h, m)) as [h' m']. apply Q; clear Q; [lia| |].
  - cbn. split; [auto|]. split; [reflexivity|]. intros x. rewrite (proj2 (in_range_false _ _ _)) by lia. reflexivity.
  - intros i [t mt] Hi (I1 & I2 & I3). cbn [fst snd] in *. destruct (Z.eqb_spec i 256); [lia|]. destruct I1 as [I1 I4].
    pose proof (inw_law t l i n I1 I4 ltac:(lia)) as W. unfold ATA_DATA. destruct (inw t 0x1F0) as [t' w]. cbn [fst snd].
    destruct W as (-> & W1 & W2 & W3). split; [|split; [congruence|]].
    + destruct (Z.eqb_spec (i + 1) 256) as [E|]; [replace i with 255 in W2 by lia; exact W2|].
      unfold after_word in W2. rewrite (proj2 (Z.ltb_lt i 255)) in W2 by lia. split; [exact W2|apply W3; lia].
    + intros x. rewrite ld8_put16 by apply word_range. rewrite I2, I3. unfold sector_byte, in_range.
      destruct (Z.eqb_spec x (buf + 2 * i)) as [->|].
      { replace (buf + 2 * i - buf) with (i * 2) by lia. rewrite Z.mod_mul, Z.div_mul by lia. zcase; lia || reflexivity. }
      destruct (Z.eqb_spec x (buf + 2 * i + 1)) as [->|]; [|zcase; lia || reflexivity].
      replace (buf + 2 * i + 1 - buf) with (1 + i * 2) by lia. rewrite Z.mod_add, Z.div_add by lia.
      change (1 mod 2 =? 0) with false. change (1 / 2 + i) with i. zcase; lia || reflexivity.
Qed.

Lemma write_words_ok h l n m buf :
  phase_of h = Receiving l 0 n -> delay h = 0 ->
  let h' := write_words m buf h in
  phase_of h' = after_sector Receiving l n /\
  forall l' k, word_of h' l' k = if (l' =? l) && (0 <=? k) && (k <? 256) then ld16 m (buf + 2 * k) else word_of h l' k.
Proof.
  intros P D0. unfold write_words.
  pose proof (for_range_ind (fun i t =>
    (if i =? 256 then phase_of t = after_sector Receiving l n else phase_of t = Receiving l i n /\ delay t = 0) /\
    forall l' k, word_of t l' k = if (l' =? l) && (0 <=? k) && (k <? i) then ld16 m (buf + 2 * k) else word_of h l' k)
    0 256 (fun i h => outw h ATA_DATA (ld16 m (buf + 2 * i))) h) as Q.
  cbv zeta. apply Q; clear Q; [lia| |].
  - split; [cbn; auto|]. intros l' k. destruct (l' =? l); zcase; lia || reflexivity.
  - intros i t Hi (I1 & I2). destruct (Z.eqb_spec i 256); [lia|]. destruct I1 as [I1 I4].
    destruct (outw_law t l i n (ld16 m (buf + 2 * i)) I1 I4 ltac:(lia) (ld16_range _ _)) as (W1 & W2 & W3). split.
    + unfold ATA_DATA. destruct (Z.eqb_spec (i + 1) 256) as [E|]; [replace i with 255 in W2 |- * by lia; exact W2|].
      unfold after_word in W2. rewrite (proj2 (Z.ltb_lt i 255)) in W2 by lia. split; [exact W2|apply W3; lia].
    + intros l' k. unfold ATA_DATA. rewrite W1, I2. destruct (l' =? l); cbn [andb]; [|reflexivity].
      destruct (Z.eqb_spec k i) as [->|]; zcase; lia || reflexivity.
Qed.

(** The phase before sector [s] of a command for [n] sectors from [lba]. *)
Definition at_sector (mk : Z -> Z -> Z -> ata_phase) (lba n s : Z) : ata_phase :=
  if s <? n then mk (lba + s) 0 (n - s) else Idle.

Lemma after_at mk lba n s : s < n -> after_sector mk (lba + s) (n - s) = at_sector mk lba n (s + 1).
Proof.
  intros Hs. unfold after_sector, after_word, at_sector. change (255 <? 255) with false.
  destruct (Z.leb_spec (n - s) 1), (Z.ltb_spec (s + 1) n); try lia; [reflexivity|]. f_equal; lia.
Qed.

(** Byte [k] of a transfer from [lba] on. *)
Definition disk_byte (h : H) (lba k : Z) : Z := sector_byte h (lba + k / 512) (k mod 512).

(** One sector more of a read. *)
Lemma read_turn_ok h lba n m buf s t :
  0 <= s < n -> phase_of (fst t) = at_sector Sending lba n s -> word_of (fst t) = word_of h ->
  (forall x, ld8 (snd t) x = if in_range x buf (512 * s) then disk_byte h lba (x - buf) else ld8 m x) ->
  let '(t', r) := read_turn buf s t in
  r = None /\ phase_of (fst t') = at_sector Sending lba n (s + 1) /\ word_of (fst t') = word_of h /\
  forall x, ld8 (snd t') x = if in_range x buf (512 * (s + 1)) then disk_byte h lba (x - buf) else ld8 m x.
Proof.
  intros Hs P Ew Em. unfold read_turn, at_sector in *. rewrite (proj2 (Z.ltb_lt s n)) in P by lia.
  pose proof (ata_wait_ok (fst t)) as W. destruct (ata_wait (fst t)) as [h1 r1].
  destruct W as (W0 & W1 & W2 & W3 & _); [rewrite P; discriminate|]. cbn [fst snd] in *. subst r1. cbn [Z.eqb negb].
  rewrite P in W1. pose proof (read_words_ok h1 (lba + s) (n - s) (snd t) (buf + 512 * s) W1 W2) as R.
  destruct (read_words _ _) as [h2 m2]. destruct R as (R1 & R2 & R3). cbn [fst snd].
  split; [reflexivity|]. split; [rewrite R1; apply after_at; lia|]. split; [congruence|]. intros x. rewrite R3, Em.
  destruct (in_range x (buf + 512 * s) 512) eqn:E1, (in_range x buf (512 * (s + 1))) eqn:E2;
    rewrite ?in_range_true, ?in_range_false in E1; rewrite ?in_range_true, ?in_range_false in E2; try lia.
  - unfold disk_byte, sector_byte. rewrite W3, Ew. assert ((x - buf) / 512 = s) as -> by zdm.
    assert ((x - buf) mod 512 = x - (buf + 512 * s)) as -> by zdm. reflexivity.
  - rewrite (proj2 (in_range_true _ _ _)) by lia. reflexivity.
  - rewrite (proj2 (in_range_false _ _ _)) by lia. reflexivity.
Qed.

Lemma write_turn_ok h lba n m buf s t :
  0 <= s < n -> phase_of t = at_sector Receiving lba n s ->
  (forall l k, word_of t l k = if in_range l lba s && (0 <=? k) && (k <? 256) then ld16 m (buf + 512 * (l - lba) + 2 * k) else word_of h l k) ->
  let '(t', r) := write_turn m buf s t in
  r = None /\ phase_of t' = at_sector Receiving lba n (s + 1) /\
  forall l k, word_of t' l k
  = if in_range l lba (s + 1) && (0 <=? k) && (k <? 256) then ld16 m (buf + 512 * (l - lba) + 2 * k) else word_of h l k.
Proof.
  intros Hs P Ew. unfold write_turn, at_sector in *. rewrite (proj2 (Z.ltb_lt s n)) in P by lia.
  pose proof (ata_wait_ok t) as W. destruct (ata_wait t) as [h1 r1].
  destruct W as (W0 & W1 & W2 & W3 & _); [rewrite P; discriminate|]. cbn [fst snd] in *. subst r1. cbn [Z.eqb negb].
  rewrite P in W1. destruct (write_words_ok h1 (lba + s) (n - s) m (buf + 512 * s) W1 W2) as [R1 R2].
  split; [reflexivity|]. split; [rewrite R1; apply after_at; lia|]. intros l k. rewrite R2, W3, Ew.
  destruct (Z.eqb_spec l (lba + s)) as [->|N].
  - rewrite (proj2 (in_range_true _ lba (s + 1))), (proj2 (in_range_false _ lba s)) by lia.
    replace (lba + s - lba) with s by lia. reflexivity.
  - assert (in_range l lba (s + 1) = in_range l lba s) as ->; [|reflexivity].
    unfold in_range. destruct (Z.leb_spec lba l); cbn [andb]; [|reflexivity]. zcase; lia || reflexivity.
Qed.

(** The data phase of a command for [n] sectors. *)
Lemma read_sectors_ok h lba n m buf :
  0 <= n -> phase_of h = at_sector Sending lba n 0 ->
  let '((h', m'), r) := for_range_ret 0 n (read_turn buf) (h, m) in
  r = None /\ phase_of h' = Idle /\ word_of h' = word_of h /\
  forall x, ld8 m' x = if in_range x buf (512 * n) then disk_byte h lba (x - buf) else ld8 m x.
Proof.
  intros Hn P. pose (I s (t : H * mem) := phase_of (fst t) = at_sector Sending lba n s /\ word_of (fst t) = word_of h /\
    forall x, ld8 (snd t) x = if in_range x buf (512 * s) then disk_byte h lba (x - buf) else ld8 m x).
  assert (I0 : I 0 (h, m)).
  { split; [exact P|]. split; [reflexivity|]. intros x. rewrite (proj2 (in_range_false _ _ _)) by lia. reflexivity. }
  pose proof (for_range_ret_ind I (fun (r : Z) _ => False) 0 n (read_turn buf) (h, m) Hn I0) as Q.
  assert (St : forall s t, 0 <= s < n -> I s t ->
    match read_turn buf s t with (t', None) => I (s + 1) t' | (_, Some r) => False end).
  { intros s t Hs (I1 & I2 & I3). pose proof (read_turn_ok h lba n m buf s t Hs I1 I2 I3) as T.
    destruct (read_turn buf s t) as [t' r]. destruct T as (-> & T). exact T. }
  specialize (Q St). destruct (for_range_ret 0 n (read_turn buf) (h, m)) as [[h' m'] [r|]]; [contradiction|].
  destruct Q as (Q1 & Q2 & Q3). unfold at_sector in Q1. rewrite Z.ltb_irrefl in Q1. auto.
Qed.

Lemma write_sectors_ok h lba n m buf :
  0 <= n -> phase_of h = at_sector Receiving lba n 0 ->
  let '(h', r) := for_range_ret 0 n (write_turn m buf) h in
  r = None /\ phase_of h' = Idle /\
  forall l k, word_of h' l k
  = if in_range l lba n && (0 <=? k) && (k <? 256) then ld16 m (buf + 512 * (l - lba) + 2 * k) else word_of h l k.
Proof.
  intros Hn P. pose (I s t := phase_of t = at_sector Receiving lba n s /\
    forall l k, word_of t l k = if in_range l lba s && (0 <=? k) && (k <? 256) then ld16 m (buf + 512 * (l - lba) + 2 * k) else word_of h l k).
  assert (I0 : I 0 h) by (split; [exact P|]; intros l k; rewrite (proj2 (in_range_false _ _ _)) by lia; reflexivity).
  pose proof (for_range_ret_ind I (fun (r : Z) _ => False) 0 n (write_turn m buf) h Hn I0) as Q.
  assert (St : forall s t, 0 <= s < n -> I s t ->
    match write_turn m buf s t with (t', None) => I (s + 1) t' | (_, Some r) => False end).
  { intros s t Hs [I1 I2]. pose proof (write_turn_ok h lba n m buf s t Hs I1 I2) as T.
    destruct (write_turn m buf s t) as [t' r]. destruct T as (-> & T). exact T. }
  specialize (Q St). destruct (for_range_ret 0 n (write_turn m buf) h) as [h' [r|]]; [contradiction|].
  destruct Q as (Q1 & Q2). unfold at_sector in Q1. rewrite Z.ltb_irrefl in Q1. auto.
Qed.

(** Reading and writing [n] sectors. *)
Lemma ata_read_ok h lba n m buf :
  phase_of h = Idle -> 1 <= n < 256 -> 0 <= lba -> lba + n <= drive_size ->
  let '(h', m', r) := ata_read h lba n m buf in
  r = 0 /\ phase_of h' = Idle /\ word_of h' = word_of h /\
  forall x, ld8 m' x = if in_range x buf (512 * n) then disk_byte h lba (x - buf) else ld8 m x.
Proof.
  intros P Hn H0 Hl. pose proof drive_lba28. unfold ata_read. pose proof (ata_select_ok h lba n P ltac:(lia) ltac:(lia)) as S.
  destruct (ata_select h lba n) as [h0 r0]. destruct S as (-> & S1 & S2 & S3 & S4 & S5 & S6). cbn [Z.eqb negb].
  destruct (read_command h0 n S1 S2 S4 Hn S5 ltac:(lia)) as [C1 C2]. unfold ATA_CMD. rewrite S6 in C1.
  set (h1 := outb h0 0x1F7 0x20) in *.
  assert (P1 : phase_of h1 = at_sector Sending lba n 0)
    by (unfold at_sector; rewrite (proj2 (Z.ltb_lt 0 n)), Z.add_0_r, Z.sub_0_r by lia; exact C1).
  pose proof (read_sectors_ok h1 lba n m buf ltac:(lia) P1) as R.
  destruct (for_range_ret 0 n (read_turn buf) (h1, m)) as [[h2 m2] r]. destruct R as (-> & R1 & R2 & R3).
  split; [reflexivity|]. split; [exact R1|]. split; [congruence|]. intros x. rewrite R3.
  unfold disk_byte, sector_byte. rewrite C2, S3. reflexivity.
Qed.

Lemma ata_write_ok h lba n m buf :
  phase_of h = Idle -> 1 <= n < 256 -> 0 <= lba -> lba + n <= drive_size ->
  let '(h', r) := ata_write h lba n m buf in
  r = 0 /\ phase_of h' = Idle /\
  forall l k, word_of h' l k
  = if in_range l lba n && (0 <=? k) && (k <? 256) then ld16 m (buf + 512 * (l - lba) + 2 * k) else word_of h l k.
Proof.
  intros P Hn H0 Hl. pose proof drive_lba28. unfold ata_write. pose proof (ata_select_ok h lba n P ltac:(lia) ltac:(lia)) as S.
  destruct (ata_select h lba n) as [h0 r0]. destruct S as (-> & S1 & S2 & S3 & S4 & S5 & S6). cbn [Z.eqb negb].
  destruct (write_command h0 n S1 S2 S4 Hn S5 ltac:(lia)) as [C1 C2]. unfold ATA_CMD. rewrite S6 in C1.
  set (h1 := outb h0 0x1F7 0x30) in *.
  assert (P1 : phase_of h1 = at_sector Receiving lba n 0)
    by (unfold at_sector; rewrite (proj2 (Z.ltb_lt 0 n)), Z.add_0_r, Z.sub_0_r by lia; exact C1).
  pose proof (write_sectors_ok h1 lba n m buf ltac:(lia) P1) as R.
  destruct (for_range_ret 0 n (write_turn m buf) h1) as [h3 r]. destruct R as (-> & R1 & R2).
  pose proof (ata_idle_ok h3 R1) as I. destruct (ata_idle h3) as [h4 r4]. destruct I as (I0 & I1 & I2 & I3 & _).
  cbn [fst snd] in *. subst r4. cbn [Z.eqb negb].
  destruct (flush_command h4 (eq_trans I1 R1) I2) as [F1 F2]. pose proof (ata_idle_ok _ F1) as J.
  destruct (ata_idle (outb h4 0x1F7 0xE7)) as [h5 r5]. destruct J as (J0 & J1 & _ & J3 & _). cbn [fst snd] in *.
  split; [exact J0|]. split; [congruence|]. intros l k. rewrite J3, F2, I3, R2, C2, S3. reflexivity.
Qed.

(** Byte [k] of a sector whose words were taken from memory at [buf]. *)
Lemma word_halves m buf k :
  0 <= k ->
  (if k mod 2 =? 0 then Z.land (ld16 m (buf + 2 * (k / 2))) 0xFF else Z.shiftr (ld16 m (buf + 2 * (k / 2))) 8)
  = ld8 m (buf + k).
Proof.
  intros Hk. unfold ld16. set (a := buf + 2 * (k / 2)). pose proof (ld8_range m a). pose proof (ld8_range m (a + 1)).
  rewrite Z.shiftr_div_pow2 by lia. change 0xFF with (Z.ones 8). rewrite Z.land_ones by lia. change (2 ^ 8) with 256.
  pose proof (Z.div_mod k 2 ltac:(lia)). pose proof (Z.mod_pos_bound k 2 ltac:(lia)).
  destruct (Z.eqb_spec (k mod 2) 0).
  - replace (buf + k) with a by lia. zdm.
  - replace (buf + k) with (a + 1) by lia. zdm.
Qed.

(** ** The interface *)

#[export] Instance ata_disk : Disk H := {
  read_sector h lba buf := ata_read h lba 1 buf 0;
  write_sector h lba buf := ata_write h lba 1 buf 0
}.

Lemma sector_byte_range h l k : 0 <= sector_byte h l k < 256.
Proof.
  unfold sector_byte. pose proof (word_range h l (k / 2)). destruct (_ =? 0).
  - change 0xFF with (Z.ones 8). rewrite Z.land_ones by lia. apply Z.mod_pos_bound. reflexivity.
  - rewrite Z.shiftr_div_pow2 by lia. change (2 ^ 8) with 256. split; [apply Z.div_pos|apply Z.div_lt_upper_bound]; lia.
Qed.

(** What [write_sector] stores, byte by byte. *)
Lemma ata_write_bytes h lba m :
  phase_of h = Idle -> 0 <= lba < drive_size ->
  let '(h', r) := ata_write h lba 1 m 0 in
  r = 0 /\ phase_of h' = Idle /\
  forall l k, 0 <= k < 512 -> sector_byte h' l k = if l =? lba then ld8 m k else sector_byte h l k.
Proof.
  intros P Hl. pose proof (ata_write_ok h lba 1 m 0 P ltac:(lia) ltac:(lia) ltac:(lia)) as W. destruct (ata_write h lba 1 m 0) as [h' r].
  destruct W as (W1 & W2 & W3). split; [exact W1|]. split; [exact W2|]. intros l k Hk. unfold sector_byte. rewrite W3.
  assert (Hd : 0 <= k / 2 < 256) by (split; [apply Z.div_pos|apply Z.div_lt_upper_bound]; lia).
  destruct (Z.leb_spec 0 (k / 2)), (Z.ltb_spec (k / 2) 256); try lia. rewrite !andb_true_r.
  destruct (Z.eqb_spec l lba) as [->|]; [|rewrite (proj2 (in_range_false _ _ _)) by lia; reflexivity].
  rewrite (proj2 (in_range_true _ _ _)) by lia. replace (0 + 512 * (lba - lba)) with 0 by lia. apply (word_halves m 0 k). lia.
Qed.

#[export] Instance ata_disk_laws : DiskLaws H.
Proof.
  refine {| disk_ok := fun h => phase_of h = Idle; disk_size := drive_size; sector := sector_byte |}.
  - exact sector_byte_range.
  - intros h lba buf P Hl. cbn [read_sector ata_disk]. pose proof (ata_read_ok h lba 1 buf 0 P ltac:(lia) ltac:(lia) ltac:(lia)) as R.
    destruct (ata_read h lba 1 buf 0) as [[h' b'] r]. destruct R as (R1 & R2 & R3 & R4).
    split; [exact R1|]. split; [exact R2|]. split; [intros l k; unfold sector_byte; rewrite R3; reflexivity|].
    intros x. rewrite R4. unfold in_range. change (0 + 512 * 1) with 512. replace (x - 0) with x by lia.
    destruct (Z.leb_spec 0 x), (Z.ltb_spec x 512); cbn [andb]; try reflexivity. unfold disk_byte.
    rewrite Z.div_small, Z.mod_small, Z.add_0_r by lia. reflexivity.
  - intros h lba buf P Hl. cbn [write_sector ata_disk]. exact (ata_write_bytes h lba buf P Hl).
Defined.

(** C35. The disk driver.  On a drive that follows the ATA protocol, with the
    drive busy for fewer than a million status reads at a time, [ata_read] of
    [n] sectors (1 to 255) fills exactly the 512 [n] bytes of the buffer with the
    sectors from [lba] on, in order, [ata_write] stores exactly those sectors
    from the buffer, both return 0 and leave the drive ready for the next
    command; the 28-bit address and the count are encoded correctly. *)
Theorem ata_transfers (h : H) (lba n : Z) (m : mem) (buf : Z) :
  phase_of h = Idle -> 1 <= n < 256 -> 0 <= lba -> lba + n <= drive_size ->
  (let '(h', m', r) := ata_read h lba n m buf in
   r = 0 /\ phase_of h' = Idle /\ word_of h' = word_of h /\
   forall x, ld8 m' x = if in_range x buf (512 * n) then disk_byte h lba (x - buf) else ld8 m x) /\
  (let '(h', r) := ata_write h lba n m buf in
   r = 0 /\ phase_of h' = Idle /\
   forall l k, word_of h' l k
   = if in_range l lba n && (0 <=? k) && (k <? 256) then ld16 m (buf + 512 * (l - lba) + 2 * k) else word_of h l k).
Proof.
  intros P Hn H0 Hl. split; [exact (ata_read_ok h lba n m buf P Hn H0 Hl)|exact (ata_write_ok h lba n m buf P Hn H0 Hl)].
Qed.

End Driver.

(** ** A drive that follows the protocol *)

(** Status reads until the drive is ready. *)
Inductive lag := Lag0 | Lag1 | Lag2 | Lag3.
Definition lag_pred (n : lag) : lag := match n with Lag3 => Lag2 | Lag2 => Lag1 | _ => Lag0 end.
Definition lag_value (n : lag) : Z := match n with Lag3 => 3 | Lag2 => 2 | Lag1 => 1 | Lag0 => 0 end.

Record drive := mk_drive {
  dr_phase : ata_phase;
  dr_lag : lag;
  dr_regs : Z -> Z;
  dr_words : Z -> Z -> Z
}.

(** Three status reads of work after a command, two after a whole sector. *)
#[local] Instance drive_ports : Ports drive := {
  inb h p :=
    (mk_drive (dr_phase h) (lag_pred (dr_lag h)) (dr_regs h) (dr_words h),
     match dr_lag h with
     | Lag0 => match dr_phase h with Idle => 0x40 | _ => 0x48 end
     | _ => 0x80
     end);
  outb h p v :=
    if p =? 0x1F7 then
      mk_drive (if v =? 0x20 then Sending (addressed (dr_regs h)) 0 (dr_regs h 0x1F2)
                else if v =? 0x30 then Receiving (addressed (dr_regs h)) 0 (dr_regs h 0x1F2) else Idle)
        Lag3 (dr_regs h) (dr_words h)
    else mk_drive (dr_phase h) (dr_lag h) (fun q => if q =? p then v else dr_regs h q) (dr_words h);
  inw h p :=
    match dr_phase h with
    | Sending l k n =>
        (mk_drive (after_word Sending l k n) (if k <? 255 then Lag0 else Lag2) (dr_regs h) (dr_words h),
         u16 (dr_words h l k))
    | _ => (h, 0)
    end;
  outw h p w :=
    match dr_phase h with
    | Receiving l k n =>
        mk_drive (after_word Receiving l k n) (if k <? 255 then Lag0 else Lag2) (dr_regs h)
          (fun l' k' => if (l' =? l) && (k' =? k) then w else dr_words h l' k')
    | _ => h
    end
}.

#[local] Instance drive_laws : AtaLaws drive.
Proof.
  refine {| phase_of := dr_phase; delay h := lag_value (dr_lag h); reg_of := dr_regs;
            word_of h l k := u16 (dr_words h l k); drive_size := 2048 |}.
  - lia.
  - intros h. destruct (dr_lag h); cbn; lia.
  - intros h l k. apply Z.mod_pos_bound. reflexivity.
  - intros [p n r w]. cbn. repeat (split; [reflexivity|]). destruct n, p; cbn; split; intros; repeat split; lia || reflexivity.
  - intros h p v Hp Hd Rp _. cbn. destruct (Z.eqb_spec p 0x1F7); [lia|]. auto.
  - intros h n _ _ <- _ _ _. auto.
  - intros h n _ _ <- _ _ _. auto.
  - intros h _ _. auto.
  - intros h l k n Hp Hd Hk. cbn. rewrite Hp. cbn. repeat (split; [reflexivity|]). intros Hlt.
    rewrite (proj2 (Z.ltb_lt k 255)) by exact Hlt. reflexivity.
  - intros h l k n w Hp Hd Hk Hw. cbn. rewrite Hp. cbn. split; [|split; [reflexivity|]].
    + intros l' k'. destruct ((l' =? l) && (k' =? k))%bool; [apply Z.mod_small; lia|reflexivity].
    + intros Hlt. rewrite (proj2 (Z.ltb_lt k 255)) by exact Hlt. reflexivity.
Defined.

Definition demo_drive : drive := mk_drive Idle Lag2 (fun _ => 0) (fun l k => 3 * l + k).

(** Three sectors from 100 on. *)
Lemma ata_transfers_witness :
  (let '(h', m', r) := ata_read demo_drive 100 3 ∅ 0x2000 in
   r = 0 /\ phase_of h' = Idle /\ word_of h' = word_of demo_drive /\
   forall x, ld8 m' x = if in_range x 0x2000 (512 * 3) then disk_byte demo_drive 100 (x - 0x2000) else ld8 ∅ x) /\
  (let '(h', r) := ata_write demo_drive 100 3 ∅ 0x2000 in
   r = 0 /\ phase_of h' = Idle /\
   forall l k, word_of h' l k
   = if in_range l 100 3 && (0 <=? k) && (k <? 256) then ld16 ∅ (0x2000 + 512 * (l - 100) + 2 * k) else word_of demo_drive l k).
Proof. apply (ata_transfers demo_drive 100 3 ∅ 0x2000); [reflexivity|lia|lia|cbn; lia]. Defined.
