(* ===== verification/Fs.v ===== *)
(** * PyroFS (kernel/fs.c)

    The filesystem's static state is the superblock, the directory and one
    sector buffer, each 512 raw bytes exactly as on disk; a field of a
    directory entry is the load at its offset.  The disk is any implementation
    of the [Disk] interface. *)

From stdpp Require Import base gmap list numbers option.
From Stdlib Require Import ZArith Lia Bool.
From S2P Require Import Prelude CString Screen Interfaces.

Definition FS_MAGIC : Z := 0x50594F53.
Definition SUPER_LBA : Z := 99.
Definition DIR_LBA : Z := 100.
Definition DATA_LBA : Z := 101.
Definition MAX_FILES : Z := 16.
Definition NAME_LEN : Z := 20.
Definition SLOT_SECTORS : Z := 32.

(** The fields of [dir[i]], a 32-byte [fs_entry_t].  [ent_name] is the string
    that starts at [dir[i].name]: it runs on to the first zero byte, over the
    other fields if the name has none. *)
Definition ent_name (dir : mem) (i : Z) : list Z := bytes_at dir (32 * i) (512 - 32 * i).
Definition ent_size (dir : mem) (i : Z) : Z := ld32 dir (32 * i + 20).
Definition ent_start (dir : mem) (i : Z) : Z := ld32 dir (32 * i + 24).
Definition ent_used (dir : mem) (i : Z) : bool := negb (ld32 dir (32 * i + 28) =? 0).

Definition set_ent_name (dir : mem) (i : Z) (name : list Z) : mem :=
  put_bytes dir (32 * i) (strncpy_copy name (Z.to_nat (NAME_LEN - 1))).
Definition set_ent_size (dir : mem) (i v : Z) : mem := st32 dir (32 * i + 20) v.
Definition set_ent_start (dir : mem) (i v : Z) : mem := st32 dir (32 * i + 24) v.
Definition set_ent_used (dir : mem) (i v : Z) : mem := st32 dir (32 * i + 28) v.

(** The fields of the superblock. *)
Definition sup_magic (super : mem) : Z := ld32 super 0.
Definition sup_next (super : mem) : Z := ld32 super 4.
Definition set_sup_magic (super : mem) (v : Z) : mem := st32 super 0 v.
Definition set_sup_next (super : mem) (v : Z) : mem := st32 super 4 v.

Section Fs.
Context {D : Type} {DK : Disk D}.

Record fs := mk_fs {
  dev : D;
  super : mem;
  dir : mem;
  secbuf : mem
}.

Definition with_dir (f : fs) (m : mem) : fs := mk_fs (dev f) (super f) m (secbuf f).

(** [ata_write(lba, 1, buf)] on the filesystem's disk. *)
Definition put_sector (f : fs) (lba : Z) (buf : mem) : fs * Z :=
  let '(d, r) := write_sector (dev f) lba buf in (mk_fs d (super f) (dir f) (secbuf f), r).

Definition load_meta (f : fs) : fs :=
  let '(d, s, _) := read_sector (dev f) SUPER_LBA (super f) in
  let '(d, m, _) := read_sector d DIR_LBA (dir f) in
  mk_fs d s m (secbuf f).

Definition format (f : fs) : fs :=
  let s := memset (super f) 0 0 512 in
  let s := set_sup_magic s FS_MAGIC in
  let s := set_sup_next s DATA_LBA in
  let m := memset (dir f) 0 0 512 in
  let f := mk_fs (dev f) s m (secbuf f) in
  let f := fst (put_sector f SUPER_LBA (super f)) in
  fst (put_sector f DIR_LBA (dir f)).

Definition fs_init (f : fs) : fs :=
  let f := load_meta f in
  if negb (sup_magic (super f) =? FS_MAGIC) then format f else f.

Definition find (m : mem) (name : list Z) : option Z :=
  find_range 0 MAX_FILES (fun i => ent_used m i && (strcmp (ent_name m i) name =? 0)).

Definition fs_list (f : fs) (s : screen) : screen :=
  let '(s, count) :=
    for_range 0 MAX_FILES (fun i '(s, count) =>
      if ent_used (dir f) i then
        let s := kprint s (lit "  ") in
        let s := kprint s (ent_name (dir f) i) in
        let s := kprint s (lit "  (") in
        let s := kprint_dec s (ent_size (dir f) i) in
        let s := kprint s (lit " bytes)" ++ [10]) in
        (s, count + 1)
      else (s, count)) (s, 0) in
  if count =? 0 then kprint s (lit "  (no files)" ++ [10]) else s.

(** The entry [fs_write] uses: the file's own, or a new one at a fresh slot.
    The result of writing the superblock is not looked at. *)
Definition fs_entry_for (f : fs) (name : list Z) : fs * option Z :=
  match find (dir f) name with
  | Some i => (f, Some i)
  | None =>
      match find_range 0 MAX_FILES (fun i => negb (ent_used (dir f) i)) with
      | None => (f, None)
      | Some i =>
          let m := set_ent_used (dir f) i 1 in
          let m := set_ent_name m i name in
          let m := set_ent_start m i (sup_next (super f)) in
          let s := set_sup_next (super f) (u32 (sup_next (super f) + SLOT_SECTORS)) in
          let f := mk_fs (dev f) s m (secbuf f) in
          (fst (put_sector f SUPER_LBA s), Some i)
      end
  end.

(** How many bytes of a [size]-byte transfer fall into sector [s]. *)
Definition chunk_of (size s : Z) : Z :=
  let off := u32 (s * 512) in
  let chunk := if off <? size then size - off else 0 in
  if 512 <? chunk then 512 else chunk.

(** One turn of the writing loop; [Some (-1)] is the error return. *)
Definition write_chunk (i : Z) (m : mem) (data size s : Z) (f : fs) : fs * option Z :=
  let b := memset (secbuf f) 0 0 512 in
  let off := u32 (s * 512) in
  let chunk := chunk_of size s in
  let b := if negb (chunk =? 0) then copy_bytes b 0 m (data + off) chunk else b in
  let f := mk_fs (dev f) (super f) (dir f) b in
  let '(f, r) := put_sector f (u32 (ent_start (dir f) i + s)) b in
  if negb (r =? 0) then (f, Some (-1)) else (f, None).

(** [fs_write(name, data, size)] for [size] bytes of the memory [m] at [data]. *)
Definition fs_write (f : fs) (name : list Z) (m : mem) (data size : Z) : fs * Z :=
  match fs_entry_for f name with
  | (f, None) => (f, -1)
  | (f, Some i) =>
      let size := if SLOT_SECTORS * 512 <? size then SLOT_SECTORS * 512 else size in
      let nsec := (size + 511) / 512 in
      let nsec := if nsec =? 0 then 1 else nsec in
      match for_range_ret 0 nsec (write_chunk i m data size) f with
      | (f, Some r) => (f, r)
      | (f, None) =>
          let f := with_dir f (set_ent_size (dir f) i size) in
          (fst (put_sector f DIR_LBA (dir f)), 0)
      end
  end.

(** One turn of the reading loop. *)
Definition read_chunk (i buf size s : Z) (st : fs * mem) : (fs * mem) * option Z :=
  let '(f, m) := st in
  let '(d, b, r) := read_sector (dev f) (u32 (ent_start (dir f) i + s)) (secbuf f) in
  let f := mk_fs d (super f) (dir f) b in
  if negb (r =? 0) then ((f, m), Some (-1))
  else
    let off := u32 (s * 512) in
    let chunk := chunk_of size s in
    ((f, if negb (chunk =? 0) then copy_bytes m (buf + off) b 0 chunk else m), None).

(** [fs_read(name, buf, max, &out)]: the filesystem, the caller's memory, the
    result, and the value stored through [out]. *)
Definition fs_read (f : fs) (name : list Z) (m : mem) (buf max : Z) : fs * mem * Z * option Z :=
  match find (dir f) name with
  | None => (f, m, -1, None)
  | Some i =>
      let size := ent_size (dir f) i in
      let size := if max <? size then max else size in
      let nsec := u32 (size + 511) / 512 in
      match for_range_ret 0 nsec (read_chunk i buf size) (f, m) with
      | ((f, m), Some r) => (f, m, r, None)
      | ((f, m), None) => (f, m, 0, Some size)
      end
  end.

(** ** The caller's memory

    Whatever the disk does: what [fs_write] and [fs_read] read and write of the
    caller's memory. *)

(** A chunk lies inside the transfer. *)
Lemma chunk_inside size s :
  chunk_of size s <> 0 -> 0 <= u32 (s * 512) /\ 0 < chunk_of size s /\ u32 (s * 512) + chunk_of size s <= size.
Proof.
  unfold chunk_of. pose proof (u32_range (s * 512)). cbv zeta.
  destruct (Z.ltb_spec (u32 (s * 512)) size); zcase; lia.
Qed.

(** [fs_write] reads nothing but its [size] bytes of data. *)
Lemma fs_write_agree f name m m' data size :
  (forall x, data <= x < data + size -> ld8 m' x = ld8 m x) ->
  fs_write f name m' data size = fs_write f name m data size.
Proof.
  intros H. unfold fs_write. destruct (fs_entry_for f name) as [g [i|]]; [|reflexivity]. cbv zeta.
  set (sz := if _ <? size then _ else size).
  assert (Hs : sz <= size) by (unfold sz; zcase; lia).
  rewrite (for_range_ret_ext _ _ _ (write_chunk i m data sz)); [reflexivity|].
  intros s t _. unfold write_chunk. pose proof (chunk_inside sz s) as C.
  destruct (Z.eqb_spec (chunk_of sz s) 0) as [|N]; cbn [negb]; [reflexivity|]. specialize (C N).
  rewrite (copy_bytes_agree _ _ m m'); [reflexivity|]. intros x Hx. apply H. lia.
Qed.

(** [fs_read] writes nothing but its buffer. *)
Lemma fs_read_confined f name m buf max x :
  x < buf \/ buf + max <= x -> ld8 (snd (fst (fst (fs_read f name m buf max)))) x = ld8 m x.
Proof.
  intros Hx. unfold fs_read. destruct (find (dir f) name) as [i|]; [|reflexivity]. cbv zeta.
  set (sz := if max <? _ then max else _). assert (Hs : sz <= max) by (unfold sz; zcase; lia).
  set (n := u32 (sz + 511) / 512).
  pose proof (for_range_ret_keeps (R := Z) (fun t => ld8 (snd t) x = ld8 m x) 0 n (read_chunk i buf sz) (f, m)
    eq_refl) as K.
  destruct (for_range_ret 0 n _ _) as [[g m'] [r|]]; cbn in K |- *; apply K; clear K;
    intros s [h t] IH; cbn in IH; unfold read_chunk; destruct (read_sector _ _ _) as [[d b] r'];
    (destruct (negb (r' =? 0)); [exact IH|]); pose proof (chunk_inside sz s) as C; cbn;
    (destruct (Z.eqb_spec (chunk_of sz s) 0) as [|N]; cbn [negb]; [exact IH|]); specialize (C N);
    rewrite ld8_copy_bytes by lia; rewrite (proj2 (in_range_false _ _ _)) by lia; exact IH.
Qed.

(** On memories that agree on [P], [fs_read] does the same and they still agree. *)
Lemma fs_read_agree (P : Z -> Prop) f name m m' buf max :
  (forall x, P x -> ld8 m' x = ld8 m x) ->
  let '(f1, m1, rc, out) := fs_read f name m buf max in
  exists m2, fs_read f name m' buf max = (f1, m2, rc, out) /\ forall x, P x -> ld8 m2 x = ld8 m1 x.
Proof.
  intros H. unfold fs_read. destruct (find (dir f) name) as [i|]; [|eauto]. cbv zeta.
  set (sz := if max <? _ then max else _). set (n := u32 (sz + 511) / 512).
  pose proof (for_range_ret_rel (fun t t' => fst t' = fst t /\ forall x, P x -> ld8 (snd t') x = ld8 (snd t) x)
    0 n (read_chunk i buf sz) (read_chunk i buf sz) (f, m) (f, m') (conj eq_refl H)) as K.
  assert (St : forall s x y, fst y = fst x /\ (forall a, P a -> ld8 (snd y) a = ld8 (snd x) a) ->
    (fst (fst (read_chunk i buf sz s y)) = fst (fst (read_chunk i buf sz s x)) /\
     forall a, P a -> ld8 (snd (fst (read_chunk i buf sz s y))) a = ld8 (snd (fst (read_chunk i buf sz s x))) a) /\
    snd (read_chunk i buf sz s x) = snd (read_chunk i buf sz s y)).
  { intros s [h t] [h' t'] [E A]. cbn in E, A. subst h'. unfold read_chunk.
    destruct (read_sector _ _ _) as [[d b] r]. destruct (negb (r =? 0)); cbn; [auto|].
    split; [|reflexivity]. split; [reflexivity|]. intros a Ha. pose proof (chunk_inside sz s) as C.
    destruct (Z.eqb_spec (chunk_of sz s) 0) as [|N]; cbn [negb]; [auto|]. specialize (C N).
    rewrite !ld8_copy_bytes by lia. rewrite (A a Ha). reflexivity. }
  specialize (K St).
  destruct (for_range_ret 0 n _ (f, m)) as [[g m1] o], (for_range_ret 0 n _ (f, m')) as [[g' m2] o'].
  destruct K as [[E A] E']. cbn in E, A, E'. subst g' o'. destruct o; eauto.
Qed.

(** ** Specification *)

Section Laws.
Context {DL : DiskLaws D}.
Hypothesis Hdisk : DATA_LBA + MAX_FILES * SLOT_SECTORS <= disk_size.

(** The 20 bytes of a name field. *)
Definition name20 (m : mem) (i : Z) : list Z := bytes_at m (32 * i) NAME_LEN.

(** A filesystem with [c] files: they are the first [c] directory entries, and
    file [i] owns the [i]-th 32-sector slot of the data area. *)
Record fs_ok (f : fs) (c : Z) : Prop := {
  fo_dev : disk_ok (dev f);
  fo_count : 0 <= c <= MAX_FILES;
  fo_magic : sup_magic (super f) = FS_MAGIC;
  fo_next : sup_next (super f) = DATA_LBA + SLOT_SECTORS * c;
  fo_used : forall i, 0 <= i < MAX_FILES -> ent_used (dir f) i = (i <? c);
  fo_start : forall i, 0 <= i < c -> ent_start (dir f) i = DATA_LBA + SLOT_SECTORS * i;
  fo_size : forall i, 0 <= i < c -> ent_size (dir f) i <= SLOT_SECTORS * 512;
  fo_names : forall i, 0 <= i < c -> tlen (text (name20 (dir f) i)) < NAME_LEN;
  fo_distinct : forall i j, 0 <= i < c -> 0 <= j < c ->
    text (name20 (dir f) i) = text (name20 (dir f) j) -> i = j
}.

(** The metadata on disk is the metadata in memory. *)
Definition synced (f : fs) : Prop := forall k, 0 <= k < 512 ->
  sector (dev f) SUPER_LBA k = ld8 (super f) k /\ sector (dev f) DIR_LBA k = ld8 (dir f) k.

(** The filesystem as a client sees it: a partial map from names to contents. *)
Definition file_bytes (f : fs) (i : Z) : list Z :=
  map (fun k => sector (dev f) (ent_start (dir f) i + k / 512) (k mod 512)) (seqZ 0 (ent_size (dir f) i)).

Definition lookup_file (f : fs) (name : list Z) : option (list Z) := file_bytes f <$> find (dir f) name.

(** ** Names *)

Lemma text_app_short l1 l2 : tlen (text l1) < tlen l1 -> text (l1 ++ l2) = text l1.
Proof.
  induction l1 as [|c l1 IH]; cbn [text app]; [unfold tlen; cbn; lia|].
  rewrite tlen_cons. destruct (c =? 0); [reflexivity|]. rewrite tlen_cons. intros H. f_equal. apply IH. lia.
Qed.

Lemma bytes_at_split m a n k : 0 <= k <= n -> bytes_at m a n = bytes_at m a k ++ bytes_at m (a + k) (n - k).
Proof.
  intros Hk. unfold bytes_at. replace n with (k + (n - k)) at 1 by lia. rewrite seqZ_app, map_app by lia. f_equal.
  replace (0 + k) with k by lia. apply nth_ext with 0 0.
  - rewrite !length_map, !length_seqZ. reflexivity.
  - intros j Hj. rewrite length_map, length_seqZ in Hj.
    rewrite !(nth_indep _ 0 (ld8 m (a + 0))) by (rewrite length_map, length_seqZ; lia).
    rewrite (map_nth (fun k0 => ld8 m (a + k0)) (seqZ k (n - k)) 0 j).
    rewrite (nth_indep _ (ld8 m (a + 0)) (ld8 m (a + k + 0))) by (rewrite length_map, length_seqZ; lia).
    rewrite (map_nth (fun k0 => ld8 m (a + k + k0)) (seqZ 0 (n - k)) 0 j).
    rewrite !nth_lookup, !lookup_seqZ_lt by lia. cbn. f_equal. lia.
Qed.

(** A terminated name field is the entry's name. *)
Lemma ent_name_text m i :
  0 <= i < MAX_FILES -> tlen (text (name20 m i)) < NAME_LEN -> text (ent_name m i) = text (name20 m i).
Proof.
  intros Hi Ht. unfold ent_name, MAX_FILES, NAME_LEN in *. rewrite (bytes_at_split m (32 * i) (512 - 32 * i) 20) by lia.
  unfold name20, NAME_LEN in *. apply text_app_short. rewrite bytes_at_length by lia. exact Ht.
Qed.

Lemma find_ok f c name :
  fs_ok f c ->
  match find (dir f) name with
  | Some i => 0 <= i < c /\ text (name20 (dir f) i) = text name
  | None => forall i, 0 <= i < c -> text (name20 (dir f) i) <> text name
  end.
Proof.
  intros O. pose proof (fo_count _ _ O) as Hc. unfold find.
  destruct (find_range 0 MAX_FILES _) as [i|] eqn:E.
  - apply find_range_some in E as (Hi & E & _). apply andb_true_iff in E as [E1 E2].
    rewrite (fo_used _ _ O) in E1 by exact Hi. apply Z.ltb_lt in E1. split; [lia|].
    apply Z.eqb_eq, strcmp_eq in E2. rewrite <- E2. symmetry. apply ent_name_text; [exact Hi|apply (fo_names _ _ O); lia].
  - intros i Hi Ht. pose proof (find_range_none _ _ _ E i ltac:(lia)) as F. cbv beta in F.
    rewrite (fo_used _ _ O), (proj2 (Z.ltb_lt i c)) in F by lia. cbn [andb] in F.
    apply Z.eqb_neq in F. apply F. apply strcmp_eq. rewrite ent_name_text; [exact Ht|lia|apply (fo_names _ _ O); lia].
Qed.

Lemma find_some f c name i :
  fs_ok f c -> 0 <= i < c -> text (name20 (dir f) i) = text name -> find (dir f) name = Some i.
Proof.
  intros O Hi Ht. pose proof (find_ok f c name O) as F. destruct (find (dir f) name) as [j|].
  - destruct F as [Hj Ej]. f_equal. apply (fo_distinct _ _ O); [exact Hj|exact Hi|congruence].
  - destruct (F i Hi Ht).
Qed.

(** ** Directory entries *)

(** Entry [j] of [m'] is entry [j] of [m]. *)
Definition same_entry (m m' : mem) (j : Z) : Prop :=
  name20 m' j = name20 m j /\ ent_size m' j = ent_size m j /\
  ent_start m' j = ent_start m j /\ ent_used m' j = ent_used m j.

Lemma entry_same m m' j :
  (forall x, 32 * j <= x < 32 * j + 32 -> ld8 m' x = ld8 m x) -> same_entry m m' j.
Proof.
  intros H. unfold same_entry, ent_size, ent_start, ent_used.
  assert (E : forall o, 0 <= o -> o + 4 <= 32 -> ld32 m' (32 * j + o) = ld32 m (32 * j + o))
    by (intros o H1 H2; apply ld32_ext; intros; apply H; lia).
  rewrite !E by lia. repeat (split; [|reflexivity]). unfold name20.
  split; [|auto]. apply bytes_at_ext. intros k Hk. apply H. unfold NAME_LEN in Hk. lia.
Qed.

Lemma strncpy_copy_bytes room : forall src, bytes src -> bytes (strncpy_copy src room).
Proof.
  unfold bytes. induction room as [|room IH]; intros src B; cbn [strncpy_copy]; [repeat constructor; lia|].
  destruct (_ =? 0); [repeat constructor; lia|].
  constructor; [destruct B; cbn [cur]; lia|]. apply IH. destruct B; cbn [nxt]; [constructor|assumption].
Qed.

Lemma bytes_at_cons m a n : 0 <= n -> bytes_at m a (n + 1) = ld8 m a :: bytes_at m (a + 1) n.
Proof.
  intros Hn. rewrite (bytes_at_split m a (n + 1) 1) by lia. replace (n + 1 - 1) with n by lia.
  unfold bytes_at at 1. rewrite (seqZ_cons 0 1), (seqZ_nil _ (Z.pred 1)) by lia. cbn [map app].
  rewrite Z.add_0_r. reflexivity.
Qed.

Lemma bytes_at_eq m w : forall a,
  (forall k, 0 <= k < tlen w -> ld8 m (a + k) = tget 0 w k) -> bytes_at m a (tlen w) = w.
Proof.
  induction w as [|c w IH]; intros a H; [reflexivity|]. pose proof (tlen_nonneg w). rewrite tlen_cons in *.
  rewrite bytes_at_cons by lia. f_equal.
  - specialize (H 0 ltac:(lia)). rewrite Z.add_0_r in H. exact H.
  - apply IH. intros k Hk. replace (a + 1 + k) with (a + (k + 1)) by lia. rewrite H by lia.
    rewrite tget_cons by lia. rewrite (proj2 (Z.eqb_neq (k + 1) 0)) by lia. f_equal. lia.
Qed.

(** A buffer stored in memory reads back. *)
Lemma bytes_at_put m a w n :
  bytes w -> tlen w <= n -> bytes_at (put_bytes m a w) a n = w ++ bytes_at m (a + tlen w) (n - tlen w).
Proof.
  intros B Hn. pose proof (tlen_nonneg w) as Hw.
  rewrite (bytes_at_split (put_bytes m a w) a n (tlen w)) by lia. f_equal.
  - apply bytes_at_eq. intros k Hk. rewrite ld8_put_bytes. unfold in_range.
    rewrite (proj2 (Z.leb_le a (a + k))), (proj2 (Z.ltb_lt (a + k) (a + tlen w))) by lia. cbn [andb].
    rewrite u8_small by (apply bytes_tget; exact B). f_equal. lia.
  - apply bytes_at_ext. intros k Hk. rewrite ld8_put_bytes. unfold in_range. zcase; lia || reflexivity.
Qed.

Definition new_entry (m : mem) (c : Z) (name : list Z) (start : Z) : mem :=
  set_ent_start (set_ent_name (set_ent_used m c 1) c name) c start.

Lemma new_entry_spec m c name start :
  0 <= c < MAX_FILES -> bytes name -> 0 <= start < 0x100000000 ->
  let m' := new_entry m c name start in
  (forall x, x < 32 * c \/ 32 * c + 32 <= x -> ld8 m' x = ld8 m x) /\
  ent_used m' c = true /\ ent_start m' c = start /\ ent_size m' c = ent_size m c /\
  text (name20 m' c) = take 19 (text name).
Proof.
  intros Hc B Hs m'. unfold m', new_entry, set_ent_name, set_ent_used, set_ent_start, NAME_LEN.
  change (Z.to_nat (20 - 1)) with 19%nat. set (w := strncpy_copy name 19).
  assert (Lw : tlen w <= 20) by (pose proof (strncpy_copy_length name 19); unfold tlen, w; lia).
  pose proof (tlen_nonneg w) as Hw.
  assert (Bw : bytes w) by (apply strncpy_copy_bytes; exact B).
  set (m1 := st32 m (32 * c + 28) 1). set (m2 := put_bytes m1 (32 * c) w).
  assert (E2 : forall x, x < 32 * c \/ 32 * c + 20 <= x -> ld8 m2 x = ld8 m1 x).
  { intros x Hx. unfold m2. rewrite ld8_put_bytes. unfold in_range. zcase; lia || reflexivity. }
  assert (E32 : forall x, 32 * c + 20 <= x -> ld32 m2 x = ld32 m1 x)
    by (intros x Hx; apply ld32_ext; intros; apply E2; lia).
  split; [|split; [|split; [|split]]].
  - intros x Hx. rewrite ld8_st32_out, E2 by lia. unfold m1. apply ld8_st32_out. lia.
  - unfold ent_used. rewrite ld32_st32_out, E32 by lia. unfold m1. rewrite ld32_st32_eq. reflexivity.
  - unfold ent_start. rewrite ld32_st32_eq. apply u32_small. exact Hs.
  - unfold ent_size. rewrite ld32_st32_out, E32 by lia. unfold m1. apply ld32_st32_out. lia.
  - replace (name20 (st32 m2 (32 * c + 24) start) c) with (name20 m2 c).
    + unfold name20, m2, NAME_LEN. rewrite bytes_at_put by (exact Bw || lia). apply text_strncpy_copy.
    + symmetry. apply bytes_at_ext. intros k Hk. unfold NAME_LEN in Hk. apply ld8_st32_out. lia.
Qed.

(** ** The transfer loops *)

Lemma chunk_of_eq size s : 0 <= s <= 32 -> 0 <= size -> chunk_of size s = Z.max 0 (Z.min 512 (size - 512 * s)).
Proof. intros Hs Hz. unfold chunk_of. rewrite u32_small by lia. destruct (Z.ltb_spec (s * 512) size); zcase; lia. Qed.

(** The byte the writing loop puts at position [q] of the slot. *)
Definition slot_byte (m : mem) (data size q : Z) : Z := if q <? size then ld8 m (data + q) else 0.

Lemma write_chunk_spec i m data size s f start :
  disk_ok (dev f) -> ent_start (dir f) i = start -> 0 <= start -> start + SLOT_SECTORS <= disk_size ->
  disk_size <= 0x100000000 -> 0 <= s < SLOT_SECTORS -> 0 <= size ->
  let '(f', r) := write_chunk i m data size s f in
  r = None /\ super f' = super f /\ dir f' = dir f /\ disk_ok (dev f') /\
  forall l k, 0 <= k < 512 -> sector (dev f') l k
    = if l =? start + s then slot_byte m data size (512 * s + k) else sector (dev f) l k.
Proof.
  unfold SLOT_SECTORS. intros Hd Es Hst Hsz Hds Hs Hz. unfold write_chunk, put_sector. cbn [dev super dir secbuf].
  rewrite Es, u32_small by lia.
  set (b := if negb (chunk_of size s =? 0) then _ else _).
  assert (Eb : forall k, 0 <= k < 512 -> ld8 b k = slot_byte m data size (512 * s + k)).
  { intros k Hk. unfold b. rewrite chunk_of_eq, (u32_small (s * 512)) by lia. unfold slot_byte.
    destruct (Z.eqb_spec (Z.max 0 (Z.min 512 (size - 512 * s))) 0) as [E|N]; cbn [negb].
    - rewrite ld8_memset by lia. unfold in_range. zcase; lia || reflexivity.
    - rewrite ld8_copy_bytes, ld8_memset by lia. unfold in_range. zcase; try lia; try reflexivity. f_equal. lia. }
  pose proof (write_law (dev f) (start + s) b Hd ltac:(lia)) as W.
  destruct (write_sector (dev f) (start + s) b) as [d r]. destruct W as (-> & Hd' & W).
  cbn [Z.eqb negb dev super dir secbuf]. repeat (split; [reflexivity|]). split; [exact Hd'|].
  intros l k Hk. rewrite W by exact Hk. destruct (l =? start + s); [apply Eb; exact Hk|reflexivity].
Qed.

Lemma write_loop_spec i m data size n f start :
  disk_ok (dev f) -> ent_start (dir f) i = start -> 0 <= start -> start + SLOT_SECTORS <= disk_size ->
  disk_size <= 0x100000000 -> 0 <= n <= SLOT_SECTORS -> 0 <= size ->
  match for_range_ret 0 n (write_chunk i m data size) f with
  | (f', None) =>
      super f' = super f /\ dir f' = dir f /\ disk_ok (dev f') /\
      forall l k, 0 <= k < 512 -> sector (dev f') l k
        = if in_range l start n then slot_byte m data size (512 * (l - start) + k) else sector (dev f) l k
  | (_, Some _) => False
  end.
Proof.
  intros Hd Es Hst Hsz Hds Hn Hz.
  apply (for_range_ret_ind (fun s f' => super f' = super f /\ dir f' = dir f /\ disk_ok (dev f') /\
      forall l k, 0 <= k < 512 -> sector (dev f') l k
        = if in_range l start s then slot_byte m data size (512 * (l - start) + k) else sector (dev f) l k)
    (fun _ _ => False)); [lia| |].
  - repeat (split; [reflexivity || assumption|]). intros l k _. unfold in_range. zcase; lia || reflexivity.
  - intros s t Hs (I1 & I2 & I3 & I4).
    pose proof (write_chunk_spec i m data size s t start I3 ltac:(rewrite I2; exact Es) Hst Hsz Hds ltac:(lia) Hz) as W.
    destruct (write_chunk i m data size s t) as [t' r]. destruct W as (-> & W1 & W2 & W3 & W4).
    split; [congruence|]. split; [congruence|]. split; [exact W3|]. intros l k Hk.
    rewrite W4, I4 by exact Hk. unfold in_range. destruct (Z.eqb_spec l (start + s)) as [->|].
    + replace (512 * (start + s - start) + k) with (512 * s + k) by lia. zcase; lia || reflexivity.
    + zcase; lia || reflexivity.
Qed.

Lemma read_chunk_spec i buf size s f m start :
  disk_ok (dev f) -> ent_start (dir f) i = start -> 0 <= start -> start + SLOT_SECTORS <= disk_size ->
  disk_size <= 0x100000000 -> 0 <= s < SLOT_SECTORS -> 0 <= size ->
  let '((f', m'), r) := read_chunk i buf size s (f, m) in
  r = None /\ super f' = super f /\ dir f' = dir f /\ disk_ok (dev f') /\
  (forall l k, sector (dev f') l k = sector (dev f) l k) /\
  forall x, ld8 m' x = if in_range x (buf + 512 * s) (chunk_of size s)
    then sector (dev f) (start + s) (x - (buf + 512 * s)) else ld8 m x.
Proof.
  unfold SLOT_SECTORS. intros Hd Es Hst Hsz Hds Hs Hz. unfold read_chunk. rewrite Es, u32_small by lia.
  pose proof (read_law (dev f) (start + s) (secbuf f) Hd ltac:(lia)) as R.
  destruct (read_sector (dev f) (start + s) (secbuf f)) as [[d b] r]. destruct R as (-> & Hd' & R1 & R2).
  cbn [Z.eqb negb dev super dir secbuf]. repeat (split; [reflexivity|]). split; [exact Hd'|]. split; [exact R1|].
  intros x. rewrite u32_small, chunk_of_eq, (Z.mul_comm s 512) by lia. set (c := Z.max 0 _).
  destruct (Z.eqb_spec c 0) as [E|N]; cbn [negb].
  - unfold in_range. zcase; lia || reflexivity.
  - rewrite ld8_copy_bytes by (unfold c; lia). unfold in_range.
    destruct (Z.leb_spec (buf + 512 * s) x); cbn [andb]; [|reflexivity].
    destruct (Z.ltb_spec x (buf + 512 * s + c)); [|reflexivity]. rewrite R2.
    rewrite (proj2 (Z.leb_le 0 (0 + (x - (buf + 512 * s))))), (proj2 (Z.ltb_lt (0 + (x - (buf + 512 * s))) 512))
      by (unfold c in *; lia). cbn [andb]. f_equal.
Qed.

(** The state after [n] turns of the reading loop from [(f, m)]. *)
Definition read_upto (f : fs) (m : mem) (start buf size n : Z) (t : fs * mem) : Prop :=
  super (fst t) = super f /\ dir (fst t) = dir f /\ disk_ok (dev (fst t)) /\
  (forall l k, sector (dev (fst t)) l k = sector (dev f) l k) /\
  forall x, ld8 (snd t) x = if in_range x buf (Z.min size (512 * n))
    then sector (dev f) (start + (x - buf) / 512) ((x - buf) mod 512) else ld8 m x.

Lemma read_loop_spec i buf size n f m start :
  disk_ok (dev f) -> ent_start (dir f) i = start -> 0 <= start -> start + SLOT_SECTORS <= disk_size ->
  disk_size <= 0x100000000 -> 0 <= n <= SLOT_SECTORS -> 0 <= size ->
  match for_range_ret 0 n (read_chunk i buf size) (f, m) with
  | (t, None) => read_upto f m start buf size n t
  | (_, Some _) => False
  end.
Proof.
  intros Hd Es Hst Hsz Hds Hn Hz.
  apply (for_range_ret_ind (read_upto f m start buf size) (fun (_ : Z) _ => False)); [lia| |].
  - repeat (split; [reflexivity || assumption|]). intros x. unfold in_range. cbn [snd]. zcase; lia || reflexivity.
  - intros s [t mt] Hs (I1 & I2 & I3 & I4 & I5). cbn [fst snd] in *.
    pose proof (read_chunk_spec i buf size s t mt start I3 ltac:(rewrite I2; exact Es) Hst Hsz Hds ltac:(lia) Hz) as W.
    destruct (read_chunk i buf size s (t, mt)) as [[t' m'] r]. destruct W as (-> & W1 & W2 & W3 & W4 & W5).
    unfold read_upto. cbn [fst snd].
    split; [congruence|]. split; [congruence|]. split; [exact W3|]. split; [intros; rewrite W4; apply I4|].
    intros x. unfold SLOT_SECTORS in Hn. rewrite W5, I5, I4, chunk_of_eq by lia. unfold in_range.
    destruct (Z.leb_spec (buf + 512 * s) x); cbn [andb].
    + destruct (Z.ltb_spec x (buf + 512 * s + Z.max 0 (Z.min 512 (size - 512 * s)))).
      * replace ((x - buf) / 512) with s by zdm. replace ((x - buf) mod 512) with (x - (buf + 512 * s)) by zdm.
        zcase; lia || reflexivity.
      * zcase; lia || reflexivity.
    + zcase; lia || reflexivity.
Qed.

(** ** Choosing the entry *)

(** [f1] is [f] with entry [i] reserved for [name], [c1] files in all; nothing
    else has moved, and the superblock is on disk. *)
Record reserved (f : fs) (c : Z) (name : list Z) (f1 : fs) (i c1 : Z) : Prop := {
  rs_dev : disk_ok (dev f1);
  rs_count : (0 <= i < c /\ c1 = c) \/ (i = c /\ c1 = c + 1 /\ c1 <= MAX_FILES);
  rs_magic : sup_magic (super f1) = FS_MAGIC;
  rs_next : sup_next (super f1) = DATA_LBA + SLOT_SECTORS * c1;
  rs_used : ent_used (dir f1) i = true;
  rs_start : ent_start (dir f1) i = DATA_LBA + SLOT_SECTORS * i;
  rs_name : text (name20 (dir f1) i) = text name;
  rs_own : forall j, 0 <= j < c -> text (name20 (dir f) j) = text name <-> j = i;
  rs_others : forall j, 0 <= j < MAX_FILES -> j <> i -> same_entry (dir f) (dir f1) j;
  rs_sectors : forall l k, 0 <= k < 512 -> sector (dev f1) l k
    = if l =? SUPER_LBA then ld8 (super f1) k else sector (dev f) l k
}.

Lemma same_entry_refl m j : same_entry m m j.
Proof. repeat split. Qed.

Lemma first_unused f c :
  fs_ok f c -> find_range 0 MAX_FILES (fun i => negb (ent_used (dir f) i)) = if c <? MAX_FILES then Some c else None.
Proof.
  intros O. pose proof (fo_count _ _ O) as Hc. destruct (Z.ltb_spec c MAX_FILES).
  - apply find_range_least; [lia| |]; [|intros j Hj]; rewrite (fo_used _ _ O) by lia; zcase; lia || reflexivity.
  - apply find_range_none_iff. intros j Hj. rewrite (fo_used _ _ O) by lia. zcase; lia || reflexivity.
Qed.

(** A new file takes the first free entry and the next slot, under at most 19
    characters of its name. *)
Lemma entry_new f c name :
  fs_ok f c -> synced f -> bytes name -> find (dir f) name = None -> c < MAX_FILES ->
  let f1 := fst (fs_entry_for f name) in
  snd (fs_entry_for f name) = Some c /\ disk_ok (dev f1) /\ sup_magic (super f1) = FS_MAGIC /\
  sup_next (super f1) = DATA_LBA + SLOT_SECTORS * (c + 1) /\ ent_used (dir f1) c = true /\
  ent_start (dir f1) c = DATA_LBA + SLOT_SECTORS * c /\
  text (name20 (dir f1) c) = take 19 (text name) /\
  (forall j, 0 <= j < MAX_FILES -> j <> c -> same_entry (dir f) (dir f1) j) /\
  (forall l k, 0 <= k < 512 -> sector (dev f1) l k
    = if l =? SUPER_LBA then ld8 (super f1) k else sector (dev f) l k).
Proof.
  intros O Sy B Fn Hlt. pose proof (fo_count _ _ O) as Hc. unfold fs_entry_for. rewrite Fn, (first_unused f c O).
  rewrite (proj2 (Z.ltb_lt c MAX_FILES)), (fo_next _ _ O) by exact Hlt.
  fold (new_entry (dir f) c name (DATA_LBA + SLOT_SECTORS * c)).
  destruct (new_entry_spec (dir f) c name (DATA_LBA + SLOT_SECTORS * c) ltac:(lia) B
    ltac:(unfold DATA_LBA, SLOT_SECTORS, MAX_FILES in *; lia)) as (E0 & E1 & E2 & E3 & E4).
  set (m' := new_entry (dir f) c name (DATA_LBA + SLOT_SECTORS * c)) in *.
  rewrite u32_small by (unfold DATA_LBA, SLOT_SECTORS, MAX_FILES in *; lia).
  set (s' := set_sup_next (super f) (DATA_LBA + SLOT_SECTORS * c + SLOT_SECTORS)).
  unfold put_sector. cbn [dev super dir secbuf].
  pose proof (write_law (dev f) SUPER_LBA s' (fo_dev _ _ O)
    ltac:(unfold SUPER_LBA, DATA_LBA, SLOT_SECTORS, MAX_FILES in *; lia)) as W.
  destruct (write_sector (dev f) SUPER_LBA s') as [d r]. destruct W as (-> & Hd & W). cbn [fst snd dev super dir].
  split; [reflexivity|]. split; [exact Hd|]. split; [|split; [|repeat (split; [assumption|])]].
  - unfold s', set_sup_next, sup_magic. rewrite ld32_st32_out by lia. apply (fo_magic _ _ O).
  - unfold s', set_sup_next, sup_next. rewrite ld32_st32_eq, u32_small by (unfold DATA_LBA, SLOT_SECTORS, MAX_FILES in *; lia). lia.
  - split; [|exact W]. intros j Hj Hne. apply entry_same. intros x Hx. apply E0. lia.
Qed.

Lemma entry_for_spec f c name :
  fs_ok f c -> synced f -> bytes name -> tlen (text name) < NAME_LEN ->
  match fs_entry_for f name with
  | (f', None) => f' = f /\ c = MAX_FILES /\ lookup_file f name = None
  | (f1, Some i) => exists c1, reserved f c name f1 i c1
  end.
Proof.
  intros O Sy B Hn. pose proof (find_ok f c name O) as F. pose proof (fo_count _ _ O) as Hc.
  destruct (find (dir f) name) as [i|] eqn:Ef.
  - unfold fs_entry_for. rewrite Ef. destruct F as [Hi Ht]. exists c. constructor; auto; try (apply O; lia).
    + rewrite (fo_used _ _ O) by lia. apply Z.ltb_lt. lia.
    + intros j Hj. split; [|intros ->; exact Ht]. intros E. apply (fo_distinct _ _ O); [lia|lia|congruence].
    + intros. apply same_entry_refl.
    + intros l k Hk. destruct (Z.eqb_spec l SUPER_LBA) as [->|]; [apply Sy; exact Hk|reflexivity].
  - destruct (Z.lt_ge_cases c MAX_FILES) as [Hlt|Hge].
    + pose proof (entry_new f c name O Sy B Ef Hlt) as N. destruct (fs_entry_for f name) as [f1 o]. cbn [fst snd] in N.
      destruct N as (-> & N1 & N2 & N3 & N4 & N5 & N6 & N7 & N8). exists (c + 1). constructor; auto; try lia.
      * rewrite N6. apply take_ge. unfold tlen, NAME_LEN in Hn. lia.
      * intros j Hj. split; [intros E; destruct (F j Hj E)|lia].
    + unfold fs_entry_for. rewrite Ef, (first_unused f c O), (proj2 (Z.ltb_ge c MAX_FILES)) by exact Hge.
      unfold lookup_file. rewrite Ef. repeat split. lia.
Qed.

(** ** Completing the write *)

(** The data of [size] bytes in the slot of the reserved entry, its size in
    the directory, and the directory on disk. *)
Record completed (f1 : fs) (i size : Z) (m : mem) (data : Z) (f' : fs) : Prop := {
  cp_dev : disk_ok (dev f');
  cp_super : super f' = super f1;
  cp_size : ent_size (dir f') i = size;
  cp_entry : name20 (dir f') i = name20 (dir f1) i /\ ent_start (dir f') i = ent_start (dir f1) i /\
    ent_used (dir f') i = ent_used (dir f1) i;
  cp_others : forall j, 0 <= j < MAX_FILES -> j <> i -> same_entry (dir f1) (dir f') j;
  cp_dir : forall k, 0 <= k < 512 -> sector (dev f') DIR_LBA k = ld8 (dir f') k;
  cp_data : forall q, 0 <= q < size ->
    sector (dev f') (ent_start (dir f1) i + q / 512) (q mod 512) = ld8 m (data + q);
  cp_sectors : forall l k, 0 <= k < 512 -> l <> DIR_LBA ->
    l < ent_start (dir f1) i \/ ent_start (dir f1) i + SLOT_SECTORS <= l ->
    sector (dev f') l k = sector (dev f1) l k
}.

Lemma set_size_spec m i v :
  0 <= v < 0x100000000 ->
  let m' := set_ent_size m i v in
  ent_size m' i = v /\ name20 m' i = name20 m i /\ ent_start m' i = ent_start m i /\
  ent_used m' i = ent_used m i /\ forall j, j <> i -> same_entry m m' j.
Proof.
  intros Hv m'. unfold m', set_ent_size. split; [|split; [|split; [|split]]].
  - unfold ent_size. rewrite ld32_st32_eq. apply u32_small. exact Hv.
  - apply bytes_at_ext. intros k Hk. unfold NAME_LEN in Hk. apply ld8_st32_out. lia.
  - unfold ent_start. apply ld32_st32_out. lia.
  - unfold ent_used. rewrite ld32_st32_out by lia. reflexivity.
  - intros j Hj. apply entry_same. intros x Hx. apply ld8_st32_out. lia.
Qed.

Lemma complete_spec f1 i m data size :
  disk_size <= 0x100000000 -> disk_ok (dev f1) -> 0 <= i < MAX_FILES ->
  ent_start (dir f1) i = DATA_LBA + SLOT_SECTORS * i -> 0 <= size ->
  let sz := Z.min size (SLOT_SECTORS * 512) in
  let n := if (sz + 511) / 512 =? 0 then 1 else (sz + 511) / 512 in
  match for_range_ret 0 n (write_chunk i m data sz) f1 with
  | (_, Some _) => False
  | (f2, None) =>
      completed f1 i sz m data
        (fst (put_sector (with_dir f2 (set_ent_size (dir f2) i sz)) DIR_LBA (set_ent_size (dir f2) i sz)))
  end.
Proof.
  intros Hds Hd Hi Es Hz sz n. set (st := ent_start (dir f1) i) in *.
  assert (Hsz : 0 <= sz <= 16384) by (unfold sz, SLOT_SECTORS; lia).
  assert (Hn : 0 <= n <= 32 /\ sz <= 512 * n) by (unfold n; destruct (Z.eqb_spec ((sz + 511) / 512) 0); zdm).
  assert (Hst : 101 <= st /\ st + 32 <= disk_size)
    by (rewrite Es; unfold DATA_LBA, SLOT_SECTORS, MAX_FILES in *; lia).
  pose proof (write_loop_spec i m data sz n f1 st Hd eq_refl ltac:(lia) ltac:(unfold SLOT_SECTORS; lia) Hds
    ltac:(unfold SLOT_SECTORS; lia) ltac:(lia)) as W.
  destruct (for_range_ret 0 n (write_chunk i m data sz) f1) as [f2 [r|]]; [exact W|].
  destruct W as (W1 & W2 & W3 & W4). rewrite W2.
  destruct (set_size_spec (dir f1) i sz ltac:(lia)) as (S1 & S2 & S3 & S4 & S5).
  set (m' := set_ent_size (dir f1) i sz) in *. unfold put_sector, with_dir. cbn [dev super dir secbuf].
  pose proof (write_law (dev f2) DIR_LBA m' W3 ltac:(unfold DIR_LBA; lia)) as P.
  destruct (write_sector (dev f2) DIR_LBA m') as [d r]. destruct P as (-> & P1 & P2). cbn [fst].
  constructor; cbn [dev super dir]; auto; fold st.
  - intros q Hq. rewrite P2 by zdm. rewrite (proj2 (Z.eqb_neq (st + q / 512) DIR_LBA)) by (unfold DIR_LBA; zdm).
    rewrite W4 by zdm. unfold in_range, slot_byte.
    rewrite (proj2 (Z.leb_le st (st + q / 512))), (proj2 (Z.ltb_lt (st + q / 512) (st + n))) by zdm. cbn [andb].
    replace (512 * (st + q / 512 - st) + q mod 512) with q by zdm. rewrite (proj2 (Z.ltb_lt q sz)) by lia. reflexivity.
  - intros l k Hk Hl Ho. rewrite P2, (proj2 (Z.eqb_neq l DIR_LBA)), W4 by assumption. unfold in_range.
    unfold SLOT_SECTORS in Ho. zcase; lia || reflexivity.
Qed.

(** The completed filesystem is well formed, and holds the new file beside the
    old ones. *)
(** A finished write leaves the entries of the other slots alone... *)
Lemma written_same f c name f1 i c1 m data size f' j :
  reserved f c name f1 i c1 -> completed f1 i size m data f' -> 0 <= j < MAX_FILES -> j <> i -> same_entry (dir f) (dir f') j.
Proof.
  intros R C Hj Hne. destruct (rs_others _ _ _ _ _ _ R j Hj Hne) as (A1 & A2 & A3 & A4).
  destruct (cp_others _ _ _ _ _ _ C j Hj Hne) as (B1 & B2 & B3 & B4). repeat split; congruence.
Qed.

(** ... its slot is one of those in use, the only new one... *)
Lemma written_slot f c name f1 i c1 :
  fs_ok f c -> reserved f c name f1 i c1 -> 0 <= i < c1 /\ c <= c1 <= MAX_FILES /\ (forall j, 0 <= j < c1 -> j <> i -> 0 <= j < c).
Proof. intros O R. pose proof (fo_count _ _ O). destruct (rs_count _ _ _ _ _ _ R); repeat split; lia. Qed.

(** ... and the directory stays well-formed. *)
Lemma written_fs_ok f c name f1 i c1 m data size f' :
  fs_ok f c -> tlen (text name) < NAME_LEN ->
  reserved f c name f1 i c1 -> 0 <= size <= SLOT_SECTORS * 512 -> completed f1 i size m data f' ->
  fs_ok f' c1 /\ text (name20 (dir f') i) = text name.
Proof.
  intros O Hn R Hsz C. pose proof (fun j Hj => proj1 (rs_own _ _ _ _ _ _ R j Hj)) as Hu. pose proof (fo_count _ _ O) as Hc.
  destruct (written_slot f c name f1 i c1 O R) as (Hi & Hcc & Hold).
  pose proof (fun j => written_same f c name f1 i c1 m data size f' j R C) as Same.
  destruct (cp_entry _ _ _ _ _ _ C) as (N1 & N2 & N3).
  assert (Nm : text (name20 (dir f') i) = text name) by (rewrite N1; apply R). split; [|exact Nm].
  constructor; try (rewrite (cp_super _ _ _ _ _ _ C)); try apply R; try apply C; [lia|..].
  - intros j Hj. destruct (Z.eq_dec j i) as [->|Hne].
    + rewrite N3, (rs_used _ _ _ _ _ _ R). symmetry. apply Z.ltb_lt. lia.
    + destruct (Same j Hj Hne) as (_ & _ & _ & ->). rewrite (fo_used _ _ O) by exact Hj.
      destruct (rs_count _ _ _ _ _ _ R); zcase; lia || reflexivity.
  - intros j Hj. destruct (Z.eq_dec j i) as [->|Hne]; [rewrite N2; apply R|].
    destruct (Same j ltac:(lia) Hne) as (_ & _ & -> & _). apply O. auto.
  - intros j Hj. destruct (Z.eq_dec j i) as [->|Hne]; [rewrite (cp_size _ _ _ _ _ _ C); lia|].
    destruct (Same j ltac:(lia) Hne) as (_ & -> & _ & _). apply O. auto.
  - intros j Hj. destruct (Z.eq_dec j i) as [->|Hne]; [rewrite Nm; exact Hn|].
    destruct (Same j ltac:(lia) Hne) as (-> & _). apply O. auto.
  - intros j k Hj Hk E. destruct (Z.eq_dec j i) as [->|Nj]; destruct (Z.eq_dec k i) as [->|Nk]; [reflexivity|..].
    + destruct (Same k ltac:(lia) Nk) as (Ek & _). rewrite Nm, Ek in E. symmetry. apply Hu; [auto|congruence].
    + destruct (Same j ltac:(lia) Nj) as (Ej & _). rewrite Nm, Ej in E. apply Hu; [auto|congruence].
    + destruct (Same k ltac:(lia) Nk) as (Ek & _), (Same j ltac:(lia) Nj) as (Ej & _).
      rewrite Ej, Ek in E. apply (fo_distinct _ _ O); auto.
Qed.

Lemma written_ok f c name f1 i c1 m data size f' :
  fs_ok f c -> synced f -> tlen (text name) < NAME_LEN ->
  reserved f c name f1 i c1 -> 0 <= size <= SLOT_SECTORS * 512 -> completed f1 i size m data f' ->
  fs_ok f' c1 /\ synced f' /\ lookup_file f' name = Some (bytes_at m data size) /\
  (forall nm, text nm <> text name -> lookup_file f' nm = lookup_file f nm).
Proof.
  intros O Sy Hn R Hsz C. destruct (written_slot f c name f1 i c1 O R) as (Hi & Hcc & Hold). pose proof (fo_count _ _ O) as Hc.
  pose proof (fun j => written_same f c name f1 i c1 m data size f' j R C) as Same.
  destruct (written_fs_ok f c name f1 i c1 m data size f' O Hn R Hsz C) as [O' Nm]. destruct (cp_entry _ _ _ _ _ _ C) as (_ & N2 & _).
  split; [exact O'|]. pose proof (rs_start _ _ _ _ _ _ R) as Est.
  assert (Sec : forall l k, 0 <= k < 512 -> l <> DIR_LBA -> l <> SUPER_LBA ->
    l < DATA_LBA + SLOT_SECTORS * i \/ DATA_LBA + SLOT_SECTORS * i + SLOT_SECTORS <= l ->
    sector (dev f') l k = sector (dev f) l k).
  { intros l k Hk H1 H2 H3. rewrite (cp_sectors _ _ _ _ _ _ C) by (rewrite ?Est; assumption).
    rewrite (rs_sectors _ _ _ _ _ _ R), (proj2 (Z.eqb_neq l SUPER_LBA)) by assumption. reflexivity. }
  split; [|split].
  - intros k Hk. split; [|apply C; exact Hk]. rewrite (cp_sectors _ _ _ _ _ _ C); [|exact Hk|discriminate|].
    + rewrite (rs_sectors _ _ _ _ _ _ R), Z.eqb_refl, (cp_super _ _ _ _ _ _ C) by exact Hk. reflexivity.
    + left. rewrite Est. unfold SUPER_LBA, DATA_LBA, SLOT_SECTORS. lia.
  - unfold lookup_file. rewrite (find_some f' c1 name i O' Hi Nm). cbn. f_equal. unfold file_bytes, bytes_at.
    rewrite (cp_size _ _ _ _ _ _ C), N2. apply map_ext_in. intros q Hq. apply list_elem_of_In, elem_of_seqZ in Hq.
    apply C. lia.
  - intros nm Hnm. unfold lookup_file. pose proof (find_ok f c nm O) as F. destruct (find (dir f) nm) as [j|].
    + destruct F as [Hj Ej].
      assert (Nj : j <> i) by (intros E; apply (rs_own _ _ _ _ _ _ R j Hj) in E; congruence).
      destruct (Same j ltac:(lia) Nj) as (E1 & E2 & E3 & _).
      rewrite (find_some f' c1 nm j O') by (lia || congruence). cbn. f_equal. unfold file_bytes. rewrite E2, E3.
      apply map_ext_in. intros q Hq. apply list_elem_of_In, elem_of_seqZ in Hq.
      pose proof (fo_size _ _ O j Hj). rewrite (fo_start _ _ O) by exact Hj.
      unfold SLOT_SECTORS, DATA_LBA, MAX_FILES, SUPER_LBA, DIR_LBA in *. apply Sec; zdm.
    + pose proof (find_ok f' c1 nm O') as F'. destruct (find (dir f') nm) as [j|]; [|reflexivity].
      destruct F' as [Hj Ej]. assert (Nj : j <> i) by congruence.
      destruct (Same j ltac:(lia) Nj) as (E1 & _). destruct (F j (Hold j Hj Nj)). congruence.
Qed.

(** ** The operations *)

Hypothesis Hds : disk_size <= 0x100000000.

Lemma fs_write_spec f c name m data size :
  fs_ok f c -> synced f -> bytes name -> tlen (text name) < NAME_LEN -> 0 <= size ->
  let '(f', r) := fs_write f name m data size in
  (r = -1 /\ f' = f /\ c = MAX_FILES /\ lookup_file f name = None) \/
  (r = 0 /\ (exists c', fs_ok f' c') /\ synced f' /\
   lookup_file f' name = Some (bytes_at m data (Z.min size (SLOT_SECTORS * 512))) /\
   forall nm, text nm <> text name -> lookup_file f' nm = lookup_file f nm).
Proof.
  intros O Sy B Hn Hz. pose proof (entry_for_spec f c name O Sy B Hn) as E. unfold fs_write.
  destruct (fs_entry_for f name) as [f1 [i|]]; [|left; destruct E as (-> & E); auto].
  destruct E as (c1 & R). pose proof (rs_count _ _ _ _ _ _ R) as Hi. pose proof (fo_count _ _ O) as Hc.
  pose proof (complete_spec f1 i m data size Hds (rs_dev _ _ _ _ _ _ R) ltac:(lia) (rs_start _ _ _ _ _ _ R) Hz) as C.
  cbv zeta in C |- *.
  replace (if SLOT_SECTORS * 512 <? size then SLOT_SECTORS * 512 else size) with (Z.min size (SLOT_SECTORS * 512))
    by (zcase; lia).
  destruct (for_range_ret 0 _ _ f1) as [f2 [r|]]; [contradiction|]. cbn [dir with_dir].
  right. split; [reflexivity|].
  destruct (written_ok f c name f1 i c1 m data (Z.min size (SLOT_SECTORS * 512)) _ O Sy Hn R
    ltac:(unfold SLOT_SECTORS; lia) C) as (W1 & W2 & W3 & W4).
  eauto.
Qed.

(** C33. Refinement.  Seen as a map from names to contents, [fs_write] stores the
    data (at most 16 KB of it) under the name and leaves every other file as it
    was; it fails, changing nothing, only for a new name when all sixteen
    directory entries are taken.  The filesystem stays well formed and the
    metadata on disk stays equal to the metadata in memory. *)
Theorem fs_write_refines (f : fs) (c : Z) (name : list Z) (m : mem) (data size : Z) :
  fs_ok f c -> synced f -> bytes name -> tlen (text name) < NAME_LEN -> 0 <= size ->
  let '(f', r) := fs_write f name m data size in
  (r = -1 /\ f' = f /\ c = MAX_FILES /\ lookup_file f name = None) \/
  (r = 0 /\ (exists c', fs_ok f' c') /\ synced f' /\
   lookup_file f' name = Some (bytes_at m data (Z.min size (SLOT_SECTORS * 512))) /\
   forall nm, text nm <> text name -> lookup_file f' nm = lookup_file f nm).
Proof. apply fs_write_spec. Qed.

Lemma take_seqZ n k : 0 <= k <= n -> take (Z.to_nat k) (seqZ 0 n) = seqZ 0 k.
Proof.
  intros Hk. replace n with (k + (n - k)) by lia. rewrite seqZ_app by lia. rewrite take_app_le by (rewrite length_seqZ; lia).
  apply take_ge. rewrite length_seqZ. lia.
Qed.

Lemma lookup_file_ext f f' nm :
  dir f' = dir f -> (forall l k, sector (dev f') l k = sector (dev f) l k) -> lookup_file f' nm = lookup_file f nm.
Proof.
  intros E1 E2. unfold lookup_file. rewrite E1. destruct (find (dir f) nm); [|reflexivity]. cbn. f_equal.
  unfold file_bytes. rewrite E1. apply map_ext. intros q. apply E2.
Qed.

Lemma fs_ok_ext f f' c : fs_ok f c -> super f' = super f -> dir f' = dir f -> disk_ok (dev f') -> fs_ok f' c.
Proof. intros [] E1 E2 H. constructor; rewrite ?E1, ?E2; assumption. Qed.

Lemma fs_read_spec (f : fs) (c : Z) (name : list Z) (m : mem) (buf max : Z) :
  fs_ok f c -> 0 <= max ->
  let '(f', m', r, out) := fs_read f name m buf max in
  (fs_ok f' c /\ (synced f -> synced f') /\ forall nm, lookup_file f' nm = lookup_file f nm) /\
  match lookup_file f name with
  | None => r = -1 /\ out = None /\ m' = m
  | Some bs => let n := Z.min (tlen bs) max in
      r = 0 /\ out = Some n /\ bytes_at m' buf n = take (Z.to_nat n) bs /\
      forall x, x < buf \/ buf + n <= x -> ld8 m' x = ld8 m x
  end.
Proof.
  intros O Hm. unfold fs_read. pose proof (find_ok f c name O) as F.
  destruct (find (dir f) name) as [i|] eqn:Ef.
  2:{ split; [auto|]. unfold lookup_file. rewrite Ef. cbn. auto. }
  destruct F as [Hi _]. pose proof (fo_count _ _ O) as Hc. pose proof (fo_size _ _ O i Hi) as Hs.
  pose proof (ld32_range (dir f) (32 * i + 20)) as R. fold (ent_size (dir f) i) in R.
  unfold lookup_file at 3. rewrite Ef. cbn [fmap option_fmap option_map].
  assert (Ln : tlen (file_bytes f i) = ent_size (dir f) i)
    by (unfold tlen, file_bytes; rewrite length_map, length_seqZ; lia).
  rewrite Ln. set (n := Z.min (ent_size (dir f) i) max). cbv zeta.
  replace (if max <? ent_size (dir f) i then max else ent_size (dir f) i) with n
    by (unfold n; destruct (Z.ltb_spec max (ent_size (dir f) i)); lia).
  unfold SLOT_SECTORS, DATA_LBA, MAX_FILES in *. assert (Hn : 0 <= n <= 16384) by (unfold n; lia).
  rewrite u32_small by lia. set (ns := (n + 511) / 512).
  assert (Hns : 0 <= ns <= 32 /\ n <= 512 * ns) by (unfold ns; zdm).
  pose proof (read_loop_spec i buf n ns f m (101 + 32 * i) (fo_dev _ _ O) (fo_start _ _ O i Hi) ltac:(lia)
    ltac:(unfold SLOT_SECTORS; lia) Hds ltac:(unfold SLOT_SECTORS; lia) ltac:(lia)) as L.
  destruct (for_range_ret 0 ns (read_chunk i buf n) (f, m)) as [[f' m'] [r|]]; [contradiction|].
  destruct L as (L1 & L2 & L3 & L4 & L5). cbn [fst snd] in *.
  split.
  { split; [exact (fs_ok_ext f f' c O L1 L2 L3)|]. split; [|intros nm; apply lookup_file_ext; assumption].
    intros Sy k Hk. rewrite !L4, L1, L2. apply Sy, Hk. }
  split; [reflexivity|]. split; [reflexivity|].
  replace (Z.min n (512 * ns)) with n in L5 by lia. split.
  - unfold file_bytes. rewrite firstn_map, take_seqZ by (unfold n; lia). apply map_ext_in. intros q Hq.
    apply list_elem_of_In, elem_of_seqZ in Hq. rewrite L5, (fo_start _ _ O i Hi). unfold DATA_LBA, SLOT_SECTORS.
    replace (in_range (buf + q) buf n) with true by (symmetry; apply in_range_true; lia).
    replace (buf + q - buf) with q by lia. reflexivity.
  - intros x Hx. rewrite L5. apply in_range_false in Hx. rewrite Hx. reflexivity.
Qed.

(** C19. [fs_read] returns what the map holds: the first [max] bytes of the file,
    exactly there in the caller's memory and nowhere else, with their number
    stored through [out]; -1 and untouched memory for an unknown name.  Reading
    does not change the filesystem. *)
Theorem fs_read_returns (f : fs) (c : Z) (name : list Z) (m : mem) (buf max : Z) :
  fs_ok f c -> 0 <= max ->
  let '(f', m', r, out) := fs_read f name m buf max in
  (forall nm, lookup_file f' nm = lookup_file f nm) /\
  match lookup_file f name with
  | None => r = -1 /\ out = None /\ m' = m
  | Some bs => let n := Z.min (tlen bs) max in
      r = 0 /\ out = Some n /\ bytes_at m' buf n = take (Z.to_nat n) bs /\
      forall x, x < buf \/ buf + n <= x -> ld8 m' x = ld8 m x
  end.
Proof.
  intros O Hm. pose proof (fs_read_spec f c name m buf max O Hm) as K.
  destruct (fs_read f name m buf max) as [[[f' m'] r] out]. split; apply K.
Qed.

(** ** Mounting *)

Lemma load_meta_spec g :
  disk_ok (dev g) ->
  let f := load_meta g in
  disk_ok (dev f) /\ (forall l k, sector (dev f) l k = sector (dev g) l k) /\
  (forall k, 0 <= k < 512 -> ld8 (super f) k = sector (dev g) SUPER_LBA k) /\
  (forall k, 0 <= k < 512 -> ld8 (dir f) k = sector (dev g) DIR_LBA k).
Proof.
  intros Hd. unfold load_meta. unfold DATA_LBA, MAX_FILES, SLOT_SECTORS in Hdisk.
  pose proof (read_law (dev g) SUPER_LBA (super g) Hd ltac:(unfold SUPER_LBA; lia)) as R1.
  destruct (read_sector (dev g) SUPER_LBA (super g)) as [[d1 s] r1]. destruct R1 as (_ & D1 & S1 & B1).
  pose proof (read_law d1 DIR_LBA (dir g) D1 ltac:(unfold DIR_LBA; lia)) as R2.
  destruct (read_sector d1 DIR_LBA (dir g)) as [[d2 m] r2]. destruct R2 as (_ & D2 & S2 & B2).
  cbn [dev super dir]. split; [exact D2|]. split; [intros; rewrite S2; apply S1|].
  split; intros k Hk; rewrite ?B1, ?B2, (proj2 (Z.leb_le 0 k)), (proj2 (Z.ltb_lt k 512)) by lia;
    cbn [andb]; [reflexivity|apply S1].
Qed.

Lemma meta_ext m m' :
  (forall k, 0 <= k < 512 -> ld8 m' k = ld8 m k) ->
  (forall i, 0 <= i < MAX_FILES -> same_entry m m' i) /\ sup_magic m' = sup_magic m /\ sup_next m' = sup_next m /\
  (forall name, find m' name = find m name).
Proof.
  unfold MAX_FILES. intros H. split; [|split; [|split]].
  - intros i Hi. apply entry_same. intros x Hx. apply H. lia.
  - apply ld32_ext. intros. apply H. lia.
  - apply ld32_ext. intros. apply H. lia.
  - intros name. unfold find. apply find_range_ext. unfold MAX_FILES. intros j Hj.
    unfold ent_used, ent_name. f_equal.
    + f_equal. f_equal. apply ld32_ext. intros. apply H. lia.
    + f_equal. f_equal. apply bytes_at_ext. intros k Hk. apply H. lia.
Qed.

(** Loading the metadata of a synced filesystem gives that filesystem. *)
Lemma load_synced g f c :
  fs_ok f c -> synced f -> dev g = dev f ->
  fs_ok (load_meta g) c /\ synced (load_meta g) /\ forall nm, lookup_file (load_meta g) nm = lookup_file f nm.
Proof.
  intros O Sy Ed. destruct (load_meta_spec g ltac:(rewrite Ed; apply O)) as (L1 & L2 & L3 & L4). rewrite Ed in *.
  set (f' := load_meta g) in *. pose proof (fo_count _ _ O) as Hc.
  destruct (meta_ext (super f) (super f')) as (_ & M1 & M2 & _).
  { intros k Hk. rewrite L3 by exact Hk. apply Sy. exact Hk. }
  destruct (meta_ext (dir f) (dir f')) as (M3 & _ & _ & M4).
  { intros k Hk. rewrite L4 by exact Hk. apply Sy. exact Hk. }
  split; [|split].
  - constructor; auto.
    + rewrite M1. apply O.
    + rewrite M2. apply O.
    + intros i Hi. destruct (M3 i Hi) as (_ & _ & _ & ->). apply O. exact Hi.
    + intros i Hi. destruct (M3 i ltac:(lia)) as (_ & _ & -> & _). apply O. exact Hi.
    + intros i Hi. destruct (M3 i ltac:(lia)) as (_ & -> & _ & _). apply O. exact Hi.
    + intros i Hi. destruct (M3 i ltac:(lia)) as (-> & _). apply O. exact Hi.
    + intros i j Hi Hj. destruct (M3 i ltac:(lia)) as (-> & _), (M3 j ltac:(lia)) as (-> & _). apply O; assumption.
  - intros k Hk. rewrite !L2, L3, L4 by exact Hk. auto.
  - intros nm. unfold lookup_file. rewrite M4. pose proof (find_ok f c nm O) as F.
    destruct (find (dir f) nm) as [i|]; [|reflexivity]. destruct F as [Hi _]. cbn. f_equal. unfold file_bytes.
    destruct (M3 i ltac:(lia)) as (_ & -> & -> & _). apply map_ext. intros q. apply L2.
Qed.

(** Formatting gives an empty filesystem. *)
Lemma format_spec g :
  disk_ok (dev g) -> fs_ok (format g) 0 /\ synced (format g) /\ forall nm, lookup_file (format g) nm = None.
Proof.
  intros Hd. unfold DATA_LBA, MAX_FILES, SLOT_SECTORS in Hdisk. unfold format, put_sector. cbn [dev super dir secbuf].
  set (s := set_sup_next _ _). set (m := memset (dir g) 0 0 512).
  pose proof (write_law (dev g) SUPER_LBA s Hd ltac:(unfold SUPER_LBA; lia)) as W1.
  destruct (write_sector (dev g) SUPER_LBA s) as [d1 r1]. destruct W1 as (_ & D1 & W1). cbn [fst dev super dir secbuf].
  pose proof (write_law d1 DIR_LBA m D1 ltac:(unfold DIR_LBA; lia)) as W2.
  destruct (write_sector d1 DIR_LBA m) as [d2 r2]. destruct W2 as (_ & D2 & W2). cbn [fst].
  assert (U : forall i, 0 <= i < MAX_FILES -> ent_used m i = false).
  { intros i Hi. unfold ent_used, m. rewrite ld32_memset0 by (unfold MAX_FILES in Hi; lia). reflexivity. }
  assert (O : fs_ok (mk_fs d2 s m (secbuf g)) 0).
  { constructor; cbn [dev super dir]; auto; try (intros; lia).
    - unfold MAX_FILES. lia.
    - unfold s, sup_magic, set_sup_next, set_sup_magic. rewrite ld32_st32_out by lia. apply ld32_st32_eq.
    - unfold s, sup_next, set_sup_next. rewrite ld32_st32_eq. reflexivity.
    - intros i Hi. rewrite U by exact Hi. symmetry. apply Z.ltb_ge. lia. }
  split; [exact O|]. split.
  - intros k Hk. cbn [dev super dir]. rewrite !W2, !W1 by exact Hk. split; reflexivity.
  - intros nm. unfold lookup_file. pose proof (find_ok _ _ nm O) as F. cbn [dir] in *.
    destruct (find m nm); [destruct F; lia|reflexivity].
Qed.

(** C34. Persistence.  After any reset of the filesystem's memory, mounting the
    disk of a filesystem brings back exactly its files; mounting a disk without
    the magic number formats it and gives an empty, well-formed filesystem. *)
Theorem fs_init_mounts (g : fs) :
  disk_ok (dev g) ->
  (forall f c, fs_ok f c -> synced f -> dev g = dev f ->
     fs_ok (fs_init g) c /\ synced (fs_init g) /\ forall nm, lookup_file (fs_init g) nm = lookup_file f nm) /\
  (sup_magic (super (load_meta g)) <> FS_MAGIC ->
     fs_ok (fs_init g) 0 /\ synced (fs_init g) /\ forall nm, lookup_file (fs_init g) nm = None).
Proof.
  intros Hd. unfold fs_init. split.
  - intros f c O Sy Ed. destruct (load_synced g f c O Sy Ed) as (L1 & L2 & L3).
    rewrite (fo_magic _ _ L1), Z.eqb_refl. cbn [negb]. auto.
  - intros Hm. apply Z.eqb_neq in Hm. rewrite Hm. cbn [negb]. apply format_spec. apply load_meta_spec. exact Hd.
Qed.

(** A file whose name has 20 characters or more is lost.  The directory
    keeps 19 of them while [find] compares the whole name, so writing it
    succeeds and takes an entry and a slot, but no lookup finds it again. *)
Theorem fs_long_name_lost (f : fs) (c : Z) (name : list Z) (m : mem) (data size : Z) :
  fs_ok f c -> synced f -> bytes name -> NAME_LEN <= tlen (text name) -> c < MAX_FILES -> 0 <= size ->
  let '(f', r) := fs_write f name m data size in
  r = 0 /\ sup_next (super f') = sup_next (super f) + SLOT_SECTORS /\ ent_used (dir f') c = true /\
  lookup_file f' name = None.
Proof.
  intros O Sy B Hn Hlt Hz. pose proof (fo_count _ _ O) as Hc. pose proof (find_ok f c name O) as F.
  assert (Ef : find (dir f) name = None).
  { destruct (find (dir f) name) as [i|]; [|reflexivity]. destruct F as [Hi E].
    pose proof (fo_names _ _ O i Hi). rewrite E in *. lia. }
  pose proof (entry_new f c name O Sy B Ef Hlt) as N. unfold fs_write.
  destruct (fs_entry_for f name) as [f1 o]. cbn [fst snd] in N.
  destruct N as (-> & N1 & N2 & N3 & N4 & N5 & N6 & N7 & N8).
  pose proof (complete_spec f1 c m data size Hds N1 ltac:(lia) N5 Hz) as C. cbv zeta in C |- *.
  replace (if SLOT_SECTORS * 512 <? size then SLOT_SECTORS * 512 else size) with (Z.min size (SLOT_SECTORS * 512))
    by (zcase; lia).
  destruct (for_range_ret 0 _ _ f1) as [f2 [r|]]; [contradiction|]. cbn [dir with_dir].
  set (f' := fst _) in *. destruct C as [C1 C2 C3 (C4 & C5 & C6) C7 _ _ _].
  split; [reflexivity|]. split; [rewrite C2, N3, (fo_next _ _ O); unfold SLOT_SECTORS; lia|].
  split; [rewrite C6; exact N4|]. unfold lookup_file.
  replace (find (dir f') name) with (@None Z); [reflexivity|]. symmetry. apply find_range_none_iff. intros j Hj.
  destruct (ent_used (dir f') j) eqn:Eu; [|reflexivity]. cbn [andb]. apply Z.eqb_neq. intros E. apply strcmp_eq in E.
  assert (Hs : tlen (text (name20 (dir f') j)) < NAME_LEN).
  { destruct (Z.eq_dec j c) as [->|Nj].
    - rewrite C4, N6. unfold tlen, NAME_LEN. rewrite length_take. lia.
    - destruct (C7 j Hj Nj) as (-> & _ & _ & U2), (N7 j Hj Nj) as (-> & _ & _ & U1).
      apply O. rewrite U2, U1, (fo_used _ _ O) in Eu by exact Hj. apply Z.ltb_lt in Eu. lia. }
  rewrite (ent_name_text (dir f') j Hj Hs) in E. rewrite E in Hs. lia.
Qed.

End Laws.

End Fs.

(** ** A concrete disk: its bytes, one sector after the other *)

#[local] Instance map_disk : Disk mem := {
  read_sector := fun d lba buf => (d, copy_bytes buf 0 d (lba * 512) 512, 0);
  write_sector := fun d lba buf => (copy_bytes d (lba * 512) buf 0 512, 0)
}.

#[local] Instance map_disk_laws : DiskLaws mem.
Proof.
  refine {| disk_ok := fun _ => True; disk_size := 2048; sector := fun d l k => ld8 d (l * 512 + k) |};
    cbn [read_sector write_sector map_disk].
  - intros. apply ld8_range.
  - intros d lba buf _ Hl. repeat (split; [auto|]). intros x. rewrite ld8_copy_bytes by lia. unfold in_range.
    replace (x - 0) with x by lia. reflexivity.
  - intros d lba buf _ Hl. repeat (split; [auto|]). intros l k Hk. rewrite ld8_copy_bytes by lia. unfold in_range.
    destruct (Z.eqb_spec l lba) as [->|]; zcase; try lia; try reflexivity. f_equal. lia.
Defined.

Lemma map_disk_big : DATA_LBA + MAX_FILES * SLOT_SECTORS <= disk_size.
Proof. discriminate. Qed.

Lemma map_disk_small : disk_size <= 0x100000000.
Proof. discriminate. Qed.

Definition demo_fs : fs (D := mem) := format (mk_fs ∅ ∅ ∅ ∅).

Lemma demo_fs_ok : fs_ok demo_fs 0 /\ synced demo_fs.
Proof. destruct (format_spec map_disk_big (mk_fs ∅ ∅ ∅ ∅)) as (H1 & H2 & _); [exact I|auto]. Qed.

Lemma fs_write_refines_witness :
  let '(f', r) := fs_write demo_fs (lit "notes") (st8 ∅ 7 65) 7 1 in
  r = 0 /\ lookup_file f' (lit "notes") = Some [65].
Proof.
  pose proof (fs_write_refines map_disk_big map_disk_small demo_fs 0 (lit "notes") (st8 ∅ 7 65) 7 1
    (proj1 demo_fs_ok) (proj2 demo_fs_ok) (lit_bytes _) ltac:(reflexivity) ltac:(lia)) as T.
  destruct (fs_write demo_fs _ _ _ _) as [f' r].
  destruct T as [(_ & _ & T & _)|(T1 & _ & _ & T2 & _)]; [discriminate|].
  split; [exact T1|]. rewrite T2. vm_compute. reflexivity.
Defined.

Definition demo_written : fs (D := mem) := fst (fs_write demo_fs (lit "notes") (st8 ∅ 7 65) 7 1).

Lemma demo_written_ok :
  (exists c, fs_ok demo_written c) /\ lookup_file demo_written (lit "notes") = Some (bytes_at (st8 ∅ 7 65) 7 1).
Proof.
  pose proof (fs_write_spec map_disk_big map_disk_small demo_fs 0 (lit "notes") (st8 ∅ 7 65) 7 1
    (proj1 demo_fs_ok) (proj2 demo_fs_ok) (lit_bytes _) ltac:(reflexivity) ltac:(lia)) as T.
  unfold demo_written. destruct (fs_write demo_fs _ _ _ _) as [f' r].
  destruct T as [(_ & _ & T & _)|(T1 & T2 & _ & T3 & _)]; [discriminate|]. auto.
Qed.

Lemma fs_read_returns_witness :
  let '(f', m', r, out) := fs_read demo_written (lit "notes") ∅ 0x1000 64 in
  r = 0 /\ out = Some 1 /\ ld8 m' 0x1000 = 65.
Proof.
  destruct demo_written_ok as [[c O] E].
  pose proof (fs_read_returns map_disk_big map_disk_small demo_written c (lit "notes") ∅ 0x1000 64
    O ltac:(lia)) as T.
  rewrite E in T. destruct (fs_read demo_written _ _ _ _) as [[[f' m'] r] out].
  destruct T as (_ & T1 & T2 & T3 & _). split; [exact T1|]. split; [exact T2|].
  assert (T4 : bytes_at m' 0x1000 1 = [65]) by (etransitivity; [exact T3|vm_compute; reflexivity]).
  unfold bytes_at in T4. cbn in T4. injection T4 as T4. exact T4.
Defined.

Lemma fs_init_mounts_witness :
  fs_ok (fs_init (mk_fs (dev demo_fs) ∅ ∅ ∅)) 0 /\
  forall nm, lookup_file (fs_init (mk_fs (dev demo_fs) ∅ ∅ ∅)) nm = lookup_file demo_fs nm.
Proof.
  destruct (fs_init_mounts map_disk_big (mk_fs (dev demo_fs) ∅ ∅ ∅) I) as [T _].
  destruct (T demo_fs 0 (proj1 demo_fs_ok) (proj2 demo_fs_ok) eq_refl) as (T1 & _ & T2). auto.
Defined.

Lemma fs_long_name_lost_witness :
  let '(f', r) := fs_write demo_fs (lit "a-rather-long-filename") ∅ 0 5 in
  r = 0 /\ lookup_file f' (lit "a-rather-long-filename") = None.
Proof.
  pose proof (fs_long_name_lost map_disk_big map_disk_small demo_fs 0 (lit "a-rather-long-filename") ∅ 0 5
    (proj1 demo_fs_ok) (proj2 demo_fs_ok) (lit_bytes _) ltac:(discriminate) ltac:(reflexivity) ltac:(lia)) as T.
  destruct (fs_write demo_fs _ _ _ _) as [f' r]. destruct T as (T1 & _ & _ & T2). auto.
Defined.
