(* ===== verification/Sync.v ===== *)
(** * Synchronization primitives (kernel/sync.c, kernel/sync.h)

    A lock is its word [locked], a semaphore its word [count].  The waiting
    loops are given turn by turn: a turn ends with the lock acquired, or with
    the caller pausing or yielding before the next turn, which is where other
    threads run. *)

From stdpp Require Import base gmap list numbers option.
From Stdlib Require Import ZArith Lia Bool.
From S2P Require Import Prelude.

(** The new value of [*p], and the old one. *)
Definition atomic_xchg (p v : Z) : Z * Z := (v, p).

Definition spin_init (s : Z) : Z := 0.

(** One turn of [while (atomic_xchg(&s->locked, 1)) pause]: the lock word, and
    whether the loop ends. *)
Definition spin_lock (s : Z) : Z * bool :=
  let '(s, old) := atomic_xchg s 1 in (s, old =? 0).

Definition spin_unlock (s : Z) : Z := 0.

Definition mutex_init (m : Z) : Z := 0.

(** One turn of [while (atomic_xchg(&m->locked, 1)) task_yield()]. *)
Definition mutex_lock (m : Z) : Z * bool :=
  let '(m, old) := atomic_xchg m 1 in (m, old =? 0).

Definition mutex_unlock (m : Z) : Z := 0.

(** The interrupt flag of EFLAGS. *)
Definition IF_BIT : Z := 0x200.

(** [pushf; pop; cli]: the new EFLAGS and the value returned. *)
Definition irq_save (eflags : Z) : Z * Z := (Z.land eflags (u32 (Z.lnot IF_BIT)), eflags).
Definition irq_restore (eflags flags : Z) : Z := flags.

Definition sem_init (s count : Z) : Z := count.

(** One turn of [sem_wait]: count, EFLAGS, and whether it returns. *)
Definition sem_wait (s eflags : Z) : Z * Z * bool :=
  let '(eflags, flags) := irq_save eflags in
  if 0 <? s then
    let s := s - 1 in
    (s, irq_restore eflags flags, true)
  else (s, irq_restore eflags flags, false).

Definition sem_post (s eflags : Z) : Z * Z :=
  let '(eflags, flags) := irq_save eflags in
  let s := s + 1 in
  (s, irq_restore eflags flags).

(** ** Semaphores under any interleaving *)

(** The calls made on one semaphore, in the order they take effect: a turn of
    [sem_wait] or a [sem_post], each with the caller's EFLAGS. *)
Inductive sem_call := Wait (eflags : Z) | Post (eflags : Z).

(** The count, the successful waits and the posts so far. *)
Record sem_trace := mk_trace { sem_count : Z; waits : Z; posts : Z }.

Definition sem_step (t : sem_trace) (c : sem_call) : sem_trace :=
  match c with
  | Wait fl =>
      let '(n, _, ok) := sem_wait (sem_count t) fl in
      mk_trace n (if ok then waits t + 1 else waits t) (posts t)
  | Post fl => let '(n, _) := sem_post (sem_count t) fl in mk_trace n (waits t) (posts t + 1)
  end.

Definition sem_run (n : Z) (cs : list sem_call) : sem_trace := fold_left sem_step cs (mk_trace (sem_init 0 n) 0 0).

(**  However the waits and posts of any number of threads
    interleave, the successful waits never exceed the initial count plus the
    posts, the count is exactly the difference, and every call gives the caller
    its interrupt flag back as it was. *)
Theorem semaphore_counts (n : Z) (cs : list sem_call) :
  0 <= n ->
  let t := sem_run n cs in
  sem_count t = n + posts t - waits t /\ 0 <= sem_count t /\ waits t <= n + posts t /\
  forall s fl, snd (fst (sem_wait s fl)) = fl /\ snd (sem_post s fl) = fl.
Proof.
  intros Hn. unfold sem_run.
  assert (G : forall cs t, 0 <= sem_count t -> sem_count t = n + posts t - waits t ->
    let t' := fold_left sem_step cs t in 0 <= sem_count t' /\ sem_count t' = n + posts t' - waits t').
  { clear cs. induction cs as [|c cs IH]; intros t H1 H2; cbn [fold_left]; [auto|].
    apply IH; destruct c; cbn; destruct (Z.ltb_spec 0 (sem_count t)); cbn; lia. }
  destruct (G cs (mk_trace (sem_init 0 n) 0 0)) as [G1 G2]; [exact Hn|unfold sem_init; cbn; lia|]. cbv zeta. split; [exact G2|]. split; [exact G1|]. split; [lia|].
  intros s fl. unfold sem_wait, sem_post, irq_save, irq_restore. destruct (0 <? s); auto.
Qed.

Lemma semaphore_counts_witness : waits (sem_run 1 [Wait 0x202; Wait 0x202; Post 2; Wait 2]) <= 1 + 1.
Proof. apply (semaphore_counts 1 [Wait 0x202; Wait 0x202; Post 2; Wait 2]). lia. Defined.
