(* ===== verification/Task.v ===== *)
(** * Multitasking (kernel/task.c)

    The scheduler keeps the task table and the current index; [context_switch]
    (assembly) is the exchange of the stack pointer.  The bodies of the demo
    tasks are small-step programs: a step ends by continuing, by calling
    [task_yield], or by calling [task_exit].  The same programs run under the
    cooperative scheduler of the code and, for the mutex theorem, under an
    arbitrary interleaving. *)

From stdpp Require Import base gmap list numbers option.
From Stdlib Require Import ZArith Lia Bool.
From S2P Require Import Prelude CString Screen Sync.

Definition MAX_TASKS : Z := 8.
Definition STACK_SIZE : Z := 4096.

Record task_t := mk_task {
  esp : Z;
  active : bool
}.

Definition no_task : task_t := mk_task 0 false.

(** The static variables, the stacks' memory and the CPU's stack pointer (with
    the callee-saved registers pushed, as [context_switch] stores it). *)
Record sched := mk_sched {
  tasks : list task_t;
  num_tasks : Z;
  current : Z;
  preempt_enabled : bool;
  deadline : Z;
  stack_mem : mem;
  cpu_esp : Z
}.

Definition task (st : sched) (i : Z) : task_t := tget no_task (tasks st) i.

Definition set_task (st : sched) (i : Z) (t : task_t) : sched :=
  mk_sched (tset (tasks st) i t) (num_tasks st) (current st) (preempt_enabled st) (deadline st)
    (stack_mem st) (cpu_esp st).
Definition set_active (st : sched) (i : Z) (b : bool) : sched := set_task st i (mk_task (esp (task st i)) b).
Definition set_current (st : sched) (i : Z) : sched :=
  mk_sched (tasks st) (num_tasks st) i (preempt_enabled st) (deadline st) (stack_mem st) (cpu_esp st).
Definition set_num (st : sched) (n : Z) : sched :=
  mk_sched (tasks st) n (current st) (preempt_enabled st) (deadline st) (stack_mem st) (cpu_esp st).
Definition set_preempt (st : sched) (b : bool) (d : Z) : sched :=
  mk_sched (tasks st) (num_tasks st) (current st) b d (stack_mem st) (cpu_esp st).

(** [stacks] is the address of the array of stacks. *)
Definition task_create (stacks : Z) (st : sched) (entry : Z) : sched * Z :=
  let id := num_tasks st in
  let sp := stacks + id * STACK_SIZE + STACK_SIZE in
  let m := st32 (stack_mem st) (sp - 4) entry in
  let m := st32 m (sp - 8) 0 in
  let m := st32 m (sp - 12) 0 in
  let m := st32 m (sp - 16) 0 in
  let m := st32 m (sp - 20) 0 in
  (mk_sched (tset (tasks st) id (mk_task (u32 (sp - 20)) true)) (num_tasks st + 1) (current st)
     (preempt_enabled st) (deadline st) m (cpu_esp st), id).

(** [context_switch(&tasks[prev].esp, tasks[next].esp)] *)
Definition context_switch (st : sched) (prev next : Z) : sched :=
  let new_esp := esp (task st next) in
  mk_sched (tset (tasks st) prev (mk_task (cpu_esp st) (active (task st prev)))) (num_tasks st) (current st)
    (preempt_enabled st) (deadline st) (stack_mem st) new_esp.

(** The candidate [(prev + off) % num_tasks] is an active worker. *)
Definition runnable (st : sched) (prev off : Z) : bool :=
  let cand := (prev + off) mod num_tasks st in
  negb (cand =? 0) && active (task st cand).

Definition task_yield (st : sched) : sched :=
  let prev := current st in
  match find_range 1 (num_tasks st) (runnable st prev) with
  | Some off =>
      let cand := (prev + off) mod num_tasks st in
      context_switch (set_current st cand) prev cand
  | None =>
      if negb (prev =? 0) && negb (active (task st prev))
      then context_switch (set_current st 0) prev 0
      else st
  end.

(** [task_exit] up to the switch; control does not come back. *)
Definition task_exit (st : sched) : sched := task_yield (set_active st (current st) false).

(** [for (i = 1; i < num_tasks; i++) tasks[i].active = 0;] *)
Definition stop_workers (st : sched) : sched :=
  for_range 1 (num_tasks st) (fun i st => set_active st i false) st.

(** [tick] is the value of [timer_ticks()]. *)
Definition preempt_tick (st : sched) (tick : Z) : sched :=
  if negb (preempt_enabled st) then st
  else if deadline st <=? tick then
    let st := set_preempt st false (deadline st) in
    let st := stop_workers st in
    let prev := current st in
    if negb (prev =? 0) then context_switch (set_current st 0) prev 0 else st
  else task_yield st.

(** The common start of the demos: task 0 is the scheduler. *)
Definition reset_tasks (st : sched) : sched :=
  let st := set_num st 0 in
  let st := set_current st 0 in
  let st := set_task st 0 (mk_task 0 false) in
  set_num st 1.

(** ** Task bodies *)

Inductive signal := Continue | Yield | Exit.

Section Run.
(** The local state of a task and the state all tasks share. *)
Context {L G : Type} (dummy : L) (step : Z -> L -> G -> L * G * signal).

(** Run until control is back in task 0. *)
Fixpoint run (fuel : nat) (st : sched) (ls : list L) (g : G) : option (sched * G) :=
  match fuel with
  | O => None
  | S fuel =>
      let c := current st in
      if c =? 0 then Some (st, g)
      else
        let '(l, g, sig) := step c (tget dummy ls c) g in
        let ls := tset ls c l in
        match sig with
        | Continue => run fuel st ls g
        | Yield => run fuel (task_yield st) ls g
        | Exit => run fuel (task_exit st) ls g
        end
  end.

End Run.

(** ** Cooperative demo *)

Section Demo.
(** The screen, through what the tasks use of it. *)
Context {S : Type} (print : S -> list Z -> S).

(** [worker(label)]: the local state is the loop counter [i]. *)
Definition worker (label : list Z) (i : Z) (s : S) : Z * S * signal :=
  if i <? 5 then (i + 1, print s label, Yield) else (i, s, Exit).

Definition tasks_abc (c : Z) (i : Z) (s : S) : Z * S * signal :=
  worker (if c =? 1 then lit "A " else if c =? 2 then lit "B " else lit "C ") i s.

(** [ea], [eb], [ec] are the entry addresses; [None] would be a demo that has
    not come back after 100 steps. *)
Definition tasking_demo (stacks ea eb ec : Z) (st : sched) (s : S) : option (sched * S) :=
  let st := reset_tasks st in
  let '(st, _) := task_create stacks st ea in
  let '(st, _) := task_create stacks st eb in
  let '(st, _) := task_create stacks st ec in
  let s := print s (lit "  ") in
  match run 0 tasks_abc 100 (task_yield st) [0; 0; 0; 0] s with
  | Some (st, s) => Some (st, print s (10 :: lit "  all tasks finished, back in the shell." ++ [10]))
  | None => None
  end.

End Demo.

(** ** Threads and the mutex *)

Definition THREAD_ITERS : Z := 8.

Record shared := mk_shared {
  shared_counter : Z;
  counter_mutex : Z
}.

(** [racer]: at the head of the loop, or after the yield with [t] read. *)
Inductive racer_pc := RTop (i : Z) | RHave (i t : Z).

Definition racer (_ : Z) (pc : racer_pc) (g : shared) : racer_pc * shared * signal :=
  match pc with
  | RTop i =>
      if i <? THREAD_ITERS then (RHave i (shared_counter g), g, Yield) else (RTop i, g, Exit)
  | RHave i t => (RTop (i + 1), mk_shared (t + 1) (counter_mutex g), Continue)
  end.

(** [safe_worker]: taking the lock, holding it before the read, after the
    yield, after the write. *)
Inductive safe_pc := SLock (i : Z) | SRead (i : Z) | SHave (i t : Z) | SUnlock (i : Z) | SDone.

Definition safe_worker (_ : Z) (pc : safe_pc) (g : shared) : safe_pc * shared * signal :=
  match pc with
  | SLock i =>
      if i <? THREAD_ITERS then
        let '(m, got) := mutex_lock (counter_mutex g) in
        let g := mk_shared (shared_counter g) m in
        if got then (SRead i, g, Continue) else (SLock i, g, Yield)
      else (SDone, g, Exit)
  | SRead i => (SHave i (shared_counter g), g, Yield)
  | SHave i t => (SUnlock i, mk_shared (t + 1) (counter_mutex g), Continue)
  | SUnlock i => (SLock (i + 1), mk_shared (shared_counter g) (mutex_unlock (counter_mutex g)), Continue)
  | SDone => (SDone, g, Exit)
  end.

(** [spawn_three(worker)] for a worker whose body starts at [start]. *)
Definition spawn_three {L : Type} (start : L) (step : Z -> L -> shared -> L * shared * signal)
    (stacks entry : Z) (st : sched) (g : shared) : option (sched * shared) :=
  let st := reset_tasks st in
  let '(st, _) := task_create stacks st entry in
  let '(st, _) := task_create stacks st entry in
  let '(st, _) := task_create stacks st entry in
  run start step 1000 (task_yield st) [start; start; start; start] g.

(** The state and the screen after [threads_demo]. *)
Definition threads_demo (stacks e1 e2 : Z) (st : sched) (g : shared) (s : screen)
    : option (sched * shared * screen) :=
  let g := mk_shared 0 (counter_mutex g) in
  let s := kprint s (lit "  3 threads each add 8 to a shared counter (expected 24)." ++ [10]) in
  let s := kprint s (lit "  without a lock: ") in
  match spawn_three (RTop 0) racer stacks e1 st g with
  | None => None
  | Some (st, g) =>
      let s := kprint_dec s (u32 (shared_counter g)) in
      let s := kprint_color s (lit "  <- lost updates, a race condition." ++ [10]) COLOR_RED_ON_BLACK in
      let g := mk_shared 0 (mutex_init (counter_mutex g)) in
      let s := kprint s (lit "  with a mutex:   ") in
      match spawn_three (SLock 0) safe_worker stacks e2 st g with
      | None => None
      | Some (st, g) =>
          let s := kprint_dec s (u32 (shared_counter g)) in
          let s := kprint_color s (lit "  <- correct, mutual exclusion holds." ++ [10]) COLOR_GREEN_ON_BLACK in
          Some (st, g, s)
      end
  end.

(** ** Preemptive demo *)

(** [preempt_demo] up to its waiting loop; [tick] is [timer_ticks()]. *)
Definition preempt_arm (stacks ea eb : Z) (st : sched) (tick : Z) : sched :=
  let st := reset_tasks st in
  let '(st, _) := task_create stacks st ea in
  let '(st, _) := task_create stacks st eb in
  set_preempt st true (u32 (tick + 100)).

(** The timer interrupt [n] times. *)
Fixpoint tick_loop (n : nat) (st : sched) (tick : Z) : sched * Z :=
  match n with
  | O => (st, tick)
  | S n =>
      let tick := u32 (tick + 1) in
      tick_loop n (preempt_tick st tick) tick
  end.

(** ** The scheduler *)

Record sched_ok (st : sched) : Prop := {
  so_len : tlen (tasks st) = MAX_TASKS;
  so_num : 1 <= num_tasks st <= MAX_TASKS;
  so_cur : 0 <= current st < num_tasks st
}.

(** The workers that may run. *)
Definition ready (st : sched) (q : Z) : Prop := 1 <= q < num_tasks st /\ active (task st q) = true.

(** How far [q] is ahead of [p] in the rotation. *)
Definition ahead (st : sched) (p q : Z) : Z := (q - p) mod num_tasks st.

Lemma task_set st i t j :
  tlen (tasks st) = MAX_TASKS -> 0 <= i < MAX_TASKS -> 0 <= j ->
  task (set_task st i t) j = if i =? j then t else task st j.
Proof. intros Hl Hi Hj. unfold task, set_task. cbn [tasks]. apply tget_tset; lia. Qed.

(** A switch leaves everything but the stack pointers alone. *)
Lemma switch_spec st p q :
  sched_ok st -> 0 <= p < num_tasks st -> 0 <= q < num_tasks st ->
  let st' := context_switch (set_current st q) p q in
  sched_ok st' /\ current st' = q /\ num_tasks st' = num_tasks st /\
  (forall j, 0 <= j -> active (task st' j) = active (task st j)) /\
  esp (task st' p) = cpu_esp st /\ cpu_esp st' = esp (task st q) /\
  preempt_enabled st' = preempt_enabled st /\ deadline st' = deadline st.
Proof.
  intros [H1 H2 H3] Hp Hq st'. pose (t := mk_task (cpu_esp st) (active (task st p))).
  assert (Ts : tasks st' = tset (tasks st) p t) by reflexivity.
  assert (T : forall j, 0 <= j -> task st' j = if p =? j then t else task st j)
    by (intros j Hj; unfold task; rewrite Ts; apply tget_tset; lia).
  split; [constructor; [rewrite Ts, tlen_tset; exact H1|exact H2|exact Hq]|].
  split; [reflexivity|]. split; [reflexivity|]. split; [|split; [|auto]].
  - intros j Hj. rewrite T by exact Hj. destruct (Z.eqb_spec p j) as [<-|]; reflexivity.
  - rewrite T, Z.eqb_refl by lia. reflexivity.
Qed.

(** The outcomes of [task_yield]. *)
Lemma task_yield_cases st :
  sched_ok st ->
  let p := current st in
  let st' := task_yield st in
  sched_ok st' /\ num_tasks st' = num_tasks st /\
  preempt_enabled st' = preempt_enabled st /\ deadline st' = deadline st /\
  (forall j, 0 <= j -> active (task st' j) = active (task st j)) /\
  ((ready st (current st') /\ current st' <> p /\
    (forall q, ready st q -> q <> p -> ahead st p (current st') <= ahead st p q)) \/
   ((forall q, ready st q -> q = p) /\
    current st' = if negb (p =? 0) && negb (active (task st p)) then 0 else p)).
Proof.
  intros O p st'. pose proof O as [H1 H2 H3]. unfold st', task_yield. fold p.
  destruct (find_range 1 (num_tasks st) (runnable st p)) as [off|] eqn:E.
  - apply find_range_some in E as (Ho & R & Hf). unfold runnable in R. apply andb_true_iff in R as [R1 R2].
    apply negb_true_iff, Z.eqb_neq in R1. set (q := (p + off) mod num_tasks st) in *.
    assert (Hq : 0 <= q < num_tasks st) by (apply Z.mod_pos_bound; lia).
    destruct (switch_spec st p q O ltac:(unfold p; lia) Hq) as (S1 & S2 & S3 & S4 & _ & _ & S5 & S6).
    repeat (split; [assumption|]). left. rewrite S2. split; [split; [lia|exact R2]|].
    assert (Hqp : q <> p).
    { unfold q. intros Eq. fold p in H3.
      assert (Hm : (p + off) mod num_tasks st = p mod num_tasks st) by (rewrite Eq; symmetry; apply Z.mod_small; lia).
      assert (Ht : off mod num_tasks st = 0).
      { replace off with (p + off - p) by lia. rewrite Zminus_mod, Hm, Z.sub_diag. reflexivity. }
      rewrite Z.mod_small in Ht by lia. lia. }
    split; [exact Hqp|]. intros r Hr Hrp.
    assert (Ed : ahead st p q = off).
    { unfold ahead, q. rewrite Zminus_mod_idemp_l. replace (p + off - p) with off by lia. apply Z.mod_small. lia. }
    rewrite Ed. destruct (Z.le_gt_cases off (ahead st p r)) as [|Hlt]; [assumption|]. exfalso.
    set (d := ahead st p r) in *. destruct Hr as [Hr1 Hr2].
    assert (Hd : (p + d) mod num_tasks st = r).
    { unfold d, ahead. rewrite Zplus_mod_idemp_r. replace (p + (r - p)) with r by lia. apply Z.mod_small. lia. }
    assert (Hd0 : 1 <= d).
    { assert (0 <= d < num_tasks st) by (unfold d, ahead; apply Z.mod_pos_bound; lia).
      destruct (Z.eq_dec d 0) as [Z0|]; [|lia]. rewrite Z0, Z.add_0_r, Z.mod_small in Hd by lia. congruence. }
    specialize (Hf d ltac:(lia)). unfold runnable in Hf. rewrite Hd, Hr2, (proj2 (Z.eqb_neq r 0)) in Hf by lia. discriminate.
  - pose proof (find_range_none _ _ _ E) as Hn.
    assert (Only : forall q, ready st q -> q = p).
    { intros q [Hq1 Hq2]. destruct (Z.eq_dec q p) as [|Hne]; [assumption|]. exfalso.
      pose proof (Z.mod_pos_bound (q - p) (num_tasks st) ltac:(lia)) as B. set (d := (q - p) mod num_tasks st) in *.
      assert (Hd : (p + d) mod num_tasks st = q).
      { unfold d. rewrite Zplus_mod_idemp_r. replace (p + (q - p)) with q by lia. apply Z.mod_small. lia. }
      assert (Hd0 : d <> 0) by (intros Z0; rewrite Z0, Z.add_0_r, Z.mod_small in Hd by (unfold p; lia); congruence).
      specialize (Hn d ltac:(lia)). unfold runnable in Hn. rewrite Hd, Hq2, (proj2 (Z.eqb_neq q 0)) in Hn by lia. discriminate. }
    destruct (negb (p =? 0) && negb (active (task st p))).
    + destruct (switch_spec st p 0 O ltac:(unfold p; lia) ltac:(lia)) as (S1 & S2 & S3 & S4 & _ & _ & S5 & S6). auto 10.
    + auto 10.
Qed.

(** The rotation reaches every active worker: each yield brings it nearer. *)
Lemma yield_reaches q : forall k st,
  sched_ok st -> ready st q -> q <> current st -> ahead st (current st) q <= Z.of_nat k ->
  exists n, (1 <= n <= k)%nat /\ current (Nat.iter n task_yield st) = q.
Proof.
  induction k as [|k IH]; intros st O Hq Hne Hk.
  - exfalso. pose proof O as [_ H2 H3]. destruct Hq as [Hq _]. unfold ahead in Hk.
    pose proof (Z.mod_pos_bound (q - current st) (num_tasks st) ltac:(lia)).
    assert (Z0 : (q - current st) mod num_tasks st = 0) by lia.
    apply Z.mod_divide in Z0 as [z Hz]; [|lia]. assert (z = 0) by nia. lia.
  - destruct (task_yield_cases st O) as (Y1 & Y2 & _ & _ & Y3 & Y4). destruct Y4 as [(R & Rn & Rm)|[Only _]].
    2:{ destruct (Hne (Only q Hq)). }
    destruct (Z.eq_dec (current (task_yield st)) q) as [Eq|Nq].
    { exists 1%nat. split; [lia|exact Eq]. }
    pose proof (Rm q Hq Hne) as Hle. pose proof O as [_ H2 H3]. pose proof Y1 as [_ _ H3'].
    set (c := current (task_yield st)) in *. destruct Hq as [Hq1 Hq2].
    assert (Hdist : ahead (task_yield st) c q = ahead st (current st) q - ahead st (current st) c).
    { unfold ahead in *. rewrite Y2. set (n := num_tasks st) in *. set (p := current st) in *.
      assert (E : (q - c) mod n = ((q - p) mod n - (c - p) mod n) mod n)
        by (rewrite <- Zminus_mod; f_equal; lia).
      rewrite E. apply Z.mod_small. pose proof (Z.mod_pos_bound (q - p) n). pose proof (Z.mod_pos_bound (c - p) n). lia. }
    assert (Hpos : 1 <= ahead st (current st) c).
    { unfold ahead. pose proof (Z.mod_pos_bound (c - current st) (num_tasks st) ltac:(lia)).
      destruct (Z.eq_dec ((c - current st) mod num_tasks st) 0) as [Z0|]; [|lia].
      apply Z.mod_divide in Z0 as [z Hz]; [|lia]. assert (z = 0) by nia. lia. }
    destruct (IH (task_yield st) Y1) as (n & Hn & En).
    + split; [lia|]. rewrite Y3 by lia. exact Hq2.
    + intros E. apply Nq. symmetry. exact E.
    + fold c. lia.
    + exists (S n). split; [lia|]. rewrite Nat.iter_succ_r. exact En.
Qed.

(** C36. The scheduler.  [task_yield] switches to the nearest other active worker
    in rotation order, never to task 0; without one it keeps the caller, or
    returns to task 0 when the caller has exited.  It is fair: while the set of
    active workers does not change, every active worker runs within
    [num_tasks - 1] yields. *)
Theorem task_yield_fair (st : sched) :
  sched_ok st ->
  let st' := task_yield st in
  (sched_ok st' /\
   ((ready st (current st') /\ current st' <> current st /\
     (forall q, ready st q -> q <> current st -> ahead st (current st) (current st') <= ahead st (current st) q)) \/
    ((forall q, ready st q -> q = current st) /\
     current st' = if negb (current st =? 0) && negb (active (task st (current st))) then 0 else current st))) /\
  (forall q, ready st q -> q <> current st ->
     exists n, (1 <= n < Z.to_nat (num_tasks st))%nat /\ current (Nat.iter n task_yield st) = q).
Proof.
  intros O st'. destruct (task_yield_cases st O) as (Y1 & _ & _ & _ & _ & Y2). split; [auto|].
  intros q Hq Hne.
  pose proof O as [_ H2 _]. pose proof (Z.mod_pos_bound (q - current st) (num_tasks st) ltac:(lia)) as B.
  destruct (yield_reaches q (Z.to_nat (num_tasks st - 1)) st O Hq Hne) as (n & Hn & En); [unfold ahead; lia|].
  exists n. split; [lia|exact En].
Qed.

(** ** The mutex under any interleaving *)

(** The threads [ps] run in the order [sch]: one step of thread [i] for each
    index [i], wherever the timer or a yield may switch. *)
Fixpoint interleave (sch : list Z) (ps : list safe_pc) (g : shared) : list safe_pc * shared :=
  match sch with
  | [] => (ps, g)
  | i :: sch =>
      let '(p, g, _) := safe_worker i (tget SDone ps i) g in
      interleave sch (tset ps i p) g
  end.

(** The thread holds the mutex. *)
Definition in_cs (p : safe_pc) : Z := match p with SRead _ | SHave _ _ | SUnlock _ => 1 | _ => 0 end.

(** Increments the thread has stored. *)
Definition added (p : safe_pc) : Z :=
  match p with
  | SLock i | SRead i | SHave i _ => i
  | SUnlock i => i + 1
  | SDone => THREAD_ITERS
  end.

(** Steps the thread has left when it is never kept waiting. *)
Definition left (p : safe_pc) : Z :=
  match p with
  | SLock i => 4 * (8 - i) + 1
  | SRead i => 4 * (8 - i)
  | SHave i _ => 4 * (8 - i) - 1
  | SUnlock i => 4 * (8 - i) - 2
  | SDone => 0
  end.

Definition pc_ok (g : shared) (p : safe_pc) : Prop :=
  match p with
  | SLock i => 0 <= i <= THREAD_ITERS
  | SRead i | SUnlock i => 0 <= i < THREAD_ITERS
  | SHave i t => 0 <= i < THREAD_ITERS /\ t = shared_counter g
  | SDone => True
  end.

Fixpoint total {A : Type} (f : A -> Z) (ps : list A) : Z :=
  match ps with
  | [] => 0
  | p :: ps => f p + total f ps
  end.

Record threads_ok (ps : list safe_pc) (g : shared) : Prop := {
  th_mutex : counter_mutex g = total in_cs ps /\ total in_cs ps <= 1;
  th_count : shared_counter g = total added ps;
  th_pcs : forall i, 0 <= i < tlen ps -> pc_ok g (tget SDone ps i)
}.

(** A property of every element, by index. *)
Lemma Forall_index {A} (P : A -> Prop) (d : A) l : (forall i, 0 <= i < tlen l -> P (tget d l i)) <-> Forall P l.
Proof.
  induction l as [|x l IH]; [split; [constructor|unfold tlen; cbn; lia]|].
  pose proof (tlen_nonneg l). rewrite Forall_cons_iff, <- IH, tlen_cons. split.
  - intros H1. split; [exact (H1 0 ltac:(lia))|]. intros i Hi. specialize (H1 (i + 1) ltac:(lia)).
    rewrite tget_cons, (proj2 (Z.eqb_neq (i + 1) 0)) in H1 by lia. replace (i + 1 - 1) with i in H1 by lia. exact H1.
  - intros [H0 H1] i Hi. rewrite tget_cons by lia. destruct (Z.eqb_spec i 0); [exact H0|]. apply H1. lia.
Qed.

Lemma total_zero {A} (f : A -> Z) ps : Forall (fun p => f p = 0) ps -> total f ps = 0.
Proof. induction 1; cbn [total]; lia. Qed.

Lemma total_zero_inv {A} (f : A -> Z) ps :
  Forall (fun p => 0 <= f p) ps -> total f ps <= 0 -> Forall (fun p => f p = 0) ps.
Proof.
  intros F. assert (G : 0 <= total f ps /\ (total f ps <= 0 -> Forall (fun p => f p = 0) ps)); [|tauto].
  induction F as [|p ps Hp F [I1 I2]]; cbn [total]; [split; [lia|constructor]|].
  split; [lia|]. intros Ht. constructor; [lia|]. apply I2. lia.
Qed.

Lemma total_tset {A} (f : A -> Z) (d : A) ps : forall i p,
  0 <= i < tlen ps -> total f (tset ps i p) = total f ps - f (tget d ps i) + f p.
Proof.
  induction ps as [|x ps IH]; intros i p Hi; [unfold tlen in Hi; cbn in Hi; lia|].
  rewrite tlen_cons in Hi. rewrite tget_cons by lia. unfold tset. destruct (Z.eqb_spec i 0) as [->|].
  - change (f p + total f ps = f x + total f ps - f x + f p). lia.
  - replace (Z.to_nat i) with (S (Z.to_nat (i - 1))) by lia. specialize (IH (i - 1) p ltac:(lia)).
    change (f x + total f (tset ps (i - 1) p) = f x + total f ps - f (tget d ps (i - 1)) + f p). lia.
Qed.

Lemma total_nonneg {A} (f : A -> Z) ps : (forall p, 0 <= f p) -> 0 <= total f ps.
Proof. intros H. induction ps as [|p ps IH]; cbn [total]; [lia|]. specialize (H p). lia. Qed.

Lemma in_cs_pos p : 0 <= in_cs p.
Proof. destruct p; cbn; lia. Qed.

(** A thread in the critical section excludes the others from it. *)
Lemma total_two ps i j :
  0 <= i < tlen ps -> 0 <= j < tlen ps -> i <> j ->
  in_cs (tget SDone ps i) + in_cs (tget SDone ps j) <= total in_cs ps.
Proof.
  intros Hi Hj Hne. pose proof (total_tset in_cs SDone ps i SDone Hi) as T1.
  pose proof (total_tset in_cs SDone (tset ps i SDone) j SDone ltac:(rewrite tlen_tset; exact Hj)) as T2.
  rewrite tget_tset in T2 by lia. destruct (Z.eqb_spec i j); [contradiction|].
  pose proof (total_nonneg in_cs (tset (tset ps i SDone) j SDone) in_cs_pos). cbn [in_cs] in *. lia.
Qed.

(** Every step of every thread keeps the invariant. *)
Lemma safe_step ps g i :
  threads_ok ps g -> 0 <= i < tlen ps ->
  let '(p, g', _) := safe_worker i (tget SDone ps i) g in threads_ok (tset ps i p) g'.
Proof.
  intros [[M1 M2] C P] Hi. pose proof (P i Hi) as Pi. 
  assert (N0 : in_cs (tget SDone ps i) <= total in_cs ps).
  { pose proof (total_tset in_cs SDone ps i SDone Hi) as T.
    pose proof (total_nonneg in_cs (tset ps i SDone) in_cs_pos). cbn in T. lia. }
  assert (Upd : forall p g', total in_cs ps - in_cs (tget SDone ps i) + in_cs p = counter_mutex g' ->
     counter_mutex g' <= 1 -> shared_counter g' = total added ps - added (tget SDone ps i) + added p ->
     pc_ok g' p -> (shared_counter g' = shared_counter g \/ in_cs (tget SDone ps i) = 1) ->
     threads_ok (tset ps i p) g').
  { intros p g' U1 U2 U3 U4 U5. constructor.
    - rewrite (total_tset in_cs SDone) by exact Hi. lia.
    - rewrite (total_tset added SDone) by exact Hi. exact U3.
    - intros j Hj. rewrite tlen_tset in Hj. rewrite tget_tset by lia.
      destruct (Z.eqb_spec i j) as [<-|Hne]; [exact U4|]. pose proof (P j Hj) as Pj.
      destruct (tget SDone ps j) as [| |k t| |] eqn:Ej; cbn in *; auto. destruct Pj as [Pj1 Pj2].
      split; [exact Pj1|]. destruct U5 as [U5|U5]; [congruence|].
      pose proof (total_two ps i j Hi Hj Hne) as T. rewrite Ej in T. cbn in T. lia. }
  unfold THREAD_ITERS in *.
  destruct (tget SDone ps i) as [k|k|k t|k|] eqn:Ei; cbn [safe_worker pc_ok in_cs added] in *; unfold THREAD_ITERS in *.
  - destruct (Z.ltb_spec k 8).
    + unfold mutex_lock, atomic_xchg. destruct (Z.eqb_spec (counter_mutex g) 0) as [E|E]; apply Upd; cbn; unfold THREAD_ITERS; lia.
    + apply Upd; cbn; auto; unfold THREAD_ITERS in *; lia.
  - apply Upd; cbn; unfold THREAD_ITERS; auto; lia.
  - destruct Pi as [Pi ->]. apply Upd; cbn; unfold THREAD_ITERS; auto; lia.
  - unfold mutex_unlock. apply Upd; cbn; auto; unfold THREAD_ITERS in *; lia.
  - apply Upd; cbn; unfold THREAD_ITERS; auto; lia.
Qed.

(** Every index of the schedule is a thread. *)
Definition schedule (ps : list safe_pc) (sch : list Z) : Prop := Forall (fun i => 0 <= i < tlen ps) sch.

Lemma interleave_ok sch : forall ps g,
  threads_ok ps g -> schedule ps sch ->
  let '(ps', g') := interleave sch ps g in threads_ok ps' g' /\ tlen ps' = tlen ps.
Proof.
  unfold schedule. induction sch as [|i sch IH]; intros ps g O F; cbn [interleave]; [auto|].
  apply Forall_cons_iff in F as [Hi F].
  pose proof (safe_step ps g i O Hi) as S. destruct (safe_worker i (tget SDone ps i) g) as [[p g'] sig].
  specialize (IH (tset ps i p) g' S). rewrite tlen_tset in IH. apply IH. exact F.
Qed.

Lemma interleave_app sch1 sch2 : forall ps g,
  interleave (sch1 ++ sch2) ps g = let '(ps', g') := interleave sch1 ps g in interleave sch2 ps' g'.
Proof.
  induction sch1 as [|i sch1 IH]; intros ps g; cbn [interleave app]; [reflexivity|].
  destruct (safe_worker i (tget SDone ps i) g) as [[p g'] sig]. apply IH.
Qed.

Definition done (ps : list safe_pc) : Prop := Forall (fun p => p = SDone) ps.

#[local] Instance safe_pc_eq_dec : EqDecision safe_pc.
Proof. solve_decision. Defined.

Lemma total_done ps : done ps -> total added ps = THREAD_ITERS * tlen ps.
Proof. induction 1 as [|p ps -> _ IH]; [reflexivity|]. rewrite tlen_cons. cbn [total added]. lia. Qed.

Lemma not_done ps : ~ done ps -> exists i, 0 <= i < tlen ps /\ tget SDone ps i <> SDone.
Proof.
  intros Nd. destruct (find_range 0 (tlen ps) (fun i => negb (bool_decide (tget SDone ps i = SDone)))) as [i|] eqn:F.
  - apply find_range_some in F as (Hi & F & _). exists i. split; [exact Hi|].
    apply negb_true_iff, bool_decide_eq_false in F. exact F.
  - destruct Nd. apply (Forall_index _ SDone). intros i Hi. pose proof (find_range_none _ _ _ F i Hi) as N.
    cbv beta in N. apply negb_false_iff, bool_decide_eq_true in N. exact N.
Qed.

Lemma someone_inside ps : total in_cs ps <> 0 -> exists i, 0 <= i < tlen ps /\ in_cs (tget SDone ps i) = 1.
Proof.
  intros E. destruct (find_range 0 (tlen ps) (fun i => in_cs (tget SDone ps i) =? 1)) as [i|] eqn:F.
  - apply find_range_some in F as (Hi & F & _). apply Z.eqb_eq in F. eauto.
  - destruct E. apply total_zero, (Forall_index _ SDone). intros i Hi.
    pose proof (find_range_none _ _ _ F i Hi) as N. cbv beta in N. apply Z.eqb_neq in N.
    destruct (tget SDone ps i); cbn in *; lia.
Qed.

(** Some thread can always do useful work: the one in the critical section, or
    else any that has not finished, for then the mutex is free. *)
Lemma useful_step ps g :
  threads_ok ps g -> ~ done ps ->
  exists i, 0 <= i < tlen ps /\
    let '(p, _, _) := safe_worker i (tget SDone ps i) g in left p < left (tget SDone ps i).
Proof.
  intros [[M1 M2] _ P] Nd.
  assert (W : forall i, 0 <= i < tlen ps -> tget SDone ps i <> SDone ->
    (in_cs (tget SDone ps i) = 1 \/ counter_mutex g = 0) ->
    let '(p, _, _) := safe_worker i (tget SDone ps i) g in left p < left (tget SDone ps i)).
  { intros i Hi Hd Hc. pose proof (P i Hi) as Pi.
    destruct (tget SDone ps i) as [k|k|k t|k|]; cbn [safe_worker in_cs pc_ok left] in *; unfold THREAD_ITERS in *; try lia.
    - destruct Hc as [Hc|Hc]; [lia|]. rewrite Hc. cbn. destruct (Z.ltb_spec k 8); cbn; lia.
    - contradiction. }
  destruct (decide (total in_cs ps = 0)) as [E|E].
  - destruct (not_done ps Nd) as (i & Hi & Hd). exists i. split; [exact Hi|]. apply W; [exact Hi|exact Hd|right; lia].
  - destruct (someone_inside ps E) as (i & Hi & Hc). exists i. split; [exact Hi|].
    apply W; [exact Hi| |left; exact Hc]. intros Eq. rewrite Eq in Hc. discriminate.
Qed.

(** From every reachable state the threads can be brought to the end. *)
Lemma can_finish k : forall ps g,
  threads_ok ps g -> total left ps <= Z.of_nat k ->
  exists sch, schedule ps sch /\ done (fst (interleave sch ps g)).
Proof.
  induction k as [|k IH]; intros ps g O Hk; (destruct (decide (done ps)) as [D|D]; [exists []; split; [constructor|exact D]|]).
  - destruct D. pose proof O as [_ _ P]. apply (Forall_index (pc_ok g) SDone) in P.
    assert (L : Forall (fun p => left p = 0) ps).
    { apply total_zero_inv; [|exact Hk]. eapply List.Forall_impl; [|exact P].
      intros [] Hp; cbn in *; unfold THREAD_ITERS in *; lia. }
    unfold done. clear - P L. induction ps as [|p ps IH]; constructor;
      apply Forall_cons_iff in P as [Pp P]; apply Forall_cons_iff in L as [Lp L]; [|auto].
    destruct p; cbn in *; unfold THREAD_ITERS in *; lia || reflexivity.
  - destruct (useful_step ps g O D) as (i & Hi & U). pose proof (safe_step ps g i O Hi) as S.
    destruct (safe_worker i (tget SDone ps i) g) as [[p g'] sig] eqn:Es.
    destruct (IH (tset ps i p) g' S) as (sch & Sc & Fin).
    { rewrite (total_tset left SDone) by exact Hi. lia. }
    exists (i :: sch). split.
    + constructor; [exact Hi|]. unfold schedule in Sc. rewrite tlen_tset in Sc. exact Sc.
    + cbn [interleave]. rewrite Es. exact Fin.
Qed.

Lemma start_ok n : threads_ok (replicate n (SLock 0)) (mk_shared 0 (mutex_init 0)).
Proof.
  assert (T : forall f, f (SLock 0) = 0 -> total f (replicate n (SLock 0)) = 0)
    by (intros f Hf; apply total_zero, Forall_replicate; exact Hf).
  constructor; [rewrite T by reflexivity; split; [reflexivity|lia]|rewrite T; reflexivity|].
  apply (Forall_index _ SDone), Forall_replicate. cbn. unfold THREAD_ITERS. lia.
Qed.

(** C38. The mutex.  However the steps of [n] threads running [safe_worker]
    interleave, at most one is in its critical section; no state is a dead end,
    some continuation always finishes every thread; and once all have finished
    the counter is exactly 8 [n]: no update is lost. *)
Theorem mutex_protects_counter (n : nat) (sch : list Z) :
  Forall (fun i => 0 <= i < Z.of_nat n) sch ->
  let '(ps, g) := interleave sch (replicate n (SLock 0)) (mk_shared 0 (mutex_init 0)) in
  total in_cs ps <= 1 /\
  (exists more, schedule ps more /\ done (fst (interleave more ps g))) /\
  (done ps -> shared_counter g = THREAD_ITERS * Z.of_nat n).
Proof.
  intros F. assert (Ln : tlen (replicate n (SLock 0)) = Z.of_nat n) by apply tlen_replicate.
  pose proof (interleave_ok sch _ _ (start_ok n) ltac:(unfold schedule; rewrite Ln; exact F)) as I.
  destruct (interleave sch _ _) as [ps g]. destruct I as [O Lp]. rewrite Ln in Lp. split; [apply O|]. split.
  - apply (can_finish (Z.to_nat (total left ps))); [exact O|]. lia.
  - intros D. rewrite (th_count _ _ O), total_done, Lp by exact D. reflexivity.
Qed.

(** ** The demos *)

(** The static variables as the kernel image has them. *)
Definition boot_sched : sched := mk_sched (replicate 8 no_task) 0 0 false 0 ∅ 0.

Lemma full_tasks st : tlen (tasks st) = MAX_TASKS ->
  exists a b c d e f g h, tasks st = [a; b; c; d; e; f; g; h].
Proof.
  unfold tlen, MAX_TASKS. destruct (tasks st) as [|a [|b [|c [|d [|e [|f [|g [|h [|i l]]]]]]]]]; cbn [length]; try lia.
  intros _. exists a, b, c, d, e, f, g, h. reflexivity.
Qed.

(** The demos do what they announce, whatever earlier demos left in the task
    table, and within their fuel.  The three cooperative workers print their
    labels in strict rotation, five rounds, and control returns to the shell;
    with the same rotation the racing threads lose two updates of every three
    (the counter ends at 8), the threads with the mutex lose none (24). *)
Lemma tasking_demo_ends (S : Type) (print : S -> list Z -> S) (s : S) (stacks ea eb ec : Z) (st : sched) :
  tlen (tasks st) = MAX_TASKS ->
  (fun r => (tlen (tasks (fst r)), snd r)) <$> tasking_demo print stacks ea eb ec st s
  = Some (MAX_TASKS, print (fold_left print (concat (replicate 5 [lit "A "; lit "B "; lit "C "])) (print s (lit "  ")))
            (10 :: lit "  all tasks finished, back in the shell." ++ [10])).
Proof.
  intros H. destruct (full_tasks st H) as (t0 & t1 & t2 & t3 & t4 & t5 & t6 & t7 & E).
  destruct st as [ts nt cu pe dl sm ce]. cbn in E. subst ts. vm_compute. reflexivity.
Qed.

Lemma spawn_three_ends (stacks e m : Z) (st : sched) :
  tlen (tasks st) = MAX_TASKS ->
  (fun r => (tlen (tasks (fst r)), shared_counter (snd r))) <$> spawn_three (RTop 0) racer stacks e st (mk_shared 0 m)
  = Some (MAX_TASKS, 8) /\
  (fun r => (tlen (tasks (fst r)), shared_counter (snd r))) <$> spawn_three (SLock 0) safe_worker stacks e st (mk_shared 0 (mutex_init m))
  = Some (MAX_TASKS, 24).
Proof.
  intros H. destruct (full_tasks st H) as (t0 & t1 & t2 & t3 & t4 & t5 & t6 & t7 & E).
  destruct st as [ts nt cu pe dl sm ce]. cbn in E. subst ts. split; vm_compute; reflexivity.
Qed.

Lemma threads_demo_ends (stacks e1 e2 : Z) (st : sched) (g : shared) (s : screen) :
  tlen (tasks st) = MAX_TASKS ->
  exists st' g' s', threads_demo stacks e1 e2 st g s = Some (st', g', s') /\ tlen (tasks st') = MAX_TASKS.
Proof.
  intros H. unfold threads_demo. destruct (spawn_three_ends stacks e1 (counter_mutex g) st H) as [E1 _].
  destruct (spawn_three (RTop 0) racer stacks e1 st _) as [[st1 g1]|]; [|discriminate].
  injection E1 as H1 _. destruct (spawn_three_ends stacks e2 (counter_mutex g1) st1 H1) as [_ E2].
  destruct (spawn_three (SLock 0) safe_worker stacks e2 st1 _) as [[st2 g2]|]; [|discriminate].
  injection E2 as H2 _. do 3 eexists. split; [reflexivity|exact H2].
Qed.

(** The timer does not change the length of the task table. *)
Lemma tlen_stop st n : forall k, tlen (tasks (for_range k n (fun i st => set_active st i false) st)) = tlen (tasks st).
Proof.
  intros k. destruct (Z.le_gt_cases k n) as [H|H]; [|rewrite for_range_empty by lia; reflexivity].
  apply (for_range_ind (fun _ t => tlen (tasks t) = tlen (tasks st))); [exact H|reflexivity|].
  intros i t _ <-. apply tlen_tset.
Qed.

Lemma preempt_tick_len st t : tlen (tasks (preempt_tick st t)) = tlen (tasks st).
Proof.
  unfold preempt_tick. destruct (preempt_enabled st); cbn [negb]; [|reflexivity].
  destruct (deadline st <=? t).
  - destruct (negb _); cbn; rewrite ?tlen_tset; exact (tlen_stop (set_preempt st false (deadline st)) _ 1).
  - unfold task_yield. destruct (find_range _ _ _); [|destruct (negb _ && _)%bool]; cbn; rewrite ?tlen_tset; reflexivity.
Qed.

(** ** Preemption *)

(** Two workers rotate under the timer until [d]. *)
Record armed (st : sched) (c d : Z) : Prop := {
  ar_len : tlen (tasks st) = MAX_TASKS;
  ar_num : num_tasks st = 3;
  ar_cur : current st = c;
  ar_workers : active (task st 1) = true /\ active (task st 2) = true;
  ar_on : preempt_enabled st = true;
  ar_deadline : deadline st = d
}.

Lemma armed_ok st c d : armed st c d -> 0 <= c < 3 -> sched_ok st.
Proof. intros [H1 H2 H3 _ _ _] Hc. constructor; [exact H1|rewrite H2; unfold MAX_TASKS; lia|lia]. Qed.

Lemma armed_yield st c d : armed st c d -> 0 <= c < 3 -> armed (task_yield st) (if c =? 1 then 2 else 1) d.
Proof.
  intros A Hc. pose proof (armed_ok _ _ _ A Hc) as O. destruct A as [H1 H2 H3 [H4 H5] H6 H7].
  destruct (task_yield_cases st O) as ([Y0 _ _] & Y1 & Y2 & Y3 & Y4 & _).
  constructor; try congruence; [|rewrite !Y4 by lia; auto]. unfold task_yield. rewrite H3.
  set (off := if c =? 2 then 2 else 1).
  assert (Hm : (c + off) mod 3 = if c =? 1 then 2 else 1).
  { assert (C3 : c = 0 \/ c = 1 \/ c = 2) by lia. destruct C3 as [-> | [-> | ->]]; reflexivity. }
  rewrite (find_range_least 1 (num_tasks st) (runnable st c) off).
  - rewrite H2. exact Hm.
  - rewrite H2. unfold off. destruct (c =? 2); lia.
  - unfold runnable. rewrite H2, Hm. destruct (c =? 1); [rewrite H5|rewrite H4]; reflexivity.
  - unfold off. destruct (Z.eqb_spec c 2) as [->|]; [|intros; lia]. intros j Hj. replace j with 1 by lia.
    unfold runnable. rewrite H2. reflexivity.
Qed.

Lemma preempt_arm_ok stacks ea eb st tick :
  tlen (tasks st) = MAX_TASKS -> armed (preempt_arm stacks ea eb st tick) 0 (u32 (tick + 100)).
Proof.
  intros Hl. unfold MAX_TASKS in Hl.
  assert (E : exists e1 e2, tasks (preempt_arm stacks ea eb st tick)
    = tset (tset (tset (tasks st) 0 (mk_task 0 false)) 1 (mk_task e1 true)) 2 (mk_task e2 true))
    by (do 2 eexists; reflexivity).
  destruct E as (e1 & e2 & E). constructor; try reflexivity.
  - rewrite E, !tlen_tset. exact Hl.
  - unfold task. rewrite E, !tget_tset by (rewrite ?tlen_tset; lia). split; reflexivity.
Qed.

Lemma stop_workers_spec st :
  tlen (tasks st) = MAX_TASKS -> 1 <= num_tasks st <= MAX_TASKS ->
  let st' := stop_workers st in
  tlen (tasks st') = MAX_TASKS /\ num_tasks st' = num_tasks st /\ current st' = current st /\
  preempt_enabled st' = preempt_enabled st /\ (forall i, 1 <= i < num_tasks st -> active (task st' i) = false).
Proof.
  intros Hl Hn. unfold stop_workers.
  apply (for_range_ind (fun k s => tlen (tasks s) = MAX_TASKS /\ num_tasks s = num_tasks st /\
    current s = current st /\ preempt_enabled s = preempt_enabled st /\ (forall i, 1 <= i < k -> active (task s i) = false)));
    [lia|repeat split; auto; intros; lia|].
  intros i s Hi (I1 & I2 & I3 & I4 & I5). unfold set_active. split; [cbn; rewrite tlen_tset; exact I1|].
  split; [exact I2|]. split; [exact I3|]. split; [exact I4|]. intros j Hj. rewrite task_set by lia.
  destruct (Z.eqb_spec i j); [reflexivity|]. apply I5. lia.
Qed.

Lemma tick_loop_app n : forall m st tick,
  tick_loop (n + m) st tick = let '(st, tick) := tick_loop n st tick in tick_loop m st tick.
Proof. induction n as [|n IH]; intros; cbn [tick_loop Nat.add]; [reflexivity|apply IH]. Qed.

Lemma armed_ticks n : forall st c d tick,
  armed st c d -> 0 <= c < 3 -> 0 <= tick -> tick + Z.of_nat n < d -> d < 0x100000000 -> (1 <= n)%nat ->
  let '(st', tick') := tick_loop n st tick in
  tick' = tick + Z.of_nat n /\
  armed st' (if Nat.odd n then (if c =? 1 then 2 else 1) else (if c =? 1 then 1 else if c =? 2 then 2 else 2)) d.
Proof.
  induction n as [|n IH]; intros st c d tick A Hc Ht Hd Hb Hn; [lia|]. cbn [tick_loop].
  rewrite u32_small by lia. pose proof A as [_ _ _ _ A5 A6].
  assert (Ep : preempt_tick st (tick + 1) = task_yield st).
  { unfold preempt_tick. rewrite A5, A6, (proj2 (Z.leb_gt d (tick + 1))) by lia. reflexivity. }
  rewrite Ep. pose proof (armed_yield st c d A Hc) as A'. destruct n as [|n].
  - cbn [tick_loop]. split; [lia|exact A'].
  - specialize (IH (task_yield st) (if c =? 1 then 2 else 1) d (tick + 1) A' ltac:(destruct (c =? 1); lia)
      ltac:(lia) ltac:(lia) Hb ltac:(lia)).
    destruct (tick_loop (S n) (task_yield st) (tick + 1)) as [st' tick']. destruct IH as [I1 I2].
    split; [lia|]. rewrite (Nat.odd_succ (S n)), <- Nat.negb_odd.
    destruct (Nat.odd (S n)); cbn [negb] in *; destruct (Z.eqb_spec c 1); cbn in I2 |- *; try exact I2.
    destruct (Z.eqb_spec c 2); exact I2.
Qed.

(** What the end of the demo leaves behind. *)
Definition disarmed (st : sched) : Prop :=
  current st = 0 /\ preempt_enabled st = false /\ active (task st 1) = false /\ active (task st 2) = false.

(** The tick at the deadline. *)
Lemma deadline_tick st c d : armed st c d -> 1 <= c < 3 ->
  disarmed (preempt_tick st d).
Proof.
  intros [T1 T2 T3 T4 T5 T6] Hc. unfold preempt_tick. rewrite T5, T6, Z.leb_refl. cbn [negb].
  destruct (stop_workers_spec (set_preempt st false d)) as (S1 & S2 & S3 & S4 & S5);
    [exact T1|cbn; rewrite T2; unfold MAX_TASKS; lia|].
  set (s' := stop_workers _) in *. cbn in S2, S3, S4, S5. rewrite S3, T3, (proj2 (Z.eqb_neq c 0)) by lia. cbn [negb].
  destruct (switch_spec s' c 0) as (_ & W1 & _ & W2 & _ & _ & W3 & _);
    [constructor; [exact S1|rewrite S2, T2; unfold MAX_TASKS; lia|rewrite S2, S3, T2, T3; lia]|rewrite S2, T2; lia|rewrite S2, T2; lia|].
  split; [exact W1|]. split; [rewrite W3; exact S4|]. rewrite !W2 by lia. split; apply S5; rewrite T2; lia.
Qed.

(** Preemption.  Once [preempt_demo] is armed, the timer alone switches
    between the two workers that never yield, one tick each, and at the
    hundredth tick stops them, disarms itself and returns to task 0. *)
Theorem preempt_demo_returns (stacks ea eb : Z) (st : sched) (tick : Z) :
  tlen (tasks st) = MAX_TASKS -> 0 <= tick -> tick + 100 < 0x100000000 ->
  let st0 := preempt_arm stacks ea eb st tick in
  (forall n, (1 <= n < 100)%nat ->
     current (fst (tick_loop n st0 tick)) = if Nat.odd n then 1 else 2) /\
  let st' := fst (tick_loop 100 st0 tick) in
  current st' = 0 /\ preempt_enabled st' = false /\
  active (task st' 1) = false /\ active (task st' 2) = false.
Proof.
  intros Hl Ht Hb st0. pose proof (preempt_arm_ok stacks ea eb st tick Hl) as A. fold st0 in A.
  rewrite u32_small in A by lia. split.
  - intros n Hn. pose proof (armed_ticks n st0 0 (tick + 100) tick A ltac:(lia) Ht ltac:(lia) Hb ltac:(lia)) as T.
    destruct (tick_loop n st0 tick) as [s t]. destruct T as [_ T]. cbn [fst].
    rewrite (ar_cur _ _ _ T). cbn.
    destruct (Nat.odd n); reflexivity.
  - change 100%nat with (99 + 1)%nat. rewrite tick_loop_app.
    pose proof (armed_ticks 99 st0 0 (tick + 100) tick A ltac:(lia) Ht ltac:(lia) Hb ltac:(lia)) as T.
    destruct (tick_loop 99 st0 tick) as [s t]. destruct T as [-> T]. cbn in T.
    cbn [tick_loop fst]. rewrite u32_small by lia. replace (tick + Z.of_nat 99 + 1) with (tick + 100) by lia.
    exact (deadline_tick s 1 (tick + 100) T ltac:(lia)).
Qed.

(** ** Witnesses *)

Lemma task_yield_fair_witness :
  let st := preempt_arm 0x50000 0x1000 0x1100 boot_sched 0 in
  exists n, (1 <= n < 3)%nat /\ current (Nat.iter n task_yield st) = 2.
Proof.
  destruct (task_yield_fair (preempt_arm 0x50000 0x1000 0x1100 boot_sched 0)) as [_ T].
  - apply (armed_ok _ 0 100); [apply preempt_arm_ok; reflexivity|lia].
  - apply (T 2); [split; [vm_compute; split; congruence|reflexivity]|vm_compute; discriminate].
Defined.

Lemma mutex_protects_counter_witness :
  let '(ps, _) := interleave [0; 1; 0; 2; 1; 0; 0] (replicate 3 (SLock 0)) (mk_shared 0 (mutex_init 0)) in
  total in_cs ps <= 1.
Proof.
  pose proof (mutex_protects_counter 3 [0; 1; 0; 2; 1; 0; 0]
    ltac:(repeat (constructor; [cbn; lia|]); constructor)) as T.
  destruct (interleave _ _ _) as [ps g]. apply T.
Defined.

Lemma preempt_demo_returns_witness :
  current (fst (tick_loop 100 (preempt_arm 0x50000 0x1000 0x1100 boot_sched 7) 7)) = 0.
Proof. apply (preempt_demo_returns 0x50000 0x1000 0x1100 boot_sched 7); [reflexivity|lia|lia]. Defined.
