(* ===== verification/Tables.v ===== *)
(** * Descriptor tables (kernel/idt.c, kernel/gdt.c, the tables of kernel/isr.c)

    The IDT and the GDT with the code that fills them, the initialisation of
    the interrupt controllers as the sequence of port writes it is, and the
    timer's programming.  Addresses the linker chooses (the interrupt stubs of
    interrupt.asm, the tables themselves) are arguments. *)

From stdpp Require Import base gmap list numbers option.
From Stdlib Require Import ZArith Lia Bool.
From S2P Require Import Prelude.

(** A write of a byte to an I/O port: [outb(port, value)]. *)
Record out := mk_out { o_port : Z; o_value : Z }.

(** ** Interrupt descriptors *)

Record idt_entry := mk_gate {
  base_low : Z;
  sel : Z;
  always0 : Z;
  flags : Z;
  base_high : Z
}.

Definition no_gate : idt_entry := mk_gate 0 0 0 0 0.

Definition idt_set_gate (idt : list idt_entry) (num base sel flags : Z) : list idt_entry :=
  tset idt num (mk_gate (Z.land base 0xFFFF) (u16 sel) 0 (u8 flags) (Z.land (Z.shiftr base 16) 0xFFFF)).

(** The writes of [pic_remap], in order. *)
Definition pic_remap : list out :=
  [mk_out 0x20 0x11; mk_out 0xA0 0x11; mk_out 0x21 0x20; mk_out 0xA1 0x28; mk_out 0x21 0x04;
   mk_out 0xA1 0x02; mk_out 0x21 0x01; mk_out 0xA1 0x01; mk_out 0x21 0x00; mk_out 0xA1 0x00].

(** [stub n] is the address of the stub of vector [n]: [isr0] to [isr31],
    [irq0] to [irq15] for vectors 32 to 47, and [isr128]. *)
Definition isr_install (stub : Z -> Z) (idt : list idt_entry) : list idt_entry * list out :=
  let idt := for_range 0 32 (fun n idt => idt_set_gate idt n (stub n) 0x08 0x8E) idt in
  let outs := pic_remap in
  let idt := for_range 32 48 (fun n idt => idt_set_gate idt n (stub n) 0x08 0x8E) idt in
  (idt, outs).

(** [limit] and [base] of the pointer given to [lidt]. *)
Record table_ptr := mk_ptr { limit : Z; base : Z }.

Definition idt_install (stub : Z -> Z) (idt_addr : Z) (idt : list idt_entry)
    : list idt_entry * table_ptr * list out :=
  let idtp := mk_ptr (u16 (8 * 256 - 1)) idt_addr in
  let idt := for_range 0 256 (fun i idt => idt_set_gate idt i 0 0 0) idt in
  let '(idt, outs) := isr_install stub idt in
  (idt, idtp, outs).

Definition syscall_install (stub : Z -> Z) (idt : list idt_entry) : list idt_entry :=
  idt_set_gate idt 0x80 (stub 128) 0x08 0xEE.

(** ** Segment descriptors *)

Definition KERNEL_CODE : Z := 0x08.
Definition KERNEL_DATA : Z := 0x10.
Definition USER_CODE : Z := Z.lor 0x18 3.
Definition USER_DATA : Z := Z.lor 0x20 3.

Record gdt_entry := mk_seg {
  limit_low : Z;
  g_base_low : Z;
  base_mid : Z;
  access : Z;
  gran : Z;
  g_base_high : Z
}.

Definition no_seg : gdt_entry := mk_seg 0 0 0 0 0 0.

Definition set_gate (gdt : list gdt_entry) (n base limit access gran : Z) : list gdt_entry :=
  tset gdt n (mk_seg (Z.land limit 0xFFFF) (Z.land base 0xFFFF) (Z.land (Z.shiftr base 16) 0xFF) access
    (Z.lor (Z.land (Z.shiftr limit 16) 0x0F) (Z.land gran 0xF0)) (Z.land (Z.shiftr base 24) 0xFF)).

(** The fields of the task state segment that are ever set; its 104 bytes are
    zero otherwise. *)
Record tss_entry := mk_tss {
  esp0 : Z;
  ss0 : Z;
  iomap_base : Z
}.

Definition sizeof_tss : Z := 104.

Definition tss_set_stack (tss : tss_entry) (esp : Z) : tss_entry := mk_tss esp (ss0 tss) (iomap_base tss).

(** [stack] is the address of [kernel_stack], 8192 bytes. *)
Definition gdt_install (tss_addr gdt_addr stack : Z) (gdt : list gdt_entry)
    : list gdt_entry * tss_entry * table_ptr :=
  let gdt := set_gate gdt 0 0 0 0 0 in
  let gdt := set_gate gdt 1 0 0xFFFFF 0x9A 0xCF in
  let gdt := set_gate gdt 2 0 0xFFFFF 0x92 0xCF in
  let gdt := set_gate gdt 3 0 0xFFFFF 0xFA 0xCF in
  let gdt := set_gate gdt 4 0 0xFFFFF 0xF2 0xCF in
  let gdt := set_gate gdt 5 tss_addr (sizeof_tss - 1) 0x89 0x00 in
  let tss := mk_tss (u32 (stack + 8192)) KERNEL_DATA sizeof_tss in
  (gdt, tss, mk_ptr (u16 (8 * 6 - 1)) gdt_addr).

(** ** Timer *)

(** The writes of [timer_install(frequency_hz)] (a rate of 0 would divide by
    zero; the kernel asks for 50). *)
Definition timer_install (frequency_hz : Z) : list out :=
  let divisor := 1193180 / frequency_hz in
  [mk_out 0x43 0x36; mk_out 0x40 (u8 (Z.land divisor 0xFF)); mk_out 0x40 (u8 (Z.land (Z.shiftr divisor 8) 0xFF))].

(** ** What the CPU makes of a descriptor *)

Definition gate_target (g : idt_entry) : Z := base_low g + 0x10000 * base_high g.
Definition gate_present (g : idt_entry) : bool := Z.testbit (flags g) 7.
Definition gate_dpl (g : idt_entry) : Z := (flags g / 32) mod 4.

Definition seg_base (s : gdt_entry) : Z := g_base_low s + 0x10000 * base_mid s + 0x1000000 * g_base_high s.
Definition seg_limit (s : gdt_entry) : Z := limit_low s + 0x10000 * (gran s mod 16).
Definition seg_dpl (s : gdt_entry) : Z := (access s / 32) mod 4.
Definition seg_pages (s : gdt_entry) : bool := Z.testbit (gran s) 7.

(** Whether [int n] may be executed at privilege level [cpl]. *)
Definition int_allowed (idt : list idt_entry) (cpl n : Z) : bool :=
  gate_present (tget no_gate idt n) && (cpl <=? gate_dpl (tget no_gate idt n)).

(** ** Lemmas *)

Lemma split_base b : 0 <= b < 0x100000000 ->
  Z.land b 0xFFFF + 0x10000 * Z.land (Z.shiftr b 16) 0xFFFF = b.
Proof.
  intros Hb. change 0xFFFF with (Z.ones 16). rewrite !land_mod, Z.shiftr_div_pow2 by lia.
  change (2 ^ 16) with 65536. zdm.
Qed.

Lemma split_seg_base b : 0 <= b < 0x100000000 ->
  Z.land b 0xFFFF + 0x10000 * Z.land (Z.shiftr b 16) 0xFF + 0x1000000 * Z.land (Z.shiftr b 24) 0xFF = b.
Proof.
  intros Hb. change 0xFFFF with (Z.ones 16). change 0xFF with (Z.ones 8).
  rewrite !land_mod, !Z.shiftr_div_pow2 by lia.
  change (2 ^ 16) with 65536. change (2 ^ 24) with 16777216. change (2 ^ 8) with 256. zdm.
Qed.

(** The gate a loop writes at each index of a range. *)
Lemma gates_loop (f : Z -> idt_entry) a b idt :
  tlen idt = 256 -> 0 <= a -> a <= b <= 256 ->
  let idt' := for_range a b (fun n t => tset t n (f n)) idt in
  tlen idt' = 256 /\
  (forall n, 0 <= n < 256 -> tget no_gate idt' n = if (a <=? n) && (n <? b) then f n else tget no_gate idt n).
Proof.
  intros Hl Ha Hb.
  apply (for_range_ind (fun k t => tlen t = 256 /\ forall n, 0 <= n < 256 ->
    tget no_gate t n = if (a <=? n) && (n <? k) then f n else tget no_gate idt n)); [lia| |].
  - split; [exact Hl|]. intros n Hn. zcase; lia || reflexivity.
  - intros i t Hi [I1 I2]. rewrite tlen_tset. split; [exact I1|]. intros n Hn.
    rewrite tget_tset, I2 by lia. destruct (Z.eqb_spec i n) as [->|]; zcase; lia || reflexivity.
Qed.

Definition int_gate (stub : Z -> Z) (fl n : Z) : idt_entry :=
  mk_gate (Z.land (stub n) 0xFFFF) 8 0 fl (Z.land (Z.shiftr (stub n) 16) 0xFFFF).

Lemma idt_entries stub idt_addr idt :
  tlen idt = 256 ->
  let '(t, _, _) := idt_install stub idt_addr idt in
  forall n, 0 <= n < 256 -> tget no_gate (syscall_install stub t) n
    = if n =? 0x80 then int_gate stub 0xEE 128 else if n <? 48 then int_gate stub 0x8E n else no_gate.
Proof.
  intros Hl. unfold idt_install, isr_install, syscall_install, idt_set_gate.
  destruct (gates_loop (fun _ => no_gate) 0 256 idt Hl) as [L1 E1]; [lia..|].
  set (t1 := for_range 0 256 _ idt) in *.
  destruct (gates_loop (int_gate stub 0x8E) 0 32 t1 L1) as [L2 E2]; [lia..|].
  set (t2 := for_range 0 32 _ t1) in *.
  destruct (gates_loop (int_gate stub 0x8E) 32 48 t2 L2) as [L3 E3]; [lia..|].
  set (t3 := for_range 32 48 _ t2) in *. intros n Hn.
  change (for_range 0 256 _ idt) with t1. change (for_range 0 32 _ t1) with t2.
  change (for_range 32 48 _ t2) with t3. rewrite tget_tset by lia. rewrite Z.eqb_sym.
  destruct (Z.eqb_spec n 0x80); [reflexivity|]. rewrite E3, E2, E1 by exact Hn. zcase; lia || reflexivity.
Qed.

(** C40. The interrupt table.  After boot the vectors 0 to 47 enter their own
    stubs, 0x80 enters the system-call stub, every other vector is empty; and
    0x80 is the only vector ring-3 code may raise with an [int] instruction. *)
Theorem idt_protects_kernel (stub : Z -> Z) (idt_addr : Z) (idt : list idt_entry) :
  tlen idt = 256 -> (forall n, 0 <= stub n < 0x100000000) ->
  let '(t, _, _) := idt_install stub idt_addr idt in
  let t := syscall_install stub t in
  forall n, 0 <= n < 256 ->
    gate_present (tget no_gate t n) = ((n <? 48) || (n =? 0x80)) /\
    (gate_present (tget no_gate t n) = true -> gate_target (tget no_gate t n) = stub n /\ sel (tget no_gate t n) = KERNEL_CODE) /\
    int_allowed t 3 n = (n =? 0x80).
Proof.
  intros Hl Hs. pose proof (idt_entries stub idt_addr idt Hl) as E.
  destruct (idt_install stub idt_addr idt) as [[t p] o]. cbv zeta. intros n Hn. unfold int_allowed. rewrite (E n Hn).
  destruct (Z.eqb_spec n 0x80) as [->|]; [|destruct (Z.ltb_spec n 48)]; cbn;
    (split; [reflexivity|]); (split; [|reflexivity]); intros; try discriminate;
    (split; [apply split_base; apply Hs|reflexivity]).
Qed.

(** The segments.  Kernel and user code and data are flat 4 GB segments at
    the selectors the kernel uses, with privilege levels 0 and 3, and the TSS
    descriptor covers exactly the TSS, whose ring-0 stack is the top of the
    kernel stack. *)
Theorem gdt_flat_model (tss_addr gdt_addr stack : Z) (gdt : list gdt_entry) :
  tlen gdt = 6 -> 0 <= tss_addr < 0x100000000 -> 0 <= stack < 0x100000000 - 8192 ->
  let '(g, tss, ptr) := gdt_install tss_addr gdt_addr stack gdt in
  let seg s := tget no_seg g (s / 8) in
  (forall s, In s [KERNEL_CODE; KERNEL_DATA; USER_CODE; USER_DATA] ->
     seg_base (seg s) = 0 /\ seg_limit (seg s) = 0xFFFFF /\ seg_pages (seg s) = true /\ seg_dpl (seg s) = s mod 4) /\
  seg_base (seg 0x28) = tss_addr /\ seg_limit (seg 0x28) = sizeof_tss - 1 /\ seg_dpl (seg 0x28) = 0 /\
  ss0 tss = KERNEL_DATA /\ esp0 tss = stack + 8192 /\ limit ptr = 47.
Proof.
  intros Hl Ht Hk. unfold gdt_install, set_gate. cbv zeta.
  split; [|split; [|split; [|split; [|split; [reflexivity|split; [apply u32_small; lia|reflexivity]]]]]].
  - intros s Hin. cbn in Hin. destruct Hin as [<- | [<- | [<- | [<- | []]]]];
      rewrite !tget_tset by (rewrite ?tlen_tset; lia || (vm_compute; congruence)); vm_compute; auto.
  - rewrite !tget_tset by (rewrite ?tlen_tset; lia || (vm_compute; congruence)).
    change (0x28 / 8) with 5. cbn [Z.eqb Pos.eqb]. apply split_seg_base. exact Ht.
  - rewrite !tget_tset by (rewrite ?tlen_tset; lia || (vm_compute; congruence)). reflexivity.
  - rewrite !tget_tset by (rewrite ?tlen_tset; lia || (vm_compute; congruence)). reflexivity.
Qed.

Lemma idt_protects_kernel_witness :
  let '(t, _, _) := idt_install (fun n => 0x10000 + 16 * (n mod 256)) 0x40000 (replicate 256 no_gate) in
  int_allowed (syscall_install (fun n => 0x10000 + 16 * (n mod 256)) t) 3 14 = false.
Proof.
  pose proof (idt_protects_kernel (fun n => 0x10000 + 16 * (n mod 256)) 0x40000 (replicate 256 no_gate) eq_refl
    ltac:(intros n; cbv beta; zdm)) as T.
  destruct (idt_install _ _ _) as [[t p] o]. destruct (T 14 ltac:(lia)) as (_ & _ & T3). exact T3.
Defined.

Lemma gdt_flat_model_witness :
  let '(g, tss, ptr) := gdt_install 0x41000 0x42000 0x43000 (replicate 6 no_seg) in
  seg_dpl (tget no_seg g (USER_CODE / 8)) = 3 /\ esp0 tss = 0x45000.
Proof.
  pose proof (gdt_flat_model 0x41000 0x42000 0x43000 (replicate 6 no_seg) eq_refl ltac:(lia) ltac:(lia)) as T.
  destruct (gdt_install _ _ _ _) as [[g tss] ptr]. destruct T as (T1 & _ & _ & _ & _ & T2 & _).
  split; [apply (T1 USER_CODE); right; right; left; reflexivity|exact T2].
Defined.
