(* ===== verification/System.v ===== *)
(** * The system state, interrupts and exceptions (kernel/isr.c, kernel/timer.c)

    The components put together: the static variables of the drivers, the
    process table with the machine, and the dispatch of hardware interrupts and
    CPU exceptions to them.  The byte a driver reads from its port and the
    faulting address in CR2 are arguments. *)

From stdpp Require Import base gmap list numbers option.
From Stdlib Require Import ZArith Lia Bool.
From S2P Require Import Prelude CString Screen Pmm Vmm VmmLemmas VmmSpec VmmClone VmmTheorems VmmProps Demand Proc Keyboard Interfaces Fs Task Tables.

(** The frame the interrupt stubs push. *)
Record registers_t := mk_regs {
  r_ds : Z;
  r_edi : Z; r_esi : Z; r_ebp : Z; r_esp : Z; r_ebx : Z; r_edx : Z; r_ecx : Z; r_eax : Z;
  r_int_no : Z; r_err_code : Z;
  r_eip : Z; r_cs : Z; r_eflags : Z; r_useresp : Z; r_ss : Z
}.

Definition set_eax (r : registers_t) (v : Z) : registers_t :=
  mk_regs (r_ds r) (r_edi r) (r_esi r) (r_ebp r) (r_esp r) (r_ebx r) (r_edx r) (r_ecx r) v
    (r_int_no r) (r_err_code r) (r_eip r) (r_cs r) (r_eflags r) (r_useresp r) (r_ss r).

(** The handlers the drivers register: [isr_t] is one of these functions or null. *)
Inductive isr_t := NoHandler | timer_cb | keyboard_cb.

#[export] Instance isr_t_eq_dec : EqDecision isr_t.
Proof. solve_decision. Defined.

Section System.
Context {D : Type} {DK : Disk D}.

(** The kernel's statics.  [s_seed] is the generator state of SYS_RAND; [s_outs]
    are the bytes sent to I/O ports so far.  [s_board] is the machine's: where
    memory between 0xA0000 and 1 MB keeps what is stored (see [Bus]). *)
Record sys := mk_sys {
  s_kern : kernel;
  s_dem : demand;
  s_scr : screen;
  s_kbd : kbd;
  s_tick : Z;
  s_sched : sched;
  s_seed : Z;
  s_fs : fs (D := D);
  s_armed : bool;
  s_faulted : bool;
  s_handlers : list isr_t;
  s_outs : list out;
  s_board : Z -> bool
}.

Definition set_kern (s : sys) (k : kernel) : sys :=
  mk_sys k (s_dem s) (s_scr s) (s_kbd s) (s_tick s) (s_sched s) (s_seed s) (s_fs s)
    (s_armed s) (s_faulted s) (s_handlers s) (s_outs s) (s_board s).
Definition set_dem (s : sys) (d : demand) : sys :=
  mk_sys (s_kern s) d (s_scr s) (s_kbd s) (s_tick s) (s_sched s) (s_seed s) (s_fs s)
    (s_armed s) (s_faulted s) (s_handlers s) (s_outs s) (s_board s).
Definition set_scr (s : sys) (x : screen) : sys :=
  mk_sys (s_kern s) (s_dem s) x (s_kbd s) (s_tick s) (s_sched s) (s_seed s) (s_fs s)
    (s_armed s) (s_faulted s) (s_handlers s) (s_outs s) (s_board s).
Definition set_kbd (s : sys) (x : kbd) : sys :=
  mk_sys (s_kern s) (s_dem s) (s_scr s) x (s_tick s) (s_sched s) (s_seed s) (s_fs s)
    (s_armed s) (s_faulted s) (s_handlers s) (s_outs s) (s_board s).
Definition set_clock (s : sys) (t : Z) (x : sched) : sys :=
  mk_sys (s_kern s) (s_dem s) (s_scr s) (s_kbd s) t x (s_seed s) (s_fs s)
    (s_armed s) (s_faulted s) (s_handlers s) (s_outs s) (s_board s).
Definition set_seed (s : sys) (x : Z) : sys :=
  mk_sys (s_kern s) (s_dem s) (s_scr s) (s_kbd s) (s_tick s) (s_sched s) x (s_fs s)
    (s_armed s) (s_faulted s) (s_handlers s) (s_outs s) (s_board s).
Definition set_fs (s : sys) (x : fs (D := D)) : sys :=
  mk_sys (s_kern s) (s_dem s) (s_scr s) (s_kbd s) (s_tick s) (s_sched s) (s_seed s) x
    (s_armed s) (s_faulted s) (s_handlers s) (s_outs s) (s_board s).
Definition set_fault (s : sys) (armed faulted : bool) : sys :=
  mk_sys (s_kern s) (s_dem s) (s_scr s) (s_kbd s) (s_tick s) (s_sched s) (s_seed s) (s_fs s)
    armed faulted (s_handlers s) (s_outs s) (s_board s).
Definition set_handlers (s : sys) (h : list isr_t) : sys :=
  mk_sys (s_kern s) (s_dem s) (s_scr s) (s_kbd s) (s_tick s) (s_sched s) (s_seed s) (s_fs s)
    (s_armed s) (s_faulted s) h (s_outs s) (s_board s).
Definition outb (s : sys) (port value : Z) : sys :=
  mk_sys (s_kern s) (s_dem s) (s_scr s) (s_kbd s) (s_tick s) (s_sched s) (s_seed s) (s_fs s)
    (s_armed s) (s_faulted s) (s_handlers s) (s_outs s ++ [mk_out port value]) (s_board s).

(** The machine of the running system and its memory. *)
Definition s_mach (s : sys) : machine := mach (s_kern s).
Definition s_ram (s : sys) : mem := ram (s_mach s).
Definition set_mach (s : sys) (m : machine) : sys := set_kern s (with_mach (s_kern s) m).

(** ** Hardware interrupts *)

Definition register_interrupt_handler (s : sys) (n : Z) (h : isr_t) : sys :=
  set_handlers s (tset (s_handlers s) n h).

Definition timer_ticks (s : sys) : Z := s_tick s.

Definition timer_callback (s : sys) : sys :=
  let t := u32 (s_tick s + 1) in
  set_clock s t (preempt_tick (s_sched s) t).

Definition keyboard_install (s : sys) : sys := register_interrupt_handler s 33 keyboard_cb.

(** [int_no] is the vector; [port] the byte the keyboard controller holds. *)
Definition irq_handler (s : sys) (int_no port : Z) : sys :=
  let s := if 40 <=? int_no then outb s 0xA0 0x20 else s in
  let s := outb s 0x20 0x20 in
  match tget NoHandler (s_handlers s) int_no with
  | NoHandler => s
  | timer_cb => timer_callback s
  | keyboard_cb => set_kbd s (keyboard_callback (s_kbd s) port)
  end.

(** ** CPU exceptions *)

Definition exception_names : list (list Z) :=
  [lit "divide by zero"; lit "debug"; lit "non-maskable interrupt"; lit "breakpoint";
   lit "overflow"; lit "bound range exceeded"; lit "invalid opcode"; lit "device not available";
   lit "double fault"; lit "coprocessor segment overrun"; lit "invalid TSS";
   lit "segment not present"; lit "stack-segment fault"; lit "general protection fault";
   lit "page fault"; lit "reserved"; lit "x87 floating-point"; lit "alignment check";
   lit "machine check"; lit "SIMD floating-point"; lit "virtualization"; lit "control protection";
   lit "reserved"; lit "reserved"; lit "reserved"; lit "reserved"; lit "reserved"; lit "reserved";
   lit "hypervisor injection"; lit "VMM communication"; lit "security"; lit "reserved"].

Definition fault_arm (s : sys) : sys := set_fault s true (s_faulted s).
Definition fault_disarm (s : sys) : sys := set_fault s false (s_faulted s).

(** How the handler ends: it returns to the interrupted code, it unwinds to the
    saved context ([restore_context]), or it halts. *)
Inductive isr_end := Resumed | Recovered | Halted.

(** The message about an exception nothing resolved. *)
Definition fault_report (x : screen) (int_no err cr2 : Z) : screen :=
  let x := kprint_color x (10 :: lit "  [CPU exception] ") COLOR_RED_ON_BLACK in
  let x := if int_no <? 32 then kprint_color x (tget [] exception_names int_no) COLOR_RED_ON_BLACK else x in
  let x := kprint_color x (lit " (int ") COLOR_RED_ON_BLACK in
  let x := kprint_dec x int_no in
  let x := kprint_color x (lit ")" ++ [10]) COLOR_RED_ON_BLACK in
  if int_no =? 14 then
    let x := kprint_color x (lit "  faulting address ") COLOR_RED_ON_BLACK in
    let x := kprint_hex x cr2 in
    let x := kprint_color x (lit ", error code ") COLOR_RED_ON_BLACK in
    let x := kprint_hex x err in
    kprint_char x 10
  else x.

(** The part of the handler after the page-fault cases. *)
Definition unresolved (s : sys) (int_no err cr2 : Z) : sys * isr_end :=
  let s := set_scr s (fault_report (s_scr s) int_no err cr2) in
  if s_armed s then (set_fault s false true, Recovered)
  else (set_scr s (kprint_color (s_scr s) (lit "  no handler armed; halting." ++ [10]) COLOR_RED_ON_BLACK), Halted).

Definition isr_handler (s : sys) (r : registers_t) (cr2 : Z) : sys * isr_end :=
  let int_no := r_int_no r in
  let err := r_err_code r in
  if int_no =? 14 then
    let '(d, m, ok) := demand_handle (s_dem s) (s_mach s) cr2 err in
    let s := set_mach (set_dem s d) m in
    if negb (ok =? 0) then (s, Resumed)
    else
      let '(m, ok) := vmm_cow_handle (s_mach s) cr2 err in
      let s := set_mach s m in
      if negb (ok =? 0) then (s, Resumed) else unresolved s int_no err cr2
  else unresolved s int_no err cr2.

(** ** The report stays on the screen *)

Lemma kprint_color_confined x l c : screen_ok x -> confined x (kprint_color x l c).
Proof. exact (screen_step_confined x (PutsColor l c)). Qed.

Lemma fault_report_confined x int_no err cr2 :
  screen_ok x -> confined x (fault_report x int_no err cr2).
Proof.
  intros H. unfold fault_report.
  assert (K : forall y l c, confined x y -> confined x (kprint_color y l c)).
  { intros y l c C. eapply confined_trans; [exact C|]. apply kprint_color_confined, C. }
  assert (P : forall y c, confined x y -> confined x (screen_step y c)).
  { intros y c C. eapply confined_trans; [exact C|]. apply screen_step_confined, C. }
  assert (B : forall y (b : bool) l c, confined x y -> confined x (if b then kprint_color y l c else y))
    by (intros y [] l c C; auto).
  set (y := kprint_color x (10 :: lit "  [CPU exception] ") COLOR_RED_ON_BLACK).
  assert (Y : confined x y) by (apply kprint_color_confined, H). cbv zeta.
  apply (B y (int_no <? 32) (tget [] exception_names int_no) COLOR_RED_ON_BLACK) in Y.
  apply (K _ (lit " (int ") COLOR_RED_ON_BLACK) in Y. apply (P _ (Dec int_no)) in Y.
  apply (K _ (lit ")" ++ [10]) COLOR_RED_ON_BLACK) in Y. destruct (int_no =? 14); [|exact Y].
  apply (K _ (lit "  faulting address ") COLOR_RED_ON_BLACK) in Y. apply (P _ (Hex cr2)) in Y.
  apply (K _ (lit ", error code ") COLOR_RED_ON_BLACK) in Y. apply (P _ (Hex err)) in Y.
  exact (P _ (Char 10) Y).
Qed.

(** What an exception nothing resolved does to the system. *)
Record reported (s s' : sys) (o : isr_end) : Prop := {
  rp_end : o = if s_armed s then Recovered else Halted;
  rp_armed : s_armed s' = false;
  rp_faulted : s_faulted s' = s_armed s || s_faulted s;
  rp_screen : screen_ok (s_scr s) -> confined (s_scr s) (s_scr s')
}.

Lemma unresolved_reports s int_no err cr2 :
  let '(s', o) := unresolved s int_no err cr2 in
  reported s s' o /\ s_kern s' = s_kern s /\ s_dem s' = s_dem s /\ s_fs s' = s_fs s /\
  s_kbd s' = s_kbd s /\ s_tick s' = s_tick s /\ s_sched s' = s_sched s /\ s_seed s' = s_seed s.
Proof.
  unfold unresolved, set_scr, set_fault. cbn. destruct (s_armed s) eqn:A; cbn; (split; [|auto 10]).
  - constructor; cbn; rewrite ?A; auto. intros H. apply fault_report_confined, H.
  - constructor; cbn; rewrite ?A; auto. intros H. pose proof (fault_report_confined _ int_no err cr2 H) as C.
    eapply confined_trans; [exact C|]. apply kprint_color_confined, C.
Qed.

(** ** Page faults *)

(** What the dispatch of a page fault at [cr2] comes to: the page is committed,
    or the copy-on-write page becomes private, and the program goes on as if
    nothing had happened; or the fault is reported, and memory reads as before.
    A fault that is neither kind leaves machine and process table untouched. *)
Definition dispatched (s : sys) (d e err cr2 : Z) (s' : sys) (o : isr_end) : Prop :=
  let st := s_mach s in
  let st' := s_mach s' in
  (o = Resumed /\ s_scr s' = s_scr s /\ s_armed s' = s_armed s /\ s_faulted s' = s_faulted s /\
     ((is_present (pte st d cr2) = false /\ promised (s_dem s) d cr2 = true /\
         page_committed st d (cr2 - cr2 mod 4096) st') \/
      (cow_fault st d cr2 err = true /\ s_dem s' = s_dem s /\ resolved st d e cr2 st'))) \/
  (reported s s' o /\ s_dem s' = s_dem s /\ data_kept st d st' /\
     (forall v, 2 <= DIR_INDEX v -> vmm_translate st' d v = vmm_translate st d v) /\
     ((is_present (pte st d cr2) || negb (promised (s_dem s) d cr2) = true /\
         cow_fault st d cr2 err = false /\ s_kern s' = s_kern s) \/
      pmm_free_frames (frames st) < 2)).

Lemma with_mach_id (k : kernel) : with_mach k (mach k) = k.
Proof. destruct k. reflexivity. Qed.

Lemma data_kept_refl st d : data_kept st d st.
Proof. intros x _ _. reflexivity. Qed.

(** The copy-on-write stage, and the report when it does not apply either. *)
Lemma cow_stage (s : sys) (r : registers_t) (cr2 e : Z) :
  let st := s_mach s in
  let d := active_dir st in
  machine_ok st -> space_wf (frames st) (ram st) d -> space_wf (frames st) (ram st) e ->
  apart (ram st) d e -> counted st d e -> 2 <= DIR_INDEX cr2 ->
  is_present (pte st d cr2) || negb (promised (s_dem s) d cr2) = true ->
  let '(m, ok) := vmm_cow_handle st cr2 (r_err_code r) in
  let '(s', o) := if negb (ok =? 0) then (set_mach s m, Resumed)
                  else unresolved (set_mach s m) (r_int_no r) (r_err_code r) cr2 in
  dispatched s d e (r_err_code r) cr2 s' o.
Proof.
  intros st d MO S Se A C Hd Hn.
  pose proof (vmm_cow_spec st e cr2 (r_err_code r) MO S Se A C Hd) as H. fold d in H.
  destruct (vmm_cow_handle st cr2 (r_err_code r)) as [m ok].
  destruct H as [(-> & -> & H)|(-> & H1 & H2 & H3)]; cbn [Z.eqb negb].
  - pose proof (unresolved_reports (set_mach s st) (r_int_no r) (r_err_code r) cr2) as U.
    destruct (unresolved _ _ _ _) as [s' o]. destruct U as (U1 & U2 & U3 & _). right.
    unfold s_mach. rewrite U2. cbn. split; [destruct U1; constructor; assumption|].
    split; [exact U3|]. split; [apply data_kept_refl|]. split; [reflexivity|].
    destruct H as [H|[_ H]]; [left; rewrite with_mach_id; auto|right; change (pmm_free_frames (frames st) < 2); lia].
  - left. repeat (split; [reflexivity|]). right. auto.
Qed.

(** A fault that the two handlers do not resolve. *)
Lemma not_resolved (s : sys) (r : registers_t) (cr2 e : Z) :
  let st := s_mach s in
  let d := active_dir st in
  r_int_no r = 14 -> tst (r_err_code r) 0x1 = is_present (pte st d cr2) ->
  is_present (pte st d cr2) || negb (promised (s_dem s) d cr2) = true -> cow_fault st d cr2 (r_err_code r) = false ->
  let '(s', o) := isr_handler s r cr2 in
  dispatched s d e (r_err_code r) cr2 s' o.
Proof.
  intros st d Hi He Hn Hc. unfold isr_handler. rewrite Hi. cbn [Z.eqb Pos.eqb].
  assert (E : demand_handle (s_dem s) (s_mach s) cr2 (r_err_code r) = (s_dem s, s_mach s, 0)).
  { unfold demand_handle. fold st d. rewrite He. destruct (is_present (pte st d cr2)); [reflexivity|]. cbn [orb] in Hn.
    destruct (find_range 0 MAX_REGIONS _) as [i|] eqn:F; [|reflexivity].
    assert (P : promised (s_dem s) d cr2 = true) by (apply promised_find; eauto). rewrite P in Hn. discriminate. }
  rewrite E. cbn [Z.eqb negb]. change (s_mach (set_mach (set_dem s (s_dem s)) (s_mach s))) with st.
  rewrite vmm_cow_handle_eq. cbv zeta. fold d. rewrite Hc. cbn [Z.eqb negb].
  pose proof (unresolved_reports (set_mach (set_mach (set_dem s (s_dem s)) (s_mach s)) st) 14 (r_err_code r) cr2) as U.
  destruct (unresolved _ _ _ _) as [s' o]. destruct U as (U1 & U2 & U3 & _). right.
  assert (Ek : s_kern s' = s_kern s) by (rewrite U2; exact (with_mach_id (s_kern s))).
  unfold s_mach. rewrite Ek. split; [destruct U1; constructor; assumption|]. split; [exact U3|].
  split; [apply data_kept_refl|]. split; [reflexivity|]. left. auto.
Qed.

(** C8. Page faults, at any address.  A fault on a missing page of a region
    promised to the running address space commits one zeroed frame, a write to a
    copy-on-write page makes it private, and in both cases the program resumes
    with nothing else changed.  Every other fault, at a null pointer, in the
    kernel's memory or in the user zone too, and one for which no frame is left,
    is reported on the screen and ends in the recovery context when one is armed
    (which is thereby disarmed) and in a halt when none is, and memory reads as
    before.  Below 8 MB, where the page tables are the kernel's own, no page is
    copy-on-write and no missing page is promised.  The error code's bit 0 is the
    processor's: set exactly when the page was present. *)
Theorem page_fault_dispatch (s : sys) (r : registers_t) (cr2 e : Z) :
  let st := s_mach s in
  let d := active_dir st in
  machine_ok st -> space_wf (frames st) (ram st) d -> space_wf (frames st) (ram st) e ->
  apart (ram st) d e -> counted st d e -> 0 <= cr2 < 0x100000000 ->
  (DIR_INDEX cr2 < 2 -> is_cow (pte st d cr2) = false /\
     is_present (pte st d cr2) || negb (promised (s_dem s) d cr2) = true) ->
  r_int_no r = 14 -> tst (r_err_code r) 0x1 = is_present (pte st d cr2) ->
  let '(s', o) := isr_handler s r cr2 in
  dispatched s d e (r_err_code r) cr2 s' o.
Proof.
  intros st d MO S Se A C Hr Hlow Hi He. destruct (Z.lt_ge_cases (DIR_INDEX cr2) 2) as [Hd|Hd].
  { destruct (Hlow Hd) as [L1 L2]. apply not_resolved; try assumption. unfold cow_fault. fold st. fold d. rewrite L1, andb_false_r. reflexivity. }
  unfold isr_handler. rewrite Hi. cbn [Z.eqb Pos.eqb].
  pose proof (demand_handle_spec (s_dem s) st cr2 (r_err_code r) MO S Hr Hd) as H.
  rewrite He in H. fold st d in H |- *.
  destruct (demand_handle (s_dem s) st cr2 (r_err_code r)) as [[dm m] ok].
  destruct (negb (is_present (pte st d cr2)) && promised (s_dem s) d cr2)%bool eqn:E.
  - apply andb_true_iff in E as [E1 E2]. apply negb_true_iff in E1.
    destruct H as [(-> & _ & _ & H)|(-> & -> & Hf & Hk & Ha & Hp)]; cbn [Z.eqb negb].
    + left. repeat (split; [reflexivity|]). left. auto.
    + change (s_mach (set_mach (set_dem s (s_dem s)) m)) with m.
      rewrite vmm_cow_handle_eq. cbv zeta. unfold cow_fault. rewrite Ha. fold d.
      rewrite (proj1 (Hp cr2 Hd)), E1, andb_false_r. cbn [negb Z.eqb andb].
      pose proof (unresolved_reports (set_mach (set_mach (set_dem s (s_dem s)) m) m) 14 (r_err_code r) cr2) as U.
      destruct (unresolved _ _ _ _) as [s' o]. destruct U as (U1 & U2 & U3 & _). right.
      unfold s_mach. rewrite U2. cbn. split; [destruct U1; constructor; assumption|].
      split; [exact U3|]. split; [exact Hk|]. split; [intros v Hv; apply (Hp v Hv)|]. right. exact Hf.
  - destruct H as (-> & -> & ->). cbn [Z.eqb negb].
    rewrite <- Hi. change (s_mach (set_mach (set_dem s (s_dem s)) st)) with st.
    pose proof (cow_stage s r cr2 e MO S Se A C Hd) as G. fold st d in G.
    apply negb_true_iff in E. rewrite negb_andb, negb_involutive in E. specialize (G E).
    destruct (vmm_cow_handle st cr2 (r_err_code r)) as [m ok]. destruct (negb (ok =? 0)); exact G.
Qed.

End System.

Arguments sys D : clear implicits.

(** ** A concrete system *)

(** The static variables at boot, around a process table and a filesystem, on a
    board whose BIOS area is shadowed by RAM. *)
Definition boot_sys {D : Type} (k : kernel) (f : fs (D := D)) : sys D :=
  mk_sys k demand_boot screen_boot kbd_boot 0 boot_sched 0 f false false (replicate 256 NoHandler) [] (fun a => 0xC0000 <=? a).

Definition trap_regs (n err cs eax ebx ecx edx : Z) : registers_t :=
  mk_regs 0x23 0 0 0 0 ebx edx ecx eax n err 0x80000 cs 0x202 0xEFFF0 0x23.

(** The two address spaces of [VmmProps] that share a copy-on-write page. *)
Definition demo_sys : sys mem :=
  boot_sys (mk_kernel (replicate 16 zero_proc) 1 0 demo) (mk_fs ∅ ∅ ∅ ∅).

Lemma page_fault_dispatch_witness :
  let '(s', o) := isr_handler demo_sys (trap_regs 14 0x7 0x1B 0 0 0 0) 0x800010 in
  dispatched demo_sys 0x400000 0x403000 0x7 0x800010 s' o.
Proof.
  apply (page_fault_dispatch demo_sys (trap_regs 14 0x7 0x1B 0 0 0 0) 0x800010 0x403000);
    [apply demo_ok|apply demo_space|apply demo_space2|apply demo_apart|apply demo_counted
    |lia|intros H; vm_compute in H; discriminate|reflexivity|vm_compute; reflexivity].
Defined.
