(* ===== verification/Bus.v ===== *)
(** * The memory bus (kernel/usermode.h, kernel/screen.c)

    Not every physical address is RAM.  Below 0xA0000 and from 1 MB up it is;
    between them lie the VGA window, with the text screen at 0xB8000, and the
    option and BIOS ROM.  A store to the text screen changes what is shown; any
    other store between 0xA0000 and 1 MB is kept or dropped, as the board decides
    ([s_board] of [System]): real ROM drops it, RAM that shadows the ROM keeps it.
    Loads see the text screen at 0xB8000.

    This file also has the processor's check of a kernel access. *)

From stdpp Require Import base gmap list numbers option.
From Stdlib Require Import ZArith Lia Bool.
From S2P Require Import Prelude CString Screen Pmm Vmm VmmLemmas VmmSpec VmmClone VmmTheorems VmmProps Demand Proc Keyboard Interfaces Fs Task Tables System.

(** The bytes of the text screen. *)
Definition TEXT_BYTES : Z := 2 * (COLS * ROWS).

Definition in_text (a : Z) : bool := in_range a VIDEO_MEMORY TEXT_BYTES.

(** Where there is no conventional memory. *)
Definition DEVICE_START : Z := 0x000A0000.
Definition DEVICE_END : Z := 0x00100000.
Definition in_device (a : Z) : bool := (DEVICE_START <=? a) && (a <? DEVICE_END).

(** A byte stored to the text screen. *)
Definition screen_poke (x : screen) (i b : Z) : screen := mk_screen (aset (video x) i (u8 b)) (cursor x) (text_color x).

Lemma screen_poke_confined x i b : 0 <= i < TEXT_BYTES -> screen_ok x -> confined x (screen_poke x i b).
Proof.
  intros Hi H. split; [exact H|]. intros k Hk. unfold screen_poke. cbn [video]. rewrite aget_aset.
  destruct (Z.eqb_spec i k); [unfold TEXT_BYTES in Hi; lia|reflexivity].
Qed.

Definition KERNEL_CS : Z := 0x08.

(** With CR0.WP set ([paging_install]) the kernel cannot write read-only pages. *)
Definition kernel_reads (st : machine) (v : Z) : bool := is_present (pte st (active_dir st) v).
Definition kernel_writes (st : machine) (v : Z) : bool :=
  kernel_reads st v && is_rw (entry (ram st) (active_dir st) (DIR_INDEX v)) && is_rw (pte st (active_dir st) v).

(** The page-fault error code of a kernel access. *)
Definition kernel_code (st : machine) (v : Z) (write : bool) : Z :=
  (if is_present (pte st (active_dir st) v) then 1 else 0) + (if write then 2 else 0).

Section Bus.
Context {D : Type}.

Definition set_ram (s : sys D) (m : mem) : sys D := set_mach s (with_ram (s_mach s) m).

(** The stores the board drops, and those that reach memory. *)
Definition dropped (s : sys D) (a : Z) : bool := in_device a && negb (in_text a) && negb (s_board s a).
Definition kept (s : sys D) (a : Z) : bool := negb (in_text a) && negb (dropped s a).

(** A byte stored at a physical address. *)
Definition bus_store (s : sys D) (a b : Z) : sys D :=
  if in_text a then set_scr s (screen_poke (s_scr s) (a - VIDEO_MEMORY) b)
  else if dropped s a then s
  else set_ram s (st8 (s_ram s) a b).

(** The characters and attributes on the screen, and memory as loads see it. *)
Definition text_bytes (x : screen) : list Z := map (aget (video x)) (seqZ 0 TEXT_BYTES).
Definition s_view (s : sys D) : mem := put_bytes (s_ram s) VIDEO_MEMORY (text_bytes (s_scr s)).

(** One byte of it. *)
Definition s_peek (s : sys D) (x : Z) : Z :=
  if in_text x then u8 (aget (video (s_scr s)) (x - VIDEO_MEMORY)) else ld8 (s_ram s) x.

(** The bytes of [m] that differ from what is shown go to the screen. *)
Definition commit_text (x : screen) (m : mem) : screen :=
  for_range 0 TEXT_BYTES (fun i x =>
    if ld8 m (VIDEO_MEMORY + i) =? u8 (aget (video x) i) then x
    else screen_poke x i (ld8 m (VIDEO_MEMORY + i))) x.

(** A routine ran on the memory [s_view s] and left [m]: its stores, as the bus
    takes them. *)
Definition bus_commit (s : sys D) (m : mem) : sys D :=
  set_scr (set_ram s (filter (fun c => kept s (fst c) = true) m ∪ filter (fun c => kept s (fst c) = false) (s_ram s)))
    (commit_text (s_scr s) m).

(** ** What is read after a store *)

Lemma in_text_device a : in_text a = true -> in_device a = true.
Proof. unfold in_text, in_device, DEVICE_START, DEVICE_END, VIDEO_MEMORY, TEXT_BYTES, COLS, ROWS. rewrite in_range_true. intros H. zcase; lia || reflexivity. Qed.

Lemma conventional_kept s a : in_device a = false -> kept s a = true.
Proof.
  intros H. unfold kept, dropped. rewrite H. destruct (in_text a) eqn:E; [|reflexivity].
  apply in_text_device in E. congruence.
Qed.

Lemma bus_store_kept s a b : kept s a = true -> bus_store s a b = set_ram s (st8 (s_ram s) a b).
Proof.
  unfold kept, bus_store. destruct (in_text a); [discriminate|]. destruct (dropped s a); [discriminate|reflexivity].
Qed.

Lemma kept_peek s a : kept s a = true -> s_peek s a = ld8 (s_ram s) a.
Proof. unfold kept, s_peek. destruct (in_text a); [discriminate|reflexivity]. Qed.

Lemma bus_store_ram s a b : in_device a = false -> bus_store s a b = set_ram s (st8 (s_ram s) a b).
Proof.
  intros H. apply bus_store_kept, conventional_kept, H.
Qed.

Lemma tget_text x i : 0 <= i < TEXT_BYTES -> tget 0 (text_bytes x) i = aget (video x) i.
Proof.
  intros Hi. unfold tget, text_bytes. rewrite (nth_indep _ 0 (aget (video x) 0)), map_nth by
    (rewrite length_map, length_seqZ; lia). f_equal. rewrite nth_lookup.
  rewrite (lookup_seqZ_lt 0 TEXT_BYTES (Z.to_nat i)) by lia. cbn. lia.
Qed.

Lemma view_ld8 s x : ld8 (s_view s) x = s_peek s x.
Proof.
  unfold s_view, s_peek, in_text. rewrite ld8_put_bytes.
  assert (E : tlen (text_bytes (s_scr s)) = TEXT_BYTES) by (unfold tlen, text_bytes; rewrite length_map, length_seqZ; reflexivity).
  rewrite E. destruct (in_range x VIDEO_MEMORY TEXT_BYTES) eqn:I; [|reflexivity]. apply in_range_true in I.
  rewrite tget_text by lia. reflexivity.
Qed.

Lemma view_ram s x : in_device x = false -> ld8 (s_view s) x = ld8 (s_ram s) x.
Proof.
  intros H. rewrite view_ld8. unfold s_peek. destruct (in_text x) eqn:E; [|reflexivity]. apply in_text_device in E. congruence.
Qed.

(** A byte that is not dropped reads back, and nothing else changes. *)
Lemma view_bus_store s a b x :
  ld8 (s_view (bus_store s a b)) x = if (a =? x) && negb (dropped s a) then u8 b else ld8 (s_view s) x.
Proof.
  rewrite !view_ld8. unfold s_peek, bus_store. destruct (in_text a) eqn:T.
  - assert (dropped s a = false) as -> by (unfold dropped; rewrite T, andb_false_r; reflexivity). cbn [negb].
    rewrite andb_true_r. cbn [s_scr set_scr screen_poke video]. rewrite aget_aset.
    destruct (Z.eqb_spec a x) as [<-|N]; [rewrite T, Z.eqb_refl; apply u8_small, u8_range|].
    rewrite (proj2 (Z.eqb_neq (a - VIDEO_MEMORY) (x - VIDEO_MEMORY))) by lia. reflexivity.
  - destruct (dropped s a); cbn [negb]; [rewrite andb_false_r; reflexivity|]. rewrite andb_true_r.
    change (s_scr (set_ram s _)) with (s_scr s). change (s_ram (set_ram s ?m)) with m. rewrite ld8_st8.
    destruct (Z.eqb_spec a x) as [<-|]; [rewrite T|]; reflexivity.
Qed.

Lemma ram_bus_store s a b x : ld8 (s_ram (bus_store s a b)) x = if (a =? x) && kept s a then u8 b else ld8 (s_ram s) x.
Proof.
  unfold bus_store, kept. destruct (in_text a) eqn:T; cbn [negb andb]; [rewrite andb_false_r; reflexivity|].
  destruct (dropped s a); cbn [negb]; [rewrite andb_false_r; reflexivity|]. rewrite andb_true_r.
  change (s_ram (set_ram s ?m)) with m. apply ld8_st8.
Qed.

(** A store changes memory and the screen only. *)
Lemma bus_store_shape s a b :
  bus_store s a b = set_scr (set_ram s (s_ram (bus_store s a b))) (s_scr (bus_store s a b)).
Proof.
  unfold bus_store. destruct (in_text a); [|destruct (dropped s a)]; destruct s as [[? ? ? []]]; reflexivity.
Qed.

Lemma bus_store_confined s a b : screen_ok (s_scr s) -> confined (s_scr s) (s_scr (bus_store s a b)).
Proof.
  intros H. unfold bus_store. destruct (in_text a) eqn:T; [|destruct (dropped s a); split; assumption || reflexivity].
  unfold in_text in T. apply in_range_true in T. apply screen_poke_confined; [lia|exact H].
Qed.

(** ** Whole routines *)

Lemma filter_union_ld8 (P : Z -> bool) (m m' : mem) x :
  ld8 (filter (fun c => P (fst c) = true) m ∪ filter (fun c => P (fst c) = false) m') x = if P x then ld8 m x else ld8 m' x.
Proof.
  unfold ld8, aget. rewrite lookup_union, !map_lookup_filter. destruct (P x) eqn:E.
  - destruct (m !! x) as [v|], (m' !! x) as [w|]; cbn; repeat case_guard; cbn; congruence.
  - destruct (m !! x) as [v|], (m' !! x) as [w|]; cbn; repeat case_guard; cbn; congruence.
Qed.

Lemma ram_bus_commit s m x : ld8 (s_ram (bus_commit s m)) x = if kept s x then ld8 m x else ld8 (s_ram s) x.
Proof. change (s_ram (bus_commit s m)) with (filter (fun c => kept s (fst c) = true) m ∪ filter (fun c => kept s (fst c) = false) (s_ram s)).
  apply filter_union_ld8. Qed.

Lemma commit_text_spec x m :
  cursor (commit_text x m) = cursor x /\ text_color (commit_text x m) = text_color x /\
  forall i, aget (video (commit_text x m)) i
    = if in_range i 0 TEXT_BYTES && negb (ld8 m (VIDEO_MEMORY + i) =? u8 (aget (video x) i))
      then ld8 m (VIDEO_MEMORY + i) else aget (video x) i.
Proof.
  unfold commit_text.
  pose proof (for_range_ind (fun n y => cursor y = cursor x /\ text_color y = text_color x /\
    forall i, aget (video y) i
      = if in_range i 0 n && negb (ld8 m (VIDEO_MEMORY + i) =? u8 (aget (video x) i))
        then ld8 m (VIDEO_MEMORY + i) else aget (video x) i) 0 TEXT_BYTES) as Q.
  apply Q; clear Q; [vm_compute; discriminate| |].
  - split; [reflexivity|]. split; [reflexivity|]. intros i. rewrite (proj2 (in_range_false _ _ _)) by lia. reflexivity.
  - intros n y Hn (Y1 & Y2 & Y3).
    assert (En : aget (video y) n = aget (video x) n) by (rewrite Y3, (proj2 (in_range_false _ _ _)) by lia; reflexivity).
    assert (Er : forall i, i <> n -> in_range i 0 (n + 1) = in_range i 0 n)
      by (intros i Hi; unfold in_range; destruct (0 <=? i); cbn [andb]; [|reflexivity]; zcase; lia || reflexivity).
    rewrite En. destruct (Z.eqb_spec (ld8 m (VIDEO_MEMORY + n)) (u8 (aget (video x) n))) as [E|E].
    + split; [exact Y1|]. split; [exact Y2|]. intros i. destruct (Z.eq_dec i n) as [->|N]; [|rewrite Er by exact N; apply Y3].
      rewrite En, E, Z.eqb_refl, andb_false_r. reflexivity.
    + split; [exact Y1|]. split; [exact Y2|]. intros i. cbn [screen_poke video]. rewrite aget_aset.
      destruct (Z.eqb_spec n i) as [<-|N]; [|rewrite Er by congruence; apply Y3].
      rewrite (proj2 (in_range_true _ _ _)), (proj2 (Z.eqb_neq _ _) E) by lia. apply u8_small, ld8_range.
Qed.

(** Memory after the routine, as loads see it. *)
Lemma view_bus_commit s m x :
  ld8 (s_view (bus_commit s m)) x = if dropped s x then ld8 (s_view s) x else ld8 m x.
Proof.
  rewrite !view_ld8. unfold s_peek. rewrite ram_bus_commit. unfold kept. destruct (in_text x) eqn:T; cbn [negb andb].
  - assert (dropped s x = false) as -> by (unfold dropped; rewrite T, andb_false_r; reflexivity).
    change (s_scr (bus_commit s m)) with (commit_text (s_scr s) m).
    destruct (commit_text_spec (s_scr s) m) as (_ & _ & ->). unfold in_text in T. apply in_range_true in T.
    rewrite (proj2 (in_range_true _ _ _)) by lia. replace (VIDEO_MEMORY + (x - VIDEO_MEMORY)) with x by lia.
    destruct (Z.eqb_spec (ld8 m x) (u8 (aget (video (s_scr s)) (x - VIDEO_MEMORY)))) as [->|]; cbn [negb andb]; [reflexivity|].
    apply u8_small, ld8_range.
  - destruct (dropped s x); reflexivity.
Qed.

Lemma bus_commit_confined s m : screen_ok (s_scr s) -> confined (s_scr s) (s_scr (bus_commit s m)).
Proof.
  intros H. change (s_scr (bus_commit s m)) with (commit_text (s_scr s) m).
  destruct (commit_text_spec (s_scr s) m) as (E1 & _ & E3). split; [unfold screen_ok in *; rewrite E1; exact H|].
  intros i Hi. rewrite E3, (proj2 (in_range_false _ _ _)) by (unfold TEXT_BYTES; lia). reflexivity.
Qed.

(** ** Faults *)

(** A fault on a page that is neither copy-on-write nor promised is not resolved. *)
Lemma isr_unresolved (s : sys D) (r : registers_t) (cr2 : Z) :
  is_cow (pte (s_mach s) (active_dir (s_mach s)) cr2) = false ->
  promised (s_dem s) (active_dir (s_mach s)) cr2 = false ->
  isr_handler s r cr2 = unresolved s (r_int_no r) (r_err_code r) cr2.
Proof.
  intros Hc Hp. unfold isr_handler.
  assert (E : demand_handle (s_dem s) (s_mach s) cr2 (r_err_code r) = (s_dem s, s_mach s, 0)).
  { unfold demand_handle. destruct (tst (r_err_code r) 1); [reflexivity|].
    destruct (find_range 0 MAX_REGIONS _) as [i|] eqn:F; [|reflexivity].
    assert (promised (s_dem s) (active_dir (s_mach s)) cr2 = true) as P by (apply promised_find; eauto).
    rewrite Hp in P. discriminate. }
  assert (E' : vmm_cow_handle (s_mach s) cr2 (r_err_code r) = (s_mach s, 0)).
  { rewrite vmm_cow_handle_eq. unfold cow_fault. rewrite Hc, andb_false_r. reflexivity. }
  rewrite E. replace (set_mach (set_dem s (s_dem s)) (s_mach s)) with s by (destruct s as [[]]; reflexivity).
  cbn [Z.eqb negb]. rewrite E'. replace (set_mach s (s_mach s)) with s by (destruct s as [[]]; reflexivity).
  destruct (r_int_no r =? 14); reflexivity.
Qed.

End Bus.

(** What the tables say about [v], where the bytes of the two tables are the same. *)
Lemma tables_same st st' d v :
  page d -> (forall x, pg x = d -> ld8 (ram st') x = ld8 (ram st) x) ->
  (slot_present (ram st) d (DIR_INDEX v) = true -> forall x, pg x = slot_tab (ram st) d (DIR_INDEX v) ->
     ld8 (ram st') x = ld8 (ram st) x) ->
  (forall j, 0 <= j < 1024 -> entry (ram st') d j = entry (ram st) d j) /\
  pte st' d v = pte st d v /\ vmm_translate st' d v = vmm_translate st d v.
Proof.
  intros Pd Hd Ht. pose proof (DIR_INDEX_range v) as Rd. pose proof (TAB_INDEX_range v) as Rt.
  assert (Ed : forall j, 0 <= j < 1024 -> entry (ram st') d j = entry (ram st) d j)
    by (intros j Hj; apply entry_ext; auto).
  split; [exact Ed|].
  assert (Et : slot_present (ram st) d (DIR_INDEX v) = true ->
    entry (ram st') (slot_tab (ram st) d (DIR_INDEX v)) (TAB_INDEX v)
    = entry (ram st) (slot_tab (ram st) d (DIR_INDEX v)) (TAB_INDEX v))
    by (intros P; apply entry_ext; [apply slot_tab_page|exact Rt|exact (Ht P)]).
  unfold pte, vmm_translate, table_for, slot_present, slot_tab, is_present in *.
  rewrite Ed by exact Rd. destruct (tst (entry (ram st) d (DIR_INDEX v)) PF_PRESENT); cbn [negb]; [|auto].
  rewrite Et by reflexivity. auto.
Qed.
