(* ===== verification/Syscall.v ===== *)
(** * System calls (kernel/syscall.c)

    The int 0x80 handler on the system state of [System].  A call that blocks
    enables interrupts and halts until its condition holds: its argument
    [wakeups] lists, for each wait, the interrupts that arrive during it (the
    vector, and the byte the keyboard controller holds).  The user zone is
    identity mapped, so a pointer of the program is a physical address; memory is
    read as the bus shows it and written through it ([Bus]), and a store of the
    kernel to a page that is not writable faults. *)

From stdpp Require Import base gmap list numbers option.
From Stdlib Require Import ZArith Lia Bool.
From S2P Require Import Prelude CString Screen Pmm Vmm VmmLemmas VmmSpec VmmClone VmmTheorems VmmProps Demand Proc FreeList Interfaces Umalloc Keyboard Fs Task Tables System Bus.

Definition SYS_WRITE : Z := 0.
Definition SYS_UPTIME : Z := 1.
Definition SYS_EXIT : Z := 2.
Definition SYS_READ : Z := 3.
Definition SYS_SLEEP : Z := 4.
Definition SYS_RAND : Z := 5.
Definition SYS_FWRITE : Z := 6.
Definition SYS_FREAD : Z := 7.
Definition SYS_GETPID : Z := 8.
Definition SYS_SBRK : Z := 9.

Definition in_user_zone (p len : Z) : bool := (0x00080000 <=? p) && (p + len <=? 0x00100000).

Definition user_string_ok (m : mem) (p : Z) : bool :=
  if negb (in_user_zone p 1) then false
  else match find_range p 0x00100000 (fun a => ld8 m a =? 0) with Some _ => true | None => false end.

Definition from_user (r : registers_t) : bool := Z.land (r_cs r) 3 =? 3.

(** The characters of the C string at [p], up to its terminator or the end of
    the mapped memory. *)
Fixpoint cstr (room : nat) (m : mem) (p : Z) : list Z :=
  match room with
  | O => []
  | S room => if ld8 m p =? 0 then [] else ld8 m p :: cstr room m (p + 1)
  end.

Definition str_at (m : mem) (p : Z) : list Z := cstr (Z.to_nat (0x800000 - p)) m p.

(** How a call ends: back to the caller, in [user_exit], still waiting, in the
    recovery context after a fault of the kernel, or in a halt after one. *)
Inductive sys_end := Returned | Exited | Blocked | Faulted | Crashed.

Section Syscall.
Context {D : Type} {DK : Disk D}.

(** The interrupts of one wait. *)
Definition irqs (s : sys D) (w : list (Z * Z)) : sys D :=
  fold_left (fun s i => irq_handler s (fst i) (snd i)) w s.

(** [while ((c = keyboard_getchar()) < 0) hlt;] *)
Fixpoint read_loop (wakeups : list (list (Z * Z))) (s : sys D) : sys D * option Z :=
  let '(k, c) := keyboard_getchar (s_kbd s) in
  let s := set_kbd s k in
  if c <? 0 then
    match wakeups with
    | [] => (s, None)
    | w :: ws => read_loop ws (irqs s w)
    end
  else (s, Some c).

(** [while (busy) hlt;]: the second result is false while the loop still waits. *)
Fixpoint wait_while (busy : sys D -> bool) (wakeups : list (list (Z * Z))) (s : sys D) : sys D * bool :=
  if busy s then
    match wakeups with
    | [] => (s, false)
    | w :: ws => wait_while busy ws (irqs s w)
    end
  else (s, true).

(** [while (timer_ticks() < target) hlt;] *)
Definition sleep_loop (target : Z) (wakeups : list (list (Z * Z))) (s : sys D) : sys D * bool :=
  wait_while (fun s => timer_ticks s <? target) wakeups s.

(** The SYS_SBRK case: the process table and the result. *)
Definition sys_sbrk (k : kernel) (incr : Z) : kernel * Z :=
  let i := proc_current k in
  let p := slot k i in
  let old := if negb (brk p =? 0) then brk p else USER_HEAP_BASE in
  let want := u32 (old + incr) in
  if incr =? 0 then (k, old)
  else if (want <? old) || (USER_HEAP_END <? want) then (k, U32_MAX)
  else (set_slot k i (with_brk p want), old).

(** The SYS_RAND case: the generator state and the result. *)
Definition sys_rand (seed tick : Z) : Z * Z :=
  let s := if seed =? 0 then u32 (u32 (tick * 2654435761) + 1) else seed in
  let s := u32 (u32 (s * 1103515245) + 12345) in
  (s, Z.land (Z.shiftr s 16) 0x7FFF).

(** [kprint(p)] of the string at [p], up to its terminator or the end of the
    mapped memory: a character is read when those before it are on the screen,
    which may be where the string lies. *)
Fixpoint kprint_at (room : nat) (s : sys D) (p : Z) : sys D :=
  match room with
  | O => s
  | S room =>
      let c := s_peek s p in
      if c =? 0 then s else kprint_at room (set_scr s (kprint_char (s_scr s) c)) (p + 1)
  end.

Definition kprint_str (s : sys D) (p : Z) : sys D := kprint_at (Z.to_nat (0x800000 - p)) s p.

(** A byte the kernel stores in the program's memory.  A store the page tables
    do not allow faults, and is made again when the handler resolves the fault,
    which it does at most once for a page and an access; more would count as a
    crash. *)
Fixpoint user_store (tries : nat) (s : sys D) (a b : Z) : sys D * option sys_end :=
  if kernel_writes (s_mach s) a then (bus_store s a b, None)
  else
    match isr_handler s (trap_regs 14 (kernel_code (s_mach s) a true) KERNEL_CS 0 0 0 0) a with
    | (s, Resumed) => match tries with O => (s, Some Crashed) | S tries => user_store tries s a b end
    | (s, Recovered) => (s, Some Faulted)
    | (s, Halted) => (s, Some Crashed)
    end.

(** [memcpy(dst, secbuf, n)] into the program's memory. *)
Definition user_copy (s : sys D) (dst : Z) (b : mem) (n : Z) : sys D * option sys_end :=
  for_range_ret 0 n (fun i s => user_store 2 s (dst + i) (ld8 b i)) s.

(** One turn of the loop of [fs_read] with a buffer of the program's: the left
    result is the error return. *)
Definition fread_chunk (i buf size sec : Z) (s : sys D) : sys D * option (Z + sys_end) :=
  let f := s_fs s in
  let '(d, b, r) := read_sector (dev f) (u32 (ent_start (dir f) i + sec)) (secbuf f) in
  let s := set_fs s (mk_fs d (super f) (dir f) b) in
  if negb (r =? 0) then (s, Some (inl (-1)))
  else
    let off := u32 (sec * 512) in
    let chunk := chunk_of size sec in
    if negb (chunk =? 0) then let '(s, e) := user_copy s (buf + off) b chunk in (s, inr <$> e) else (s, None).

(** [fs_read(name, buf, max, &got)] as SYS_FREAD calls it, and the value for eax. *)
Definition sys_fread (s : sys D) (name : list Z) (buf max : Z) : sys D * (Z + sys_end) :=
  match find (dir (s_fs s)) name with
  | None => (s, inl U32_MAX)
  | Some i =>
      let size := ent_size (dir (s_fs s)) i in
      let size := if max <? size then max else size in
      let nsec := u32 (size + 511) / 512 in
      match for_range_ret 0 nsec (fread_chunk i buf size) s with
      | (s, Some (inr e)) => (s, inr e)
      | (s, Some (inl rc)) => (s, inl (if rc =? 0 then 0 else U32_MAX))
      | (s, None) => (s, inl size)
      end
  end.

Definition syscall_handler (s : sys D) (r : registers_t) (wakeups : list (list (Z * Z)))
    : sys D * registers_t * sys_end :=
  let nr := r_eax r in
  if nr =? SYS_WRITE then
    if from_user r && negb (user_string_ok (s_view s) (r_ebx r)) then (s, set_eax r U32_MAX, Returned)
    else (kprint_str s (r_ebx r), set_eax r 0, Returned)
  else if nr =? SYS_UPTIME then (s, set_eax r (timer_ticks s), Returned)
  else if nr =? SYS_GETPID then
    (s, set_eax r (u32 (pid (slot (s_kern s) (proc_current (s_kern s))))), Returned)
  else if nr =? SYS_SBRK then
    let '(k, v) := sys_sbrk (s_kern s) (r_ebx r) in (set_kern s k, set_eax r v, Returned)
  else if nr =? SYS_EXIT then (s, r, Exited)
  else if nr =? SYS_READ then
    match read_loop wakeups s with
    | (s, Some c) => (s, set_eax r (u32 c), Returned)
    | (s, None) => (s, r, Blocked)
    end
  else if nr =? SYS_SLEEP then
    match sleep_loop (u32 (timer_ticks s + r_ebx r)) wakeups s with
    | (s, true) => (s, set_eax r 0, Returned)
    | (s, false) => (s, r, Blocked)
    end
  else if nr =? SYS_RAND then
    let '(x, v) := sys_rand (s_seed s) (timer_ticks s) in (set_seed s x, set_eax r v, Returned)
  else if nr =? SYS_FWRITE then
    if user_string_ok (s_view s) (r_ebx r) && in_user_zone (r_ecx r) (r_edx r) then
      let '(f, rc) := fs_write (s_fs s) (str_at (s_view s) (r_ebx r)) (s_view s) (r_ecx r) (r_edx r) in
      (set_fs s f, set_eax r (u32 rc), Returned)
    else (s, set_eax r U32_MAX, Returned)
  else if nr =? SYS_FREAD then
    if user_string_ok (s_view s) (r_ebx r) && in_user_zone (r_ecx r) (r_edx r) then
      match sys_fread s (str_at (s_view s) (r_ebx r)) (r_ecx r) (r_edx r) with
      | (s, inl v) => (s, set_eax r v, Returned)
      | (s, inr e) => (s, r, e)
      end
    else (s, set_eax r U32_MAX, Returned)
  else (s, set_eax r U32_MAX, Returned).

(** ** What a call may read and write *)

Definition in_zone (x : Z) : Prop := 0x80000 <= x < 0x100000.

(** Two memories a program cannot tell apart. *)
Definition zone_agree (m m' : mem) : Prop := forall x, in_zone x -> ld8 m' x = ld8 m x.

Lemma user_string_spec m p :
  user_string_ok m p = true <-> in_zone p /\ exists q, p <= q < 0x100000 /\ ld8 m q = 0.
Proof.
  unfold user_string_ok, in_user_zone, in_zone.
  destruct (Z.leb_spec 0x80000 p); cbn [andb negb]; [|split; [discriminate|lia]].
  destruct (Z.leb_spec (p + 1) 0x100000); cbn [negb]; [|split; [discriminate|lia]].
  destruct (find_range p 0x100000 _) as [q|] eqn:E.
  - apply find_range_some in E as (Hq & Hz & _). b2p. split; [|auto]. intros _. split; [lia|]. exists q. auto.
  - split; [discriminate|]. intros (_ & q & Hq & Hz).
    pose proof (find_range_none _ _ _ E q Hq) as N. cbn in N. rewrite Hz in N. discriminate.
Qed.

Lemma cstr_agree m m' q : ld8 m q = 0 -> forall n p,
  p <= q -> (forall x, p <= x <= q -> ld8 m' x = ld8 m x) -> cstr n m' p = cstr n m p.
Proof.
  intros Hq. induction n as [|n IH]; intros p Hp H; [reflexivity|]. cbn [cstr].
  rewrite (H p ltac:(lia)). destruct (Z.eqb_spec (ld8 m p) 0); [reflexivity|]. f_equal.
  assert (p <> q) by congruence. apply IH; [lia|]. intros x Hx. apply H. lia.
Qed.

(** A validated string is the same in every memory that agrees on the zone. *)
Lemma user_string_agree m m' p :
  zone_agree m m' ->
  user_string_ok m' p = user_string_ok m p /\
  (user_string_ok m p = true -> str_at m' p = str_at m p).
Proof.
  intros Za. split.
  - apply eq_iff_eq_true. rewrite !user_string_spec. unfold in_zone in *.
    split; intros (H & q & Hq & E); (split; [exact H|]); exists q; (split; [exact Hq|]);
      rewrite <- E; [symmetry|]; apply Za; unfold in_zone; lia.
  - rewrite user_string_spec. intros (H & q & Hq & E). apply (cstr_agree m m' q E); [lia|].
    intros x Hx. apply Za. unfold in_zone in *. lia.
Qed.

(** ** Interrupts while a call waits *)

(** At most the keyboard, the clock, the scheduler and the ports have changed. *)
Record interrupted (s s' : sys D) : Prop := {
  int_eq : s' = mk_sys (s_kern s) (s_dem s) (s_scr s) (s_kbd s') (s_tick s') (s_sched s') (s_seed s) (s_fs s)
    (s_armed s) (s_faulted s) (s_handlers s) (s_outs s') (s_board s);
  int_tasks : tlen (tasks (s_sched s')) = tlen (tasks (s_sched s))
}.

#[export] Instance interrupted_preorder : PreOrder interrupted.
Proof.
  split; [intros []; split; reflexivity|].
  intros a b c [A1 A2] [B1 B2]. split; [rewrite B1, A1; reflexivity|congruence].
Qed.

Lemma irq_interrupted s n b : interrupted s (irq_handler s n b).
Proof.
  unfold irq_handler. destruct (40 <=? n); cbn [outb s_handlers];
    destruct (tget NoHandler (s_handlers s) n); split; try reflexivity; apply preempt_tick_len.
Qed.

Lemma irqs_interrupted w : forall s, interrupted s (irqs s w).
Proof.
  induction w as [|i w IH]; intros s; [reflexivity|]. etransitivity; [apply irq_interrupted|apply IH].
Qed.

Lemma read_loop_interrupted ws : forall s, interrupted s (fst (read_loop ws s)).
Proof.
  induction ws as [|w ws IH]; intros s; cbn [read_loop]; destruct (keyboard_getchar (s_kbd s)) as [k c];
    (assert (K : interrupted s (set_kbd s k)) by (split; reflexivity)); destruct (c <? 0); try exact K.
  etransitivity; [exact K|]. etransitivity; [apply irqs_interrupted|apply IH].
Qed.

Lemma wait_interrupted busy ws : forall s, interrupted s (fst (wait_while busy ws s)).
Proof.
  induction ws as [|w ws IH]; intros s; cbn [wait_while]; destruct (busy s); try reflexivity.
  etransitivity; [apply irqs_interrupted|apply IH].
Qed.

Lemma sleep_loop_interrupted t ws s : interrupted s (fst (sleep_loop t ws s)).
Proof. apply wait_interrupted. Qed.

(** Interrupts do not depend on memory. *)
Lemma irqs_ram w m : forall s, irqs (set_ram s m) w = set_ram (irqs s w) m.
Proof.
  induction w as [|i w IH]; intros s; [reflexivity|]. unfold irqs in *. cbn [fold_left]. rewrite <- IH.
  f_equal. unfold irq_handler. destruct (40 <=? fst i); cbn [outb s_handlers set_ram set_mach set_kern];
    destruct (tget NoHandler (s_handlers s) (fst i)); reflexivity.
Qed.

Lemma read_loop_ram ws m : forall s,
  read_loop ws (set_ram s m) = (set_ram (fst (read_loop ws s)) m, snd (read_loop ws s)).
Proof.
  induction ws as [|w ws IH]; intros s; cbn [read_loop]; cbn [set_ram set_mach set_kern s_kbd];
    destruct (keyboard_getchar (s_kbd s)) as [k c]; destruct (c <? 0); try reflexivity.
  rewrite <- IH, <- irqs_ram. reflexivity.
Qed.

Lemma sleep_loop_ram t ws m : forall s,
  sleep_loop t ws (set_ram s m) = (set_ram (fst (sleep_loop t ws s)) m, snd (sleep_loop t ws s)).
Proof.
  unfold sleep_loop. induction ws as [|w ws IH]; intros s; cbn [wait_while]; unfold timer_ticks in *;
    cbn [set_ram set_mach set_kern s_tick]; destruct (s_tick s <? t); try reflexivity.
  rewrite <- IH, <- irqs_ram. reflexivity.
Qed.

(** ** Confinement *)

Definition brk_valid (p : proc_t) : Prop := brk p = 0 \/ USER_HEAP_BASE <= brk p <= USER_HEAP_END.

(** What a system call leaves alone. *)
Record kernel_safe (s s' : sys D) : Prop := {
  kk_mem : forall x, ~ in_zone x -> ld8 (s_ram s') x = ld8 (s_ram s) x;
  kk_mach : s_mach s' = with_ram (s_mach s) (s_ram s');
  kk_others : forall i, 0 <= i -> i <> current_idx (s_kern s) -> slot (s_kern s') i = slot (s_kern s) i;
  kk_self : let p := slot (s_kern s') (current_idx (s_kern s)) in
    p = with_brk (slot (s_kern s) (current_idx (s_kern s))) (brk p) /\
    (brk_valid (slot (s_kern s) (current_idx (s_kern s))) -> brk_valid p);
  kk_table : tlen (table (s_kern s')) = tlen (table (s_kern s)) /\
    next_pid (s_kern s') = next_pid (s_kern s) /\ current_idx (s_kern s') = current_idx (s_kern s);
  kk_rest : s_dem s' = s_dem s /\ s_handlers s' = s_handlers s /\ s_board s' = s_board s /\
    tlen (tasks (s_sched s')) = tlen (tasks (s_sched s));
  kk_screen : screen_ok (s_scr s) -> confined (s_scr s) (s_scr s')
}.

(** The same, with the state of the fault recovery. *)
Record kernel_kept (s s' : sys D) : Prop := {
  kk_safe : kernel_safe s s';
  kk_fault : s_armed s' = s_armed s /\ s_faulted s' = s_faulted s
}.

(** The fault recovery after a call. *)
Definition fault_state (s s' : sys D) (o : sys_end) : Prop :=
  match o with
  | Faulted => s_armed s = true /\ s_armed s' = false /\ s_faulted s' = true
  | Crashed => s_armed s = false /\ s_armed s' = false /\ s_faulted s' = s_faulted s
  | _ => s_armed s' = s_armed s /\ s_faulted s' = s_faulted s
  end.

Lemma with_brk_id p : p = with_brk p (brk p).
Proof. destruct p. reflexivity. Qed.

Lemma with_ram_id st : st = with_ram st (ram st).
Proof. destruct st. reflexivity. Qed.

Lemma confined_refl x : screen_ok x -> confined x x.
Proof. intros H. split; [assumption|reflexivity]. Qed.

(** A call that leaves the process table and the machine alone. *)
Lemma kept_intro s s' :
  s_kern s' = s_kern s -> s_dem s' = s_dem s -> s_armed s' = s_armed s -> s_faulted s' = s_faulted s ->
  s_handlers s' = s_handlers s -> s_board s' = s_board s -> tlen (tasks (s_sched s')) = tlen (tasks (s_sched s)) ->
  (screen_ok (s_scr s) -> confined (s_scr s) (s_scr s')) -> kernel_kept s s'.
Proof.
  intros Ek Ed Ea Ef Eh Eb Et Hs. split; [|auto].
  constructor; unfold s_ram, s_mach; rewrite ?Ek; auto using with_brk_id, with_ram_id.
Qed.

Lemma kept_interrupted s s' : interrupted s s' -> kernel_kept s s'.
Proof. intros [E T]. rewrite E in *. apply kept_intro; cbn; auto using confined_refl. Qed.

Lemma kept_self s : kernel_kept s s.
Proof. apply kept_intro; auto using confined_refl. Qed.

(** The break stays in the user heap. *)
Lemma sys_sbrk_spec k n :
  tlen (table k) = MAX_PROCS -> 0 <= current_idx k < MAX_PROCS ->
  brk_valid (slot k (current_idx k)) -> 0 <= n < 0x100000000 ->
  let old := if brk (slot k (current_idx k)) =? 0 then USER_HEAP_BASE else brk (slot k (current_idx k)) in
  sys_sbrk k n
  = if n =? 0 then (k, old)
    else if USER_HEAP_END <? old + n then (k, U32_MAX)
    else (set_slot k (current_idx k) (with_brk (slot k (current_idx k)) (old + n)), old).
Proof.
  intros L C B Hn. unfold sys_sbrk, proc_current, brk_valid, USER_HEAP_BASE, USER_HEAP_END, u32 in *.
  set (p := slot k (current_idx k)) in *. cbv zeta.
  assert (E : (if negb (brk p =? 0) then brk p else 0x90000) = if brk p =? 0 then 0x90000 else brk p)
    by (destruct (brk p =? 0); reflexivity).
  rewrite E. clear E. set (old := if brk p =? 0 then _ else _).
  assert (Ho : 0x90000 <= old <= 0x9F000) by (unfold old; destruct (Z.eqb_spec (brk p) 0); lia).
  destruct (n =? 0); [reflexivity|]. destruct (Z.ltb_spec 0x9F000 (old + n)) as [H|H].
  - assert (((old + n) mod 0x100000000 <? old) || (0x9F000 <? (old + n) mod 0x100000000) = true)%bool as ->;
      [|reflexivity].
    apply orb_true_iff. destruct (Z.lt_ge_cases (old + n) 0x100000000).
    + right. rewrite Z.mod_small by lia. apply Z.ltb_lt. lia.
    + left. apply Z.ltb_lt. zdm.
  - rewrite Z.mod_small by lia. destruct (Z.ltb_spec (old + n) old), (Z.ltb_spec 0x9F000 (old + n)); try lia.
    reflexivity.
Qed.

(** The break does not depend on the machine, nor change it. *)
Lemma sys_sbrk_mach k m n :
  sys_sbrk (with_mach k m) n = (with_mach (fst (sys_sbrk k n)) m, snd (sys_sbrk k n)).
Proof.
  unfold sys_sbrk, proc_current, slot. cbn [with_mach table current_idx]. destruct (n =? 0); [reflexivity|].
  destruct (_ || _)%bool; reflexivity.
Qed.

Lemma sys_sbrk_keeps k n : mach (fst (sys_sbrk k n)) = mach k.
Proof. unfold sys_sbrk. destruct (n =? 0); [|destruct (_ || _)%bool]; reflexivity. Qed.

Lemma kept_sbrk s n :
  tlen (table (s_kern s)) = MAX_PROCS -> 0 <= current_idx (s_kern s) < MAX_PROCS -> 0 <= n < 0x100000000 ->
  kernel_kept s (set_kern s (fst (sys_sbrk (s_kern s) n))).
Proof.
  intros L C Hn. set (k := s_kern s) in *.
  destruct (sys_sbrk k n) as [k' v] eqn:E.
  assert (K : k' = k \/ exists b,
    k' = set_slot k (current_idx k) (with_brk (slot k (current_idx k)) b) /\
    (brk_valid (slot k (current_idx k)) -> USER_HEAP_BASE <= b <= USER_HEAP_END)).
  { unfold sys_sbrk, proc_current in E. destruct (n =? 0); [injection E as <- _; auto|].
    destruct (_ || _)%bool eqn:W; injection E as <- _; [auto|]. right. eexists. split; [reflexivity|].
    intros B. b2p. unfold brk_valid in B. destruct (Z.eqb_spec (brk (slot k (current_idx k))) 0); cbn [negb] in *; lia. }
  destruct K as [->|(b & -> & Hb)]; [apply kept_intro; cbn; auto using confined_refl|].
  set (c := current_idx k) in *.
  assert (Sl : forall j, 0 <= j -> slot (set_slot k c (with_brk (slot k c) b)) j
    = if c =? j then with_brk (slot k c) b else slot k j) by (intros j Hj; apply slot_set; assumption).
  split; [|split; reflexivity].
  constructor; cbn [set_kern s_kern s_dem s_armed s_faulted s_handlers s_scr s_board s_sched]; auto using confined_refl.
  - apply (with_ram_id (s_mach s)).
  - fold k c. intros i Hi N. cbn [fst]. rewrite Sl by assumption. destruct (Z.eqb_spec c i); [congruence|reflexivity].
  - fold k c. cbn [fst]. rewrite Sl, Z.eqb_refl by lia. split; [reflexivity|]. intros B. right. apply Hb, B.
  - cbn. unfold k. rewrite tlen_tset. auto.
Qed.

Lemma kept_kprint n : forall s p, kernel_kept s (kprint_at n s p).
Proof.
  induction n as [|n IH]; intros s p; cbn [kprint_at]; [apply kept_self|]. destruct (s_peek s p =? 0); [apply kept_self|].
  set (s1 := set_scr s _). destruct (IH s1 (p + 1)) as [[K1 K2 K3 K4 K5 K6 K7] K8].
  split; [|exact K8]. constructor; try assumption.
  intros H. eapply confined_trans; [exact (proj1 (kprint_char_confined _ (s_peek s p) H))|].
  apply K7. exact (proj1 (proj1 (kprint_char_confined _ (s_peek s p) H))).
Qed.

(** ** The stores of SYS_FREAD *)

Definition page_off_zone (b : Z) : Prop := forall x, pg x = b -> ~ in_zone x.

(** The page tables of the zone lie outside it, and none of its pages is
    copy-on-write or promised: the rights of a page stay what they are. *)
Record space_fixed (s : sys D) : Prop := {
  sf_dir : page (active_dir (s_mach s)) /\ page_off_zone (active_dir (s_mach s));
  sf_tab : forall v, in_zone v -> slot_present (s_ram s) (active_dir (s_mach s)) (DIR_INDEX v) = true ->
    page_off_zone (slot_tab (s_ram s) (active_dir (s_mach s)) (DIR_INDEX v));
  sf_cow : forall v, in_zone v -> is_cow (pte (s_mach s) (active_dir (s_mach s)) v) = false;
  sf_promises : forall v, in_zone v -> promised (s_dem s) (active_dir (s_mach s)) v = false
}.

(** What stores to the zone, faults and reads of the disk change. *)
Record touched (s s' : sys D) : Prop := {
  to_eq : s' = mk_sys (with_mach (s_kern s) (with_ram (s_mach s) (s_ram s'))) (s_dem s) (s_scr s') (s_kbd s) (s_tick s)
    (s_sched s) (s_seed s) (s_fs s') (s_armed s') (s_faulted s') (s_handlers s) (s_outs s) (s_board s);
  to_mem : forall x, ~ in_zone x -> ld8 (s_ram s') x = ld8 (s_ram s) x;
  to_screen : screen_ok (s_scr s) -> confined (s_scr s) (s_scr s')
}.

#[export] Instance touched_preorder : PreOrder touched.
Proof.
  split.
  - intros s. constructor; [destruct s as [[? ? ? []]]; reflexivity|reflexivity|apply confined_refl].
  - intros a b c [A1 A2 A3] [B1 B2 B3]. constructor.
    + rewrite B1, A1. reflexivity.
    + intros x Hx. rewrite B2, A2 by exact Hx. reflexivity.
    + intros H. eapply confined_trans; [exact (A3 H)|apply B3, A3, H].
Qed.

Lemma touched_safe s s' : touched s s' -> kernel_safe s s'.
Proof.
  intros [E M C]. constructor; try assumption; rewrite E; cbn; auto. split; [apply with_brk_id|auto].
Qed.

(** The rights of the kernel in the zone stay the same. *)
Lemma touched_rights s s' : space_fixed s -> touched s s' ->
  space_fixed s' /\ forall v, in_zone v ->
    kernel_writes (s_mach s') v = kernel_writes (s_mach s) v /\ kernel_reads (s_mach s') v = kernel_reads (s_mach s) v.
Proof.
  intros [[Pd Zd] Zt Hc Hp] [E M _].
  assert (Ea : active_dir (s_mach s') = active_dir (s_mach s)) by (rewrite E; reflexivity).
  assert (Em : s_dem s' = s_dem s) by (rewrite E; reflexivity).
  assert (T : forall v, in_zone v -> _) by (intros v Hv; exact (tables_same (s_mach s) (s_mach s') _ v Pd
    (fun x Hx => M x (Zd x Hx)) (fun P x Hx => M x (Zt v Hv P x Hx)))).
  split.
  - constructor; rewrite ?Ea, ?Em; auto.
    + intros v Hv. destruct (T v Hv) as (Ed & _). unfold s_ram, slot_present, slot_tab in *. rewrite Ed by apply DIR_INDEX_range. apply Zt, Hv.
    + intros v Hv. destruct (T v Hv) as (_ & -> & _). apply Hc, Hv.
  - intros v Hv. destruct (T v Hv) as (Ed & Ep & _). unfold kernel_writes, kernel_reads. rewrite Ea, Ep, Ed by apply DIR_INDEX_range. auto.
Qed.

Lemma fault_state_trans s t u o : fault_state s t Returned -> fault_state t u o -> fault_state s u o.
Proof. unfold fault_state. intros [A B] H. destruct o; rewrite <- A, <- ?B; tauto || (rewrite <- B; tauto). Qed.

(** A store is made, or it ends the call in a fault. *)
Lemma user_store_eq s a b : space_fixed s -> in_zone a ->
  user_store 2 s a b
  = if kernel_writes (s_mach s) a then (bus_store s a b, None)
    else let '(s', o) := unresolved s 14 (kernel_code (s_mach s) a true) a in
      (s', Some match o with Halted => Crashed | _ => Faulted end).
Proof.
  intros F Ha. cbn [user_store]. destruct (kernel_writes (s_mach s) a); [reflexivity|].
  rewrite isr_unresolved by (apply F, Ha). cbn [trap_regs r_int_no r_err_code]. unfold unresolved.
  destruct (s_armed _); reflexivity.
Qed.

Lemma user_store_ok s a b : space_fixed s -> in_zone a ->
  let '(s', e) := user_store 2 s a b in touched s s' /\ fault_state s s' (default Returned e).
Proof.
  intros F Ha. rewrite user_store_eq by assumption. destruct (kernel_writes (s_mach s) a).
  - rewrite bus_store_shape. split; [|split; reflexivity]. constructor.
    + reflexivity.
    + intros x Hx. change (ld8 (s_ram (bus_store s a b)) x = ld8 (s_ram s) x). rewrite ram_bus_store.
      destruct (Z.eqb_spec a x) as [->|]; [contradiction|reflexivity].
    + apply bus_store_confined.
  - unfold unresolved. cbn [s_armed set_scr]. destruct (s_armed s) eqn:A; (split; [|cbn; auto]); constructor; try reflexivity.
    + destruct s as [[? ? ? []]]; reflexivity.
    + apply fault_report_confined.
    + destruct s as [[? ? ? []]]; reflexivity.
    + intros H. eapply confined_trans; [apply fault_report_confined, H|]. apply kprint_color_confined, fault_report_confined, H.
Qed.

Lemma user_copy_ok s dst b n : space_fixed s -> 0 <= n -> 0x80000 <= dst -> dst + n <= 0x100000 ->
  let '(s', e) := user_copy s dst b n in touched s s' /\ fault_state s s' (default Returned e).
Proof.
  intros F Hn H1 H2. unfold user_copy.
  pose proof (for_range_ret_ind (fun _ t => touched s t /\ fault_state s t Returned) (fun e t => touched s t /\ fault_state s t e)
    0 n (fun i s => user_store 2 s (dst + i) (ld8 b i)) s Hn) as K.
  destruct (for_range_ret 0 n _ s) as [s' [e|]]; apply K; clear K; try (split; [reflexivity|split; reflexivity]);
    intros i t Hi [T1 T2]; destruct (touched_rights s t F T1) as [Ft _];
    pose proof (user_store_ok t (dst + i) (ld8 b i) Ft ltac:(unfold in_zone; lia)) as U;
    destruct (user_store 2 t _ _) as [t' [e'|]]; destruct U as [U1 U2];
    (split; [etransitivity; eassumption|exact (fault_state_trans _ _ _ _ T2 U2)]).
Qed.

(** The end of a turn that did not return an error. *)
Definition stop_of (e : option (Z + sys_end)) : sys_end := match e with Some (inr e) => e | _ => Returned end.

Lemma fread_chunk_ok i buf size sec s :
  space_fixed s -> 0x80000 <= buf -> buf + size <= 0x100000 ->
  let '(s', e) := fread_chunk i buf size sec s in touched s s' /\ fault_state s s' (stop_of e).
Proof.
  intros F H1 H2. unfold fread_chunk. destruct (read_sector _ _ _) as [[d b] r]. set (s1 := set_fs s _).
  assert (T1 : touched s s1) by (constructor; [destruct s as [[? ? ? []]]; reflexivity|reflexivity|apply confined_refl]).
  assert (T2 : fault_state s s1 Returned) by (split; reflexivity).
  destruct (negb (r =? 0)); [auto|]. cbv zeta. pose proof (chunk_inside size sec) as C.
  destruct (Z.eqb_spec (chunk_of size sec) 0) as [|N]; cbn [negb]; [auto|]. specialize (C N).
  pose proof (user_copy_ok s1 (buf + u32 (sec * 512)) b (chunk_of size sec) (proj1 (touched_rights s s1 F T1))
    ltac:(lia) ltac:(lia) ltac:(lia)) as U. destruct (user_copy _ _ _ _) as [s2 e]. destruct U as [U1 U2].
  split; [etransitivity; eassumption|]. destruct e; exact (fault_state_trans _ _ _ _ T2 U2).
Qed.

Lemma sys_fread_ok s name buf max : space_fixed s -> in_user_zone buf max = true ->
  let '(s', e) := sys_fread s name buf max in
  touched s s' /\ fault_state s s' match e with inl _ => Returned | inr e => e end.
Proof.
  intros F Z. unfold in_user_zone in Z. b2p. unfold sys_fread.
  destruct (find _ name) as [i|]; [|split; [reflexivity|split; reflexivity]]. cbv zeta.
  set (sz := if max <? _ then max else _). assert (Hs : sz <= max) by (unfold sz; zcase; lia).
  set (n := u32 (sz + 511) / 512). assert (Hn : 0 <= n) by (pose proof (u32_range (sz + 511)); unfold n; zdm).
  pose proof (for_range_ret_ind (fun _ t => touched s t /\ fault_state s t Returned) (fun e t => touched s t /\ fault_state s t (stop_of (Some e)))
    0 n (fread_chunk i buf sz) s Hn) as K.
  destruct (for_range_ret 0 n _ s) as [s' [[rc|e]|]]; apply K; clear K; try (split; [reflexivity|split; reflexivity]);
    intros j t Hj [T1 T2]; destruct (touched_rights s t F T1) as [Ft _];
    pose proof (fread_chunk_ok i buf sz j t Ft ltac:(lia) ltac:(lia)) as U;
    destruct (fread_chunk i buf sz j t) as [t' [e'|]]; destruct U as [U1 U2];
    (split; [etransitivity; eassumption|exact (fault_state_trans _ _ _ _ T2 U2)]).
Qed.

(** The cases of the handler. *)
Lemma syscall_kept (s : sys D) (r : registers_t) (ws : list (list (Z * Z))) :
  tlen (table (s_kern s)) = MAX_PROCS -> 0 <= current_idx (s_kern s) < MAX_PROCS ->
  0 <= r_ebx r < 0x100000000 -> (r_eax r = SYS_FREAD -> space_fixed s) ->
  let '(s', r', o) := syscall_handler s r ws in
  kernel_safe s s' /\ fault_state s s' o /\ r' = set_eax r (r_eax r').
Proof.
  intros L C Hb F. unfold syscall_handler.
  assert (R : r = set_eax r (r_eax r)) by (destruct r; reflexivity).
  assert (K : forall s' r' o, kernel_kept s s' -> r' = set_eax r (r_eax r') -> o <> Faulted -> o <> Crashed ->
    kernel_safe s s' /\ fault_state s s' o /\ r' = set_eax r (r_eax r'))
    by (intros s' r' o [K1 K2] E N1 N2; split; [exact K1|split; [|exact E]]; destruct o; try contradiction; exact K2).
  assert (Self := kept_self s).
  destruct (r_eax r =? SYS_WRITE).
  { destruct (_ && _)%bool; apply K; try discriminate; try reflexivity; [exact Self|]. apply kept_kprint. }
  destruct (r_eax r =? SYS_UPTIME); [apply K; try discriminate; [exact Self|reflexivity]|].
  destruct (r_eax r =? SYS_GETPID); [apply K; try discriminate; [exact Self|reflexivity]|].
  destruct (r_eax r =? SYS_SBRK).
  { pose proof (kept_sbrk s (r_ebx r) L C Hb) as Q. destruct (sys_sbrk _ _). apply K; try discriminate; [exact Q|reflexivity]. }
  destruct (r_eax r =? SYS_EXIT); [apply K; try discriminate; [exact Self|exact R]|].
  destruct (r_eax r =? SYS_READ).
  { pose proof (read_loop_interrupted ws s) as Q. apply kept_interrupted in Q.
    destruct (read_loop ws s) as [s' [c|]]; apply K; try discriminate; [exact Q|reflexivity|exact Q|exact R]. }
  destruct (r_eax r =? SYS_SLEEP).
  { pose proof (sleep_loop_interrupted (u32 (timer_ticks s + r_ebx r)) ws s) as Q. apply kept_interrupted in Q.
    destruct (sleep_loop _ ws s) as [s' []]; apply K; try discriminate; [exact Q|reflexivity|exact Q|exact R]. }
  destruct (r_eax r =? SYS_RAND).
  { destruct (sys_rand _ _) as [x v]. apply K; try discriminate; [|reflexivity]. apply kept_intro; cbn; auto using confined_refl. }
  destruct (r_eax r =? SYS_FWRITE).
  { destruct (_ && _)%bool; [|apply K; try discriminate; [exact Self|reflexivity]]. destruct (fs_write _ _ _ _ _) as [f rc].
    apply K; try discriminate; [|reflexivity]. apply kept_intro; cbn; auto using confined_refl. }
  destruct (Z.eqb_spec (r_eax r) SYS_FREAD) as [Er|_]; [|apply K; try discriminate; [exact Self|reflexivity]].
  destruct (_ && _)%bool eqn:E; [|apply K; try discriminate; [exact Self|reflexivity]].
  apply andb_true_iff in E as [_ E]. pose proof (sys_fread_ok s (str_at (s_view s) (r_ebx r)) (r_ecx r) (r_edx r) (F Er) E) as Q.
  destruct (sys_fread _ _ _ _) as [s' [v|e]]; destruct Q as [Q1 Q2]; (split; [apply touched_safe, Q1|]); (split; [exact Q2|]); [reflexivity|exact R].
Qed.

(** The other calls return, or are still waiting. *)
Lemma syscall_ends (s : sys D) (r : registers_t) (ws : list (list (Z * Z))) :
  r_eax r <> SYS_FREAD -> r_eax r <> SYS_EXIT ->
  let '(_, _, o) := syscall_handler s r ws in o = Returned \/ o = Blocked.
Proof.
  intros N1 N2. unfold syscall_handler. rewrite (proj2 (Z.eqb_neq _ _) N1), (proj2 (Z.eqb_neq _ _) N2).
  repeat match goal with
  | |- context [read_loop ws s] => destruct (read_loop ws s) as [? []]
  | |- context [sleep_loop ?t ws s] => destruct (sleep_loop t ws s) as [? []]
  | |- context [sys_sbrk ?k ?n] => destruct (sys_sbrk k n)
  | |- context [sys_rand ?k ?n] => destruct (sys_rand k n)
  | |- context [fs_write ?a ?b ?c ?d ?e] => destruct (fs_write a b c d e)
  | |- context [if ?b then _ else _] => destruct b
  end; auto.
Qed.

(** No register but eax changes. *)
Lemma syscall_regs (s : sys D) (r : registers_t) (ws : list (list (Z * Z))) :
  let '(_, r', _) := syscall_handler s r ws in r' = set_eax r (r_eax r').
Proof.
  assert (R : r = set_eax r (r_eax r)) by (destruct r; reflexivity). unfold syscall_handler.
  repeat match goal with
  | |- context [read_loop ws s] => destruct (read_loop ws s) as [? []]
  | |- context [sleep_loop ?t ws s] => destruct (sleep_loop t ws s) as [? []]
  | |- context [sys_sbrk ?k ?n] => destruct (sys_sbrk k n)
  | |- context [sys_rand ?k ?n] => destruct (sys_rand k n)
  | |- context [fs_write ?a ?b ?c ?d ?e] => destruct (fs_write a b c d e)
  | |- context [sys_fread ?a ?b ?c ?d] => destruct (sys_fread a b c d) as [? []]
  | |- context [if ?b then _ else _] => destruct b
  end; reflexivity || exact R.
Qed.


(** Into plain memory that the kernel may write, SYS_FREAD is [fs_read]. *)
Lemma user_copy_plain s dst b n : 0 <= n ->
  (forall x, dst <= x < dst + n -> kernel_writes (s_mach s) x = true /\ kept s x = true) ->
  space_fixed s -> 0x80000 <= dst -> dst + n <= 0x100000 ->
  user_copy s dst b n = (set_ram s (copy_bytes (s_ram s) dst b 0 n), None).
Proof.
  intros Hn W F H1 H2. unfold user_copy. rewrite copy_bytes_eq.
  assert (K : forall (k : nat) i s', i + Z.of_nat k = n -> 0 <= i ->
    (forall x, dst <= x < dst + n -> kernel_writes (s_mach s') x = true /\ kept s' x = true) -> space_fixed s' ->
    for_range_ret i n (fun i s => user_store 2 s (dst + i) (ld8 b i)) s'
    = (set_ram s' (for_range i n (fun i d => st8 d (dst + i) (ld8 b (0 + i))) (s_ram s')), None)).
  { induction k as [|k IH]; intros i s' Ek Hi W' F'; rewrite for_range_ret_step.
    - rewrite (proj2 (Z.ltb_ge _ _)), for_range_empty by lia. destruct s' as [[? ? ? []]]; reflexivity.
    - rewrite (proj2 (Z.ltb_lt _ _)), for_range_step by lia. destruct (W' (dst + i) ltac:(lia)) as [Wx Kx].
      pose proof (user_store_ok s' (dst + i) (ld8 b i) F' ltac:(unfold in_zone; lia)) as U.
      rewrite user_store_eq in * by (assumption || (unfold in_zone; lia)). rewrite Wx, bus_store_kept in * by exact Kx. destruct U as [U _].
      destruct (touched_rights _ _ F' U) as [F2 R2]. rewrite (IH (i + 1)); [reflexivity|lia|lia| |exact F2].
      intros x Hx. destruct (R2 x ltac:(unfold in_zone; lia)) as [-> _]. apply W', Hx. }
  apply (K (Z.to_nat n)); auto; lia.
Qed.

Lemma sys_fread_plain s name buf max : in_user_zone buf max = true -> space_fixed s ->
  (forall x, buf <= x < buf + max -> kernel_writes (s_mach s) x = true /\ kept s x = true) ->
  let '(f, m, rc, got) := fs_read (s_fs s) name (s_ram s) buf max in
  sys_fread s name buf max = (set_ram (set_fs s f) m, inl (if rc =? 0 then default 0 got else U32_MAX)).
Proof.
  intros Hz F W. unfold in_user_zone in Hz. b2p. unfold fs_read, sys_fread.
  destruct (find _ name) as [i|]; [|destruct s as [[? ? ? []]]; reflexivity]. cbv zeta.
  set (sz := if max <? _ then max else _). assert (Hs : sz <= max) by (unfold sz; zcase; lia).
  set (P := fun (t : sys D) (st : fs (D := D) * mem) => t = set_ram (set_fs s (fst st)) (snd st) /\
    space_fixed t /\ forall x, buf <= x < buf + max -> kernel_writes (s_mach t) x = true /\ kept t x = true).
  assert (St : forall j t st, P t st ->
    P (fst (fread_chunk i buf sz j t)) (fst (read_chunk i buf sz j st)) /\
    snd (fread_chunk i buf sz j t) = inl <$> snd (read_chunk i buf sz j st)).
  { intros j t [f m] (-> & Ft & Wt). cbn [fst snd] in *. set (t := set_ram (set_fs s f) m) in *.
    pose proof (fread_chunk_ok i buf sz j t Ft ltac:(lia) ltac:(lia)) as Q. unfold fread_chunk, read_chunk in *. change (s_fs t) with f in *.
    destruct (read_sector _ _ _) as [[d b] r]. set (t1 := set_fs t _) in *.
    assert (T1 : touched t t1) by (constructor; [reflexivity|reflexivity|apply confined_refl]).
    assert (P1 : P t1 (mk_fs d (super f) (dir f) b, m)) by (split; [reflexivity|split; [apply (touched_rights t t1 Ft T1)|exact Wt]]).
    destruct (negb (r =? 0)); [split; [exact P1|reflexivity]|]. cbv zeta in *. pose proof (chunk_inside sz j) as C.
    destruct (Z.eqb_spec (chunk_of sz j) 0) as [|N]; cbn [negb] in *; [split; [exact P1|reflexivity]|]. specialize (C N).
    rewrite user_copy_plain in * by (apply P1 || lia || (intros x Hx; apply P1; lia)). cbn [fst snd fmap option_fmap option_map] in *.
    destruct Q as [Q _]. destruct (touched_rights _ _ Ft Q) as [F2 R2]. split; [|reflexivity]. split; [reflexivity|]. split; [exact F2|].
    intros x Hx. destruct (R2 x ltac:(unfold in_zone; lia)) as [-> _]. apply Wt, Hx. }
  assert (P0 : P s (s_fs s, s_ram s)) by (split; [destruct s as [[? ? ? []]]; reflexivity|auto]).
  pose proof (for_range_ret_map P inl 0 (u32 (sz + 511) / 512) _ _ s (s_fs s, s_ram s) P0 St) as K.
  destruct (for_range_ret _ _ (fread_chunk _ _ _) s) as [s' e], (for_range_ret _ _ (read_chunk _ _ _) _) as [[f m] rc].
  destruct K as [(K1 & _) K2]. cbn [fst snd] in K1, K2. subst. destruct rc as [rc|]; reflexivity.
Qed.

(** ** No leak *)

(** Two systems that differ in memory outside the zone only, with the same rights
    in it. *)
Record zone_alike (s t : sys D) : Prop := {
  za_eq : t = set_ram s (s_ram t);
  za_mem : zone_agree (s_ram s) (s_ram t);
  za_fixed : space_fixed s /\ space_fixed t;
  za_rights : forall v, in_zone v ->
    kernel_writes (s_mach t) v = kernel_writes (s_mach s) v /\ kernel_reads (s_mach t) v = kernel_reads (s_mach s) v
}.

Lemma alike_touched s t s' t' : zone_alike s t -> touched s s' -> touched t t' ->
  t' = set_ram s' (s_ram t') -> zone_agree (s_ram s') (s_ram t') -> zone_alike s' t'.
Proof.
  intros [_ _ [F1 F2] R] S T E A. destruct (touched_rights _ _ F1 S) as [F1' R1], (touched_rights _ _ F2 T) as [F2' R2].
  constructor; auto. intros v Hv. destruct (R v Hv) as [Ra Rb], (R1 v Hv) as [Rc Rd], (R2 v Hv) as [Re Rf]. split; congruence.
Qed.

Lemma bus_store_other (s : sys D) m a b :
  bus_store (set_ram s m) a b = set_ram (bus_store s a b) (if kept s a then st8 m a b else m).
Proof.
  unfold bus_store, kept, dropped. cbn [set_ram set_mach set_kern s_scr s_board].
  destruct (in_text a); cbn [negb andb]; [destruct s as [[? ? ? []]]; reflexivity|]. destruct (in_device a && _ && _)%bool; reflexivity.
Qed.

Lemma unresolved_ram (s : sys D) m n err a :
  unresolved (set_ram s m) n err a = (set_ram (fst (unresolved s n err a)) m, snd (unresolved s n err a)).
Proof. unfold unresolved. cbn [s_armed s_scr set_scr set_ram set_mach set_kern]. destruct (s_armed s); reflexivity. Qed.

Lemma user_store_alike a b s t : in_zone a -> zone_alike s t ->
  zone_alike (fst (user_store 2 s a b)) (fst (user_store 2 t a b)) /\ snd (user_store 2 s a b) = snd (user_store 2 t a b).
Proof.
  intros Ha Z. pose proof Z as [E M [F1 F2] R]. destruct (R a Ha) as [Rw Rr].
  pose proof (user_store_ok s a b F1 Ha) as T1. pose proof (user_store_ok t a b F2 Ha) as T2.
  rewrite !user_store_eq in * by assumption. rewrite Rw in *.
  assert (Ec : kernel_code (s_mach t) a true = kernel_code (s_mach s) a true)
    by (unfold kernel_code; fold (kernel_reads (s_mach t) a); rewrite Rr; reflexivity).
  destruct (kernel_writes (s_mach s) a).
  - cbn [fst snd]. split; [|reflexivity]. apply (alike_touched s t _ _ Z (proj1 T1) (proj1 T2)).
    + rewrite E, bus_store_other. reflexivity.
    + intros x Hx. rewrite E, bus_store_other. change (s_ram (set_ram ?q ?m)) with m. rewrite ram_bus_store.
      destruct (kept s a); rewrite ?andb_true_r, ?andb_false_r, ?ld8_st8; [|exact (M x Hx)]. destruct (a =? x); [reflexivity|exact (M x Hx)].
  - assert (Q := unresolved_ram s (s_ram t) 14 (kernel_code (s_mach s) a true) a). rewrite <- E in Q. rewrite Ec, Q in *.
    pose proof (unresolved_reports s 14 (kernel_code (s_mach s) a true) a) as K.
    destruct (unresolved s _ _ _) as [s' o]. cbn [fst snd] in *. destruct K as (_ & K & _). split; [|reflexivity].
    apply (alike_touched s t _ _ Z (proj1 T1) (proj1 T2)); [reflexivity|]. unfold s_ram at 1, s_mach. rewrite K. exact M.
Qed.

Lemma fread_chunk_alike i buf size sec s t :
  0x80000 <= buf -> buf + size <= 0x100000 -> zone_alike s t ->
  zone_alike (fst (fread_chunk i buf size sec s)) (fst (fread_chunk i buf size sec t)) /\
  snd (fread_chunk i buf size sec s) = snd (fread_chunk i buf size sec t).
Proof.
  intros H1 H2 Z. pose proof Z as [E M F R]. unfold fread_chunk. assert (Ef : s_fs t = s_fs s) by (rewrite E; reflexivity). rewrite Ef.
  destruct (read_sector _ _ _) as [[d b] r]. set (s1 := set_fs s _). set (t1 := set_fs t _).
  assert (T : forall q f, touched q (set_fs q f))
    by (intros q f; constructor; [destruct q as [[? ? ? []]]; reflexivity|reflexivity|apply confined_refl]).
  assert (Z1 : zone_alike s1 t1) by (apply (alike_touched s t _ _ Z (T _ _) (T _ _)); [unfold t1; rewrite E; reflexivity|exact M]).
  destruct (negb (r =? 0)); [auto|]. cbv zeta. pose proof (chunk_inside size sec) as C.
  destruct (Z.eqb_spec (chunk_of size sec) 0) as [|N]; cbn [negb]; [auto|]. specialize (C N).
  assert (K : zone_alike (fst (user_copy s1 (buf + u32 (sec * 512)) b (chunk_of size sec))) (fst (user_copy t1 (buf + u32 (sec * 512)) b (chunk_of size sec))) /\
    snd (user_copy s1 (buf + u32 (sec * 512)) b (chunk_of size sec)) = snd (user_copy t1 (buf + u32 (sec * 512)) b (chunk_of size sec))).
  { apply (for_range_ret_rel_in zone_alike); [exact Z1|]. intros k x y Hk. apply user_store_alike. unfold in_zone. lia. }
  destruct (user_copy s1 _ _ _) as [s2 e], (user_copy t1 _ _ _) as [t2 e']. destruct K as [K1 K2]. cbn in K1, K2. subst e'. auto.
Qed.

Lemma sys_fread_alike s t name buf max :
  zone_alike s t -> in_user_zone buf max = true ->
  zone_alike (fst (sys_fread s name buf max)) (fst (sys_fread t name buf max)) /\
  snd (sys_fread s name buf max) = snd (sys_fread t name buf max).
Proof.
  intros Z Hz. unfold in_user_zone in Hz. b2p. unfold sys_fread. assert (Ef : s_fs t = s_fs s) by (rewrite (za_eq _ _ Z); reflexivity). rewrite Ef.
  destruct (find _ name) as [i|]; [|auto]. cbv zeta.
  set (sz := if max <? _ then max else _). assert (Hs : sz <= max) by (unfold sz; zcase; lia).
  pose proof (for_range_ret_rel zone_alike 0 (u32 (sz + 511) / 512) (fread_chunk i buf sz) (fread_chunk i buf sz) s t Z
    ltac:(intros j x y; apply fread_chunk_alike; lia)) as K.
  destruct (for_range_ret _ _ _ s) as [s' e], (for_range_ret _ _ _ t) as [t' e']. destruct K as [K1 K2]. cbn in K1, K2. subst e'.
  destruct e as [[rc|e]|]; auto.
Qed.

(** The screen is part of both systems. *)
Lemma view_agree (s : sys D) m : zone_agree (s_ram s) m -> zone_agree (s_view s) (s_view (set_ram s m)).
Proof.
  intros A x Hx. rewrite !view_ld8. unfold s_peek. change (s_ram (set_ram s m)) with m. change (s_scr (set_ram s m)) with (s_scr s).
  destruct (in_text x); [reflexivity|apply A, Hx].
Qed.

(** The string at [p] ends before the text screen or begins after it. *)
Definition off_text (m : mem) (p : Z) : Prop :=
  forall x, in_text x = true -> p <= x -> exists q, p <= q < x /\ ld8 m q = 0.

(** Such a string is printed as it was in memory. *)
Lemma kprint_at_str n : forall s m p, (forall x, in_text x = false -> ld8 m x = ld8 (s_ram s) x) -> off_text m p ->
  kprint_at n s p = set_scr s (kprint (s_scr s) (cstr n m p)).
Proof.
  assert (Id : forall q : sys D, q = set_scr q (s_scr q)) by (intros []; reflexivity).
  induction n as [|n IH]; intros s m p V O; cbn [kprint_at cstr kprint]; [apply Id|].
  assert (T : in_text p = false).
  { destruct (in_text p) eqn:T; [|reflexivity]. destruct (O p T ltac:(lia)) as (q & Hq & _). lia. }
  unfold s_peek. rewrite T, <- V by exact T. destruct (Z.eqb_spec (ld8 m p) 0) as [E|E]; [apply Id|].
  cbn [kprint]. rewrite (proj2 (Z.eqb_neq _ _) E). rewrite (IH _ m); [reflexivity|exact V|].
  intros x Tx Hx. destruct (O x Tx ltac:(lia)) as (q & Hq & Z). exists q. split; [|exact Z].
  assert (q <> p) by congruence. lia.
Qed.

Lemma kprint_str_off s p : off_text (s_view s) p -> kprint_str s p = set_scr s (kprint (s_scr s) (str_at (s_view s) p)).
Proof. intros O. apply kprint_at_str; [|exact O]. intros x Tx. rewrite view_ld8. unfold s_peek. rewrite Tx. reflexivity. Qed.

Lemma off_text_agree m m' p : in_zone p -> zone_agree m m' -> off_text m p -> off_text m' p.
Proof.
  intros Hp A O x Tx Hx. destruct (O x Tx Hx) as (q & Hq & E). exists q. split; [exact Hq|]. rewrite <- E. apply A.
  unfold in_text in Tx. apply in_range_true in Tx. unfold in_zone, VIDEO_MEMORY, TEXT_BYTES, COLS, ROWS in *. lia.
Qed.

(** C6. No leak.  A system call from ring 3 cannot tell two kernels apart that
    differ only in memory outside the user zone and give the zone's pages the
    same rights: the result, the screen, the files written, the user zone and the
    rest of the state come out the same, also when SYS_FREAD faults on a page the
    kernel may not write.  Validating the whole string, terminator included, is
    what makes this true of SYS_WRITE and of the file names.  A string on the
    text screen itself is excepted: printing it may overwrite its terminator. *)
Theorem syscall_no_leak (s : sys D) (m : mem) (r : registers_t) (ws : list (list (Z * Z))) :
  from_user r = true -> zone_agree (s_ram s) m ->
  (r_eax r = SYS_WRITE -> off_text (s_view s) (r_ebx r)) ->
  (r_eax r = SYS_FREAD -> zone_alike s (set_ram s m)) ->
  let '(s', r', o) := syscall_handler s r ws in
  exists m', syscall_handler (set_ram s m) r ws = (set_ram s' m', r', o) /\ zone_agree (s_ram s') m'.
Proof.
  intros U A Ht Hf. unfold syscall_handler. rewrite U. pose proof (view_agree s m A) as Av.
  destruct (user_string_agree (s_view s) (s_view (set_ram s m)) (r_ebx r) Av) as [-> As].
  destruct (Z.eqb_spec (r_eax r) SYS_WRITE) as [Er|_].
  { destruct (user_string_ok (s_view s) (r_ebx r)) eqn:Eu; cbn [negb andb]; [|eauto]. apply user_string_spec in Eu as [Hz _].
    rewrite !kprint_str_off, As by (reflexivity || exact (Ht Er) || exact (off_text_agree _ _ _ Hz Av (Ht Er))). exists m. auto. }
  destruct (r_eax r =? SYS_UPTIME); [eauto|]. destruct (r_eax r =? SYS_GETPID); [eauto|].
  destruct (r_eax r =? SYS_SBRK).
  { change (s_kern (set_ram s m)) with (with_mach (s_kern s) (with_ram (s_mach s) m)). rewrite sys_sbrk_mach.
    pose proof (sys_sbrk_keeps (s_kern s) (r_ebx r)) as K. destruct (sys_sbrk (s_kern s) (r_ebx r)) as [k v].
    cbn [fst snd] in K |- *. exists m.
    unfold set_ram, set_mach, s_ram, s_mach. cbn [set_kern s_kern]. rewrite K. split; [reflexivity|exact A]. }
  destruct (r_eax r =? SYS_EXIT); [eauto|].
  destruct (r_eax r =? SYS_READ).
  { rewrite read_loop_ram. pose proof (int_eq _ _ (read_loop_interrupted ws s)) as K.
    destruct (read_loop ws s) as [s' [c|]]; cbn [fst snd] in K |- *; exists m; (split; [reflexivity|]);
      unfold s_ram, s_mach; rewrite K; exact A. }
  destruct (r_eax r =? SYS_SLEEP).
  { change (timer_ticks (set_ram s m)) with (timer_ticks s). rewrite sleep_loop_ram.
    pose proof (int_eq _ _ (sleep_loop_interrupted (u32 (timer_ticks s + r_ebx r)) ws s)) as K.
    destruct (sleep_loop _ ws s) as [s' []]; cbn [fst snd] in K |- *; exists m; (split; [reflexivity|]);
      unfold s_ram, s_mach; rewrite K; exact A. }
  destruct (r_eax r =? SYS_RAND).
  { change (s_seed (set_ram s m)) with (s_seed s). change (timer_ticks (set_ram s m)) with (timer_ticks s).
    destruct (sys_rand _ _) as [x v]. exists m. split; [reflexivity|exact A]. }
  destruct (user_string_ok (s_view s) (r_ebx r)); cbn [andb]; [rewrite As by reflexivity|];
    [|destruct (_ =? _); [eauto|]; destruct (_ =? _); eauto].
  destruct (in_user_zone (r_ecx r) (r_edx r)) eqn:E; [|destruct (_ =? _); [eauto|]; destruct (_ =? _); eauto].
  destruct (r_eax r =? SYS_FWRITE).
  { unfold in_user_zone in E. b2p. change (s_fs (set_ram s m)) with (s_fs s).
    rewrite (fs_write_agree _ _ (s_view s) (s_view (set_ram s m))) by (intros x Hx; apply Av; unfold in_zone; lia).
    destruct (fs_write _ _ _ _ _) as [f rc]. exists m. split; [reflexivity|exact A]. }
  destruct (Z.eqb_spec (r_eax r) SYS_FREAD) as [Er|_]; [|eauto].
  pose proof (sys_fread_alike s (set_ram s m) (str_at (s_view s) (r_ebx r)) (r_ecx r) (r_edx r) (Hf Er) E) as [[K1 K2 _ _] K3].
  destruct (sys_fread s _ _ _) as [s' e], (sys_fread (set_ram s m) _ _ _) as [t' e']. cbn [fst snd] in K1, K2, K3. subst e'.
  destruct e; exists (s_ram t'); rewrite <- K1; auto.
Qed.

(** ** Waiting calls *)

(** The handlers [timer_install] and [keyboard_install] register. *)
Definition drivers (s : sys D) : Prop := forall n,
  tget NoHandler (s_handlers s) n
  = if n =? 32 then timer_cb else if n =? 33 then keyboard_cb else NoHandler.

(** The scancodes among some interrupts, and the number of timer ticks. *)
Definition scancodes (w : list (Z * Z)) : list Z := map snd (filter (fun i => fst i = 33) w).
Definition ticks (w : list (Z * Z)) : Z := tlen (filter (fun i => fst i = 32) w).

(** The first character the scancodes type. *)
Fixpoint first_key (sh ext : bool) (scs : list Z) : option Z :=
  match scs with
  | [] => None
  | sc :: scs =>
      let '(sh, ext, c) := meaning sh ext sc in
      match c with Some x => Some x | None => first_key sh ext scs end
  end.

Lemma irqs_drivers s w : drivers s -> drivers (irqs s w).
Proof. intros H. unfold drivers. rewrite (int_eq _ _ (irqs_interrupted w s)). exact H. Qed.

Lemma irqs_kbd w : forall s, drivers s -> s_kbd (irqs s w) = fold_left keyboard_callback (scancodes w) (s_kbd s).
Proof.
  induction w as [|i w IH]; intros s H; [reflexivity|]. change (irqs s (i :: w)) with (irqs (irqs s [i]) w).
  rewrite IH by (apply irqs_drivers, H). unfold irqs, scancodes. cbn [fold_left]. rewrite filter_cons.
  unfold irq_handler. destruct (40 <=? fst i); cbn [outb s_handlers]; rewrite (H (fst i));
    destruct (decide (fst i = 33)) as [->|N]; try reflexivity;
    destruct (Z.eqb_spec (fst i) 33); try contradiction; destruct (fst i =? 32); reflexivity.
Qed.

Lemma ticks_cons i w : ticks (i :: w) = (if fst i =? 32 then 1 else 0) + ticks w.
Proof.
  unfold ticks. rewrite filter_cons. destruct (decide (fst i = 32)) as [->|N]; [rewrite tlen_cons; cbn; lia|].
  destruct (Z.eqb_spec (fst i) 32); [contradiction|reflexivity].
Qed.

Lemma ticks_app w w' : ticks (w ++ w') = ticks w + ticks w'.
Proof. induction w as [|i w IH]; [reflexivity|]. cbn [app]. rewrite !ticks_cons, IH. lia. Qed.

Lemma ticks_nonneg w : 0 <= ticks w.
Proof. apply tlen_nonneg. Qed.

(** The clock counts the timer interrupts modulo 2^32. *)
Lemma irqs_clock w : forall s, drivers s -> 0 <= s_tick s < 0x100000000 -> s_tick (irqs s w) = u32 (s_tick s + ticks w).
Proof.
  induction w as [|i w IH]; intros s H H0; [cbn; change (ticks []) with 0; rewrite Z.add_0_r, u32_small by lia; reflexivity|].
  change (irqs s (i :: w)) with (irqs (irqs s [i]) w). rewrite ticks_cons.
  assert (E : s_tick (irqs s [i]) = u32 (s_tick s + if fst i =? 32 then 1 else 0)).
  { unfold irqs. cbn [fold_left]. unfold irq_handler.
    destruct (40 <=? fst i); cbn [outb s_handlers]; rewrite (H (fst i)); destruct (fst i =? 32);
      cbn; try reflexivity; destruct (fst i =? 33); cbn; rewrite Z.add_0_r, u32_small by lia; reflexivity. }
  rewrite IH; [|apply irqs_drivers, H|rewrite E; apply u32_range]. rewrite E. unfold u32.
  rewrite Zplus_mod_idemp_l. f_equal. lia.
Qed.

Lemma irqs_tick w s : drivers s -> 0 <= s_tick s -> s_tick s + ticks w < 0x100000000 ->
  s_tick (irqs s w) = s_tick s + ticks w.
Proof. intros H H0 Hw. pose proof (ticks_nonneg w). rewrite irqs_clock by (assumption || lia). apply u32_small. lia. Qed.

(** A waiting loop takes wakeups as long as its condition holds. *)
Lemma wait_while_spec busy ws : forall s,
  exists ws1 ws2, ws = ws1 ++ ws2 /\
    let '(s', b) := wait_while busy ws s in
    s' = irqs s (concat ws1) /\
    (forall u w v, ws1 = u ++ w :: v -> busy (irqs s (concat u)) = true) /\
    (if b : bool then busy s' = false else ws2 = [] /\ busy s' = true).
Proof.
  induction ws as [|w ws IH]; intros s; cbn [wait_while].
  - exists [], []. split; [reflexivity|].
    destruct (busy s) eqn:E; (split; [reflexivity|]); (split; [intros [] ? ?; discriminate|]); auto.
  - destruct (busy s) eqn:E.
    + destruct (IH (irqs s w)) as (ws1 & ws2 & -> & R). exists (w :: ws1), ws2. split; [reflexivity|].
      destruct (wait_while busy (ws1 ++ ws2) (irqs s w)) as [s' b]. destruct R as (-> & R2 & R3).
      assert (C : forall u, irqs (irqs s w) u = irqs s (w ++ u)) by (intros u; unfold irqs; rewrite fold_left_app; reflexivity).
      cbn [concat]. rewrite <- C. split; [reflexivity|]. split; [|exact R3].
      intros [|a u] c v Eq; [exact E|]. injection Eq as <- Eq. cbn [concat]. rewrite <- C. exact (R2 u c v Eq).
    + exists [], (w :: ws). split; [reflexivity|]. split; [reflexivity|]. split; [intros [] ? ?; discriminate|exact E].
Qed.

(** A character at the front of the queue stays there while more arrive. *)
Lemma front_stays scs : forall k x q, holds k (x :: q) ->
  exists q', holds (fold_left keyboard_callback scs k) (x :: q').
Proof.
  induction scs as [|sc scs IH]; intros k x q H; [eauto|]. cbn [fold_left].
  pose proof (callback_holds k (x :: q) sc H) as C. destruct (meaning _ _ _) as [[sh ext] c].
  destruct C as [C _]. destruct c as [y|]; cbn [typed] in C; [|eauto].
  destruct (_ <? 255); eauto.
Qed.

(** One wait on an empty queue: it types the first key, or it types nothing. *)
Lemma first_key_wait scs : forall k, holds k [] ->
  let k' := fold_left keyboard_callback scs k in
  (exists x q, holds k' (x :: q) /\ forall rest, first_key (shift k) (extended k) (scs ++ rest) = Some x) \/
  (holds k' [] /\ forall rest,
     first_key (shift k) (extended k) (scs ++ rest) = first_key (shift k') (extended k') rest).
Proof.
  induction scs as [|sc scs IH]; intros k H; cbv zeta; [right; auto|]. cbn [fold_left app first_key].
  pose proof (callback_holds k [] sc H) as C. destruct (meaning _ _ _) as [[sh ext] c].
  destruct C as (C & <- & <-). destruct c as [x|]; cbn in C; [left|apply IH; exact C].
  destruct (front_stays scs _ _ _ C) as (q & Hq). exists x, q. auto.
Qed.

Lemma read_loop_first ws : forall s, drivers s -> holds (s_kbd s) [] ->
  snd (read_loop ws s) = first_key (shift (s_kbd s)) (extended (s_kbd s)) (concat (map scancodes ws)).
Proof.
  induction ws as [|w ws IH]; intros s Dr H; cbn [read_loop map concat];
    pose proof (getchar_holds _ _ H) as G; cbn in G; rewrite G; cbn [Z.ltb Z.compare]; [reflexivity|].
  change (set_kbd s (s_kbd s)) with (irqs (set_kbd s (s_kbd s)) []).
  assert (E : set_kbd s (s_kbd s) = s) by (destruct s; reflexivity). cbn [irqs fold_left]. rewrite E.
  pose proof (irqs_kbd w s Dr) as K. destruct (first_key_wait (scancodes w) _ H) as [(x & q & Hq & F)|[Hq F]];
    rewrite <- K in *; rewrite F.
  - pose proof (getchar_holds _ _ Hq) as (k' & G' & _).
    assert (0 < x) by (pose proof (kh_bytes _ _ Hq) as B; inversion B; lia).
    destruct ws; cbn [read_loop]; rewrite G'; destruct (Z.ltb_spec x 0); try lia; reflexivity.
  - rewrite IH; [reflexivity|apply irqs_drivers, Dr|exact Hq].
Qed.

(** C10. SYS_READ.  With a character waiting in the keyboard queue the call
    returns the oldest one at once; otherwise it sleeps, and returns the first
    character typed, whatever other interrupts arrive and however the keys are
    spread over the wakeups; it keeps waiting only while nothing is typed. *)
Theorem sys_read_first_key (s : sys D) (r : registers_t) (ws : list (list (Z * Z))) (q : list Z) :
  drivers s -> holds (s_kbd s) q -> r_eax r = SYS_READ ->
  let '(s', r', o) := syscall_handler s r ws in
  match q with
  | x :: q' => o = Returned /\ r_eax r' = x /\ holds (s_kbd s') q' /\ s_tick s' = s_tick s
  | [] =>
      match first_key (shift (s_kbd s)) (extended (s_kbd s)) (concat (map scancodes ws)) with
      | Some x => o = Returned /\ r_eax r' = u32 x
      | None => o = Blocked /\ r' = r
      end
  end.
Proof.
  intros Dr H Hr. unfold syscall_handler. rewrite Hr. cbn [Z.eqb Pos.eqb SYS_WRITE SYS_UPTIME SYS_GETPID SYS_SBRK SYS_EXIT SYS_READ].
  destruct q as [|x q].
  - rewrite <- (read_loop_first ws s Dr H). destruct (read_loop ws s) as [s' [c|]]; cbn; auto.
  - pose proof (getchar_holds _ _ H) as (k' & G & H' & _).
    assert (0 < x < 256) by (pose proof (kh_bytes _ _ H) as B; inversion B; assumption).
    destruct ws; cbn [read_loop]; rewrite G; (destruct (Z.ltb_spec x 0); [lia|]); cbn;
      rewrite u32_small by lia; auto.
Qed.

(** A wait for [n] ticks, whatever the condition looks like. *)
Lemma wait_ticks busy n ws s :
  (forall w w', concat ws = w ++ w' -> busy (irqs s w) = (ticks w <? n)) ->
  exists ws1 ws2, ws = ws1 ++ ws2 /\
    let '(s', b) := wait_while busy ws s in
    s' = irqs s (concat ws1) /\
    (forall u w v, ws1 = u ++ w :: v -> ticks (concat u) < n) /\
    (if b : bool then n <= ticks (concat ws1) else ws2 = [] /\ ticks (concat ws1) < n).
Proof.
  intros H. destruct (wait_while_spec busy ws s) as (ws1 & ws2 & -> & R). exists ws1, ws2. split; [reflexivity|].
  rewrite concat_app in H. destruct (wait_while busy (ws1 ++ ws2) s) as [s' b]. destruct R as (-> & R2 & R3).
  split; [reflexivity|]. rewrite (H _ _ eq_refl) in R3. split.
  - intros u w v ->. specialize (R2 u w v eq_refl). rewrite concat_app, <- app_assoc in H.
    rewrite (H _ _ eq_refl) in R2. apply Z.ltb_lt, R2.
  - destruct b; [apply Z.ltb_ge, R3|]. destruct R3 as [E R3]. split; [exact E|apply Z.ltb_lt, R3].
Qed.

Lemma sleep_loop_spec t n ws s :
  drivers s -> 0 <= s_tick s -> 0 <= n -> t = s_tick s + n ->
  s_tick s + ticks (concat ws) < 0x100000000 ->
  exists ws1 ws2, ws = ws1 ++ ws2 /\
    let '(s', b) := sleep_loop t ws s in
    s_tick s' = s_tick s + ticks (concat ws1) /\
    (forall u w v, ws1 = u ++ w :: v -> ticks (concat u) < n) /\
    (if b : bool then n <= ticks (concat ws1) else ws2 = [] /\ ticks (concat ws1) < n).
Proof.
  intros Dr H0 Hn -> Hb.
  assert (T : forall w w', concat ws = w ++ w' -> s_tick (irqs s w) = s_tick s + ticks w).
  { intros w w' E. rewrite E, ticks_app in Hb. pose proof (ticks_nonneg w'). apply irqs_tick; [exact Dr|exact H0|lia]. }
  destruct (wait_ticks (fun s' => timer_ticks s' <? s_tick s + n) n ws s) as (ws1 & ws2 & -> & R).
  { intros w w' E. unfold timer_ticks. rewrite (T w w' E). zcase; lia || reflexivity. }
  exists ws1, ws2. split; [reflexivity|]. unfold sleep_loop. rewrite concat_app in T. specialize (T _ _ eq_refl).
  destruct (wait_while _ (ws1 ++ ws2) s) as [s' b]. destruct R as (-> & R). split; [exact T|exact R].
Qed.

(** SYS_SLEEP.  As long as the tick counter does not wrap, the call returns
    at the first wakeup by which the requested number of timer ticks has
    passed, never earlier, and zero ticks return at once. *)
Theorem sys_sleep_ticks (s : sys D) (r : registers_t) (ws : list (list (Z * Z))) :
  drivers s -> r_eax r = SYS_SLEEP -> 0 <= s_tick s -> 0 <= r_ebx r ->
  s_tick s + r_ebx r < 0x100000000 -> s_tick s + ticks (concat ws) < 0x100000000 ->
  let '(s', r', o) := syscall_handler s r ws in
  exists ws1 ws2, ws = ws1 ++ ws2 /\ s_tick s' = s_tick s + ticks (concat ws1) /\
    (forall u w v, ws1 = u ++ w :: v -> ticks (concat u) < r_ebx r) /\
    ((o = Returned /\ r_eax r' = 0 /\ r_ebx r <= ticks (concat ws1)) \/
     (o = Blocked /\ ws2 = [] /\ ticks (concat ws1) < r_ebx r)).
Proof.
  intros Dr Hr H0 Hb Hu Hw. unfold syscall_handler. rewrite Hr.
  cbn [Z.eqb Pos.eqb SYS_WRITE SYS_UPTIME SYS_GETPID SYS_SBRK SYS_EXIT SYS_READ SYS_SLEEP].
  unfold timer_ticks. rewrite u32_small by lia.
  destruct (sleep_loop_spec _ (r_ebx r) ws s Dr H0 Hb eq_refl Hw) as (ws1 & ws2 & E & R).
  destruct (sleep_loop _ ws s) as [s' []]; exists ws1, ws2; destruct R as (R1 & R2 & R3); auto 10.
Qed.

(** ** The break as the user-space allocator sees it *)

Definition cur_proc (s : sys D) : proc_t := slot (s_kern s) (current_idx (s_kern s)).

(** [int 0x80] from ring 3 with SYS_SBRK in eax. *)
#[export] Instance kernel_sbrk : Sbrk (sys D) := {
  heap_base := USER_HEAP_BASE;
  heap_end := USER_HEAP_END;
  brk_of s := if brk (cur_proc s) =? 0 then USER_HEAP_BASE else brk (cur_proc s);
  sbrk s n := let '(s', r', _) := syscall_handler s (trap_regs 0x80 0 USER_CODE SYS_SBRK n 0 0) [] in (s', r_eax r')
}.

Lemma kernel_sbrk_eq (s : sys D) n :
  sbrk s n = (set_kern s (fst (sys_sbrk (s_kern s) n)), snd (sys_sbrk (s_kern s) n)).
Proof. cbn. destruct (sys_sbrk (s_kern s) n). reflexivity. Qed.

#[export] Instance kernel_sbrk_laws : SbrkLaws (sys D).
Proof.
  refine {| brk_ok := fun s => tlen (table (s_kern s)) = MAX_PROCS /\
              0 <= current_idx (s_kern s) < MAX_PROCS /\ brk_valid (cur_proc s) |}.
  - cbn. unfold USER_HEAP_BASE, USER_HEAP_END. lia.
  - reflexivity.
  - intros s (_ & _ & B). unfold brk_valid in B. cbn. unfold USER_HEAP_BASE, USER_HEAP_END in *.
    destruct (Z.eqb_spec (brk (cur_proc s)) 0); lia.
  - intros s (L & C & B). rewrite kernel_sbrk_eq, (sys_sbrk_spec _ 0 L C B) by lia. cbn.
    destruct s. reflexivity.
  - intros s n (L & C & B) Hn. rewrite kernel_sbrk_eq.
    pose proof (sys_sbrk_spec _ n L C B ltac:(lia)) as E. fold (cur_proc s) in E.
    pose proof (kept_sbrk s n L C ltac:(lia)) as [[_ _ _ [_ B'] (L' & _ & C') _ _] _]. specialize (B' B).
    destruct (sys_sbrk (s_kern s) n) as [k' v]. cbn [fst snd s_kern set_kern] in *.
    split; [unfold cur_proc; cbn [s_kern set_kern]; rewrite C', L'; auto|]. cbn [brk_of heap_end kernel_sbrk].
    set (old := if brk (cur_proc s) =? 0 then _ else _) in *.
    assert (Ho : USER_HEAP_BASE <= old)
      by (unfold old, brk_valid, USER_HEAP_BASE, USER_HEAP_END in *; destruct (Z.eqb_spec (brk (cur_proc s)) 0); lia).
    destruct (Z.eqb_spec n 0); [lia|].
    destruct (Z.ltb_spec USER_HEAP_END (old + n)), (Z.leb_spec (old + n) USER_HEAP_END); try lia;
      injection E as -> ->; (split; [reflexivity|]); [reflexivity|].
    assert (Ec : brk (cur_proc (set_kern s (set_slot (s_kern s) (current_idx (s_kern s))
      (with_brk (cur_proc s) (old + n))))) = old + n).
    { unfold cur_proc at 1. cbn [s_kern set_kern set_slot current_idx].
      rewrite slot_set, Z.eqb_refl by (assumption || lia). reflexivity. }
    rewrite Ec. unfold USER_HEAP_BASE in *. destruct (Z.eqb_spec (old + n) 0); [lia|reflexivity].
Defined.

(** The allocator enters the kernel at most once, through SYS_SBRK. *)
Lemma umalloc_kernel (h : uheap (K := sys D)) n :
  u_kern (fst (umalloc h n)) = u_kern h \/
  exists k, 0 <= k < 0x100000000 /\ u_kern (fst (umalloc h n)) = fst (sbrk (u_kern h) k).
Proof.
  unfold umalloc. destruct (n =? 0); [auto|]. cbv zeta. set (want := Z.land _ _).
  destruct (first_fit _ _ _ _); [auto|]. right. exists (u32 (U_HDR + want)). split; [apply u32_range|].
  unfold grow, u_sbrk. destruct (sbrk (u_kern h) (u32 (U_HDR + want))) as [k b]. destruct (b =? U32_MAX); [reflexivity|].
  cbn [u_head]. destruct (u_head h =? 0); reflexivity.
Qed.

(** C9. The user-space allocator on the kernel's break.  Every pointer [umalloc]
    returns is 8-byte aligned and its block lies between USER_HEAP_BASE and
    USER_HEAP_END; null means that no free block fits and the break cannot
    move; the free list stays well formed, and of the kernel nothing changes
    but the caller's break. *)
Theorem umalloc_on_kernel (h : uheap (K := sys D)) (base : Z) (bs : list block) (n : Z) :
  uheap_ok h base bs -> 1 <= n <= 0xFFFFFFE8 ->
  let '(h', p) := umalloc h n in
  kernel_kept (u_kern h) (u_kern h') /\ (exists bs', uheap_ok h' base bs') /\
  if p =? 0 then
    Forall (fun b => fits ((n + 7) / 8 * 8) b = false) bs /\
    USER_HEAP_END < brk_of (u_kern h) + U_HDR + (n + 7) / 8 * 8
  else p mod 8 = 0 /\ USER_HEAP_BASE + U_HDR <= p /\ p + n <= USER_HEAP_END.
Proof.
  intros O Hn. pose proof (umalloc_spec h base bs n O Hn) as U. pose proof (umalloc_kernel h n) as Q.
  pose proof O as [Hk [Hb Hb8] _ _ Hs Hp]. pose proof (brk_range _ Hk) as Rb. destruct Hk as (L & C & _).
  change heap_base with USER_HEAP_BASE in *. change heap_end with USER_HEAP_END in *.
  destruct (umalloc h n) as [h' p]. cbn [fst] in Q. split.
  { destruct Q as [->|(k & Hk & ->)]; [apply kept_self|]. rewrite kernel_sbrk_eq. apply kept_sbrk; assumption. }
  set (want := (n + 7) / 8 * 8) in *. assert (Hw : n <= want) by (unfold want; zdm).
  cbv zeta in U. unfold USER_HEAP_BASE, USER_HEAP_END, U_HDR in *.
  destruct U as [P8 [(pre & b & post & -> & _ & Hf & Ep & O' & _)|[F [(E1 & E2 & E3 & _)|(E1 & -> & E3 & _)]]]].
  - split; [eauto|]. apply Forall_app in Hs as [Hs1 Hs2]. apply Forall_cons_iff in Hs2 as [[Hs2 _] Hs3].
    pose proof (span_nonneg 16 U_HDR_ok pre (uheap_sizes _ Hs1)). pose proof (span_nonneg 16 U_HDR_ok post (uheap_sizes _ Hs3)).
    rewrite (span_app 16) in Hp. cbn [span] in Hp. unfold fits in Hf. b2p.
    unfold U_HDR in *. destruct (Z.eqb_spec p 0); [lia|]. split; [exact P8|]. lia.
  - split; [eauto|]. change heap_end with 0x9F000 in E1. unfold U_HDR in *.
    destruct (Z.eqb_spec p 0); [lia|]. split; [exact P8|]. lia.
  - split; [eauto|]. cbn. auto.
Qed.

End Syscall.

(** ** A concrete program *)

(** What [timer_install] and [keyboard_install] do to the handler table. *)
Lemma handlers_installed n :
  tget NoHandler (tset (tset (replicate 256 NoHandler) 32 timer_cb) 33 keyboard_cb) n
  = if n =? 32 then timer_cb else if n =? 33 then keyboard_cb else NoHandler.
Proof.
  destruct (Z.lt_ge_cases n 0) as [Hn|Hn].
  - destruct (Z.eqb_spec n 32), (Z.eqb_spec n 33); try lia. unfold tget. rewrite (Z2Nat.nonpos n) by lia. reflexivity.
  - rewrite !tget_tset by (rewrite ?tlen_tset, ?tlen_replicate; lia). rewrite tget_replicate.
    destruct (Z.eqb_spec 33 n), (Z.eqb_spec 32 n), (Z.eqb_spec n 32), (Z.eqb_spec n 33); try lia; reflexivity.
Qed.

Lemma install_drivers {D : Type} (s : sys D) :
  s_handlers s = replicate 256 NoHandler ->
  drivers (keyboard_install (register_interrupt_handler s 32 timer_cb)).
Proof.
  intros E n. cbn [s_handlers keyboard_install register_interrupt_handler set_handlers]. rewrite E.
  apply handlers_installed.
Qed.

(** A program with pid 1 and a string at 0x80010. *)
Definition demo_user : sys mem :=
  keyboard_install (register_interrupt_handler
    (boot_sys (mk_kernel
      (tset (replicate 16 zero_proc) 1 (mk_proc 1 0 PROC_RUNNING 0x20000 0x80000 0x90000 0 (replicate 16 0)))
      2 1 (mk_machine (st8 (st8 ∅ 0x80010 72) 0x500000 7) (pmm_install 0x800000) 0x20000 0x20000 []))
      (mk_fs ∅ ∅ ∅ ∅)) 32 timer_cb).

#[local] Existing Instance map_disk.

Lemma zone_dir v : in_zone v -> DIR_INDEX v = 0.
Proof.
  intros Hv. unfold in_zone in Hv. unfold DIR_INDEX. rewrite Z.shiftr_div_pow2 by lia. change (2 ^ 22) with 0x400000.
  rewrite Z.div_small by lia. reflexivity.
Qed.

(** The zone of this program is not mapped at all, in any memory like this one. *)
Lemma demo_unmapped m v : in_zone v -> entry m 0x20000 0 = 0 ->
  pte (with_ram (s_mach demo_user) m) 0x20000 v = 0 /\ slot_present m 0x20000 (DIR_INDEX v) = false.
Proof.
  intros Hv E. unfold pte, slot_present. rewrite (zone_dir v Hv). change (ram (with_ram _ m)) with m. rewrite E. auto.
Qed.

Lemma demo_fixed m : entry m 0x20000 0 = 0 -> space_fixed (set_ram demo_user m).
Proof.
  intros E. change (active_dir (s_mach (set_ram demo_user m))) with 0x20000. constructor.
  - split; [reflexivity|]. intros x Hx. change (pg x = 0x20000) in Hx. unfold in_zone, pg in *. zdm.
  - intros v Hv. change (active_dir (s_mach (set_ram demo_user m))) with 0x20000. change (s_ram (set_ram demo_user m)) with m.
    rewrite (proj2 (demo_unmapped m v Hv E)). discriminate.
  - intros v Hv. change (is_cow (pte (with_ram (s_mach demo_user) m) 0x20000 v) = false). rewrite (proj1 (demo_unmapped m v Hv E)). reflexivity.
  - intros v Hv. reflexivity.
Qed.

Lemma demo_alike : zone_alike demo_user (set_ram demo_user (st8 (s_ram demo_user) 0x500000 9)).
Proof.
  set (m := st8 (s_ram demo_user) 0x500000 9).
  assert (E : entry m 0x20000 0 = 0) by (vm_compute; reflexivity). assert (E0 : entry (s_ram demo_user) 0x20000 0 = 0) by (vm_compute; reflexivity).
  constructor; [reflexivity| | |].
  - intros x Hx. unfold in_zone in Hx. change (s_ram (set_ram demo_user m)) with m. unfold m. rewrite ld8_st8.
    destruct (Z.eqb_spec 0x500000 x); [lia|reflexivity].
  - split; [exact (demo_fixed _ E0)|exact (demo_fixed _ E)].
  - intros v Hv. assert (N : forall m, entry m 0x20000 0 = 0 -> kernel_reads (s_mach (set_ram demo_user m)) v = false).
    { intros m' E'. change (is_present (pte (with_ram (s_mach demo_user) m') 0x20000 v) = false).
      rewrite (proj1 (demo_unmapped m' v Hv E')). reflexivity. }
    unfold kernel_writes. rewrite (N m E). change (s_mach demo_user) with (s_mach (set_ram demo_user (s_ram demo_user))).
    rewrite (N _ E0). auto.
Qed.


Lemma syscall_no_leak_witness :
  let '(s', r', o) := syscall_handler demo_user (trap_regs 0x80 0 USER_CODE SYS_FREAD 0x80010 0x80020 64) [] in
  exists m', syscall_handler (set_ram demo_user (st8 (s_ram demo_user) 0x500000 9))
      (trap_regs 0x80 0 USER_CODE SYS_FREAD 0x80010 0x80020 64) [] = (set_ram s' m', r', o) /\
    zone_agree (s_ram s') m'.
Proof.
  apply (syscall_no_leak demo_user (st8 (s_ram demo_user) 0x500000 9)
    (trap_regs 0x80 0 USER_CODE SYS_FREAD 0x80010 0x80020 64) []); [reflexivity|apply demo_alike|discriminate|intros _; apply demo_alike].
Defined.

Lemma demo_user_drivers : drivers demo_user.
Proof. apply install_drivers. reflexivity. Qed.

Lemma demo_user_kbd : holds (s_kbd demo_user) [].
Proof. constructor; cbn; try lia; [reflexivity|constructor]. Qed.

(** Shift and then the key A, typed during the second wait. *)
Lemma sys_read_first_key_witness :
  let '(s', r', o) := syscall_handler demo_user (trap_regs 0x80 0 USER_CODE SYS_READ 0 0 0)
      [[(32, 0)]; [(33, 0x2A); (33, 0x1E)]] in
  o = Returned /\ r_eax r' = 65.
Proof.
  exact (sys_read_first_key demo_user (trap_regs 0x80 0 USER_CODE SYS_READ 0 0 0)
    [[(32, 0)]; [(33, 0x2A); (33, 0x1E)]] [] demo_user_drivers demo_user_kbd eq_refl).
Defined.

(** Two ticks asked for, three wakeups. *)
Lemma sys_sleep_ticks_witness :
  let ws := [[(32, 0)]; [(33, 0x1E)]; [(32, 0); (32, 0)]] in
  let '(s', r', o) := syscall_handler demo_user (trap_regs 0x80 0 USER_CODE SYS_SLEEP 2 0 0) ws in
  exists ws1 ws2, ws = ws1 ++ ws2 /\ s_tick s' = ticks (concat ws1) /\
    (forall u w v, ws1 = u ++ w :: v -> ticks (concat u) < 2) /\
    ((o = Returned /\ r_eax r' = 0 /\ 2 <= ticks (concat ws1)) \/
     (o = Blocked /\ ws2 = [] /\ ticks (concat ws1) < 2)).
Proof.
  apply (sys_sleep_ticks demo_user (trap_regs 0x80 0 USER_CODE SYS_SLEEP 2 0 0)
    [[(32, 0)]; [(33, 0x1E)]; [(32, 0); (32, 0)]] demo_user_drivers eq_refl); vm_compute; congruence.
Defined.

Definition demo_heap : uheap (K := sys mem) := mk_uheap ∅ 0 demo_user.

Lemma umalloc_on_kernel_witness :
  let '(h', p) := umalloc demo_heap 100 in
  kernel_kept demo_user (u_kern h') /\ (exists bs, uheap_ok h' USER_HEAP_BASE bs) /\
  (if p =? 0 then Forall (fun b => fits ((100 + 7) / 8 * 8) b = false) [] /\
     USER_HEAP_END < brk_of demo_user + U_HDR + (100 + 7) / 8 * 8
   else p mod 8 = 0 /\ USER_HEAP_BASE + U_HDR <= p /\ p + 100 <= USER_HEAP_END).
Proof.
  apply (umalloc_on_kernel demo_heap USER_HEAP_BASE [] 100); [|lia]. constructor.
  - split; [reflexivity|]. split; [cbn; unfold MAX_PROCS; lia|]. right. vm_compute. split; discriminate.
  - split; [apply Z.le_refl|reflexivity].
  - reflexivity.
  - exact I.
  - constructor.
  - reflexivity.
Defined.
