(* ===== verification/Usermode.v ===== *)
(** * Running ring-3 programs (kernel/usermode.c)

    [run_user_at_sp] enters ring 3 and comes back when the program exits or
    faults.  What the program does is not the kernel's choice: it is a list of
    events, each an instruction that concerns the kernel, a store, a load, an
    int 0x80 or a fault, or an interrupt that arrives in between.  The memory
    accesses are checked against the page tables the way the processor does, and
    a store goes where the bus takes it. *)

From stdpp Require Import base gmap list numbers option.
From Stdlib Require Import ZArith Lia Bool.
From S2P Require Import Prelude CString Screen Pmm Vmm VmmLemmas VmmSpec VmmClone VmmTheorems VmmProps Paging Demand Proc Interfaces Args Keyboard Fs Task Tables System Bus Syscall.

Definition USER_LOAD_ADDR : Z := 0x00080000.
Definition USER_STACK_TOP : Z := 0x000F0000.

(** An instruction of the program or an interrupt. *)
Inductive user_event :=
| Store (v b : Z)
| Load (v : Z)
| Trap (eax ebx ecx edx : Z) (wakeups : list (list (Z * Z)))
| Exception (n err : Z)
| Interrupt (n b : Z).

(** The program runs on, called SYS_EXIT, was ended by a fault, waits in a
    system call, or took the kernel down with it. *)
Inductive user_end := Running | Exit_called | Fault_ended | Waiting | Kernel_halted.

(** The processor lets ring 3 write where both levels are writable. *)
Definition ring3_writes (st : machine) (dir v : Z) : bool :=
  ring3_reaches st dir v && is_rw (entry (ram st) dir (DIR_INDEX v)) && is_rw (pte st dir v).

(** The page-fault error code: present, write, user. *)
Definition fault_code (present write : bool) : Z :=
  (if present then 1 else 0) + (if write then 2 else 0) + 4.

(** The message after the program, for [g_user_faulted]. *)
Definition end_message (x : screen) (faulted : bool) : screen :=
  if faulted
  then kprint_color x (lit "  the program faulted and was terminated; the kernel survived." ++ [10]) COLOR_RED_ON_BLACK
  else kprint x (lit "  program exited cleanly; back in the kernel (ring 0)." ++ [10]).

Lemma end_message_confined x f : screen_ok x -> confined x (end_message x f).
Proof. intros H. unfold end_message. destruct f; [apply kprint_color_confined, H|apply (kprint_confined _ _ H)]. Qed.

Section Usermode.
Context {D : Type} {DK : Disk D}.

(** An exception raised in ring 3. *)
Definition user_fault (s : sys D) (n err cr2 : Z) : sys D * user_end :=
  match isr_handler s (trap_regs n err USER_CODE 0 0 0 0) cr2 with
  | (s, Resumed) => (s, Running)
  | (s, Recovered) => (s, Fault_ended)
  | (s, Halted) => (s, Kernel_halted)
  end.

Definition user_step (s : sys D) (e : user_event) : sys D * user_end :=
  let st := s_mach s in
  let d := active_dir st in
  match e with
  | Store v b =>
      if ring3_writes st d v then (bus_store s (vmm_translate st d v) b, Running)
      else user_fault s 14 (fault_code (is_present (pte st d v)) true) v
  | Load v =>
      if ring3_reaches st d v then (s, Running)
      else user_fault s 14 (fault_code (is_present (pte st d v)) false) v
  | Trap eax ebx ecx edx ws =>
      match syscall_handler s (trap_regs 0x80 0 USER_CODE eax ebx ecx edx) ws with
      | (s, _, Returned) => (s, Running)
      | (s, _, Exited) => (s, Exit_called)
      | (s, _, Blocked) => (s, Waiting)
      | (s, _, Faulted) => (s, Fault_ended)
      | (s, _, Crashed) => (s, Kernel_halted)
      end
  | Exception n err => user_fault s n err 0
  | Interrupt n b => (irq_handler s n b, Running)
  end.

Fixpoint user_run (s : sys D) (es : list user_event) : sys D * user_end :=
  match es with
  | [] => (s, Running)
  | e :: es =>
      match user_step s e with
      | (s, Running) => user_run s es
      | r => r
      end
  end.

(** [run_user_at_sp] has come back, the program is still away (it runs on or
    waits), or the kernel is down. *)
Inductive launched := Back (s : sys D) | Away (s : sys D) | Down (s : sys D).

(** [run_user_at_sp(entry, esp)] for a program that does [es]: the code before
    ring 3 is entered, and after [save_context] has returned the second time. *)
Definition run_user_at_sp (s : sys D) (es : list user_event) : launched :=
  let s := set_fault s (s_armed s) false in
  let s := fault_arm s in
  match user_run s es with
  | (s, Exit_called) | (s, Fault_ended) =>
      let s := fault_disarm s in
      Back (set_scr s (end_message (s_scr s) (s_faulted s)))
  | (s, Running) | (s, Waiting) => Away s
  | (s, Kernel_halted) => Down s
  end.

(** [run_user_at(entry)]: the same on an empty argument frame. *)
Definition run_user_at (s : sys D) (es : list user_event) : launched :=
  let '(m, _) := args_build (s_view s) [] USER_STACK_TOP in run_user_at_sp (bus_commit s m) es.

(** [run_user_program()] for the bundled program [user_prog]. *)
Definition run_user_program (L : link) (user_prog : list Z) (s : sys D) (es : list user_event) : launched :=
  let s := set_mach s (paging_reset_user_zone L (s_mach s)) in
  let s := bus_commit s (put_bytes (s_view s) USER_LOAD_ADDR user_prog) in
  run_user_at s es.

(** ** The sandbox *)

(** The address space a program runs in: ring 3 reaches only the user zone,
    which is identity mapped; no page is copy-on-write or promised; and the
    page tables themselves lie outside the zone. *)
Record sandbox (s : sys D) : Prop := {
  sb_dir : page (active_dir (s_mach s)) /\ page_off_zone (active_dir (s_mach s));
  sb_tabs : forall j, 0 <= j < 1024 -> slot_present (s_ram s) (active_dir (s_mach s)) j = true ->
    page_off_zone (slot_tab (s_ram s) (active_dir (s_mach s)) j);
  sb_reach : forall v, 0 <= v < 0x100000000 -> ring3_reaches (s_mach s) (active_dir (s_mach s)) v = true ->
    in_zone v /\ vmm_translate (s_mach s) (active_dir (s_mach s)) v = v;
  sb_cow : forall v, 0 <= v < 0x100000000 -> is_cow (pte (s_mach s) (active_dir (s_mach s)) v) = false;
  sb_promises : forall v, promised (s_dem s) (active_dir (s_mach s)) v = false;
  sb_table : tlen (table (s_kern s)) = MAX_PROCS /\ 0 <= current_idx (s_kern s) < MAX_PROCS;
  sb_brk : brk_valid (cur_proc s)
}.

(** What a program cannot change, whatever it does. *)
Record isolated (s s' : sys D) : Prop := {
  is_mem : forall x, ~ in_zone x -> ld8 (s_ram s') x = ld8 (s_ram s) x;
  is_mach : s_mach s' = with_ram (s_mach s) (s_ram s');
  is_others : forall i, 0 <= i -> i <> current_idx (s_kern s) -> slot (s_kern s') i = slot (s_kern s) i;
  is_self : cur_proc s' = with_brk (cur_proc s) (brk (cur_proc s'));
  is_table : tlen (table (s_kern s')) = tlen (table (s_kern s)) /\
    next_pid (s_kern s') = next_pid (s_kern s) /\ current_idx (s_kern s') = current_idx (s_kern s);
  is_rest : s_dem s' = s_dem s /\ s_handlers s' = s_handlers s /\ s_board s' = s_board s /\
    tlen (tasks (s_sched s')) = tlen (tasks (s_sched s));
  is_screen : screen_ok (s_scr s) -> confined (s_scr s) (s_scr s')
}.

#[local] Instance isolated_preorder : PreOrder isolated.
Proof.
  split.
  - intros s. constructor; auto using with_brk_id, with_ram_id, confined_refl.
  - intros a b c [A1 A2 A3 A4 (A5 & A6 & A7) (A8 & A9 & A0 & A11) A10] [B1 B2 B3 B4 (B5 & B6 & B7) (B8 & B9 & B0 & B11) B10].
    constructor; try (repeat split; congruence).
    + intros x Hx. rewrite B1, A1 by assumption. reflexivity.
    + rewrite B2, A2. reflexivity.
    + intros i Hi N. rewrite B3, A3 by congruence. reflexivity.
    + rewrite B4 at 1. rewrite A4. reflexivity.
    + intros H. eapply confined_trans; [apply A10, H|]. apply B10, A10, H.
Qed.

(** ** Every event stays in the sandbox *)

Lemma isolated_safe s s' : kernel_safe s s' -> isolated s s'.
Proof.
  intros [K1 K2 K3 [K4 _] (K5 & K6 & K7) K8 K10]. constructor; auto.
  unfold cur_proc. rewrite K7. exact K4.
Qed.

(** Stores in the zone do not reach the page tables. *)
Lemma tables_ext (s s' : sys D) v :
  sandbox s -> isolated s s' -> let d := active_dir (s_mach s) in
  (forall j, 0 <= j < 1024 -> entry (s_ram s') d j = entry (s_ram s) d j) /\
  pte (s_mach s') d v = pte (s_mach s) d v /\ vmm_translate (s_mach s') d v = vmm_translate (s_mach s) d v.
Proof.
  intros [[Pd Zd] Zt _ _ _ _ _] [M _ _ _ _ _ _] d.
  apply (tables_same (s_mach s) (s_mach s') d v Pd); [intros x Hx; apply M, Zd, Hx|].
  intros P x Hx. apply M, (Zt _ (DIR_INDEX_range v) P), Hx.
Qed.

(** The kernel's own stores to the zone do not change rights there either. *)
Lemma sandbox_fixed s : sandbox s -> space_fixed s.
Proof.
  intros [Hd Zt _ Hc Hp _ _]. constructor; [exact Hd| | |auto].
  - intros v _. apply Zt, DIR_INDEX_range.
  - intros v Hv. apply Hc. unfold in_zone in Hv. lia.
Qed.

Lemma isolated_sandbox s s' : sandbox s -> isolated s s' -> brk_valid (cur_proc s') -> sandbox s'.
Proof.
  intros S I B. pose proof S as [[Pd Zd] Zt Hr Hc Hp [L C] _].
  pose proof I as [_ Im _ _ (E1 & _ & E3) (E4 & _) _].
  assert (Ea : active_dir (s_mach s') = active_dir (s_mach s)) by (rewrite Im; reflexivity).
  constructor; rewrite ?Ea, ?E4; auto; [| | |rewrite E1, E3; auto].
  - intros j Hj. destruct (tables_ext s s' 0 S I) as (Ed & _). unfold slot_present, slot_tab. rewrite Ed by exact Hj.
    apply Zt, Hj.
  - intros v Hv. destruct (tables_ext s s' v S I) as (Ed & Ep & Et). specialize (Ed _ (DIR_INDEX_range v)).
    unfold ring3_reaches, s_ram in *. rewrite Ep, Et, Ed. apply Hr, Hv.
  - intros v Hv. destruct (tables_ext s s' v S I) as (_ & -> & _). apply Hc, Hv.
Qed.

(** In the sandbox no fault is resolved: it is reported and ends the program. *)
Lemma sandbox_fault_eq s n err cr2 :
  sandbox s -> s_armed s = true -> 0 <= cr2 < 0x100000000 ->
  user_fault s n err cr2 = (set_fault (set_scr s (fault_report (s_scr s) n err cr2)) false true, Fault_ended).
Proof.
  intros S A Hv. unfold user_fault. rewrite isr_unresolved by (apply S, Hv || apply S).
  cbn [trap_regs r_int_no r_err_code]. unfold unresolved. cbn [s_armed set_scr]. rewrite A. reflexivity.
Qed.

Lemma sandbox_fault s n err cr2 :
  sandbox s -> s_armed s = true -> 0 <= cr2 < 0x100000000 ->
  let '(s', o) := user_fault s n err cr2 in
  o = Fault_ended /\ isolated s s' /\ cur_proc s' = cur_proc s /\ s_armed s' = false /\ s_faulted s' = true.
Proof.
  intros S A Hv. rewrite sandbox_fault_eq by assumption. split; [reflexivity|]. split; [|auto].
  constructor; cbn; auto using with_brk_id, with_ram_id, fault_report_confined.
Qed.

(** Addresses and the argument in ebx are 32-bit values. *)
Definition event_ok (e : user_event) : Prop :=
  match e with
  | Store v _ | Load v => 0 <= v < 0x100000000
  | Trap _ ebx _ _ _ => 0 <= ebx < 0x100000000
  | Exception _ _ | Interrupt _ _ => True
  end.

(** The state of the fault recovery after an event. *)
Definition recovery (s s' : sys D) (o : user_end) : Prop :=
  match o with
  | Fault_ended => s_armed s' = false /\ s_faulted s' = true
  | Kernel_halted => False
  | _ => s_armed s' = true /\ s_faulted s' = s_faulted s
  end.

Lemma user_fault_ok s n err cr2 :
  sandbox s -> s_armed s = true -> 0 <= cr2 < 0x100000000 ->
  let '(s', o) := user_fault s n err cr2 in sandbox s' /\ isolated s s' /\ recovery s s' o.
Proof.
  intros S A Hv. pose proof (sandbox_fault s n err cr2 S A Hv) as F. destruct (user_fault s n err cr2) as [s' o].
  destruct F as (-> & I & E & F). split; [|auto]. apply (isolated_sandbox s s' S I). rewrite E. apply S.
Qed.

Lemma bus_store_isolated s v b : in_zone v -> isolated s (bus_store s v b).
Proof.
  intros Zv. pose proof (fun x => ram_bus_store s v b x) as M. pose proof (bus_store_confined s v b) as C.
  rewrite bus_store_shape in *. constructor; cbn; auto using with_brk_id.
  intros x Hx. specialize (M x). change (s_ram (set_scr (set_ram ?q ?m) _)) with m in M. rewrite M.
  destruct (Z.eqb_spec v x) as [->|]; [contradiction|reflexivity].
Qed.

Lemma user_step_ok s e :
  sandbox s -> s_armed s = true -> event_ok e ->
  let '(s', o) := user_step s e in sandbox s' /\ isolated s s' /\ recovery s s' o.
Proof.
  intros S A He. destruct e as [v b|v|eax ebx ecx edx ws|n err|n b]; cbn [user_step event_ok] in *.
  - destruct (ring3_writes _ _ v) eqn:W; [|apply user_fault_ok; assumption].
    unfold ring3_writes in W. b2p. destruct (sb_reach s S v He) as [Zv ->]; [assumption|].
    pose proof (bus_store_isolated s v b Zv) as I. assert (Sh := bus_store_shape s v b).
    split; [apply (isolated_sandbox s _ S I); rewrite Sh; apply S|]. split; [exact I|]. rewrite Sh. cbn. auto.
  - destruct (ring3_reaches _ _ v); [|apply user_fault_ok; assumption].
    split; [exact S|]. split; [reflexivity|]. cbn. auto.
  - pose proof (syscall_kept s (trap_regs 0x80 0 USER_CODE eax ebx ecx edx) ws
      (proj1 (sb_table s S)) (proj2 (sb_table s S)) He (fun _ => sandbox_fixed s S)) as K.
    destruct (syscall_handler _ _ _) as [[s' r'] o]. destruct K as (K & Fs & _).
    assert (I := isolated_safe _ _ K). assert (S' : sandbox s').
    { apply (isolated_sandbox s s' S I). unfold cur_proc. rewrite (proj2 (proj2 (kk_table _ _ K))).
      apply (kk_self _ _ K), S. }
    unfold fault_state in Fs. rewrite A in Fs. destruct o; cbn; intuition discriminate.
  - apply user_fault_ok; auto. lia.
  - pose proof (irq_interrupted s n b) as K. assert (E : cur_proc (irq_handler s n b) = cur_proc s)
      by (unfold cur_proc; rewrite (int_eq _ _ K); reflexivity).
    assert (I := isolated_safe _ _ (kk_safe _ _ (kept_interrupted _ _ K))).
    split; [apply (isolated_sandbox s _ S I); rewrite E; apply S|]. split; [exact I|].
    cbn [recovery]. rewrite (int_eq _ _ K). cbn. auto.
Qed.

Lemma user_run_ok es : forall s,
  sandbox s -> s_armed s = true -> Forall event_ok es ->
  let '(s', o) := user_run s es in sandbox s' /\ isolated s s' /\ recovery s s' o.
Proof.
  induction es as [|e es IH]; intros s S A H; cbn [user_run].
  - split; [exact S|]. split; [reflexivity|]. cbn. auto.
  - apply Forall_cons_iff in H as [He H]. pose proof (user_step_ok s e S A He) as U.
    destruct (user_step s e) as [s1 o]. destruct U as (S1 & I1 & R1). destruct o; auto.
    destruct R1 as [A1 F1]. specialize (IH s1 S1 A1 H). destruct (user_run s1 es) as [s' o].
    destruct IH as (S' & I' & R'). split; [exact S'|]. split; [etransitivity; eassumption|].
    destruct o; cbn in R' |- *; rewrite <- ?F1; assumption.
Qed.

Lemma set_fault_isolated s a f : isolated s (set_fault s a f).
Proof. constructor; cbn; auto using with_brk_id, with_ram_id, confined_refl. Qed.

Lemma set_scr_isolated s x : (screen_ok (s_scr s) -> confined (s_scr s) x) -> isolated s (set_scr s x).
Proof. intros H. constructor; cbn; auto using with_brk_id, with_ram_id. Qed.

Lemma same_proc_sandbox s s' : sandbox s -> isolated s s' -> cur_proc s' = cur_proc s -> sandbox s'.
Proof. intros S I E. apply (isolated_sandbox s s' S I). rewrite E. apply S. Qed.

Lemma run_user_spec (s : sys D) (es : list user_event) :
  sandbox s -> Forall event_ok es ->
  let '(s1, o) := user_run (fault_arm (set_fault s (s_armed s) false)) es in
  isolated s s1 /\ sandbox s1 /\
  match run_user_at_sp s es with
  | Back s' =>
      isolated s s' /\ sandbox s' /\ s_armed s' = false /\
      ((o = Exit_called /\ s_faulted s' = false) \/ (o = Fault_ended /\ s_faulted s' = true))
  | Away s' => s' = s1 /\ (o = Running \/ o = Waiting)
  | Down _ => False
  end.
Proof.
  intros S H. unfold run_user_at_sp. set (s0 := fault_arm (set_fault s (s_armed s) false)).
  assert (I0 : isolated s s0)
    by (etransitivity; [apply (set_fault_isolated s (s_armed s) false)|apply set_fault_isolated]).
  assert (S0 : sandbox s0) by (apply (same_proc_sandbox s s0 S I0); reflexivity).
  pose proof (user_run_ok es s0 S0 eq_refl H) as U. destruct (user_run s0 es) as [s1 o].
  destruct U as (S1 & I1 & R). assert (I : isolated s s1) by (etransitivity; eassumption).
  split; [exact I|]. split; [exact S1|].
  assert (F : forall x, (screen_ok (s_scr s1) -> confined (s_scr s1) x) ->
    isolated s (set_scr (fault_disarm s1) x) /\ sandbox (set_scr (fault_disarm s1) x)).
  { intros x Hx. assert (I2 : isolated s1 (set_scr (fault_disarm s1) x)).
    { etransitivity; [apply (set_fault_isolated s1 false (s_faulted s1))|]. apply set_scr_isolated, Hx. }
    split; [etransitivity; eassumption|]. apply (same_proc_sandbox s1 _ S1 I2). reflexivity. }
  destruct (F (end_message (s_scr s1) (s_faulted s1))) as [F1 F2]; [apply end_message_confined|].
  change (s_scr (fault_disarm s1)) with (s_scr s1). change (s_faulted (fault_disarm s1)) with (s_faulted s1).
  destruct o; cbn [recovery] in R; auto; try contradiction; destruct R as [_ R];
    (split; [exact F1|]); (split; [exact F2|]); (split; [reflexivity|]); auto.
Qed.

(** C1. Isolation.  Whatever a ring-3 program does, in whatever order, with
    interrupts arriving at any point: memory outside the user zone, the page
    tables, the frame pool, the control registers and every other process stay
    as they were, its own process entry changes in the break only, which stays
    in the user heap, and no fault brings the kernel down.  [run_user_at_sp]
    comes back as soon as the program exits or faults, says which on the
    screen, leaves recovery disarmed and the sandbox intact for the next
    program; it stays away only while the program runs on or waits. *)
Theorem user_program_isolated (s : sys D) (es : list user_event) :
  sandbox s -> Forall event_ok es ->
  let '(s1, o) := user_run (fault_arm (set_fault s (s_armed s) false)) es in
  isolated s s1 /\ sandbox s1 /\
  match run_user_at_sp s es with
  | Back s' =>
      isolated s s' /\ sandbox s' /\ s_armed s' = false /\
      ((o = Exit_called /\ s_faulted s' = false) \/ (o = Fault_ended /\ s_faulted s' = true))
  | Away s' => s' = s1 /\ (o = Running \/ o = Waiting)
  | Down _ => False
  end.
Proof. exact (run_user_spec s es). Qed.

(** The boot address space is a sandbox for the first program. *)
Lemma paging_sandbox (L : link) (s : sys D) (st : machine) (cr0 : Z) :
  link_ok L -> (forall i, 2 <= i < 1024 -> entry (ram st) (page_directory L) i = 0) ->
  page_off_zone (page_directory L) -> page_off_zone (first_page_table L) -> page_off_zone (second_page_table L) ->
  s_mach s = fst (paging_install L st cr0) ->
  (forall v, promised (s_dem s) (page_directory L) v = false) ->
  tlen (table (s_kern s)) = MAX_PROCS -> 0 <= current_idx (s_kern s) < MAX_PROCS -> brk_valid (cur_proc s) ->
  sandbox s.
Proof.
  intros K Hz Z1 Z2 Z3 Em Hp L1 C1 B. pose proof (paging_install_spec L st cr0 K Hz) as P.
  pose proof (paging_install_entries L st cr0 K) as (E0 & E1 & Ei & Ef & Es).
  rewrite <- Em in *. destruct (paging_install L st cr0) as [st' cr0']. cbn [fst] in Em. subst st'.
  destruct P as (Ea & _ & _ & Pv). destruct K as [(P1 & P2 & P3) (R1 & R2 & R3) _]. unfold MANAGED_BASE in *.
  destruct (tab_facts (first_page_table L) 7) as (F1 & _); auto; try lia.
  destruct (tab_facts (second_page_table L) 3) as (F2 & _); auto; try lia.
  assert (Ez : forall j, 2 <= j < 1024 -> slot_present (s_ram s) (page_directory L) j = false)
    by (intros j Hj; unfold slot_present, s_ram; rewrite Ei, Hz by exact Hj; reflexivity).
  constructor; rewrite ?Ea; auto.
  - intros j Hj Pj. unfold slot_tab, s_ram. assert (C : j = 0 \/ j = 1 \/ 2 <= j < 1024) by lia.
    destruct C as [->|[->|C]]; [rewrite E0, F1; exact Z2|rewrite E1, F2; exact Z3|]. rewrite Ez in Pj by exact C. discriminate.
  - intros v Hv Hr. destruct (Pv v Hv) as [T R]. rewrite Hr in R. symmetry in R.
    unfold USER_ZONE_START, USER_ZONE_END in R. b2p. rewrite T. unfold in_zone.
    destruct (Z.ltb_spec v 0x800000); [|lia]. split; [lia|reflexivity].
  - intros v Hv. unfold pte. fold (s_ram s). pose proof (DIR_INDEX_range v) as Rd. pose proof (TAB_INDEX_range v) as Rt.
    assert (C : DIR_INDEX v = 0 \/ DIR_INDEX v = 1 \/ 2 <= DIR_INDEX v < 1024) by lia.
    destruct C as [C|[C|C]]; [| |rewrite Ez by exact C; reflexivity]; rewrite C;
      (destruct (slot_present _ _ _); [|reflexivity]); unfold slot_tab, s_ram, is_cow;
      rewrite ?E0, ?E1, ?F1, ?F2, ?Ef, ?Es by exact Rt;
      rewrite ?first_word_eq, ?second_word_eq by exact Rt; rewrite tst_low by (unfold PF_COW; lia).
    + rewrite add_low; [|zdm|destruct (_ && _)%bool; lia]. destruct (_ && _)%bool; reflexivity.
    + rewrite add_low; [reflexivity|zdm|lia].
Qed.

End Usermode.

(** ** A concrete run *)

(** Process 1 in the boot address space of [Paging]. *)
Definition demo_sandbox : sys mem :=
  boot_sys (mk_kernel
    (tset (replicate 16 zero_proc) 1 (mk_proc 1 0 PROC_RUNNING 0x20000 0x80000 0x90000 0 (replicate 16 0)))
    2 1 (fst (paging_install demo_link blank 0x11))) (mk_fs ∅ ∅ ∅ ∅).

Lemma low_page_off_zone b : 0 <= b < 0x7F000 -> page_off_zone b.
Proof. intros Hb x Hx. unfold in_zone, pg in *. zdm. Qed.

Lemma demo_sandbox_ok : sandbox demo_sandbox.
Proof.
  apply (paging_sandbox demo_link demo_sandbox blank 0x11 demo_link_ok).
  - intros i Hi. apply entry_empty.
  - apply low_page_off_zone. cbn. lia.
  - apply low_page_off_zone. cbn. lia.
  - apply low_page_off_zone. cbn. lia.
  - reflexivity.
  - intros v. reflexivity.
  - reflexivity.
  - cbn. unfold MAX_PROCS. lia.
  - right. vm_compute. split; discriminate.
Qed.

#[local] Existing Instance map_disk.

(** A store to its own page, 4 KB of heap, a timer interrupt, and a store to
    the kernel heap, which ends it. *)
Definition demo_program : list user_event :=
  [Store 0x80100 65; Trap SYS_SBRK 4096 0 0 []; Interrupt 32 0; Store 0x100000 1; Store 0x80100 66].

Lemma user_program_isolated_witness :
  let '(s1, o) := user_run (fault_arm (set_fault demo_sandbox (s_armed demo_sandbox) false)) demo_program in
  isolated demo_sandbox s1 /\ sandbox s1 /\
  match run_user_at_sp demo_sandbox demo_program with
  | Back s' =>
      isolated demo_sandbox s' /\ sandbox s' /\ s_armed s' = false /\
      ((o = Exit_called /\ s_faulted s' = false) \/ (o = Fault_ended /\ s_faulted s' = true))
  | Away s' => s' = s1 /\ (o = Running \/ o = Waiting)
  | Down _ => False
  end.
Proof.
  apply (user_program_isolated demo_sandbox demo_program demo_sandbox_ok).
  repeat constructor; cbn; lia.
Defined.

(** The run ends in the fault, with the first store and the break in effect. *)
Example demo_program_faults :
  match run_user_at_sp demo_sandbox demo_program with
  | Back s' => s_faulted s' = true /\ ld8 (s_ram s') 0x80100 = 65 /\ ld8 (s_ram s') 0x100000 = 0 /\
      brk (cur_proc s') = 0x91000
  | _ => False
  end.
Proof. vm_compute. auto. Qed.
