(* ===== verification/Boot.v ===== *)
(** * Booting (kernel/kernel.c)

    [kmain] up to the point where interrupts are enabled: the installers in
    order, the mounting of the filesystem and the writing of the bundled
    programs.  What the linker decides, addresses of tables and stubs and of
    the embedded programs, is the argument [image]. *)

From stdpp Require Import base gmap list numbers option.
From Stdlib Require Import ZArith Lia Bool.
From S2P Require Import Prelude CString Screen Pmm Vmm VmmLemmas VmmSpec VmmClone VmmTheorems VmmProps Paging Demand Proc FreeList Kheap Interfaces Keyboard Fs Task Tables System Bus Syscall Usermode.

(** An embedded program: its address and its length. *)
Record image := mk_image {
  i_link : link;
  i_stub : Z -> Z;
  i_idt : Z; i_gdt : Z; i_tss : Z; i_stack : Z;
  user_prog : Z * Z; crash_prog : Z * Z; ask_prog : Z * Z; calc_prog : Z * Z; guess_prog : Z * Z;
  note_prog : Z * Z; prog_elf : Z * Z; rocrash_elf : Z * Z; whoami_elf : Z * Z
}.

(** The files [kmain] writes, in order. *)
Definition bundled (I : image) : list (list Z * (Z * Z)) :=
  [(lit "prog", user_prog I); (lit "crash", crash_prog I); (lit "ask", ask_prog I); (lit "calc", calc_prog I);
   (lit "guess", guess_prog I); (lit "note", note_prog I); (lit "prog.elf", prog_elf I);
   (lit "rocrash", rocrash_elf I); (lit "whoami", whoami_elf I)].

Section Boot.
Context {D : Type} {DK : Disk D}.

(** The system with the tables the processor holds and the head of the heap. *)
Record booted := mk_booted {
  b_sys : sys D;
  b_idt : list idt_entry;
  b_gdt : list gdt_entry;
  b_tss : tss_entry;
  b_heap : Z;
  b_cr0 : Z
}.

Definition add_outs (s : sys D) (l : list out) : sys D :=
  fold_left (fun s o => System.outb s (o_port o) (o_value o)) l s.

(** [fs_write(name, data, len)] with data in memory [m]; the result is not used. *)
Definition install_file (m : mem) (f : fs (D := D)) (p : list Z * (Z * Z)) : fs :=
  fst (fs_write f (fst p) m (fst (snd p)) (snd (snd p))).

(** The memory installers, from [paging_install] to [heap_install]; the second
    result is [heap_head], the third CR0. *)
Definition boot_memory (I : image) (s : sys D) (cr0 : Z) : sys D * Z * Z :=
  let '(st, cr0) := paging_install (i_link I) (s_mach s) cr0 in
  let s := set_mach s st in
  let s := set_mach s (with_frames (s_mach s) (pmm_install (8 * 1024 * 1024))) in
  let s := set_mach s (vmm_install (s_mach s) (paging_boot_directory (i_link I))) in
  let s := set_kern s (proc_install (s_kern s)) in
  let h := heap_install (mk_kheap (s_ram s) 0) in
  (set_ram s (h_mem h), heap_head h, cr0).

(** [timer_install(50)] and [keyboard_install()]. *)
Definition boot_devices (s : sys D) : sys D :=
  let s := register_interrupt_handler s 32 timer_cb in
  let s := add_outs s (timer_install 50) in
  keyboard_install s.

(** [fs_init()] and the bundled programs. *)
Definition boot_files (I : image) (s : sys D) : sys D :=
  let s := set_fs s (fs_init (s_fs s)) in
  set_fs s (fold_left (install_file (s_ram s)) (bundled I) (s_fs s)).

Definition kmain (I : image) (s : sys D) (idt : list idt_entry) (gdt : list gdt_entry) (cr0 : Z) : booted :=
  let s := set_scr s (clear_screen (s_scr s)) in
  let s := set_scr s (kprint_color (s_scr s) (lit "PyroOS kernel online." ++ [10]) COLOR_GREEN_ON_BLACK) in
  let '(gdt, tss, _) := gdt_install (i_tss I) (i_gdt I) (i_stack I) gdt in
  let '(idt, _, outs) := idt_install (i_stub I) (i_idt I) idt in
  let s := add_outs s outs in
  let idt := syscall_install (i_stub I) idt in
  let '(s, heap, cr0) := boot_memory I s cr0 in
  let s := boot_devices s in
  let s := boot_files I s in
  let s := set_scr s (kprint (s_scr s) (lit "Subsystems: interrupts, paging, heap, timer, keyboard, fs." ++ [10])) in
  mk_booted s idt gdt tss heap cr0.

(** ** Lemmas *)

(** Port writes and messages change nothing else. *)
Record same_core (s s' : sys D) : Prop := {
  sc_kern : s_kern s' = s_kern s;
  sc_dem : s_dem s' = s_dem s;
  sc_fs : s_fs s' = s_fs s;
  sc_handlers : s_handlers s' = s_handlers s
}.

#[local] Instance same_core_preorder : PreOrder same_core.
Proof. split; [intros s; constructor; reflexivity|]. intros a b c [] []. constructor; congruence. Qed.

Lemma set_scr_core s x : same_core s (set_scr s x).
Proof. constructor; reflexivity. Qed.

Lemma add_outs_core l : forall s, same_core s (add_outs s l).
Proof.
  induction l as [|o l IH]; intros s; [reflexivity|]. etransitivity; [|apply IH]. constructor; reflexivity.
Qed.

(** A machine with the same directory and the same page tables. *)
Lemma sandbox_ext (s s' : sys D) :
  let d := active_dir (s_mach s) in
  sandbox s -> cr3 (s_mach s') = cr3 (s_mach s) -> s_dem s' = s_dem s ->
  (forall x, pg x = d -> ld8 (s_ram s') x = ld8 (s_ram s) x) ->
  (forall j x, 0 <= j < 1024 -> slot_present (s_ram s) d j = true -> pg x = slot_tab (s_ram s) d j ->
     ld8 (s_ram s') x = ld8 (s_ram s) x) ->
  tlen (table (s_kern s')) = MAX_PROCS -> 0 <= current_idx (s_kern s') < MAX_PROCS -> brk_valid (cur_proc s') ->
  sandbox s'.
Proof.
  intros d [[Pd Zd] Zt Hr Hc Hp _ _] Ec Ed Md Mt L C B.
  assert (Ea : active_dir (s_mach s') = d) by (unfold active_dir, d; rewrite Ec; reflexivity).
  assert (Es : forall j, 0 <= j < 1024 -> entry (s_ram s') d j = entry (s_ram s) d j)
    by (intros j Hj; apply entry_ext; auto).
  assert (Et : forall v, slot_present (s_ram s) d (DIR_INDEX v) = true ->
    entry (s_ram s') (slot_tab (s_ram s) d (DIR_INDEX v)) (TAB_INDEX v)
    = entry (s_ram s) (slot_tab (s_ram s) d (DIR_INDEX v)) (TAB_INDEX v)).
  { intros v P. apply entry_ext; [apply slot_tab_page|apply TAB_INDEX_range|]. intros x Hx.
    apply (Mt (DIR_INDEX v)); [apply DIR_INDEX_range|assumption|assumption]. }
  assert (Ep : forall v, pte (s_mach s') d v = pte (s_mach s) d v /\
                         vmm_translate (s_mach s') d v = vmm_translate (s_mach s) d v).
  { intros v. specialize (Et v). specialize (Es _ (DIR_INDEX_range v)).
    unfold pte, vmm_translate, table_for, slot_present, slot_tab, is_present, s_ram in *.
    rewrite Es. destruct (tst (entry (ram (s_mach s)) d (DIR_INDEX v)) PF_PRESENT); cbn [negb]; [|auto].
    rewrite Et by reflexivity. auto. }
  constructor; rewrite ?Ea, ?Ed; auto.
  - intros j Hj. unfold slot_present, slot_tab. rewrite Es by exact Hj. apply Zt, Hj.
  - intros v Hv. destruct (Ep v) as [E1 E2]. unfold ring3_reaches. fold (s_ram s').
    rewrite E1, E2, (Es _ (DIR_INDEX_range v)). apply Hr, Hv.
  - intros v Hv. rewrite (proj1 (Ep v)). apply Hc, Hv.
Qed.

(** The machine after the memory installers, and its memory with the heap. *)
Definition boot_machine (I : image) (st : machine) (cr0 : Z) : machine :=
  vmm_install (with_frames (fst (paging_install (i_link I) st cr0)) (pmm_install (8 * 1024 * 1024)))
    (paging_boot_directory (i_link I)).

Definition heap_ram (I : image) (st : machine) (cr0 : Z) : mem :=
  h_mem (heap_install (mk_kheap (ram (boot_machine I st cr0)) 0)).

Lemma boot_memory_fields I s cr0 :
  let '(s', h, _) := boot_memory I s cr0 in
  let m := boot_machine I (s_mach s) cr0 in
  s_kern s' = with_mach (proc_install (with_mach (s_kern s) m)) (with_ram m (heap_ram I (s_mach s) cr0)) /\
  s_dem s' = s_dem s /\ s_fs s' = s_fs s /\ s_handlers s' = s_handlers s /\ h = HEAP_START.
Proof.
  unfold boot_memory, heap_ram, boot_machine. destruct (paging_install (i_link I) (s_mach s) cr0) as [st cr].
  repeat (split; [exact eq_refl|]). exact eq_refl.
Qed.

Lemma boot_devices_fields s :
  s_kern (boot_devices s) = s_kern s /\ s_dem (boot_devices s) = s_dem s /\ s_fs (boot_devices s) = s_fs s /\
  s_handlers (boot_devices s) = tset (tset (s_handlers s) 32 timer_cb) 33 keyboard_cb.
Proof.
  destruct (add_outs_core (timer_install 50) (register_interrupt_handler s 32 timer_cb)) as [D1 D2 D3 D4].
  unfold boot_devices, keyboard_install, register_interrupt_handler at 1 3 5 7. cbn [set_handlers s_kern s_dem s_fs s_handlers].
  rewrite D1, D2, D3, D4. auto.
Qed.

Lemma kmain_fields I s idt gdt cr0 :
  let s' := b_sys (kmain I s idt gdt cr0) in
  let m := boot_machine I (s_mach s) cr0 in
  let r := heap_ram I (s_mach s) cr0 in
  s_kern s' = with_mach (proc_install (with_mach (s_kern s) m)) (with_ram m r) /\
  s_dem s' = s_dem s /\ s_handlers s' = tset (tset (s_handlers s) 32 timer_cb) 33 keyboard_cb /\
  s_fs s' = fold_left (install_file r) (bundled I) (fs_init (s_fs s)) /\
  b_heap (kmain I s idt gdt cr0) = HEAP_START.
Proof.
  unfold kmain. destruct (gdt_install _ _ _ gdt) as [[g t] gp]. destruct (idt_install _ _ idt) as [[i ip] outs]. cbv zeta.
  match goal with |- context [boot_memory I ?x cr0] => assert (C : same_core s x) end.
  { etransitivity; [|apply add_outs_core]. etransitivity; apply set_scr_core. }
  match goal with |- context [boot_memory I ?x cr0] => generalize dependent x end. intros s0 [C1 C2 C3 C4].
  pose proof (boot_memory_fields I s0 cr0) as F. unfold s_mach in *. rewrite C1 in F.
  destruct (boot_memory I s0 cr0) as [[s1 h] cr]. destruct F as (F1 & F2 & F3 & F4 & ->). cbn [b_sys b_heap].
  destruct (boot_devices_fields s1) as (D1 & D2 & D3 & D4). generalize dependent (boot_devices s1). intros s2 D1 D2 D3 D4.
  cbn [set_scr boot_files set_fs s_kern s_dem s_handlers s_fs]. unfold boot_files, s_ram, s_mach. cbn [set_fs s_kern s_dem s_handlers s_fs].
  rewrite D1, D2, D3, D4, F1, F2, F3, F4, C2, C3, C4. auto.
Qed.

(** ** The files *)

Section Laws.
Context {DL : DiskLaws D}.
Hypothesis Hdisk : DATA_LBA + MAX_FILES * SLOT_SECTORS <= disk_size.
Hypothesis Hds : disk_size <= 0x100000000.

(** What the disk holds when the machine starts: the files an earlier run left
    behind, or no filesystem. *)
Definition disk_holds (f0 : fs (D := D)) (look : list Z -> option (list Z)) : Prop :=
  (exists f c, fs_ok f c /\ synced f /\ dev f0 = dev f /\ forall nm, look nm = lookup_file f nm) \/
  (disk_ok (dev f0) /\ sup_magic (super (load_meta f0)) <> FS_MAGIC /\ forall nm, look nm = None).

Lemma fs_init_holds f0 look :
  disk_holds f0 look ->
  exists c, fs_ok (fs_init f0) c /\ synced (fs_init f0) /\ forall nm, lookup_file (fs_init f0) nm = look nm.
Proof.
  unfold fs_init. intros [(f & c & O & Sy & Ed & E)|(Hd & Hm & E)].
  - destruct (load_synced Hdisk f0 f c O Sy Ed) as (L1 & L2 & L3). exists c.
    rewrite (fo_magic _ _ L1), Z.eqb_refl. cbn [negb]. split; [exact L1|]. split; [exact L2|].
    intros nm. rewrite L3, E. reflexivity.
  - apply Z.eqb_neq in Hm. rewrite Hm. cbn [negb]. exists 0.
    destruct (format_spec Hdisk (load_meta f0)) as (F1 & F2 & F3); [apply (load_meta_spec Hdisk), Hd|].
    split; [exact F1|]. split; [exact F2|]. intros nm. rewrite F3, E. reflexivity.
Qed.

(** A file that can be written: a short name and a length. *)
Definition file_ok (p : list Z * (Z * Z)) : Prop :=
  bytes (fst p) /\ tlen (text (fst p)) < NAME_LEN /\ 0 <= snd (snd p).

Lemma install_files_ok m l : forall f c,
  fs_ok f c -> synced f -> Forall file_ok l ->
  (exists c', fs_ok (fold_left (install_file m) l f) c') /\ synced (fold_left (install_file m) l f) /\
  forall nm, (forall p, In p l -> text nm <> text (fst p)) ->
    lookup_file (fold_left (install_file m) l f) nm = lookup_file f nm.
Proof.
  induction l as [|p l IH]; intros f c O Sy H; cbn [fold_left]; [eauto|].
  apply Forall_cons_iff in H as [(B & Hn & Hl) H].
  pose proof (fs_write_spec Hdisk Hds f c (fst p) m (fst (snd p)) (snd (snd p)) O Sy B Hn Hl) as W.
  unfold install_file at 2 4 6. destruct (fs_write f (fst p) m (fst (snd p)) (snd (snd p))) as [f' r]. cbn [fst].
  destruct W as [(_ & -> & _)|(_ & [c' O'] & Sy' & _ & W)].
  - destruct (IH f c O Sy H) as (I1 & I2 & I3). split; [exact I1|]. split; [exact I2|].
    intros nm N. apply I3. intros q Hq. apply N. right. exact Hq.
  - destruct (IH f' c' O' Sy' H) as (I1 & I2 & I3). split; [exact I1|]. split; [exact I2|].
    intros nm N. rewrite I3; [apply W, N; left; reflexivity|]. intros q Hq. apply N. right. exact Hq.
Qed.

Lemma bundled_ok I : Forall (fun p => 0 <= snd (snd p)) (bundled I) -> Forall file_ok (bundled I).
Proof.
  unfold bundled. intros H. repeat (apply Forall_cons_iff in H as [? H]). clear H.
  repeat (apply List.Forall_cons; [split; [apply lit_bytes|]; split; [reflexivity|assumption]|]). apply List.Forall_nil.
Qed.

End Laws.

(** ** The memory *)

(** The heap header is the only thing written after the page tables. *)
Lemma heap_ram_ext I st cr0 x :
  pg x <> HEAP_START -> ld8 (heap_ram I st cr0) x = ld8 (ram (fst (paging_install (i_link I) st cr0))) x.
Proof.
  intros Hx. unfold heap_ram, heap_install, set_size, set_free, set_next. cbn [h_mem boot_machine vmm_install with_frames ram].
  rewrite !ld8_st32_out; [reflexivity|..]; unfold HEAP_START, pg in *; zdm.
Qed.

(** The linker puts the boot page tables below the user zone (the kernel starts
    at 0x10000), in .bss, which is zero. *)
Record image_ok (I : image) (m : mem) : Prop := {
  im_link : link_ok (i_link I);
  im_low : page_directory (i_link I) < 0x7F000 /\ first_page_table (i_link I) < 0x7F000 /\
    second_page_table (i_link I) < 0x7F000;
  im_bss : forall i, 2 <= i < 1024 -> entry m (page_directory (i_link I)) i = 0;
  im_sizes : Forall (fun p => 0 <= snd (snd p)) (bundled I)
}.

(** The present slots of the boot directory are its two tables. *)
Lemma boot_slots I (st : machine) cr0 j :
  let m := ram (fst (paging_install (i_link I) st cr0)) in
  image_ok I (ram st) -> 0 <= j < 1024 -> slot_present m (page_directory (i_link I)) j = true ->
  slot_tab m (page_directory (i_link I)) j = first_page_table (i_link I) \/
  slot_tab m (page_directory (i_link I)) j = second_page_table (i_link I).
Proof.
  intros m [K _ Hz _] Hj P. destruct (paging_install_entries (i_link I) st cr0 K) as (E0 & E1 & Ei & _).
  destruct K as [(_ & P2 & P3) (_ & R2 & R3) _]. unfold MANAGED_BASE in *. unfold slot_tab, slot_present, m in *.
  assert (C : j = 0 \/ j = 1 \/ 2 <= j < 1024) by lia. destruct C as [->|[->|C]].
  - left. rewrite E0. apply FRAME_OF_add; auto; lia.
  - right. rewrite E1. apply FRAME_OF_add; auto; lia.
  - rewrite Ei, Hz in P by exact C. change (is_present 0) with false in P. congruence.
Qed.

Lemma boot_sandbox I (s s' : sys D) cr0 :
  let m := boot_machine I (s_mach s) cr0 in
  image_ok I (s_ram s) -> s_dem s = demand_boot -> s_dem s' = s_dem s ->
  s_kern s' = with_mach (proc_install (with_mach (s_kern s) m)) (with_ram m (heap_ram I (s_mach s) cr0)) ->
  sandbox s'.
Proof.
  intros m K Ed Fd Fk. pose proof K as [Kl (L1 & L2 & L3) Kz _].
  pose proof (lk_range _ Kl) as (R1 & R2 & R3). pose proof (lk_pages _ Kl) as (P1 & _).
  set (P := fst (paging_install (i_link I) (s_mach s) cr0)).
  assert (T : tlen (table (s_kern s')) = MAX_PROCS /\ 0 <= current_idx (s_kern s') < MAX_PROCS /\ brk_valid (cur_proc s')).
  { unfold cur_proc. rewrite Fk. cbn. unfold MAX_PROCS. repeat split; try lia. left. reflexivity. }
  destruct T as (T1 & T2 & T3). assert (Pa : active_dir P = page_directory (i_link I)) by (apply FRAME_OF_id; [cbn; lia|exact P1]).
  assert (H : forall x b, 0 <= b < 0x7F000 -> pg x = b -> ld8 (s_ram s') x = ld8 (ram P) x).
  { intros x b Hb Hx. unfold s_ram, s_mach. rewrite Fk. cbn [with_mach mach with_ram ram]. apply heap_ram_ext.
    unfold HEAP_START. lia. }
  apply (sandbox_ext (set_mach s' P)); [| | | | |exact T1|exact T2|exact T3].
  - apply (paging_sandbox (i_link I) (set_mach s' P) (s_mach s) cr0 Kl Kz);
      [apply low_page_off_zone; lia|apply low_page_off_zone; lia|apply low_page_off_zone; lia|exact eq_refl| |exact T1|exact T2|exact T3].
    cbn [set_mach set_kern s_dem]. rewrite Fd, Ed. intros v. reflexivity.
  - change (s_mach (set_mach s' P)) with P. unfold s_mach. rewrite Fk. exact eq_refl.
  - exact eq_refl.
  - change (s_mach (set_mach s' P)) with P. change (s_ram (set_mach s' P)) with (ram P). rewrite Pa.
    intros x Hx. apply (H x (page_directory (i_link I))); [lia|exact Hx].
  - change (s_ram (set_mach s' P)) with (ram P). change (s_mach (set_mach s' P)) with P. rewrite Pa. intros j x Hj Pj Hx.
    destruct (boot_slots I (s_mach s) cr0 j K Hj Pj) as [E|E]; fold P in E; rewrite E in Hx.
    + apply (H x (first_page_table (i_link I))); [lia|exact Hx].
    + apply (H x (second_page_table (i_link I))); [lia|exact Hx].
Qed.

Lemma boot_machine_fields I st cr0 :
  kernel_dir (boot_machine I st cr0) = page_directory (i_link I) /\
  cr3 (boot_machine I st cr0) = page_directory (i_link I) /\
  frames (boot_machine I st cr0) = pmm_install 0x800000.
Proof. unfold boot_machine, paging_install. cbn [fst with_frames vmm_install kernel_dir cr3 frames vmm_switch]. auto. Qed.

(** The kernel's own process, in the boot directory. *)
Lemma boot_proc (k : kernel) (m : machine) (r : mem) :
  1 <= next_pid k <= INT_MAX -> kernel_dir m <> 0 -> cr3 m = kernel_dir m ->
  proc_wf (with_mach (proc_install (with_mach k m)) (with_ram m r)).
Proof.
  intros Hn Hk Hc. apply (proc_wf_ext (proc_install (with_mach k m))).
  - apply proc_install_wf; assumption.
  - cbn [with_mach table proc_install]. rewrite tlen_tset, tlen_replicate. reflexivity.
  - reflexivity.
  - reflexivity.
  - split; reflexivity.
  - intros i _. split; [reflexivity|]. split; [reflexivity|]. split; [reflexivity|auto].
Qed.

Lemma boot_heap I st cr0 : heap_ok (mk_kheap (heap_ram I st cr0) HEAP_START) [mk_block (HEAP_SIZE - KHDR) true].
Proof. exact (heap_install_ok (mk_kheap (ram (boot_machine I st cr0)) 0)). Qed.

Lemma boot_pool : pmm_free_frames (pmm_install 0x800000) = 1024.
Proof. reflexivity. Qed.

(** C20. Booting.  [kmain] leaves a system in which every invariant of the
    components holds: the process table with the kernel running in the boot
    directory, 1024 free frames, one free block as the heap, an address space
    that confines ring 3, the timer and keyboard handlers registered, and a
    mounted filesystem; files of an earlier run that are not among the bundled
    programs are still there. *)
Theorem kmain_boots {DL : DiskLaws D} (I : image) (s : sys D) (idt : list idt_entry) (gdt : list gdt_entry)
    (cr0 : Z) (look : list Z -> option (list Z)) :
  DATA_LBA + MAX_FILES * SLOT_SECTORS <= disk_size -> disk_size <= 0x100000000 ->
  image_ok I (s_ram s) -> s_dem s = demand_boot -> s_handlers s = replicate 256 NoHandler ->
  1 <= next_pid (s_kern s) <= INT_MAX -> disk_holds (s_fs s) look ->
  let b := kmain I s idt gdt cr0 in
  let s' := b_sys b in
  proc_wf (s_kern s') /\ machine_ok (s_mach s') /\ pmm_free_frames (frames (s_mach s')) = 1024 /\
  heap_ok (mk_kheap (s_ram s') (b_heap b)) [mk_block (HEAP_SIZE - KHDR) true] /\
  sandbox s' /\ drivers s' /\ (exists c, fs_ok (s_fs s') c) /\ synced (s_fs s') /\
  forall nm, (forall p, In p (bundled I) -> text nm <> text (fst p)) -> lookup_file (s_fs s') nm = look nm.
Proof.
  intros Hd Hs K Ed Eh Hn Hf. destruct (kmain_fields I s idt gdt cr0) as (Fk & Fd & Fh & Ff & Fb). cbv zeta in *.
  generalize dependent (kmain I s idt gdt cr0). intros b Fk Fd Fh Ff Fb.
  pose proof (boot_sandbox I s (b_sys b) cr0 K Ed Fd Fk) as Sb.
  pose proof (lk_range _ (im_link _ _ K)) as (R1 & _). pose proof (lk_pages _ (im_link _ _ K)) as (P1 & _).
  destruct (boot_machine_fields I (s_mach s) cr0) as (M1 & M2 & M3).
  split; [|split; [|split; [|split; [|split; [exact Sb|split]]]]].
  - rewrite Fk. apply boot_proc; [exact Hn|rewrite M1; lia|congruence].
  - unfold s_mach at 1. rewrite Fk. constructor; cbn [with_mach mach with_ram frames kernel_dir]; rewrite ?M1, ?M3;
      [apply pmm_install_wf; lia|exact P1|lia].
  - unfold s_mach at 1. rewrite Fk. cbn [with_mach mach with_ram frames]. rewrite M3. apply boot_pool.
  - rewrite Fb. unfold s_ram, s_mach at 1. rewrite Fk. apply boot_heap.
  - intros n. rewrite Fh, Eh. apply handlers_installed.
  - destruct (fs_init_holds Hd (s_fs s) look Hf) as (c & O & Sy & E).
    destruct (install_files_ok Hd Hs (heap_ram I (s_mach s) cr0) (bundled I) (fs_init (s_fs s)) c O Sy
      (bundled_ok I (im_sizes _ _ K))) as (I1 & I2 & I3). rewrite Ff. split; [exact I1|]. split; [exact I2|].
    intros nm N. rewrite (I3 nm N). apply E.
Qed.

End Boot.

(** ** A machine with a blank disk *)

#[local] Existing Instance map_disk.
#[local] Existing Instance map_disk_laws.

Definition demo_image : image :=
  mk_image demo_link (fun n => 0x10000 + 16 * n) 0x30000 0x31000 0x32000 0x33000
    (0x40000, 300) (0x41000, 120) (0x42000, 400) (0x43000, 900) (0x44000, 800) (0x45000, 1500)
    (0x46000, 5000) (0x48000, 4500) (0x4A000, 4600).

Definition power_on : sys mem :=
  boot_sys (mk_kernel (replicate 16 zero_proc) 1 0 blank) (mk_fs ∅ ∅ ∅ ∅).

Lemma demo_image_ok : image_ok demo_image (s_ram power_on).
Proof.
  constructor; [apply demo_link_ok|cbn; lia|intros i _; apply entry_empty|].
  repeat (apply List.Forall_cons; [cbn; lia|]). apply List.Forall_nil.
Qed.

Lemma blank_disk_holds : disk_holds (s_fs power_on) (fun _ => None).
Proof. right. split; [exact I|]. split; [vm_compute; discriminate|reflexivity]. Qed.

Lemma kmain_boots_witness :
  let b := kmain demo_image power_on (replicate 256 no_gate) (replicate 6 no_seg) 0x11 in
  let s' := b_sys b in
  proc_wf (s_kern s') /\ machine_ok (s_mach s') /\ pmm_free_frames (frames (s_mach s')) = 1024 /\
  heap_ok (mk_kheap (s_ram s') (b_heap b)) [mk_block (HEAP_SIZE - KHDR) true] /\
  sandbox s' /\ drivers s' /\ (exists c, fs_ok (s_fs s') c) /\ synced (s_fs s') /\
  forall nm, (forall p, In p (bundled demo_image) -> text nm <> text (fst p)) ->
    lookup_file (s_fs s') nm = None.
Proof.
  exact (kmain_boots demo_image power_on (replicate 256 no_gate) (replicate 6 no_seg) 0x11 (fun _ => None)
    map_disk_big map_disk_small demo_image_ok eq_refl eq_refl ltac:(cbn; unfold INT_MAX; lia) blank_disk_holds).
Defined.
