(* ===== verification/Logo.v ===== *)
(** * The boot logo (kernel/logo.c)

    The flame drawn with coloured block characters, and the splash that shows
    it for a number of timer ticks.  The wait is the list of interrupts that
    wake the processor, as in [Syscall]. *)

From stdpp Require Import base gmap list numbers option.
From Stdlib Require Import ZArith Lia Bool.
From S2P Require Import Prelude CString Screen Interfaces Proc Keyboard Fs Task Tables System Syscall.

Definition BLOCK : Z := 0xDB.

Definition flame : list (list Z) :=
  [lit "        w        ";
   lit "       www       ";
   lit "       wyw       ";
   lit "      wwyww      ";
   lit "      wyyyw      ";
   lit "     wyyoyyw     ";
   lit "     yyoooyy     ";
   lit "    yyoRRRoyy    ";
   lit "   yyoRRRRRoyy   ";
   lit "   yoRRRRRRRoy   ";
   lit "  yoRRRrrrRRRoy  ";
   lit "  oRRRrrrrrRRRo  ";
   lit " RRRRrrrrrrrRRRR ";
   lit " RRRrrrrrrrrrRRR ";
   lit "  RRrrrrrrrrrRR  ";
   lit "   RrrrrrrrrrR   ";
   lit "    rrrrrrrrr    "].

Definition NROWS : Z := tlen flame.

(** The letters 'w', 'y', 'o', 'R', 'r'. *)
Definition color_of (p : Z) : Z :=
  if p =? 119 then 0x0F
  else if p =? 121 then 0x0E
  else if p =? 111 then 0x06
  else if p =? 82 then 0x0C
  else if p =? 114 then 0x04
  else 0.

Fixpoint draw_string (x : screen) (row col : Z) (s : list Z) (color : Z) : screen :=
  match s with
  | [] => x
  | c :: s => if c =? 0 then x else draw_string (screen_put x row col (u8 c) color) row (col + 1) s color
  end.

(** One row of the flame, from column [c] of the bitmap on. *)
Fixpoint draw_row (x : screen) (row col : Z) (s : list Z) : screen :=
  match s with
  | [] => x
  | p :: s =>
      if p =? 0 then x
      else
        let k := color_of p in
        draw_row (if negb (k =? 0) then screen_put x row col BLOCK k else x) row (col + 1) s
  end.

Definition draw_logo (x : screen) : screen :=
  let x := clear_screen x in
  let base_row := 2 in
  let base_col := 31 in
  let x := for_range 0 NROWS (fun r x => draw_row x (base_row + r) base_col (tget [] flame r)) x in
  let x := draw_string x (base_row + NROWS + 1) ((80 - 11) / 2) (lit "P Y R O O S") 0x0E in
  draw_string x (base_row + NROWS + 2) ((80 - 33) / 2) (lit "a from-scratch x86 operating system") 0x07.

Section Splash.
Context {D : Type} {DK : Disk D}.

(** [while (timer_ticks() - start < ticks) hlt;] *)
Definition splash_loop (start ticks : Z) (wakeups : list (list (Z * Z))) (s : sys D) : sys D * bool :=
  wait_while (fun s => u32 (timer_ticks s - start) <? ticks) wakeups s.

(** The second result is false while the splash is still shown. *)
Definition logo_splash (s : sys D) (ticks : Z) (wakeups : list (list (Z * Z))) : sys D * bool :=
  let s := set_scr s (draw_logo (s_scr s)) in
  match splash_loop (timer_ticks s) ticks wakeups s with
  | (s, true) => (set_scr s (clear_screen (s_scr s)), true)
  | r => r
  end.

End Splash.

(** ** The picture *)

(** What the screen shows at a cell, from the bitmap and the two captions. *)
Definition caption (row col at_row at_col : Z) (s : list Z) (color : Z) : option (Z * Z) :=
  if (row =? at_row) && (at_col <=? col) && (col <? at_col + tlen s) then Some (tget 0 s (col - at_col), color) else None.

Definition pixel (row col : Z) : option (Z * Z) :=
  let k := color_of (tget 0 (tget [] flame (row - 2)) (col - 31)) in
  if (2 <=? row) && (row <? 19) && (31 <=? col) && (col <? 48) && negb (k =? 0) then Some (BLOCK, k) else None.

Definition logo_cell (row col : Z) : Z * Z :=
  match pixel row col, caption row col 20 34 (lit "P Y R O O S") 0x0E,
        caption row col 21 23 (lit "a from-scratch x86 operating system") 0x07 with
  | Some p, _, _ | None, Some p, _ | None, None, Some p => p
  | None, None, None => (32, COLOR_WHITE_ON_BLACK)
  end.

(** A cell that is written. *)
Record dot := mk_dot { d_row : Z; d_col : Z; d_char : Z; d_color : Z }.

Definition put_dot (x : screen) (d : dot) : screen := screen_put x (d_row d) (d_col d) (d_char d) (d_color d).

Fixpoint string_dots (row col : Z) (s : list Z) (color : Z) : list dot :=
  match s with
  | [] => []
  | c :: s => if c =? 0 then [] else mk_dot row col (u8 c) color :: string_dots row (col + 1) s color
  end.

Fixpoint row_dots (row col : Z) (s : list Z) : list dot :=
  match s with
  | [] => []
  | p :: s =>
      if p =? 0 then []
      else (if negb (color_of p =? 0) then [mk_dot row col BLOCK (color_of p)] else []) ++ row_dots row (col + 1) s
  end.

Lemma draw_string_dots s color : forall x row col,
  draw_string x row col s color = fold_left put_dot (string_dots row col s color) x.
Proof.
  induction s as [|c s IH]; intros x row col; [reflexivity|]. cbn [draw_string string_dots].
  destruct (c =? 0); [reflexivity|]. cbn [fold_left]. apply IH.
Qed.

Lemma draw_row_dots s : forall x row col, draw_row x row col s = fold_left put_dot (row_dots row col s) x.
Proof.
  induction s as [|p s IH]; intros x row col; [reflexivity|]. cbn [draw_row row_dots].
  destruct (p =? 0); [reflexivity|]. rewrite fold_left_app. cbv zeta. rewrite IH.
  destruct (negb (color_of p =? 0)); reflexivity.
Qed.

Lemma for_range_dots (L : Z -> list dot) n : forall a x,
  for_range a (a + Z.of_nat n) (fun r x => fold_left put_dot (L r) x) x
  = fold_left put_dot (flat_map L (seqZ a (Z.of_nat n))) x.
Proof.
  induction n as [|n IH]; intros a x.
  - rewrite for_range_empty by lia. reflexivity.
  - rewrite for_range_step, Nat2Z.inj_succ by lia. rewrite seqZ_cons by lia. cbn [flat_map].
    rewrite fold_left_app. replace (a + Z.succ (Z.of_nat n)) with (a + 1 + Z.of_nat n) by lia.
    rewrite IH. repeat f_equal; lia.
Qed.

Definition logo_dots : list dot :=
  flat_map (fun r => row_dots (2 + r) 31 (tget [] flame r)) (seqZ 0 17) ++
  string_dots 20 34 (lit "P Y R O O S") 0x0E ++
  string_dots 21 23 (lit "a from-scratch x86 operating system") 0x07.

Lemma draw_logo_dots x : draw_logo x = fold_left put_dot logo_dots (clear_screen x).
Proof.
  unfold draw_logo, logo_dots. generalize (clear_screen x). intros y.
  change (2 + NROWS + 1) with 20. change (2 + NROWS + 2) with 21. change ((80 - 11) / 2) with 34. change ((80 - 33) / 2) with 23.
  rewrite !draw_string_dots, !fold_left_app. cbv zeta.
  rewrite <- (for_range_dots (fun r => row_dots (2 + r) 31 (tget [] flame r)) 17 0).
  change (0 + Z.of_nat 17) with NROWS.
  rewrite (for_range_rel (fun _ => eq) 0 NROWS _ (fun r x => fold_left put_dot (row_dots (2 + r) 31 (tget [] flame r)) x) y y);
    [reflexivity|discriminate|reflexivity|].
  intros r s s' _ <-. apply draw_row_dots.
Qed.

(** The last dot at a cell. *)
Definition dot_at (l : list dot) (row col : Z) : option (Z * Z) :=
  fold_left (fun o d => if (d_row d =? row) && (d_col d =? col) then Some (d_char d, d_color d) else o) l None.

Lemma fold_dots_at l row col : forall o,
  fold_left (fun o d => if (d_row d =? row) && (d_col d =? col) then Some (d_char d, d_color d) else o) l o
  = match dot_at l row col with Some p => Some p | None => o end.
Proof.
  induction l as [|d l IH]; intros o; [reflexivity|]. unfold dot_at. cbn [fold_left]. rewrite !IH.
  destruct (dot_at l row col); [reflexivity|]. destruct (_ && _)%bool; reflexivity.
Qed.

Definition on_screen (row col : Z) : Prop := 0 <= row < ROWS /\ 0 <= col < COLS.

Definition cell (x : screen) (row col : Z) : Z * Z := (cell_char x (row * COLS + col), cell_attr x (row * COLS + col)).

Lemma cell_put x d row col :
  0 <= d_row d < ROWS -> 0 <= d_col d < COLS -> 0 <= d_char d < 256 -> on_screen row col ->
  cell (put_dot x d) row col
  = if (d_row d =? row) && (d_col d =? col) then (d_char d, d_color d) else cell x row col.
Proof.
  intros Hr Hc Hb [H1 H2]. unfold cell, put_dot, screen_put, cell_char, cell_attr, ROWS, COLS in *.
  replace (_ || _ || _ || _)%bool with false by (symmetry; zcase; lia). cbn [video].
  rewrite !aget_put_cell. rewrite u8_small by lia.
  destruct (Z.eqb_spec (d_row d) row) as [<-|], (Z.eqb_spec (d_col d) col) as [<-|]; cbn [andb];
    repeat match goal with |- context [?a =? ?b] => destruct (Z.eqb_spec a b); try lia end; reflexivity.
Qed.

Lemma cell_fold l : forall x row col,
  Forall (fun d => 0 <= d_row d < ROWS /\ 0 <= d_col d < COLS /\ 0 <= d_char d < 256) l -> on_screen row col ->
  cell (fold_left put_dot l x) row col = default (cell x row col) (dot_at l row col).
Proof.
  induction l as [|d l IH]; intros x row col F H; [reflexivity|].
  apply Forall_cons_iff in F as [(F1 & F2 & F3) F]. cbn [fold_left]. rewrite IH by assumption.
  unfold dot_at at 2. cbn [fold_left]. rewrite fold_dots_at. rewrite cell_put by assumption.
  destruct (dot_at l row col); [reflexivity|]. destruct (_ && _)%bool; reflexivity.
Qed.

Lemma cell_clear x row col : on_screen row col -> cell (clear_screen x) row col = (32, COLOR_WHITE_ON_BLACK).
Proof.
  intros [H1 H2]. unfold cell, cell_char, cell_attr, clear_screen, ROWS, COLS in *. cbn [video]. change (80 * 25) with 2000.
  set (i := row * 80 + col). assert (Hi : 0 <= i < 2000) by (unfold i; lia).
  pose proof (for_range_ind (fun n v => forall k, 0 <= k < n -> aget v (k * 2) = 32 /\ aget v (k * 2 + 1) = COLOR_WHITE_ON_BLACK)
    0 2000 (fun i v => put_cell v i 32 COLOR_WHITE_ON_BLACK) (video x)) as K. cbv beta in K.
  destruct (K ltac:(lia) ltac:(intros; lia)) with (k := i) as [-> ->]; [|exact Hi|reflexivity].
  intros n v Hn IH k Hk. rewrite !aget_put_cell. change (u8 32) with 32.
  destruct (Z.eq_dec k n) as [->|N].
  - replace (n * 2 =? 2 * n) with true by (symmetry; apply Z.eqb_eq; lia).
    destruct (Z.eqb_spec (n * 2 + 1) (2 * n)); [lia|]. destruct (Z.eqb_spec (n * 2 + 1) (2 * n + 1)); [auto|lia].
  - repeat match goal with |- context [?a =? ?b] => destruct (Z.eqb_spec a b); try lia end. apply IH. lia.
Qed.

Lemma logo_dots_ok : Forall (fun d => 0 <= d_row d < ROWS /\ 0 <= d_col d < COLS /\ 0 <= d_char d < 256) logo_dots.
Proof.
  apply List.Forall_forall.
  assert (E : forallb (fun d => (0 <=? d_row d) && (d_row d <? 25) && (0 <=? d_col d) && (d_col d <? 80) &&
    (0 <=? d_char d) && (d_char d <? 256)) logo_dots = true) by (vm_compute; reflexivity).
  intros x Hx. rewrite forallb_forall in E. specialize (E x Hx). unfold ROWS, COLS. b2p. lia.
Qed.

(** The dots, cell by cell, are the bitmap and the captions. *)
Lemma logo_dots_at row col : on_screen row col ->
  default (32, COLOR_WHITE_ON_BLACK) (dot_at logo_dots row col) = logo_cell row col.
Proof.
  intros [H1 H2].
  assert (E : forallb (fun i => bool_decide (default (32, COLOR_WHITE_ON_BLACK) (dot_at logo_dots (i / 80) (i mod 80))
    = logo_cell (i / 80) (i mod 80))) (seqZ 0 2000) = true) by (vm_compute; reflexivity).
  rewrite forallb_seqZ in E. unfold ROWS, COLS in *. specialize (E (row * 80 + col) ltac:(lia)).
  apply bool_decide_eq_true in E. rewrite Z.div_add_l, Z.div_small, Z.add_0_r in E by lia.
  rewrite Z.add_comm, Z.mod_add, Z.mod_small in E by lia. exact E.
Qed.

(** Whatever the screen showed before, [draw_logo] makes every cell of it what
    the bitmap and the two captions say, blank elsewhere, and writes nothing
    outside the screen. *)
Lemma draw_logo_picture (x : screen) (row col : Z) :
  on_screen row col -> screen_ok x -> cell (draw_logo x) row col = logo_cell row col /\ confined x (draw_logo x).
Proof.
  intros H K. rewrite draw_logo_dots. split.
  - rewrite cell_fold by (exact logo_dots_ok || exact H). rewrite cell_clear by exact H. apply logo_dots_at, H.
  - assert (C : forall l y, confined x y -> confined x (fold_left put_dot l y)).
    { induction l as [|d l IH]; intros y Hy; [exact Hy|]. apply IH. eapply confined_trans; [exact Hy|].
      apply (screen_step_confined y (PutAt (d_row d) (d_col d) (d_char d) (d_color d))), Hy. }
    apply C, (screen_step_confined x Clear), K.
Qed.

Section Wait.
Context {D : Type} {DK : Disk D}.

(** The splash.  [logo_splash] shows the logo until the first wakeup by
    which the given number of timer ticks has passed, also when the 32-bit tick
    counter wraps in between, and then leaves a blank screen with the cursor at
    its start; nothing but keyboard, clock and scheduler changes meanwhile. *)
Theorem logo_splash_waits (s : sys D) (n : Z) (ws : list (list (Z * Z))) :
  drivers s -> 0 <= s_tick s < 0x100000000 -> 0 <= n -> ticks (concat ws) < 0x100000000 ->
  let '(s', b) := logo_splash s n ws in
  exists ws1 ws2, ws = ws1 ++ ws2 /\ s_tick s' = u32 (s_tick s + ticks (concat ws1)) /\
    (forall u w v, ws1 = u ++ w :: v -> ticks (concat u) < n) /\
    (if b : bool
     then n <= ticks (concat ws1) /\ cursor (s_scr s') = 0 /\
       forall row col, on_screen row col -> cell (s_scr s') row col = (32, COLOR_WHITE_ON_BLACK)
     else ws2 = [] /\ ticks (concat ws1) < n /\
       forall row col, on_screen row col -> screen_ok (s_scr s) -> cell (s_scr s') row col = logo_cell row col) /\
    s_kern s' = s_kern s /\ s_fs s' = s_fs s /\ s_dem s' = s_dem s.
Proof.
  intros Dr Ht Hn Hw. unfold logo_splash, splash_loop. cbv zeta. set (s0 := set_scr s (draw_logo (s_scr s))).
  assert (Dr0 : drivers s0) by exact Dr. change (s_tick s) with (s_tick s0) in Ht |- *. unfold timer_ticks at 2.
  set (t0 := s_tick s0) in *.
  destruct (wait_ticks (fun s' => u32 (timer_ticks s' - t0) <? n) n ws s0) as (ws1 & ws2 & -> & R).
  { intros w w' E. rewrite E, ticks_app in Hw. pose proof (ticks_nonneg w). pose proof (ticks_nonneg w').
    unfold timer_ticks. rewrite irqs_clock by (exact Dr0 || exact Ht). f_equal. unfold u32.
    rewrite Zminus_mod_idemp_l. fold t0. replace (t0 + ticks w - t0) with (ticks w) by lia. apply Z.mod_small. lia. }
  pose proof (wait_interrupted (fun s' => u32 (timer_ticks s' - t0) <? n) (ws1 ++ ws2) s0) as Int.
  destruct (wait_while _ (ws1 ++ ws2) s0) as [s' b]. destruct R as (-> & R2 & R3). cbn [fst] in Int.
  pose proof (irqs_clock (concat ws1) s0 Dr0 Ht) as Tk. fold t0 in Tk. generalize dependent (irqs s0 (concat ws1)).
  intros s' Int Tk. destruct b; exists ws1, ws2; (split; [reflexivity|]); (split; [exact Tk|]); (split; [exact R2|]).
  - split; [split; [exact R3|]|rewrite (int_eq _ _ Int); repeat split]. split; [reflexivity|]. intros row col H. apply cell_clear, H.
  - split; [|rewrite (int_eq _ _ Int); repeat split]. destruct R3 as [R3 R4]. split; [exact R3|]. split; [exact R4|].
    intros row col H K. rewrite (int_eq _ _ Int). cbn [s_scr]. apply draw_logo_picture; [exact H|exact K].
Qed.

End Wait.

#[local] Existing Instance map_disk.

(** A splash of three ticks that starts two ticks before the counter wraps. *)
Definition late_user : sys mem := set_clock demo_user 0xFFFFFFFE (s_sched demo_user).

Definition splash_wakeups : list (list (Z * Z)) := [[(32, 0)]; [(33, 0x1E)]; [(32, 0); (32, 0)]; [(32, 0)]].

Lemma logo_splash_waits_witness :
  let '(s', b) := logo_splash late_user 3 splash_wakeups in
  exists ws1 ws2, splash_wakeups = ws1 ++ ws2 /\ s_tick s' = u32 (0xFFFFFFFE + ticks (concat ws1)) /\
    (forall u w v, ws1 = u ++ w :: v -> ticks (concat u) < 3) /\
    (if b : bool
     then 3 <= ticks (concat ws1) /\ cursor (s_scr s') = 0 /\
       forall row col, on_screen row col -> cell (s_scr s') row col = (32, COLOR_WHITE_ON_BLACK)
     else ws2 = [] /\ ticks (concat ws1) < 3 /\
       forall row col, on_screen row col -> screen_ok (s_scr late_user) -> cell (s_scr s') row col = logo_cell row col) /\
    s_kern s' = s_kern late_user /\ s_fs s' = s_fs late_user /\ s_dem s' = s_dem late_user.
Proof.
  apply (logo_splash_waits late_user 3 splash_wakeups); [exact demo_user_drivers|vm_compute; split; congruence|lia|reflexivity].
Defined.
