(* ===== verification/Preempt.v ===== *)
(** * The preemption demo on the running system (kernel/task.c)

    [preempt_demo] with its two workers that count and never yield.  What runs
    between two interrupts is decided by the scheduler; how far it gets is not,
    so the environment is a list of (number of increments, interrupt). *)

From stdpp Require Import base gmap list numbers option.
From Stdlib Require Import ZArith Lia Bool.
From S2P Require Import Prelude CString Screen Interfaces Proc Keyboard Fs Task Tables System Syscall.

Record work := mk_work { work_a : Z; work_b : Z }.

(** [n] turns of [for (;;) work_a++;] or [for (;;) work_b++;]. *)
Definition pworker_a (n : Z) (w : work) : work := mk_work (u32 (work_a w + n)) (work_b w).
Definition pworker_b (n : Z) (w : work) : work := mk_work (work_a w) (u32 (work_b w + n)).

(** The running task does [n] turns; task 0 sleeps in hlt. *)
Definition work_step (cur n : Z) (w : work) : work :=
  if cur =? 1 then pworker_a n w else if cur =? 2 then pworker_b n w else w.

(** The turns made before an interrupt, its vector, and the keyboard's byte. *)
Record slice := mk_slice { turns : Z; vector : Z; kbyte : Z }.

Section Demo.
Context {D : Type} {DK : Disk D}.

(** [while (preempt_enabled) hlt;] with what runs meanwhile; the last result is
    false when the demo is not over after these interrupts. *)
Fixpoint spin_loop (es : list slice) (s : sys D) (w : work) : sys D * work * bool :=
  if preempt_enabled (s_sched s) then
    match es with
    | [] => (s, w, false)
    | e :: es =>
        let w := work_step (current (s_sched s)) (turns e) w in
        spin_loop es (irq_handler s (vector e) (kbyte e)) w
    end
  else (s, w, true).

Definition spin_report (x : screen) (w : work) : screen :=
  let x := kprint x (lit "  task A counted to ") in
  let x := kprint_char (kprint_dec x (work_a w)) 10 in
  let x := kprint x (lit "  task B counted to ") in
  let x := kprint_char (kprint_dec x (work_b w)) 10 in
  kprint x (lit "  neither task ever yielded: the timer preempted them." ++ [10]).

Definition preempt_demo (stacks ea eb : Z) (s : sys D) (es : list slice) : sys D * work * bool :=
  let w := mk_work 0 0 in
  let s := set_clock s (s_tick s) (preempt_arm stacks ea eb (s_sched s) (timer_ticks s)) in
  match spin_loop es s w with
  | (s, w, true) => (set_scr s (spin_report (s_scr s) w), w, true)
  | r => r
  end.

(** ** Who runs when *)

Definition is_tick (e : slice) : Z := if vector e =? 32 then 1 else 0.

(** The counts after some slices, [k] ticks into the demo: odd slices are A's,
    even ones B's, and in slice 0 the shell sleeps. *)
Fixpoint shares (k : Z) (es : list slice) (w : work) : work :=
  match es with
  | [] => w
  | e :: es =>
      let w := if k =? 0 then w else if Z.odd k then pworker_a (turns e) w else pworker_b (turns e) w in
      shares (k + is_tick e) es w
  end.

Fixpoint ticks_of (es : list slice) : Z :=
  match es with [] => 0 | e :: es => is_tick e + ticks_of es end.

(** The task that runs after [k] ticks. *)
Definition runs (k : Z) : Z := if k =? 0 then 0 else if Z.odd k then 1 else 2.

Lemma runs_next k : 0 <= k -> runs (k + 1) = if runs k =? 1 then 2 else 1.
Proof.
  intros H. unfold runs. destruct (Z.eqb_spec (k + 1) 0); [lia|]. rewrite Z.odd_add. cbn [Z.odd].
  destruct (Z.eqb_spec k 0) as [->|]; [reflexivity|]. destruct (Z.odd k); reflexivity.
Qed.

Lemma work_step_runs k n w :
  work_step (runs k) n w = if k =? 0 then w else if Z.odd k then pworker_a n w else pworker_b n w.
Proof. unfold work_step, runs. destruct (k =? 0); [reflexivity|]. destruct (Z.odd k); reflexivity. Qed.

Lemma irq_other (s : sys D) v b : drivers s -> v <> 32 -> s_sched (irq_handler s v b) = s_sched s /\ s_tick (irq_handler s v b) = s_tick s.
Proof.
  intros Dr H. unfold irq_handler. destruct (40 <=? v); cbn [outb s_handlers]; rewrite (Dr v);
    (destruct (Z.eqb_spec v 32); [contradiction|]); destruct (v =? 33); split; reflexivity.
Qed.

Lemma irq_timer (s : sys D) b : drivers s ->
  s_tick (irq_handler s 32 b) = u32 (s_tick s + 1) /\
  s_sched (irq_handler s 32 b) = preempt_tick (s_sched s) (u32 (s_tick s + 1)).
Proof. intros Dr. unfold irq_handler. change (40 <=? 32) with false. cbn [outb s_handlers]. rewrite (Dr 32). split; reflexivity. Qed.

Lemma irq_drivers (s : sys D) v b : drivers s -> drivers (irq_handler s v b).
Proof. intros H. exact (irqs_drivers s [(v, b)] H). Qed.

Lemma spin_loop_spec es : forall s w k t0,
  drivers s -> 0 <= k < 100 -> 0 <= t0 -> t0 + 100 < 0x100000000 -> s_tick s = t0 + k ->
  armed (s_sched s) (runs k) (t0 + 100) ->
  let '(s', w', b) := spin_loop es s w in
  interrupted s s' /\
  exists es1 es2, es = es1 ++ es2 /\ w' = shares k es1 w /\
    (if b : bool then ticks_of es1 = 100 - k /\ s_tick s' = t0 + 100 /\ disarmed (s_sched s')
     else es2 = [] /\ ticks_of es1 < 100 - k).
Proof.
  induction es as [|e es IH]; intros s w k t0 Dr Hk H0 Hb Ht A; cbn [spin_loop]; rewrite (ar_on _ _ _ A).
  { split; [reflexivity|]. exists [], []. cbn. auto with lia. }
  rewrite (ar_cur _ _ _ A), work_step_runs. set (w1 := if k =? 0 then w else _).
  pose proof (irq_interrupted s (vector e) (kbyte e)) as Int.
  destruct (Z.eq_dec (vector e) 32) as [V|V].
  - rewrite V in *. destruct (irq_timer s (kbyte e) Dr) as [E1 E2]. rewrite Ht, u32_small in E1, E2 by lia.
    destruct (Z.eq_dec k 99) as [->|Nk].
    + pose proof (deadline_tick _ _ _ A ltac:(cbn; lia)) as Dl. replace (t0 + 99 + 1) with (t0 + 100) in * by lia.
      rewrite <- E2 in Dl. assert (Off : preempt_enabled (s_sched (irq_handler s 32 (kbyte e))) = false) by apply Dl.
      destruct es; cbn [spin_loop]; rewrite Off; (split; [exact Int|]); eexists [e], _; (split; [reflexivity|]);
        (split; [reflexivity|]); cbn; unfold is_tick; rewrite V; auto.
    + specialize (IH (irq_handler s 32 (kbyte e)) w1 (k + 1) t0 (irq_drivers _ _ _ Dr) ltac:(lia) H0 Hb ltac:(lia)).
      destruct (spin_loop es (irq_handler s 32 (kbyte e)) w1) as [[s' w'] b].
      destruct IH as (I1 & es1 & es2 & -> & -> & I2).
      { rewrite E2, runs_next by lia. replace (preempt_tick (s_sched s) (t0 + k + 1)) with (task_yield (s_sched s)).
        - apply armed_yield; [exact A|]. unfold runs. destruct (k =? 0); [lia|]. destruct (Z.odd k); lia.
        - unfold preempt_tick. rewrite (ar_on _ _ _ A), (ar_deadline _ _ _ A), (proj2 (Z.leb_gt _ _)) by lia. reflexivity. }
      split; [etransitivity; [exact Int|exact I1]|]. exists (e :: es1), es2. split; [reflexivity|].
      cbn [shares ticks_of]. unfold is_tick. rewrite V. cbn [Z.eqb Pos.eqb]. split; [reflexivity|].
      destruct b; [split; [lia|apply I2]|split; [apply I2|lia]].
  - destruct (irq_other s (vector e) (kbyte e) Dr V) as [E1 E2].
    specialize (IH (irq_handler s (vector e) (kbyte e)) w1 k t0 (irq_drivers _ _ _ Dr) Hk H0 Hb ltac:(congruence)).
    rewrite E1 in IH. specialize (IH A). destruct (spin_loop es _ w1) as [[s' w'] b].
    destruct IH as (I1 & es1 & es2 & -> & -> & I2). split; [etransitivity; [exact Int|exact I1]|].
    exists (e :: es1), es2. split; [reflexivity|]. cbn [shares ticks_of]. unfold is_tick.
    destruct (Z.eqb_spec (vector e) 32); [contradiction|]. rewrite Z.add_0_r. split; [reflexivity|]. exact I2.
Qed.

(** C39. Preemption.  Whatever interrupts arrive and however far the workers get
    between them, [preempt_demo] is over exactly at the hundredth timer tick:
    the workers, which never yield, have each counted in every second time
    slice and nowhere else, their counts are reported, both are stopped and
    control is back with the shell. *)
Theorem preempt_demo_shares (stacks ea eb : Z) (s : sys D) (es : list slice) :
  drivers s -> tlen (tasks (s_sched s)) = MAX_TASKS -> 0 <= s_tick s -> s_tick s + 100 < 0x100000000 ->
  let '(s', w, b) := preempt_demo stacks ea eb s es in
  s_kern s' = s_kern s /\ s_fs s' = s_fs s /\
  exists es1 es2, es = es1 ++ es2 /\ w = shares 0 es1 (mk_work 0 0) /\
    (if b : bool
     then ticks_of es1 = 100 /\ s_tick s' = s_tick s + 100 /\ disarmed (s_sched s') /\
       s_scr s' = spin_report (s_scr s) w
     else es2 = [] /\ ticks_of es1 < 100).
Proof.
  intros Dr Hl H0 Hb. unfold preempt_demo, timer_ticks. cbv zeta.
  pose proof (preempt_arm_ok stacks ea eb (s_sched s) (s_tick s) Hl) as A. rewrite u32_small in A by lia.
  set (s0 := set_clock _ _ _).
  pose proof (spin_loop_spec es s0 (mk_work 0 0) 0 (s_tick s) Dr ltac:(lia) H0 Hb ltac:(cbn; lia) A) as K.
  destruct (spin_loop es s0 (mk_work 0 0)) as [[s' w] b]. destruct K as (I & es1 & es2 & E & Ew & K).
  destruct b; (split; [rewrite (int_eq _ _ I); reflexivity|]); (split; [rewrite (int_eq _ _ I); reflexivity|]); exists es1, es2; (split; [exact E|]); (split; [exact Ew|]).
  - destruct K as (K1 & K2 & K3). split; [lia|]. split; [exact K2|]. split; [exact K3|]. rewrite (int_eq _ _ I). reflexivity.
  - split; [apply K|]. lia.
Qed.

End Demo.

#[local] Existing Instance map_disk.

(** Forty turns in every slice of a hundred ticks, with a key in between. *)
Definition demo_slices : list slice :=
  mk_slice 40 33 0x1E :: replicate 100 (mk_slice 40 32 0).

Lemma preempt_demo_shares_witness :
  let '(s', w, b) := preempt_demo 0x50000 0x1000 0x1100 demo_user demo_slices in
  s_kern s' = s_kern demo_user /\ s_fs s' = s_fs demo_user /\
  exists es1 es2, demo_slices = es1 ++ es2 /\ w = shares 0 es1 (mk_work 0 0) /\
    (if b : bool
     then ticks_of es1 = 100 /\ s_tick s' = 0 + 100 /\ disarmed (s_sched s') /\
       s_scr s' = spin_report (s_scr demo_user) w
     else es2 = [] /\ ticks_of es1 < 100).
Proof.
  apply (preempt_demo_shares 0x50000 0x1000 0x1100 demo_user demo_slices demo_user_drivers); [reflexivity|vm_compute; congruence|reflexivity].
Defined.

(** The run of the witness: fifty slices for A, forty-nine for B. *)
Lemma demo_slices_counts : shares 0 demo_slices (mk_work 0 0) = mk_work 2000 1960.
Proof. reflexivity. Qed.
