(* ===== verification/Editor.v ===== *)
(** * The line editor (kernel/shell.c)

    The line the user types and the history behind the arrow keys.  A C array
    of characters is a list of 128 entries; the specification is the text
    itself, the list of earlier commands, and the position among them. *)

From stdpp Require Import base gmap list numbers option.
From Stdlib Require Import ZArith Lia Bool.
From S2P Require Import Prelude CString Screen Keyboard.

Definition LINE_MAX : Z := 128.
Definition HIST_MAX : Z := 16.

Record editor := mk_editor {
  line : list Z;
  line_len : Z;
  history : list (list Z);
  hist_count : Z;
  hist_browse : Z
}.

(** The statics at boot. *)
Definition editor_boot : editor := mk_editor (replicate 128 0) 0 (replicate 16 (replicate 128 0)) 0 0.

Definition hist (e : editor) (k : Z) : list Z := tget [] (history e) k.

(** The loop of [copy_line] at index [i], [room] turns before LINE_MAX - 1, and
    the terminator behind it. *)
Fixpoint copy_from (room : nat) (i : Z) (dst src : list Z) : list Z :=
  match room with
  | O => tset dst i 0
  | S room =>
      if negb (tget 0 src i =? 0) then copy_from room (i + 1) (tset dst i (tget 0 src i)) src
      else tset dst i 0
  end.

Definition copy_line (dst src : list Z) : list Z := copy_from 127 0 dst src.

Definition history_add (e : editor) (s : list Z) : editor :=
  let '(h, n) :=
    if negb (tget 0 s 0 =? 0) then
      if hist_count e <? HIST_MAX then
        (tset (history e) (hist_count e) (copy_line (hist e (hist_count e)) s), hist_count e + 1)
      else
        let h := for_range 0 (HIST_MAX - 1) (fun k h =>
                   tset h k (copy_line (tget [] h k) (tget [] h (k + 1)))) (history e) in
        (tset h (HIST_MAX - 1) (copy_line (tget [] h (HIST_MAX - 1)) s), hist_count e)
    else (history e, hist_count e) in
  mk_editor (line e) (line_len e) h n n.

(** The typing loop of [replace_line]: the line, the screen and the final [i]. *)
Fixpoint retype (room : nat) (i : Z) (l : list Z) (x : screen) (s : list Z) : list Z * screen * Z :=
  match room with
  | O => (l, x, i)
  | S room =>
      if negb (tget 0 s i =? 0) then
        retype room (i + 1) (tset l i (tget 0 s i)) (kprint_char x (tget 0 s i)) s
      else (l, x, i)
  end.

Definition replace_line (e : editor) (x : screen) (s : list Z) : editor * screen :=
  let x := for_range 0 (line_len e) (fun _ x => kprint_char x 8) x in
  let '(l, x, i) := retype 127 0 (line e) x s in
  (mk_editor (tset l i 0) i (history e) (hist_count e) (hist_browse e), x).

Definition with_browse (e : editor) (b : Z) : editor :=
  mk_editor (line e) (line_len e) (history e) (hist_count e) b.

Definition history_prev (e : editor) (x : screen) : editor * screen :=
  if (0 <? hist_count e) && (0 <? hist_browse e) then
    let e := with_browse e (hist_browse e - 1) in replace_line e x (hist e (hist_browse e))
  else (e, x).

Definition history_next (e : editor) (x : screen) : editor * screen :=
  if hist_browse e <? hist_count e then
    let e := with_browse e (hist_browse e + 1) in
    replace_line e x (if hist_browse e =? hist_count e then [] else hist e (hist_browse e))
  else (e, x).

(** [handle_char] for a backspace or a character other than Enter. *)
Definition edit_key (e : editor) (x : screen) (c : Z) : editor * screen :=
  if c =? 8 then
    if 0 <? line_len e then
      (mk_editor (line e) (line_len e - 1) (history e) (hist_count e) (hist_browse e), kprint_char x 8)
    else (e, x)
  else if line_len e <? LINE_MAX - 1 then
    (mk_editor (tset (line e) (line_len e) c) (line_len e + 1) (history e) (hist_count e) (hist_browse e),
     kprint_char x c)
  else (e, x).

(** [line[line_len] = 0; history_add(line);] at Enter. *)
Definition edit_enter (e : editor) : editor :=
  let e := mk_editor (tset (line e) (line_len e) 0) (line_len e) (history e) (hist_count e) (hist_browse e) in
  history_add e (line e).

(** [line_len = 0;] *)
Definition edit_reset (e : editor) : editor :=
  mk_editor (line e) 0 (history e) (hist_count e) (hist_browse e).

(** ** The specification *)

Record draft := mk_draft {
  typed_text : list Z;
  past : list (list Z);
  pos : Z
}.

(** The last sixteen commands. *)
Definition last16 (l : list (list Z)) : list (list Z) := drop (length l - 16) l.

Definition remember (past : list (list Z)) (t : list Z) : list (list Z) :=
  match t with [] => past | _ => last16 (past ++ [t]) end.

(** Showing [new] instead of [old]: what is echoed. *)
Definition retyped (old new : list Z) : list Z := replicate (length old) 8 ++ new.

(** A key other than Enter: the new draft and the characters echoed. *)
Definition draft_key (d : draft) (c : Z) : draft * list Z :=
  if c =? KEY_UP then
    if 0 <? pos d then
      let t := tget [] (past d) (pos d - 1) in (mk_draft t (past d) (pos d - 1), retyped (typed_text d) t)
    else (d, [])
  else if c =? KEY_DOWN then
    if pos d <? tlen (past d) then
      let t := tget [] (past d) (pos d + 1) in (mk_draft t (past d) (pos d + 1), retyped (typed_text d) t)
    else (d, [])
  else if (c =? KEY_LEFT) || (c =? KEY_RIGHT) then (d, [])
  else if c =? 8 then
    match typed_text d with [] => (d, []) | t => (mk_draft (removelast t) (past d) (pos d), [8]) end
  else if tlen (typed_text d) <? 127 then (mk_draft (typed_text d ++ [c]) (past d) (pos d), [c])
  else (d, []).

(** A text that fits: no terminator inside. *)
Definition fits (t : list Z) : Prop := tlen t <= 127 /\ Forall (fun c => c <> 0) t.

(** The array starts with the characters of [t]. *)
Definition starts (l t : list Z) : Prop := forall k, 0 <= k < tlen t -> tget 0 l k = tget 0 t k.

Record edits (e : editor) (d : draft) : Prop := {
  ed_line : tlen (line e) = LINE_MAX;
  ed_len : line_len e = tlen (typed_text d);
  ed_text : starts (line e) (typed_text d);
  ed_fits : fits (typed_text d);
  ed_hist : tlen (history e) = HIST_MAX;
  ed_rows : forall k, 0 <= k < HIST_MAX -> tlen (hist e k) = LINE_MAX;
  ed_count : hist_count e = tlen (past d) /\ tlen (past d) <= HIST_MAX;
  ed_past : forall k, 0 <= k < tlen (past d) -> text (hist e k) = tget [] (past d) k /\ fits (tget [] (past d) k);
  ed_browse : hist_browse e = pos d /\ 0 <= pos d <= tlen (past d)
}.

(** ** Texts in arrays *)

Lemma text_starts l : forall t, starts l t -> tget 0 l (tlen t) = 0 -> Forall (fun c => c <> 0) t -> text l = t.
Proof.
  induction l as [|x l IH]; intros t S E F.
  - destruct t as [|c t]; [reflexivity|]. apply Forall_cons_iff in F as [N _].
    pose proof (tlen_nonneg t). specialize (S 0 ltac:(rewrite tlen_cons; lia)). change (0 = c) in S. congruence.
  - destruct t as [|c t]; cbn [text].
    + change (x = 0) in E. rewrite E. reflexivity.
    + apply Forall_cons_iff in F as [N F]. pose proof (tlen_nonneg t). rewrite tlen_cons in E.
      pose proof (S 0 ltac:(rewrite tlen_cons; lia)) as S0. change (x = c) in S0. subst x.
      rewrite (proj2 (Z.eqb_neq c 0)) by exact N. f_equal. apply IH; [|rewrite tget_cons in E by lia|exact F].
      * intros k Hk. specialize (S (k + 1)). rewrite tlen_cons, !tget_cons in S by lia. specialize (S ltac:(lia)).
        destruct (Z.eqb_spec (k + 1) 0); [lia|]. replace (k + 1 - 1) with k in S by lia. exact S.
      * destruct (Z.eqb_spec (tlen t + 1) 0); [lia|]. replace (tlen t + 1 - 1) with (tlen t) in E by lia. exact E.
Qed.

Lemma starts_text l : starts l (text l) /\ tget 0 l (tlen (text l)) = 0.
Proof.
  induction l as [|x l [S E]]; cbn [text]; [split; [intros k Hk; reflexivity|reflexivity]|].
  destruct (Z.eqb_spec x 0) as [->|N].
  { split; [|reflexivity]. intros k Hk. change (0 <= k < 0) in Hk. lia. }
  pose proof (tlen_nonneg (text l)). split.
  - intros k Hk. rewrite tlen_cons in Hk. rewrite !tget_cons by lia. destruct (Z.eqb_spec k 0); [reflexivity|]. apply S. lia.
  - rewrite tlen_cons, tget_cons by lia. destruct (Z.eqb_spec (tlen (text l) + 1) 0); [lia|].
    replace (tlen (text l) + 1 - 1) with (tlen (text l)) by lia. exact E.
Qed.

(** Where the copying loop stops: behind the text, or at the last entry. *)
Definition stop (src : list Z) : Z := Z.min 127 (tlen (text src)).

Lemma stop_spec src i : 0 <= i < stop src -> tget 0 src i <> 0.
Proof.
  unfold stop. intros H. destruct (starts_text src) as [S _]. rewrite S by lia.
  pose proof (text_no_nul src) as F. rewrite Forall_forall in F. apply F. unfold tget, tlen in *.
  apply nth_In. lia.
Qed.

Lemma copy_from_spec src room : forall i dst,
  i + Z.of_nat room = 127 -> 0 <= i <= stop src -> tlen dst = LINE_MAX ->
  tlen (copy_from room i dst src) = LINE_MAX /\
  (forall k, 0 <= k <= stop src ->
     tget 0 (copy_from room i dst src) k = if k <? i then tget 0 dst k else if k <? stop src then tget 0 src k else 0).
Proof.
  induction room as [|room IH]; intros i dst Hi Hs Hl; cbn [copy_from].
  - unfold LINE_MAX in *. assert (stop src = i) by (unfold stop in *; lia).
    rewrite tlen_tset. split; [exact Hl|]. intros k Hk. rewrite tget_tset by lia. zcase; lia || reflexivity.
  - destruct (Z.eq_dec i (stop src)) as [E|N].
    + assert (Z0 : tget 0 src i = 0).
      { destruct (starts_text src) as [_ T]. replace i with (tlen (text src)); [exact T|]. unfold stop in *. lia. }
      rewrite Z0. cbn [negb Z.eqb]. rewrite tlen_tset. split; [exact Hl|]. intros k Hk. unfold LINE_MAX in *.
      rewrite tget_tset by lia. zcase; lia || reflexivity.
    + rewrite (proj2 (Z.eqb_neq (tget 0 src i) 0)) by (apply stop_spec; lia). cbn [negb].
      destruct (IH (i + 1) (tset dst i (tget 0 src i))) as [I1 I2]; [lia|lia|rewrite tlen_tset; exact Hl|].
      split; [exact I1|]. intros k Hk. rewrite I2 by exact Hk. unfold LINE_MAX in *. rewrite tget_tset by (unfold stop in *; lia).
      destruct (Z.eqb_spec i k) as [->|]; zcase; lia || reflexivity.
Qed.

Lemma copy_line_text dst src : tlen dst = LINE_MAX -> tlen (text src) <= 127 ->
  tlen (copy_line dst src) = LINE_MAX /\ text (copy_line dst src) = text src.
Proof.
  intros Hl Ht. pose proof (tlen_nonneg (text src)). assert (Es : stop src = tlen (text src)) by (unfold stop; lia).
  destruct (copy_from_spec src 127 0 dst) as [L C]; [lia|lia|exact Hl|]. split; [exact L|].
  unfold copy_line. destruct (starts_text src) as [S _].
  apply text_starts; [|rewrite C, Es by lia; zcase; lia || reflexivity|apply text_no_nul].
  intros k Hk. rewrite C, Es, S by lia. zcase; lia || reflexivity.
Qed.

(** [replace_line] writes what [copy_line] writes and types the text. *)
Lemma retype_spec s room : forall i l x,
  i + Z.of_nat room = 127 -> 0 <= i <= stop s ->
  let '(l', x', n) := retype room i l x s in
  tset l' n 0 = copy_from room i l s /\ n = stop s /\
  x' = fold_left kprint_char (drop (Z.to_nat i) (take (Z.to_nat (stop s)) (text s))) x.
Proof.
  induction room as [|room IH]; intros i l x Hi Hs; cbn [retype copy_from].
  - assert (E : stop s = i) by (unfold stop in *; lia). split; [reflexivity|]. split; [lia|].
    rewrite drop_ge; [reflexivity|]. rewrite length_take. lia.
  - destruct (Z.eq_dec i (stop s)) as [E|N].
    + assert (Z0 : tget 0 s i = 0).
      { destruct (starts_text s) as [_ T]. replace i with (tlen (text s)); [exact T|]. unfold stop in *. lia. }
      rewrite Z0. cbn [negb Z.eqb]. split; [reflexivity|]. split; [exact E|].
      rewrite drop_ge; [reflexivity|]. rewrite length_take. lia.
    + rewrite (proj2 (Z.eqb_neq (tget 0 s i) 0)) by (apply stop_spec; lia). cbn [negb].
      specialize (IH (i + 1) (tset l i (tget 0 s i)) (kprint_char x (tget 0 s i)) ltac:(lia) ltac:(lia)).
      destruct (retype room (i + 1) _ _ s) as [[l' x'] n]. destruct IH as (I1 & I2 & I3).
      split; [exact I1|]. split; [exact I2|]. rewrite I3.
      destruct (starts_text s) as [S _].
      rewrite (drop_S (take _ _) (tget 0 s i) (Z.to_nat i)); [|].
      * cbn [fold_left]. replace (Z.to_nat (i + 1)) with (Datatypes.S (Z.to_nat i)) by lia. reflexivity.
      * rewrite lookup_take_lt by lia. rewrite S by (unfold stop in *; lia). unfold tget, tlen, stop in *.
        rewrite nth_lookup. destruct (text s !! Z.to_nat i) eqn:El; [reflexivity|].
        apply lookup_ge_None in El. unfold tlen in *. lia.
Qed.

(** ** The operations against the specification *)

Lemma for_erase n x : for_range 0 (Z.of_nat n) (fun _ x => kprint_char x 8) x = fold_left kprint_char (replicate n 8) x.
Proof.
  enough (G : forall a x, for_range a (a + Z.of_nat n) (fun _ x => kprint_char x 8) x
    = fold_left kprint_char (replicate n 8) x) by exact (G 0 x).
  clear x. induction n as [|n IH]; intros a x; [apply for_range_empty; lia|]. rewrite for_range_step by lia.
  replace (a + Z.of_nat (S n)) with (a + 1 + Z.of_nat n) by lia. apply IH.
Qed.

Lemma replace_line_spec e x d s :
  edits e d -> tlen (text s) <= 127 ->
  let '(e', x') := replace_line e x s in
  edits e' (mk_draft (text s) (past d) (pos d)) /\
  x' = fold_left kprint_char (retyped (typed_text d) (text s)) x.
Proof.
  intros [E1 E2 E3 E4 E5 E6 E7 E8 E9] Hs. unfold replace_line. rewrite E2. unfold tlen at 1. rewrite for_erase.
  pose proof (tlen_nonneg (text s)). assert (Es : stop s = tlen (text s)) by (unfold stop; lia).
  set (y := fold_left kprint_char _ x).
  pose proof (retype_spec s 127 0 (line e) y ltac:(lia) ltac:(lia)) as R.
  destruct (retype 127 0 (line e) y s) as [[l x'] n]. destruct R as (R1 & -> & ->). rewrite Es in *.
  destruct (copy_from_spec s 127 0 (line e) ltac:(lia) ltac:(lia) E1) as [C1 C2].
  split.
  - constructor; cbn [line line_len history hist_count hist_browse typed_text past pos]; auto.
    + rewrite R1. exact C1.
    + intros k Hk. rewrite R1, C2 by lia. destruct (starts_text s) as [S _]. rewrite <- S by exact Hk.
      rewrite Es. zcase; lia || reflexivity.
    + split; [exact Hs|apply text_no_nul].
  - unfold retyped. rewrite fold_left_app. fold y. cbn [Z.to_nat drop]. rewrite take_ge; [reflexivity|]. unfold tlen. lia.
Qed.

Lemma edits_browse e d b : edits e d -> 0 <= b <= tlen (past d) -> edits (with_browse e b) (mk_draft (typed_text d) (past d) b).
Proof. intros [E1 E2 E3 E4 E5 E6 E7 E8 E9] H. constructor; cbn; auto. Qed.

(** A recalled command fits. *)
Lemma past_fits e d k : edits e d -> 0 <= k <= tlen (past d) -> fits (tget [] (past d) k).
Proof.
  intros E Hk. destruct (Z.eq_dec k (tlen (past d))) as [->|].
  - unfold tget, tlen. rewrite nth_overflow by lia. split; [discriminate|constructor].
  - apply (ed_past _ _ E). lia.
Qed.

Lemma history_prev_spec e x d :
  edits e d ->
  let '(e', x') := history_prev e x in
  edits e' (fst (draft_key d KEY_UP)) /\ x' = fold_left kprint_char (snd (draft_key d KEY_UP)) x.
Proof.
  intros E. pose proof (ed_browse _ _ E) as [B1 B2]. pose proof (ed_count _ _ E) as [C1 C2].
  unfold history_prev, draft_key. cbn [Z.eqb Pos.eqb KEY_UP]. rewrite B1, C1.
  destruct (Z.ltb_spec 0 (pos d)) as [H|H]; [|rewrite andb_false_r; auto].
  rewrite (proj2 (Z.ltb_lt 0 (tlen (past d)))) by lia. cbn [andb]. cbv zeta.
  pose proof (edits_browse e d (pos d - 1) E ltac:(lia)) as Eb.
  destruct (ed_past _ _ E (pos d - 1) ltac:(lia)) as [Et [Ef _]].
  pose proof (replace_line_spec _ x _ (hist e (pos d - 1)) Eb ltac:(rewrite Et; exact Ef)) as R.
  change (hist (with_browse e (pos d - 1)) (hist_browse (with_browse e (pos d - 1)))) with (hist e (pos d - 1)).
  rewrite Et in R. exact R.
Qed.

Lemma history_next_spec e x d :
  edits e d ->
  let '(e', x') := history_next e x in
  edits e' (fst (draft_key d KEY_DOWN)) /\ x' = fold_left kprint_char (snd (draft_key d KEY_DOWN)) x.
Proof.
  intros E. pose proof (ed_browse _ _ E) as [B1 B2]. pose proof (ed_count _ _ E) as [C1 C2].
  unfold history_next, draft_key. cbn [Z.eqb Pos.eqb KEY_UP KEY_DOWN]. rewrite B1, C1.
  destruct (Z.ltb_spec (pos d) (tlen (past d))) as [H|H]; [|auto]. cbv zeta.
  pose proof (edits_browse e d (pos d + 1) E ltac:(lia)) as Eb. cbn [with_browse hist_browse hist_count].
  set (s := if _ =? _ then _ else _).
  assert (Et : text s = tget [] (past d) (pos d + 1)).
  { unfold s. destruct (Z.eqb_spec (pos d + 1) (hist_count e)) as [Eq|N].
    - rewrite Eq, C1. unfold tget, tlen. rewrite nth_overflow by lia. reflexivity.
    - apply (ed_past _ _ E). lia. }
  pose proof (past_fits e d (pos d + 1) E ltac:(lia)) as [Ef _].
  pose proof (replace_line_spec _ x _ s Eb ltac:(rewrite Et; exact Ef)) as R. rewrite Et in R. exact R.
Qed.

Lemma tget_app {A} (d : A) l l' k : 0 <= k -> tget d (l ++ l') k = if k <? tlen l then tget d l k else tget d l' (k - tlen l).
Proof.
  intros H. unfold tget, tlen. destruct (Z.ltb_spec k (Z.of_nat (length l))).
  - apply app_nth1. lia.
  - rewrite app_nth2 by lia. f_equal. lia.
Qed.

Lemma edit_key_spec e x d c :
  edits e d -> c <> 0 -> c <> KEY_UP -> c <> KEY_DOWN -> c <> KEY_LEFT -> c <> KEY_RIGHT ->
  let '(e', x') := edit_key e x c in
  edits e' (fst (draft_key d c)) /\ x' = fold_left kprint_char (snd (draft_key d c)) x.
Proof.
  intros E Hc N1 N2 N3 N4. pose proof E as [E1 E2 E3 [E4 E4'] E5 E6 E7 E8 E9]. unfold edit_key, draft_key.
  apply Z.eqb_neq in N1, N2, N3, N4. rewrite N1, N2, N3, N4. cbn [orb]. rewrite E2. pose proof (tlen_nonneg (typed_text d)).
  destruct (Z.eqb_spec c 8) as [->|N8].
  - case_eq (typed_text d); [intros _; cbn; split; [exact E|reflexivity]|intros a t Et].
    assert (Hne : typed_text d <> []) by congruence. rewrite <- Et. clear Et.
    assert (Hr : typed_text d = removelast (typed_text d) ++ [List.last (typed_text d) 0])
      by (apply app_removelast_last, Hne).
    assert (Hlen : tlen (typed_text d) = tlen (removelast (typed_text d)) + 1) by (rewrite Hr at 1; rewrite tlen_app; reflexivity).
    pose proof (tlen_nonneg (removelast (typed_text d))).
    rewrite (proj2 (Z.ltb_lt 0 (tlen (typed_text d)))) by lia. cbn [fst snd]. split; [|reflexivity].
    constructor; cbn [line line_len history hist_count hist_browse typed_text past pos]; auto; [lia| |].
    + intros k Hk. rewrite E3 by lia. rewrite Hr at 1. rewrite tget_app by lia. zcase; lia || reflexivity.
    + split; [lia|]. rewrite Hr in E4'. apply Forall_app in E4'. apply E4'.
  - unfold LINE_MAX in *. change (128 - 1) with 127. destruct (Z.ltb_spec (tlen (typed_text d)) 127); [|auto]. cbn [fst snd].
    split; [|reflexivity]. constructor; cbn [line line_len history hist_count hist_browse typed_text past pos]; auto.
    + rewrite tlen_tset. exact E1.
    + rewrite tlen_app. reflexivity.
    + intros k Hk. rewrite tlen_app in Hk. change (tlen [c]) with 1 in Hk. rewrite tget_tset, tget_app by lia.
      destruct (Z.eqb_spec (tlen (typed_text d)) k) as [<-|]; [rewrite Z.ltb_irrefl, Z.sub_diag; reflexivity|].
      rewrite E3 by lia. zcase; lia || reflexivity.
    + split; [rewrite tlen_app; change (tlen [c]) with 1; lia|]. apply Forall_app. split; [exact E4'|].
      constructor; [exact Hc|constructor].
Qed.

(** The rows after the history has moved up by one. *)
Lemma shift_spec (h : list (list Z)) :
  tlen h = HIST_MAX -> (forall k, 0 <= k < HIST_MAX -> tlen (tget [] h k) = LINE_MAX) ->
  (forall k, 0 <= k < HIST_MAX -> tlen (text (tget [] h k)) <= 127) ->
  let h' := for_range 0 (HIST_MAX - 1) (fun k h => tset h k (copy_line (tget [] h k) (tget [] h (k + 1)))) h in
  tlen h' = HIST_MAX /\ (forall k, 0 <= k < HIST_MAX -> tlen (tget [] h' k) = LINE_MAX) /\
  (forall k, 0 <= k < HIST_MAX - 1 -> text (tget [] h' k) = text (tget [] h (k + 1))).
Proof.
  intros Hl Hr Ht. unfold HIST_MAX in *. cbv zeta. change (16 - 1) with 15.
  assert (K := for_range_ind (fun n g => tlen g = 16 /\ (forall k, 0 <= k < 16 -> tlen (tget [] g k) = LINE_MAX) /\
    (forall k, 0 <= k < n -> text (tget [] g k) = text (tget [] h (k + 1))) /\
    (forall k, n <= k < 16 -> tget [] g k = tget [] h k)) 0 15
    (fun k h => tset h k (copy_line (tget [] h k) (tget [] h (k + 1)))) h). cbv beta in K.
  destruct K as (K1 & K2 & K3 & _); [lia|repeat split; auto; intros; lia| |auto].
  intros i g Hi (I1 & I2 & I3 & I4).
  assert (Cp : tlen (copy_line (tget [] g i) (tget [] g (i + 1))) = LINE_MAX /\
               text (copy_line (tget [] g i) (tget [] g (i + 1))) = text (tget [] h (i + 1))).
  { rewrite <- (I4 (i + 1)) by lia. apply copy_line_text; [apply I2; lia|]. rewrite I4 by lia. apply Ht. lia. }
  destruct Cp as [Cp1 Cp2]. split; [rewrite tlen_tset; exact I1|].
  split; [|split]; intros k Hk; rewrite tget_tset by lia; destruct (Z.eqb_spec i k) as [<-|]; auto; try lia; [apply I3|apply I4]; lia.
Qed.

Lemma remember_count p t : tlen p <= 16 -> t <> [] -> tlen (remember p t) = Z.min 16 (tlen p + 1).
Proof.
  intros Hp Ht. unfold remember. destruct t as [|c t]; [contradiction|]. unfold last16, tlen in *.
  rewrite length_drop, length_app. cbn [length]. lia.
Qed.

Lemma remember_get p t k : tlen p <= 16 -> t <> [] -> 0 <= k < tlen (remember p t) ->
  tget [] (remember p t) k
  = if tlen p <? 16 then (if k <? tlen p then tget [] p k else t) else if k <? 15 then tget [] p (k + 1) else t.
Proof.
  intros Hp Ht Hk. rewrite remember_count in Hk by assumption. replace (remember p t) with (last16 (p ++ [t])) by (destruct t; [contradiction|reflexivity]).
  unfold last16. rewrite length_app. cbn [length]. unfold tget at 1. rewrite nth_lookup, lookup_drop, <- nth_lookup.
  pose proof (tlen_nonneg p). destruct (Z.ltb_spec (tlen p) 16) as [Hlt|Hge].
  - replace (length p + 1 - 16 + Z.to_nat k)%nat with (Z.to_nat k) by (unfold tlen in *; lia).
    fold (tget [] (p ++ [t]) k). rewrite tget_app by lia. destruct (Z.ltb_spec k (tlen p)); [reflexivity|].
    replace (k - tlen p) with 0 by lia. reflexivity.
  - replace (length p + 1 - 16 + Z.to_nat k)%nat with (Z.to_nat (k + 1)) by (unfold tlen in *; lia).
    fold (tget [] (p ++ [t]) (k + 1)). rewrite tget_app by lia. destruct (Z.ltb_spec (k + 1) (tlen p)), (Z.ltb_spec k 15); try lia; [reflexivity|].
    replace (k + 1 - tlen p) with 0 by lia. reflexivity.
Qed.

Lemma history_add_spec e d s :
  edits e d -> tlen (text s) <= 127 ->
  edits (history_add e s) (mk_draft (typed_text d) (remember (past d) (text s)) (tlen (remember (past d) (text s)))).
Proof.
  intros [E1 E2 E3 E4 E5 E6 [E7 E7'] E8 E9] Ht. unfold history_add. pose proof (tlen_nonneg (past d)).
  assert (Hn : tget 0 s 0 = 0 <-> text s = []).
  { destruct s as [|c s]; [split; reflexivity|]. change (tget 0 (c :: s) 0) with c. cbn [text].
    destruct (Z.eqb_spec c 0); split; congruence. }
  destruct (Z.eqb_spec (tget 0 s 0) 0) as [Z0|N0]; cbn [negb].
  { apply Hn in Z0. rewrite Z0. cbn [remember]. constructor; cbn; auto. lia. }
  assert (Hne : text s <> []) by tauto. pose proof (remember_count (past d) (text s) E7' Hne) as Rc.
  pose proof (remember_get (past d) (text s)) as Rg. unfold HIST_MAX in *.
  assert (Ft : fits (text s)) by (split; [exact Ht|apply text_no_nul]).
  destruct (Z.ltb_spec (hist_count e) 16) as [H16|H16].
  - destruct (copy_line_text (hist e (hist_count e)) s (E6 (hist_count e) ltac:(lia)) Ht) as [C1 C2].
    constructor; cbn [line line_len history hist_count hist_browse typed_text past pos]; auto.
    + rewrite tlen_tset. exact E5.
    + intros k Hk. unfold hist. cbn [history]. rewrite tget_tset by lia. destruct (_ =? k); [exact C1|apply E6, Hk].
    + rewrite Rc. unfold HIST_MAX. lia.
    + intros k Hk. rewrite Rg by (assumption || lia). rewrite (proj2 (Z.ltb_lt (tlen (past d)) 16)) by lia.
      unfold hist. cbn [history]. rewrite tget_tset by lia.
      destruct (Z.eqb_spec (hist_count e) k) as [<-|]; [rewrite (proj2 (Z.ltb_ge (hist_count e) (tlen (past d)))) by lia; auto|].
      rewrite (proj2 (Z.ltb_lt k (tlen (past d)))) by lia. apply E8. lia.
    + rewrite Rc. lia.
  - assert (E16 : tlen (past d) = 16) by lia.
    destruct (shift_spec (history e) E5 E6) as (S1 & S2 & S3).
    { intros k Hk. change (tget [] (history e) k) with (hist e k). rewrite (proj1 (E8 k ltac:(unfold HIST_MAX in *; lia))).
      apply (E8 k). unfold HIST_MAX in *. lia. }
    unfold HIST_MAX in *. change (16 - 1) with 15 in *. cbv zeta. set (h := for_range 0 15 _ _) in *.
    destruct (copy_line_text (tget [] h 15) s (S2 15 ltac:(lia)) Ht) as [C1 C2].
    constructor; cbn [line line_len history hist_count hist_browse typed_text past pos]; auto.
    + rewrite tlen_tset. exact S1.
    + intros k Hk. unfold hist. cbn [history]. rewrite tget_tset by lia. destruct (15 =? k); [exact C1|apply S2, Hk].
    + rewrite Rc. unfold HIST_MAX. lia.
    + intros k Hk. rewrite Rg by (assumption || lia). rewrite E16. cbn [Z.ltb Z.compare Pos.compare Pos.compare_cont].
      unfold hist. cbn [history]. rewrite tget_tset by lia.
      destruct (Z.eqb_spec 15 k) as [<-|]; [auto|]. rewrite (proj2 (Z.ltb_lt k 15)) by lia. rewrite S3 by lia.
      change (tget [] (history e) (k + 1)) with (hist e (k + 1)). apply E8. lia.
    + rewrite Rc. lia.
Qed.

Lemma line_history_add e s : line (history_add e s) = line e.
Proof. unfold history_add. destruct (if negb _ then _ else _). reflexivity. Qed.

(** Enter: the line is the text, and the history has it. *)
Lemma edit_enter_spec e d :
  edits e d ->
  text (line (edit_enter e)) = typed_text d /\
  edits (edit_reset (edit_enter e))
    (mk_draft [] (remember (past d) (typed_text d)) (tlen (remember (past d) (typed_text d)))).
Proof.
  intros [E1 E2 E3 [E4 E4'] E5 E6 E7 E8 E9]. pose proof (tlen_nonneg (typed_text d)). unfold LINE_MAX in *.
  set (l := tset (line e) (line_len e) 0).
  assert (Et : text l = typed_text d).
  { apply text_starts; [|unfold l; rewrite E2, tget_tset, Z.eqb_refl by lia; reflexivity|exact E4'].
    intros k Hk. unfold l. rewrite E2, tget_tset by lia. destruct (Z.eqb_spec (tlen (typed_text d)) k); [lia|]. apply E3, Hk. }
  set (e1 := mk_editor l (line_len e) (history e) (hist_count e) (hist_browse e)).
  assert (Ed : edits e1 d).
  { constructor; cbn; auto; [unfold l; rewrite tlen_tset; exact E1| |split; assumption].
    intros k Hk. rewrite <- Et in Hk |- *. apply starts_text, Hk. }
  pose proof (history_add_spec e1 d l Ed ltac:(rewrite Et; exact E4)) as [H1 H2 H3 H4 H5 H6 H7 H8 H9].
  rewrite Et in H7, H8, H9.
  assert (El : line (edit_enter e) = l) by apply line_history_add.
  split; [rewrite El; exact Et|].
  constructor; cbn [edit_reset line line_len history hist_count hist_browse typed_text past pos]; auto; [|split; [discriminate|constructor]].
  intros k Hk. change (0 <= k < 0) in Hk. lia.
Qed.
