(* ===== verification/Shell.v ===== *)
(** * The shell (kernel/shell.c)

    The commands, as programs in a state monad over the console: the system
    with the statics the shell adds.  A command ends, or it stops: it waits for
    interrupts that have not come, its program has not come back, it resets the
    machine, it runs into an exception that halts it, an exception unwinds it to
    its saved context, or the model's bound on its steps is used up.  Interrupts
    are taken where the code sleeps and while user programs and tasks run. *)

From stdpp Require Import base gmap list numbers option.
From Stdlib Require Import ZArith Lia Bool.
From S2P Require Import Prelude CString Screen Pmm Vmm VmmLemmas VmmSpec VmmClone VmmTheorems VmmProps Paging Demand FreeList Kheap Interfaces Keyboard Fs Proc Elf Args Sync Task Tables System Bus Syscall Usermode Boot Logo Preempt Editor.

Definition NAME_MAX : Z := 24.

(** ** String helpers *)

Fixpoint streq (a b : list Z) : bool :=
  match a with
  | [] => 0 =? cur b
  | x :: a' =>
      if negb (x =? 0) && negb (cur b =? 0) then
        if negb (x =? cur b) then false else streq a' (nxt b)
      else x =? cur b
  end.

Fixpoint starts_with (s prefix : list Z) : bool :=
  match prefix with
  | [] => true
  | p :: prefix' =>
      if p =? 0 then true
      else if negb (cur s =? p) then false else starts_with (nxt s) prefix'
  end.

(** The loop that copies a file name: [while ( *p && *p != ' ' && i < room)]. *)
Fixpoint name_word (room : nat) (p : list Z) : list Z :=
  match room, p with
  | S room, c :: p => if negb (c =? 0) && negb (c =? 32) then c :: name_word room p else []
  | _, _ => []
  end.

(** ** The console *)

(** What the linker decides: page tables, stacks and entries of the tasks, the
    image buffer of exec, the text of the syscall demo, the built-in program. *)
Record shell_link := mk_shell_link {
  l_paging : link;
  l_stacks : Z;
  l_task_a : Z; l_task_b : Z; l_task_c : Z;
  l_pworker_a : Z; l_pworker_b : Z;
  l_racer : Z; l_safe_worker : Z;
  l_img : Z;
  l_msg : Z;
  l_user_prog : list Z
}.

(** What the world does while a command runs: the interrupts of each wait, the
    time slices of the preemption demo, the instructions of a user program. *)
Record world := mk_world {
  w_wakeups : list (list (Z * Z));
  w_slices : list slice;
  w_events : list user_event
}.

Inductive stopped := Asleep | Program_running | Machine_reset | Panicked | Unwound | Out_of_fuel.

Section Shell.
Context {D : Type} {DK : Disk D}.

(** The system, the head of the heap, the tasks' counter and mutex, the line
    editor, and the static buffers of disk, cat and elfinfo. *)
Record console := mk_console {
  c_sys : sys D;
  c_heap : Z;
  c_shared : shared;
  c_edit : editor;
  c_sec : mem;
  c_fbuf : mem;
  c_einfo : mem
}.

Definition set_sys (c : console) (s : sys D) : console :=
  mk_console s (c_heap c) (c_shared c) (c_edit c) (c_sec c) (c_fbuf c) (c_einfo c).
Definition set_edit (c : console) (e : editor) : console :=
  mk_console (c_sys c) (c_heap c) (c_shared c) e (c_sec c) (c_fbuf c) (c_einfo c).
Definition set_shared (c : console) (g : shared) : console :=
  mk_console (c_sys c) (c_heap c) g (c_edit c) (c_sec c) (c_fbuf c) (c_einfo c).
Definition set_bufs (c : console) (sec fbuf einfo : mem) : console :=
  mk_console (c_sys c) (c_heap c) (c_shared c) (c_edit c) sec fbuf einfo.

Definition cmd (A : Type) : Type := console -> console * (A + stopped).

#[export] Instance cmd_ret : MRet cmd := fun A a c => (c, inl a).
#[export] Instance cmd_bind : MBind cmd := fun A B k m c =>
  match m c with
  | (c, inl a) => k a c
  | (c, inr e) => (c, inr e)
  end.

(** A step that is not one of the lifted operations. *)
Definition prim {A : Type} (f : console -> console * (A + stopped)) : cmd A := f.

Definition halt {A : Type} (e : stopped) : cmd A := fun c => (c, inr e).

(** Access to the parts of the state. *)
Definition gets {A : Type} (f : sys D -> A) : cmd A := fun c => (c, inl (f (c_sys c))).
Definition on_sys {A : Type} (f : sys D -> sys D * A) : cmd A :=
  fun c => let '(s, a) := f (c_sys c) in (set_sys c s, inl a).
Definition modify (f : sys D -> sys D) : cmd unit := on_sys (fun s => (f s, tt)).
Definition on_mach {A : Type} (f : machine -> machine * A) : cmd A :=
  on_sys (fun s => let '(m, a) := f (s_mach s) in (set_mach s m, a)).
Definition on_kern {A : Type} (f : kernel -> kernel * A) : cmd A :=
  on_sys (fun s => let '(k, a) := f (s_kern s) in (set_kern s k, a)).
Definition free_frames : cmd Z := gets (fun s => pmm_free_frames (frames (s_mach s))).

(** Output. *)
Definition to_screen (f : screen -> screen) : cmd unit := modify (fun s => set_scr s (f (s_scr s))).
Definition say (l : list Z) : cmd unit := to_screen (fun x => kprint x l).
Definition say_color (l : list Z) (color : Z) : cmd unit := to_screen (fun x => kprint_color x l color).
Definition say_char (c : Z) : cmd unit := to_screen (fun x => kprint_char x c).
Definition say_hex (n : Z) : cmd unit := to_screen (fun x => kprint_hex x n).
Definition say_dec (n : Z) : cmd unit := to_screen (fun x => kprint_dec x n).

(** [kprint("...\n")] *)
Definition say_ln (l : list Z) : cmd unit := say (l ++ [10]).
Definition red_ln (l : list Z) : cmd unit := say_color (l ++ [10]) COLOR_RED_ON_BLACK.

(** ** Memory through the page tables

    A kernel access to a mapped page goes through; any other raises a page
    fault, and when the handler resolves it the instruction is restarted.  With
    CR0.WP set the kernel cannot write read-only pages either. *)

Definition kernel_fault (v : Z) (write : bool) : cmd unit := fun c =>
  let err := kernel_code (s_mach (c_sys c)) v write in
  match isr_handler (c_sys c) (trap_regs 14 err KERNEL_CS 0 0 0 0) v with
  | (s, Resumed) => (set_sys c s, inl tt)
  | (s, Recovered) => (set_sys c s, inr Unwound)
  | (s, Halted) => (set_sys c s, inr Panicked)
  end.

(** Each resolved fault makes the page present or writable, so two restarts are
    enough. *)
Fixpoint kstore (fuel : nat) (v x : Z) : cmd unit :=
  ok ← gets (fun s => kernel_writes (s_mach s) v);
  if ok : bool then
    modify (fun s => set_ram s (st32 (s_ram s) (vmm_translate (s_mach s) (active_dir (s_mach s)) v) x))
  else
    match fuel with
    | O => halt Out_of_fuel
    | S fuel => kernel_fault v true ;; kstore fuel v x
    end.

Fixpoint kload (fuel : nat) (v : Z) : cmd Z :=
  ok ← gets (fun s => kernel_reads (s_mach s) v);
  if ok : bool then gets (fun s => ld32 (s_ram s) (vmm_translate (s_mach s) (active_dir (s_mach s)) v))
  else
    match fuel with
    | O => halt Out_of_fuel
    | S fuel => kernel_fault v false ;; kload fuel v
    end.

Definition poke (v x : Z) : cmd unit := kstore 2 v x.
Definition peek (v : Z) : cmd Z := kload 2 v.

(** ** Commands *)

Definition prompt (x : screen) : screen := kprint_color x (lit "pyro> ") COLOR_GREEN_ON_BLACK.

Definition help_lines : list (list Z) :=
  [lit "Available commands:";
   lit "  help          this list";
   lit "  about         what PyroOS is";
   lit "  clear         clear the screen";
   lit "  logo          show the PyroOS flame logo";
   lit "  echo <text>   print text back";
   lit "  ls            list files";
   lit "  write <f> <t> write text t to file f";
   lit "  cat <f>       print file f";
   lit "  mem           test the heap allocator";
   lit "  ticks         timer ticks since boot";
   lit "  disk          check the boot disk";
   lit "  tasks         cooperative multitasking demo";
   lit "  spin          preemptive multitasking demo";
   lit "  threads       mutex vs race-condition demo";
   lit "  vm            address spaces and demand paging";
   lit "  elfinfo <f>   parse and validate a program as ELF";
   lit "  fork          fork, exit and wait between two processes";
   lit "  cow           one page shared by four processes (copy-on-write)";
   lit "  ps            list the process table";
   lit "  syscall       invoke a system call (int 0x80)";
   lit "  user          run the built-in ring-3 demo";
   lit "  exec <f>      load a program from disk and run it in ring 3";
   lit "  fault         trigger and recover from a page fault";
   lit "  reboot        restart the machine"].

Definition cmd_help : cmd unit :=
  to_screen (fun x => fold_left (fun x l => kprint x (l ++ [10])) help_lines x).

Definition reboot : cmd unit :=
  say_ln (lit "Rebooting...") ;;
  modify (fun s => System.outb s 0x64 0xFE) ;;
  halt Machine_reset.

Definition on_heap {A : Type} (f : kheap -> kheap * A) : cmd A := fun c =>
  let '(h, a) := f (mk_kheap (s_ram (c_sys c)) (c_heap c)) in
  (mk_console (set_ram (c_sys c) (h_mem h)) (heap_head h) (c_shared c) (c_edit c) (c_sec c) (c_fbuf c) (c_einfo c), inl a).

Definition cmd_mem : cmd unit :=
  p ← on_heap (fun h => kmalloc h 16);
  q ← on_heap (fun h => kmalloc h 16);
  say (lit "  kmalloc(16) -> ") ;; say_hex p ;; say_char 10 ;;
  say (lit "  kmalloc(16) -> ") ;; say_hex q ;; say_char 10 ;;
  on_heap (fun h => (kfree h p, tt)) ;;
  on_heap (fun h => (kfree h q, tt)).

Definition cmd_ticks : cmd unit :=
  say (lit "  timer ticks since boot: ") ;;
  t ← gets timer_ticks;
  say_dec t ;; say_char 10.

(** [ata_read(0, 1, sec)] on the disk of the filesystem. *)
Definition read_boot_sector : cmd Z := fun c =>
  let f := s_fs (c_sys c) in
  let '(d, b, r) := read_sector (dev f) 0 (c_sec c) in
  (set_bufs (set_sys c (set_fs (c_sys c) (mk_fs d (super f) (Fs.dir f) (secbuf f)))) b (c_fbuf c) (c_einfo c), inl r).

Definition cmd_disk : cmd unit :=
  r ← read_boot_sector;
  if r =? 0 then
    say (lit "  read LBA 0, signature ") ;;
    sec ← prim (fun c => (c, inl (c_sec c)));
    say_hex (Z.lor (ld8 sec 510) (Z.shiftl (ld8 sec 511) 8)) ;;
    if (ld8 sec 510 =? 0x55) && (ld8 sec 511 =? 0xAA) then say_ln (lit "  (valid boot sector)") else say [10]
  else red_ln (lit "  disk read failed").

Definition cmd_tasks (L : shell_link) : cmd unit :=
  say_ln (lit "  three tasks yield in turn (round-robin):") ;;
  prim (fun c =>
    let s := c_sys c in
    match tasking_demo kprint (l_stacks L) (l_task_a L) (l_task_b L) (l_task_c L) (s_sched s) (s_scr s) with
    | Some (st, x) => (set_sys c (set_scr (set_clock s (s_tick s) st) x), inl tt)
    | None => (c, inr Out_of_fuel)
    end).

Definition cmd_spin (L : shell_link) (w : world) : cmd unit :=
  say_ln (lit "  two non-yielding tasks, preempted by the timer (~2s):") ;;
  prim (fun c =>
    match preempt_demo (l_stacks L) (l_pworker_a L) (l_pworker_b L) (c_sys c) (w_slices w) with
    | (s, _, true) => (set_sys c s, inl tt)
    | (s, _, false) => (set_sys c s, inr Asleep)
    end).

Definition cmd_threads (L : shell_link) : cmd unit :=
  say_ln (lit "  synchronization: a race condition and its fix with a mutex.") ;;
  prim (fun c =>
    let s := c_sys c in
    match threads_demo (l_stacks L) (l_racer L) (l_safe_worker L) (s_sched s) (c_shared c) (s_scr s) with
    | Some (st, g, x) => (set_shared (set_sys c (set_scr (set_clock s (s_tick s) st) x)) g, inl tt)
    | None => (c, inr Out_of_fuel)
    end).

(** [logo_splash(ticks)] *)
Definition show_splash (ticks : Z) (wakeups : list (list (Z * Z))) : cmd unit := fun c =>
  match logo_splash (c_sys c) ticks wakeups with
  | (s, true) => (set_sys c s, inl tt)
  | (s, false) => (set_sys c s, inr Asleep)
  end.

Definition cmd_logo (w : world) : cmd unit := show_splash 150 (w_wakeups w).

(** [PF_PRESENT | PF_RW] *)
Definition PF_KDATA : Z := Z.lor PF_PRESENT PF_RW.

Definition map_alloc (d v : Z) : cmd Z := on_mach (fun m => vmm_map_alloc m d v PF_KDATA).
Definition translate (d v : Z) : cmd Z := gets (fun s => vmm_translate (s_mach s) d v).
Definition switch_dir (d : Z) : cmd unit := on_mach (fun m => (vmm_switch m d, tt)).
Definition destroy_dir (d : Z) : cmd unit := on_mach (fun m => (vmm_destroy_dir m d, tt)).
Definition served : cmd Z := gets (fun s => demand_faults_served (s_dem s)).

(** The part of [vm] for two address spaces. *)
Definition vm_spaces (a b : Z) : cmd unit :=
  let v := 0x00800000 in
  map_alloc a v ;;
  map_alloc b v ;;
  say (lit "  virtual ") ;; say_hex v ;;
  say (lit " maps to ") ;; pa ← translate a v; say_hex pa ;;
  say (lit " in space A, ") ;; pb ← translate b v; say_hex pb ;;
  say (lit " in space B") ;;
  pa ← translate a v; pb ← translate b v;
  (if negb (pa =? pb) then say_ln (lit "  (isolated)") else say_ln (lit "  (SHARED, wrong)")) ;;
  before ← served;
  modify (fun s => set_dem s (demand_region (s_dem s) a 0x01000000 0x01400000 PF_KDATA)) ;;
  say_ln (lit "  promised 4 MB at 0x01000000 in space A, no frames committed") ;;
  switch_dir a ;;
  poke 0x01000000 0xC0FFEE ;;
  poke (0x01000000 + 4 * 2048) 0xBEEF ;;
  poke (0x01000000 + 4 * 4096) 0xF00D ;;
  r0 ← peek 0x01000000; r1 ← peek (0x01000000 + 4 * 2048); r2 ← peek (0x01000000 + 4 * 4096);
  kd ← gets (fun s => vmm_kernel_dir (s_mach s));
  switch_dir kd ;;
  say (lit "  touched 3 pages, faults served ") ;;
  n ← served; say_dec (u32 (n - before)) ;;
  say (lit ", read back ") ;;
  say_hex r0 ;; say (lit " ") ;; say_hex r1 ;; say (lit " ") ;; say_hex r2 ;; say [10].

Definition cmd_vm : cmd unit :=
  say (lit "  physical frames: ") ;;
  n ← free_frames; say_dec n ;; say (lit " free of ") ;;
  t ← gets (fun s => pmm_total_frames (frames (s_mach s))); say_dec t ;; say [10] ;;
  a ← on_mach vmm_create_dir;
  b ← on_mach vmm_create_dir;
  (if (a =? 0) || (b =? 0) then red_ln (lit "  out of memory") else vm_spaces a b) ;;
  destroy_dir a ;;
  destroy_dir b ;;
  modify (fun s => set_dem s (demand_clear (s_dem s))) ;;
  say (lit "  both spaces freed, frames free now ") ;;
  n ← free_frames; say_dec n ;; say [10].

(** Processes. *)
Definition par_pid (i : Z) : cmd Z := gets (fun s => pid (slot (s_kern s) i)).
Definition par_dir (i : Z) : cmd Z := gets (fun s => Proc.dir (slot (s_kern s) i)).
Definition switch_to (p : Z) : cmd Z := on_kern (fun k => proc_switch_to k p).
Definition exit_ (code : Z) : cmd unit := on_kern (fun k => (proc_exit k code, tt)).
Definition wait_ : cmd (Z * option Z) := on_kern (fun k => let '(k, r, st) := proc_wait k in (k, (r, st))).
Definition refcount_of (frame : Z) : cmd Z := gets (fun s => pmm_refcount (frames (s_mach s)) frame).

(** [par->dir = vmm_create_dir(); vmm_map_alloc(par->dir, v, ...);] *)
Definition give_page (par v : Z) : cmd unit :=
  d ← on_mach vmm_create_dir;
  on_kern (fun k => (set_slot k par (Proc.with_dir (slot k par) d), tt)) ;;
  d ← par_dir par;
  map_alloc d v ;;
  mret tt.

(** [vmm_translate(par->dir, v) & ~0xFFFu] *)
Definition frame_of (par v : Z) : cmd Z :=
  d ← par_dir par; p ← translate d v; mret (Z.land p (u32 (Z.lnot 0xFFF))).

Definition cow_body (par v free0 : Z) : cmd unit :=
  give_page par v ;;
  p ← par_pid par; switch_to p ;;
  poke v 0x5A5A5A5A ;;
  frame ← frame_of par v;
  k0 ← on_kern proc_fork; k1 ← on_kern proc_fork; k2 ← on_kern proc_fork;
  say (lit "  one page at ") ;; say_hex v ;;
  say (lit ", shared by parent + 3 children: ") ;;
  n ← refcount_of frame; say_dec n ;; say_ln (lit " owners") ;;
  say (lit "  frames used by all four: ") ;;
  f ← free_frames; say_dec (u32 (free0 - f)) ;; say [10] ;;
  switch_to k0 ;; exit_ 0 ;;
  switch_to k1 ;; exit_ 0 ;;
  switch_to k2 ;; exit_ 0 ;;
  say (lit "  after 3 children exit, the page has ") ;;
  n ← refcount_of frame; say_dec n ;; say_ln (lit " owner") ;;
  p ← par_pid par; switch_to p ;;
  wait_ ;; wait_ ;; wait_ ;;
  exit_ 0 ;;
  wait_ ;;
  say (lit "  frames free: ") ;; say_dec free0 ;;
  say (lit " before, ") ;; f ← free_frames; say_dec f ;; say_ln (lit " after").

Definition cmd_cow : cmd unit :=
  let v := 0x00900000 in
  free0 ← free_frames;
  par ← on_kern (fun k => proc_alloc k (Some (lit "cowdemo")));
  match par with
  | None => red_ln (lit "  process table full")
  | Some par => cow_body par v free0
  end.

(** The child's part of the fork demo, and the parent after it. *)
Definition fork_child (par v kid before_fork : Z) : cmd unit :=
  say (lit "  forked child pid ") ;; say_dec (u32 kid) ;;
  say (lit ", cost ") ;; f ← free_frames; say_dec (u32 (before_fork - f)) ;;
  say_ln (lit " frames (page tables only, data page shared)") ;;
  shared ← frame_of par v;
  say (lit "  data page at ") ;; say_hex v ;;
  say (lit " has ") ;; n ← refcount_of shared; say_dec n ;;
  say_ln (lit " owners (copy-on-write)") ;;
  before_write ← free_frames;
  switch_to kid ;;
  say (lit "  child sees ") ;; x ← peek v; say_hex x ;;
  say_ln (lit " (inherited, no copy made)") ;;
  poke v 0x2222BBBB ;;
  say (lit "  child wrote ") ;; x ← peek v; say_hex x ;;
  say (lit ", split cost ") ;; f ← free_frames; say_dec (u32 (before_write - f)) ;;
  say_ln (lit " frame") ;;
  exit_ 7 ;;
  p ← par_pid par; switch_to p ;;
  say (lit "  parent still sees ") ;; x ← peek v; say_hex x ;;
  x ← peek v;
  (if x =? 0x1111AAAA then say_ln (lit "  (isolated)") else say_ln (lit "  (CLOBBERED, wrong)")) ;;
  r ← wait_;
  say (lit "  parent reaped pid ") ;; say_dec (u32 (fst r)) ;;
  say (lit " with exit code ") ;; say_dec (u32 (default (-1) (snd r))) ;; say [10].

Definition fork_body (par v free_before : Z) : cmd unit :=
  give_page par v ;;
  p ← par_pid par; switch_to p ;;
  poke v 0x1111AAAA ;;
  say (lit "  parent pid ") ;; p ← par_pid par; say_dec (u32 p) ;;
  say (lit " wrote ") ;; x ← peek v; say_hex x ;;
  say (lit " at ") ;; say_hex v ;; say [10] ;;
  before_fork ← free_frames;
  kid ← on_kern proc_fork;
  (if kid <? 0 then red_ln (lit "  fork failed") else fork_child par v kid before_fork) ;;
  exit_ 0 ;;
  wait_ ;;
  say (lit "  frames free: ") ;; say_dec free_before ;;
  say (lit " before, ") ;; f ← free_frames; say_dec f ;; say_ln (lit " after").

Definition cmd_fork : cmd unit :=
  let v := 0x00800000 in
  free_before ← free_frames;
  par ← on_kern (fun k => proc_alloc k (Some (lit "forkdemo")));
  match par with
  | None => red_ln (lit "  process table full")
  | Some par => fork_body par v free_before
  end.

(** [int 0x80] from the kernel. *)
Definition int80 (eax ebx : Z) : cmd Z := prim (fun c =>
  match syscall_handler (c_sys c) (trap_regs 0x80 0 KERNEL_CS eax ebx 0 0) [] with
  | (s, r, Returned) => (set_sys c s, inl (r_eax r))
  | (s, _, Blocked) => (set_sys c s, inr Asleep)
  | (s, _, Exited) | (s, _, Faulted) => (set_sys c s, inr Unwound)
  | (s, _, Crashed) => (set_sys c s, inr Panicked)
  end).

Definition cmd_syscall (L : shell_link) : cmd unit :=
  int80 SYS_WRITE (l_msg L) ;;
  up ← int80 SYS_UPTIME (l_msg L);
  say (lit "  sys_uptime returned ") ;; say_dec up ;; say_ln (lit " ticks").

(** A ring-3 program that does the events of [w]. *)
Definition run_ring3 (f : sys D -> launched (D := D)) : cmd unit := prim (fun c =>
  match f (c_sys c) with
  | Back s => (set_sys c s, inl tt)
  | Away s => (set_sys c s, inr Program_running)
  | Down s => (set_sys c s, inr Panicked)
  end).

Definition cmd_user (L : shell_link) (w : world) : cmd unit :=
  say_ln (lit "  dropping to ring 3 (user mode)...") ;;
  run_ring3 (fun s => run_user_program (l_paging L) (l_user_prog L) s (w_events w)).

(** [fs_read(name, img, sizeof(img), &size)] into the kernel's memory: the
    result and [size]. *)
Definition read_image (L : shell_link) (nm : list Z) : cmd (Z * Z) := prim (fun c =>
  let s := c_sys c in
  let '(f, m, r, out) := fs_read (s_fs s) nm (s_ram s) (l_img L) (32 * 1024) in
  (set_sys c (set_ram (set_fs s f) m), inl (r, default 0 out))).

(** [args_build(line, USER_STACK_TOP)] *)
Definition build_args (line : list Z) : cmd Z :=
  on_sys (fun s => let '(m, esp) := args_build (s_view s) line USER_STACK_TOP in (bus_commit s m, esp)).

Definition reset_zone (L : shell_link) : cmd unit := on_mach (fun m => (paging_reset_user_zone (l_paging L) m, tt)).

(** The ELF branch of [exec]. *)
Definition exec_elf (L : shell_link) (w : world) (nm tail : list Z) (size upid : Z) : cmd unit :=
  reset_zone L ;;
  r ← on_sys (fun s =>
    let '(m, rc, e) := elf_load (s_view s) (l_img L) size USER_LOAD_ADDR USER_STACK_TOP in
    (bus_commit s m, (rc, default 0 e)));
  if negb (fst r =? 0) then
    say_color (lit "  refused: ") COLOR_RED_ON_BLACK ;;
    if fst r =? -2 then say_ln (lit "a segment lies outside the user zone")
    else say_ln (lit "the entry point lies outside the user zone")
  else
    say (lit "  loaded ") ;; say nm ;; say (lit " as ELF (pid ") ;;
    say_dec (u32 upid) ;; say (lit "), entry ") ;;
    say_hex (snd r) ;; say_ln (lit ", running in ring 3:") ;;
    esp ← build_args tail;
    (if esp =? 0 then build_args [] ;; mret tt else mret tt) ;;
    on_mach (fun m => (elf_protect (l_paging L) m (l_img L), tt)) ;;
    run_ring3 (fun s => run_user_at_sp s (w_events w)).

(** The flat branch. *)
Definition exec_flat (L : shell_link) (w : world) (nm tail : list Z) (size : Z) : cmd unit :=
  reset_zone L ;;
  modify (fun s => bus_commit s (memcpy (s_view s) USER_LOAD_ADDR (l_img L) size)) ;;
  say (lit "  loaded ") ;; say nm ;; say (lit " as a flat binary (") ;;
  say_dec size ;; say_ln (lit " bytes), running in ring 3:") ;;
  esp ← build_args tail;
  if negb (esp =? 0) then run_ring3 (fun s => run_user_at_sp s (w_events w))
  else run_ring3 (fun s => run_user_at s (w_events w)).

Definition cmd_exec (L : shell_link) (w : world) (arg : list Z) : cmd unit :=
  let tail := skip_spaces arg in
  let nm := name_word (Z.to_nat (NAME_MAX - 1)) tail in
  r ← read_image L nm;
  if negb (fst r =? 0) || (snd r =? 0) then red_ln (lit "  no such program")
  else
    upid ← on_kern (fun k => proc_begin_user k (Some nm));
    ok ← gets (fun s => bool_decide (elf_validate (s_ram s) (l_img L) (snd r) = ELF_OK));
    (if ok : bool then exec_elf L w nm tail (snd r) upid else exec_flat L w nm tail (snd r)) ;;
    on_kern (fun k => (proc_end_user k upid, tt)).

(** The static buffer of elfinfo. *)
Definition cmd_elfinfo (arg : list Z) : cmd unit :=
  let nm := skip_spaces arg in
  r ← prim (fun c =>
    let s := c_sys c in
    let '(f, m, r, out) := fs_read (s_fs s) nm (c_einfo c) 0 (32 * 1024) in
    (set_bufs (set_sys c (set_fs s f)) (c_sec c) (c_fbuf c) m, inl (r, default 0 out)));
  if (fst r =? 0) && (0 <? snd r) then
    say (lit "  ") ;; say nm ;; say (lit ", ") ;;
    say_dec (snd r) ;; say_ln (lit " bytes on disk") ;;
    prim (fun c => (set_sys c (set_scr (c_sys c) (elf_dump (c_einfo c) 0 (snd r) (s_scr (c_sys c)))), inl tt))
  else red_ln (lit "  no such program").

(** [save_context] returns 0, and 1 when the fault handler unwinds to it. *)
Definition cmd_fault : cmd unit :=
  say_ln (lit "  reading unmapped memory at 0x00800000 (above the 8 MB map)...") ;;
  prim (fun c =>
    match (modify fault_arm ;; peek 0x00800000 ;; say_ln (lit "  (no fault occurred?)")) c with
    | (c, inr Unwound) =>
        say_color (lit "  recovered! the shell is still alive." ++ [10]) COLOR_GREEN_ON_BLACK c
    | r => r
    end) ;;
  modify fault_disarm.

(** [fs_write(name, p, strlen(p))] *)
Definition write_text (nm p : list Z) : cmd Z :=
  on_sys (fun s => let '(f, r) := fs_write (s_fs s) nm (put_bytes ∅ 0 (text p)) 0 (strlen p) in (set_fs s f, r)).

Definition cmd_write (arg : list Z) : cmd unit :=
  let p := skip_spaces arg in
  let nm := name_word 23 p in
  let p := skip_spaces (drop (length nm) p) in
  if cur nm =? 0 then say_ln (lit "usage: write <file> <text>")
  else
    r ← write_text nm p;
    if r =? 0 then say (lit "  wrote ") ;; say nm ;; say_char 10
    else red_ln (lit "  write failed").

Definition cmd_cat (arg : list Z) : cmd unit :=
  let nm := skip_spaces arg in
  r ← prim (fun c =>
    let s := c_sys c in
    let '(f, m, r, out) := fs_read (s_fs s) nm (c_fbuf c) 0 4096 in
    (set_bufs (set_sys c (set_fs s f)) (c_sec c) m (c_einfo c), inl (r, default 0 out)));
  if fst r =? 0 then
    prim (fun c => (set_sys c (set_scr (c_sys c)
      (for_range 0 (snd r) (fun i x => kprint_char x (ld8 (c_fbuf c) i)) (s_scr (c_sys c)))), inl tt)) ;;
    say_char 10
  else red_ln (lit "  no such file").

Definition execute (L : shell_link) (w : world) (c : list Z) : cmd unit :=
  if cur c =? 0 then mret tt
  else if streq c (lit "help") then cmd_help
  else if streq c (lit "about") then
    say_ln (lit "PyroOS: a from-scratch x86 operating system.") ;;
    say_ln (lit "bootloader, protected mode, C kernel, paging, heap, and this shell.")
  else if streq c (lit "clear") then to_screen clear_screen
  else if streq c (lit "logo") then cmd_logo w
  else if streq c (lit "mem") then cmd_mem
  else if streq c (lit "ticks") then cmd_ticks
  else if streq c (lit "disk") then cmd_disk
  else if streq c (lit "tasks") then cmd_tasks L
  else if streq c (lit "spin") then cmd_spin L w
  else if streq c (lit "vm") then cmd_vm
  else if streq c (lit "cow") then cmd_cow
  else if streq c (lit "fork") then cmd_fork
  else if streq c (lit "ps") then
    prim (fun k => (set_sys k (set_scr (c_sys k) (proc_list (s_kern (c_sys k)) (s_scr (c_sys k)))), inl tt))
  else if streq c (lit "threads") then cmd_threads L
  else if streq c (lit "syscall") then cmd_syscall L
  else if streq c (lit "user") then cmd_user L w
  else if starts_with c (lit "exec ") then cmd_exec L w (drop 5 c)
  else if starts_with c (lit "elfinfo ") then cmd_elfinfo (drop 8 c)
  else if streq c (lit "fault") then cmd_fault
  else if streq c (lit "reboot") then reboot
  else if streq c (lit "echo") then say_char 10
  else if starts_with c (lit "echo ") then say (drop 5 c) ;; say_char 10
  else if streq c (lit "ls") then
    prim (fun k => (set_sys k (set_scr (c_sys k) (fs_list (s_fs (c_sys k)) (s_scr (c_sys k)))), inl tt))
  else if starts_with c (lit "write ") then cmd_write (drop 6 c)
  else if starts_with c (lit "cat ") then cmd_cat (drop 4 c)
  else
    say_color (lit "unknown command: ") COLOR_RED_ON_BLACK ;;
    say c ;;
    say (10 :: lit "Type 'help'." ++ [10]).

(** An operation of the editor on the console. *)
Definition on_edit (f : editor -> screen -> editor * screen) : cmd unit := prim (fun c =>
  let '(e, x) := f (c_edit c) (s_scr (c_sys c)) in (set_edit (set_sys c (set_scr (c_sys c) x)) e, inl tt)).

Definition handle_char (L : shell_link) (w : world) (ch : Z) : cmd unit :=
  if ch =? KEY_UP then on_edit history_prev
  else if ch =? KEY_DOWN then on_edit history_next
  else if (ch =? KEY_LEFT) || (ch =? KEY_RIGHT) then mret tt
  else if ch =? 10 then
    say_char 10 ;;
    on_edit (fun e x => (edit_enter e, x)) ;;
    l ← prim (fun c => (c, inl (line (c_edit c))));
    execute L w l ;;
    on_edit (fun e x => (edit_reset e, x)) ;;
    to_screen prompt
  else on_edit (fun e x => edit_key e x ch).

(** One turn of the loop of [shell_run]; [w] is what the world does meanwhile. *)
Definition shell_turn (L : shell_link) (w : world) : cmd unit :=
  ch ← on_sys (fun s => let '(k, ch) := keyboard_getchar (s_kbd s) in (set_kbd s k, ch));
  if 0 <=? ch then handle_char L w ch
  else modify (fun s => irqs s (concat (take 1 (w_wakeups w)))).

Fixpoint shell_loop (L : shell_link) (ws : list world) : cmd unit :=
  match ws with
  | [] => mret tt
  | w :: ws => shell_turn L w ;; shell_loop L ws
  end.

Definition shell_run (L : shell_link) (ws : list world) : cmd unit :=
  say (10 :: lit "PyroOS shell ready. Type 'help'." ++ [10; 10]) ;;
  to_screen prompt ;;
  shell_loop L ws.

(** ** The whole of [kmain]

    [Boot.kmain] ends at [sti]; then come the splash, with the interrupts
    [splash] of its waits, and the shell. *)

Definition boot_console (I : image) (s : sys D) (idt : list idt_entry) (gdt : list gdt_entry) (cr0 : Z) : console :=
  let b := kmain I s idt gdt cr0 in
  mk_console (b_sys b) (b_heap b) (mk_shared 0 0) editor_boot ∅ ∅ ∅.

Definition kernel_run (I : image) (L : shell_link) (s : sys D) (idt : list idt_entry) (gdt : list gdt_entry) (cr0 : Z)
    (splash : list (list (Z * Z))) (ws : list world) : console * (unit + stopped) :=
  (show_splash 75 splash ;; shell_run L ws) (boot_console I s idt gdt cr0).

End Shell.
