(* ===== verification/ShellProps.v ===== *)
(** * Properties of the shell

    Command names, the line editor behind the keyboard, files through the
    commands write and cat, recovery from a fault, and the demos on a machine
    that has just booted. *)

From stdpp Require Import base gmap list numbers option.
From Stdlib Require Import ZArith Lia Bool.
From S2P Require Import Prelude CString Screen Pmm Vmm VmmLemmas VmmSpec VmmClone VmmTheorems VmmProps Paging Demand FreeList Kheap Interfaces Keyboard Fs Proc Elf Args Sync Task Tables System Bus Syscall Usermode Logo Preempt Editor Boot Shell.

#[local] Opaque kprint kprint_char kprint_color fs_write fs_read fault_report.

(** ** Comparing strings *)

Lemma streq_spec a : forall b, streq a b = bool_decide (text a = text b).
Proof.
  induction a as [|x a IH]; intros [|y b]; cbn [streq cur nxt text].
  - reflexivity.
  - rewrite Z.eqb_sym. destruct (Z.eqb_spec y 0); symmetry; [apply bool_decide_eq_true|apply bool_decide_eq_false]; congruence.
  - rewrite Z.eqb_refl. cbn [negb]. rewrite andb_false_r.
    destruct (Z.eqb_spec x 0); symmetry; [apply bool_decide_eq_true|apply bool_decide_eq_false]; congruence.
  - destruct (Z.eqb_spec x 0) as [->|Nx]; cbn [negb andb].
    { rewrite Z.eqb_sym. destruct (Z.eqb_spec y 0); symmetry; [apply bool_decide_eq_true|apply bool_decide_eq_false]; congruence. }
    destruct (Z.eqb_spec y 0) as [->|Ny]; cbn [negb].
    { rewrite (proj2 (Z.eqb_neq x 0)) by exact Nx. symmetry. apply bool_decide_eq_false. congruence. }
    destruct (Z.eqb_spec x y) as [->|N]; cbn [negb].
    + rewrite IH. apply bool_decide_ext. split; congruence.
    + symmetry. apply bool_decide_eq_false. congruence.
Qed.

Lemma starts_with_spec p : forall s, starts_with s p = bool_decide (text p `prefix_of` text s).
Proof.
  induction p as [|c p IH]; intros s; cbn [starts_with text].
  - symmetry. apply bool_decide_eq_true, prefix_nil.
  - destruct (Z.eqb_spec c 0) as [->|Nc]; [symmetry; apply bool_decide_eq_true, prefix_nil|].
    destruct s as [|x s]; cbn [cur nxt text].
    { rewrite (proj2 (Z.eqb_neq 0 c)) by congruence. cbn [negb]. symmetry. apply bool_decide_eq_false. apply prefix_nil_not. }
    destruct (Z.eqb_spec x c) as [->|N]; cbn [negb].
    + rewrite IH, (proj2 (Z.eqb_neq c 0)) by exact Nc. apply bool_decide_ext. split; [apply prefix_cons|apply prefix_cons_inv_2].
    + symmetry. apply bool_decide_eq_false. destruct (x =? 0); [apply prefix_nil_not|]. intros P. apply prefix_cons_inv_1 in P. congruence.
Qed.

(** One step of a command. *)
Lemma run_bind {D : Type} {A B : Type} (m : cmd (D := D) A) (k : A -> cmd B) (c : console (D := D)) :
  (m ≫= k) c = match m c with (c', inl a) => k a c' | (c', inr e) => (c', inr e) end.
Proof. reflexivity. Qed.

Lemma run_screen {D : Type} (f : screen -> screen) (c : console (D := D)) :
  to_screen f c = (set_sys c (set_scr (c_sys c) (f (s_scr (c_sys c)))), inl tt).
Proof. reflexivity. Qed.

(** Run the printing steps at the front of a command. *)
Ltac run_output := unfold say_ln, red_ln, say, say_color, say_char, say_hex, say_dec;
  repeat (rewrite run_bind; rewrite run_screen; cbv beta iota); rewrite ?run_screen;
  cbn [c_sys set_sys set_scr s_scr].

Section Keys.
Context {D : Type} {DK : Disk D}.
Implicit Types (c : console (D := D)).

(** The console with another screen and another editor. *)
Definition shown c (x : screen) (e : editor) : console := set_edit (set_sys c (set_scr (c_sys c) x)) e.

(** Several characters in turn. *)
Fixpoint handle_chars (L : shell_link) (w : world) (ks : list Z) : cmd (D := D) unit :=
  match ks with
  | [] => mret tt
  | k :: ks => handle_char L w k ;; handle_chars L w ks
  end.

Fixpoint draft_keys (d : draft) (ks : list Z) : draft * list Z :=
  match ks with
  | [] => (d, [])
  | k :: ks =>
      let '(d, o) := draft_key d k in
      let '(d, o') := draft_keys d ks in (d, o ++ o')
  end.

(** A key other than Enter. *)
Definition plain_key (k : Z) : Prop := k <> 0 /\ k <> 10.

Lemma on_edit_run (f : editor -> screen -> editor * screen) c :
  on_edit f c = (let '(e, x) := f (c_edit c) (s_scr (c_sys c)) in (shown c x e, inl tt)).
Proof. unfold on_edit, prim. destruct (f _ _). reflexivity. Qed.

Lemma handle_plain L w k c d :
  edits (c_edit c) d -> plain_key k ->
  exists e, handle_char L w k c = (shown c (fold_left kprint_char (snd (draft_key d k)) (s_scr (c_sys c))) e, inl tt) /\
    edits e (fst (draft_key d k)).
Proof.
  intros E [K0 K10]. unfold handle_char.
  destruct (Z.eqb_spec k KEY_UP) as [->|N1].
  { pose proof (history_prev_spec _ (s_scr (c_sys c)) _ E) as H. rewrite on_edit_run.
    destruct (history_prev _ _) as [e x]. destruct H as [H1 ->]. eauto. }
  destruct (Z.eqb_spec k KEY_DOWN) as [->|N2].
  { pose proof (history_next_spec _ (s_scr (c_sys c)) _ E) as H. rewrite on_edit_run.
    destruct (history_next _ _) as [e x]. destruct H as [H1 ->]. eauto. }
  destruct ((k =? KEY_LEFT) || (k =? KEY_RIGHT)) eqn:LR.
  { exists (c_edit c). unfold draft_key. rewrite LR, (proj2 (Z.eqb_neq k KEY_UP)), (proj2 (Z.eqb_neq k KEY_DOWN)) by assumption.
    cbn [fst snd fold_left]. split; [|exact E]. unfold shown, mret, cmd_ret. destruct c as [[]]; reflexivity. }
  apply orb_false_iff in LR as [N3 N4]. apply Z.eqb_neq in N3, N4.
  rewrite (proj2 (Z.eqb_neq k 10)) by assumption.
  pose proof (edit_key_spec _ (s_scr (c_sys c)) _ k E K0 N1 N2 N3 N4) as H. rewrite on_edit_run.
  destruct (edit_key _ _ _) as [e x]. destruct H as [H1 ->]. eauto.
Qed.

Lemma handle_chars_plain L w ks : forall c d,
  edits (c_edit c) d -> Forall plain_key ks ->
  exists e, handle_chars L w ks c = (shown c (fold_left kprint_char (snd (draft_keys d ks)) (s_scr (c_sys c))) e, inl tt) /\
    edits e (fst (draft_keys d ks)).
Proof.
  induction ks as [|k ks IH]; intros c d E F; cbn [handle_chars draft_keys].
  { exists (c_edit c). split; [|exact E]. unfold shown, mret, cmd_ret. destruct c as [[]]; reflexivity. }
  apply Forall_cons_iff in F as [K F]. destruct (handle_plain L w k c d E K) as (e & H1 & H2).
  unfold mbind, cmd_bind. rewrite H1. destruct (draft_key d k) as [d1 o1]. cbn [fst snd] in *.
  destruct (IH (shown c (fold_left kprint_char o1 (s_scr (c_sys c))) e) d1 H2 F) as (e' & H3 & H4).
  rewrite H3. destruct (draft_keys d1 ks) as [d2 o2]. cbn [fst snd] in *. exists e'. split; [|exact H4].
  rewrite fold_left_app. reflexivity.
Qed.

Lemma handle_chars_app L w ks ks' c : handle_chars L w (ks ++ ks') c = (handle_chars L w ks ;; handle_chars L w ks') c.
Proof.
  revert c. induction ks as [|k ks IH]; intros c; [reflexivity|]. cbn [app handle_chars]. unfold mbind, cmd_bind in *.
  destruct (handle_char L w k c) as [c' [[]|]]; [apply IH|reflexivity].
Qed.

(** C29. Typing a command.  Whatever is typed, with backspaces and recalls from
    the history, Enter runs the command on exactly the text an ideal editor
    with an unbounded list would hold (cut at 127 characters), the screen has
    echoed exactly the ideal editor's output, and the text joins the last
    sixteen commands; the next line starts empty. *)
Theorem shell_runs_typed_line (L : shell_link) (w : world) (ks : list Z) c (d : draft) :
  edits (c_edit c) d -> Forall plain_key ks ->
  let '(d', echo) := draft_keys d ks in
  exists e, text (line e) = typed_text d' /\
    edits (edit_reset e) (mk_draft [] (remember (past d') (typed_text d')) (tlen (remember (past d') (typed_text d')))) /\
    handle_chars L w (ks ++ [10]) c
    = (execute L w (line e) ;; on_edit (fun e x => (edit_reset e, x)) ;; to_screen prompt ;; mret tt)
        (shown c (fold_left kprint_char (echo ++ [10]) (s_scr (c_sys c))) e).
Proof.
  intros E F. destruct (handle_chars_plain L w ks c d E F) as (e & H1 & H2). rewrite handle_chars_app.
  destruct (draft_keys d ks) as [d' echo]. cbn [fst snd] in *.
  destruct (edit_enter_spec e d' H2) as [T1 T2]. exists (edit_enter e). split; [exact T1|]. split; [exact T2|].
  unfold mbind at 1, cmd_bind at 1. rewrite H1. rewrite fold_left_app. cbn [fold_left handle_chars].
  set (x := fold_left kprint_char echo _). change (handle_char L w 10) with
    (say_char (D := D) 10 ;; on_edit (fun e x => (edit_enter e, x)) ;;
     l ← prim (fun c => (c, inl (line (c_edit c)))); execute L w l ;; on_edit (fun e x => (edit_reset e, x)) ;; to_screen prompt).
  unfold mbind, cmd_bind. change (say_char 10 (shown c x e)) with (shown c (kprint_char x 10) e, inl (A := unit) (B := stopped) tt).
  cbv beta iota. rewrite on_edit_run.
  change (shown (shown c (kprint_char x 10) e) (s_scr (c_sys (shown c (kprint_char x 10) e))) (edit_enter (c_edit (shown c (kprint_char x 10) e))))
    with (shown c (kprint_char x 10) (edit_enter e)).
  cbv beta iota. unfold prim at 1. cbv beta iota.
  change (line (c_edit (shown c (kprint_char x 10) (edit_enter e)))) with (line (edit_enter e)).
  destruct (execute L w (line (edit_enter e)) _) as [c2 [[]|]]; [|reflexivity].
  destruct (on_edit _ c2) as [c3 [[]|]]; [|reflexivity]. destruct (to_screen prompt c3) as [c4 [[]|]]; reflexivity.
Qed.

End Keys.

(** ** Choosing the command *)

(** Decide the comparisons of [execute] for a line with the text [E] gives. *)
Ltac dispatch E :=
  repeat first
    [ rewrite streq_spec; rewrite bool_decide_eq_false_2 by (rewrite E; cbn; discriminate)
    | rewrite starts_with_spec; rewrite bool_decide_eq_false_2 by (intros [? P]; rewrite E in P; discriminate P)
    | rewrite starts_with_spec; rewrite bool_decide_eq_true_2 by (rewrite E; eexists; reflexivity)
    | rewrite streq_spec; rewrite bool_decide_eq_true_2 by (rewrite E; reflexivity) ].

Lemma cur_cons p x r : text p = x :: r -> cur p = x.
Proof. destruct p as [|c p]; cbn; [discriminate|]. destruct (c =? 0); congruence. Qed.

Lemma text_nonzero p x r : text p = x :: r -> x <> 0.
Proof. intros E. pose proof (text_no_nul p) as F. rewrite E in F. inversion F. assumption. Qed.

Ltac first_char E :=
  let H := fresh in pose proof (cur_cons _ _ _ E) as H; rewrite H; clear H; cbn [Z.eqb Pos.eqb].

Section Dispatch.
Context {D : Type} {DK : Disk D}.

Lemma execute_write (L : shell_link) (w : world) (l r : list Z) :
  text l = lit "write " ++ r -> execute (D := D) L w l = cmd_write (drop 6 l).
Proof. intros E. unfold execute. first_char E. dispatch E. reflexivity. Qed.

Lemma execute_cat (L : shell_link) (w : world) (l r : list Z) :
  text l = lit "cat " ++ r -> execute (D := D) L w l = cmd_cat (drop 4 l).
Proof. intros E. unfold execute. first_char E. dispatch E. reflexivity. Qed.

Lemma execute_fault (L : shell_link) (w : world) (l : list Z) :
  text l = lit "fault" -> execute (D := D) L w l = cmd_fault.
Proof. intros E. unfold execute. first_char E. dispatch E. reflexivity. Qed.

Lemma execute_exec (L : shell_link) (w : world) (l r : list Z) :
  text l = lit "exec " ++ r -> execute (D := D) L w l = cmd_exec L w (drop 5 l).
Proof. intros E. unfold execute. first_char E. dispatch E. reflexivity. Qed.

End Dispatch.

(** ** Files *)

Lemma text_drop p : forall l r, text l = p ++ r -> text (drop (length p) l) = r.
Proof.
  induction p as [|x p IH]; intros l r E; [exact E|]. destruct l as [|c l]; [discriminate|]. cbn in E |- *.
  destruct (c =? 0); [discriminate|]. injection E as -> E. apply IH, E.
Qed.

Lemma skip_none p : cur p <> 32 -> skip_spaces p = p.
Proof. destruct p as [|c p]; [reflexivity|]. cbn. intros N. apply Z.eqb_neq in N. rewrite N. reflexivity. Qed.

(** A word that ends at a space or at the end of the text. *)
Lemma name_word_text nm : forall room p r,
  text p = nm ++ r -> (length nm <= room)%nat -> Forall (fun c => c <> 32) nm -> (r = [] \/ cur r = 32) ->
  name_word room p = nm.
Proof.
  induction nm as [|x nm IH]; intros room p r E Hl F Hr.
  - destruct room as [|room]; [reflexivity|]. destruct p as [|c p]; [reflexivity|]. cbn in E |- *.
    destruct (c =? 0); [reflexivity|]. destruct Hr as [->|Hr]; [discriminate|]. subst r. cbn in Hr. subst c. reflexivity.
  - destruct room as [|room]; [cbn in Hl; lia|]. destruct p as [|c p]; [discriminate|]. cbn in E |- *.
    apply Forall_cons_iff in F as [Nx F]. destruct (c =? 0) eqn:Ec; [discriminate|]. injection E as -> E.
    apply Z.eqb_neq in Nx. rewrite Nx. cbn. f_equal. apply (IH _ _ r); [exact E|cbn in Hl; lia|exact F|exact Hr].
Qed.

(** A name the filesystem can keep: 1 to 19 characters, no space. *)
Record file_name (nm : list Z) : Prop := {
  fn_nonempty : nm <> [];
  fn_short : tlen nm < NAME_LEN;
  fn_chars : Forall (fun c => 0 < c < 256 /\ c <> 32) nm
}.

Lemma text_id nm : Forall (fun c => c <> 0) nm -> text nm = nm.
Proof. induction 1 as [|c nm N _ IH]; [reflexivity|]. cbn. apply Z.eqb_neq in N. rewrite N, IH. reflexivity. Qed.

Lemma file_name_facts nm : file_name nm ->
  text nm = nm /\ bytes nm /\ Forall (fun c => c <> 32) nm /\ cur nm <> 32 /\ cur nm <> 0.
Proof.
  intros [N S F]. split; [apply text_id; eapply Forall_impl; [|exact F]; cbn; lia|].
  split; [eapply Forall_impl; [|exact F]; cbn; lia|]. split; [eapply Forall_impl; [|exact F]; cbn; lia|].
  destruct nm as [|c nm]; [contradiction|]. apply Forall_cons_iff in F as [F _]. cbn. lia.
Qed.

Lemma cur_app l r : l <> [] -> cur (l ++ r) = cur l.
Proof. destruct l; [contradiction|reflexivity]. Qed.

Lemma for_chars (m : mem) n : forall a x,
  for_range a (a + Z.of_nat n) (fun i x => kprint_char x (ld8 m i)) x
  = fold_left kprint_char (map (ld8 m) (seqZ a (Z.of_nat n))) x.
Proof.
  induction n as [|n IH]; intros a x; [apply for_range_empty; lia|].
  rewrite for_range_step, Nat2Z.inj_succ, seqZ_cons by lia. cbn [map fold_left].
  replace (a + Z.succ (Z.of_nat n)) with (a + 1 + Z.of_nat n) by lia. rewrite IH. do 3 f_equal; lia.
Qed.

Section Files.
Context {D : Type} {DK : Disk D} {DL : DiskLaws D}.
Hypothesis Hdisk : DATA_LBA + MAX_FILES * SLOT_SECTORS <= disk_size.
Hypothesis Hds : disk_size <= 0x100000000.
Implicit Types (c : console (D := D)).

(** The console after a command that changes the files, the screen and the
    buffer of cat. *)
Definition with_file c (f : fs) (x : screen) (fbuf : mem) : console :=
  set_bufs (set_sys c (set_scr (set_fs (c_sys c) f) x)) (c_sec c) fbuf (c_einfo c).

Lemma cmd_write_run c (arg nm t : list Z) (k : Z) :
  fs_ok (s_fs (c_sys c)) k -> synced (s_fs (c_sys c)) -> file_name nm ->
  Forall (fun x => 0 < x < 256) t -> cur t <> 32 -> tlen t <= SLOT_SECTORS * 512 -> text arg = nm ++ 32 :: t ->
  let f := s_fs (c_sys c) in
  let x := s_scr (c_sys c) in
  (k = MAX_FILES /\ lookup_file f nm = None /\
   cmd_write arg c = (with_file c f (kprint_color x (lit "  write failed" ++ [10]) COLOR_RED_ON_BLACK) (c_fbuf c), inl tt)) \/
  (exists f' k', fs_ok f' k' /\ synced f' /\ lookup_file f' nm = Some t /\
   (forall o, text o <> nm -> lookup_file f' o = lookup_file f o) /\
   cmd_write arg c = (with_file c f' (kprint_char (kprint (kprint x (lit "  wrote ")) nm) 10) (c_fbuf c), inl tt)).
Proof.
  intros O Sy Fn Ft Ct Lt E f x. destruct (file_name_facts nm Fn) as (Tn & Bn & Nn & Cn & Cn0).
  assert (Ca : cur arg = cur nm) by (rewrite <- cur_text, E, cur_app; [reflexivity|apply Fn]).
  unfold cmd_write. rewrite skip_none by congruence.
  assert (Len : (length nm <= 23)%nat) by (pose proof (fn_short _ Fn); unfold NAME_LEN, tlen in *; lia).
  rewrite (name_word_text nm 23 arg (32 :: t) E Len Nn (or_intror eq_refl)). cbv zeta.
  rewrite (proj2 (Z.eqb_neq (cur nm) 0)) by exact Cn0. set (p := skip_spaces (drop (length nm) arg)).
  assert (Tp : text p = t).
  { unfold p. rewrite text_skip, (text_drop nm arg (32 :: t) E). cbn. apply skip_none, Ct. }
  assert (Bt : bytes t) by (eapply Forall_impl; [|exact Ft]; cbn; lia). pose proof (tlen_nonneg t).
  rewrite run_bind. unfold write_text, on_sys. rewrite strlen_text, Tp. change (Z.of_nat (length t)) with (tlen t).
  pose proof (fs_write_spec Hdisk Hds (s_fs (c_sys c)) k nm (put_bytes ∅ 0 t) 0 (tlen t) O Sy Bn
    ltac:(rewrite Tn; apply Fn) ltac:(lia)) as W.
  fold f in W |- *. destruct (fs_write f nm (put_bytes ∅ 0 t) 0 (tlen t)) as [f' r].
  destruct W as [(-> & -> & Hk & Hl)|(-> & [k' O'] & Sy' & Lk & Ot)].
  - left. split; [exact Hk|]. split; [exact Hl|]. reflexivity.
  - right. exists f', k'. split; [exact O'|]. split; [exact Sy'|]. split.
    { rewrite Lk, Z.min_l by exact Lt. rewrite bytes_at_put by (exact Bt || lia). rewrite Z.sub_diag. cbn. rewrite app_nil_r. reflexivity. }
    rewrite Tn in Ot. split; [exact Ot|]. cbn [Z.eqb]. run_output. reflexivity.
Qed.

Lemma cmd_cat_run c (arg nm t : list Z) (k : Z) :
  fs_ok (s_fs (c_sys c)) k -> synced (s_fs (c_sys c)) -> file_name nm -> text arg = nm ->
  lookup_file (s_fs (c_sys c)) nm = Some t -> tlen t <= 4096 -> Forall (fun x => 0 < x < 256) t ->
  exists f' b, fs_ok f' k /\ synced f' /\ (forall o, lookup_file f' o = lookup_file (s_fs (c_sys c)) o) /\
    cmd_cat arg c = (with_file c f' (kprint_char (kprint (s_scr (c_sys c)) t) 10) b, inl tt).
Proof.
  intros O Sy Fn E Lk Lt Ft. destruct (file_name_facts nm Fn) as (Tn & _ & _ & Cn & _).
  assert (Ca : cur arg = cur nm) by (rewrite <- cur_text, E; reflexivity).
  unfold cmd_cat. rewrite skip_none by congruence. cbv zeta. rewrite run_bind. unfold prim at 1.
  assert (La : lookup_file (s_fs (c_sys c)) arg = Some t).
  { unfold lookup_file, find in *. rewrite (find_range_ext 0 MAX_FILES _ (fun i => ent_used (Fs.dir (s_fs (c_sys c))) i && (strcmp (ent_name (Fs.dir (s_fs (c_sys c))) i) nm =? 0))); [exact Lk|].
    intros i _. f_equal. pose proof (strcmp_eq (ent_name (Fs.dir (s_fs (c_sys c))) i) arg) as S1.
    pose proof (strcmp_eq (ent_name (Fs.dir (s_fs (c_sys c))) i) nm) as S2. rewrite E in S1. rewrite Tn in S2.
    destruct (Z.eqb_spec (strcmp (ent_name (Fs.dir (s_fs (c_sys c))) i) arg) 0), (Z.eqb_spec (strcmp (ent_name (Fs.dir (s_fs (c_sys c))) i) nm) 0); tauto. }
  pose proof (fs_read_spec Hdisk Hds (s_fs (c_sys c)) k arg (c_fbuf c) 0 4096 O ltac:(lia)) as R.
  destruct (fs_read (s_fs (c_sys c)) arg (c_fbuf c) 0 4096) as [[[f' b] r] out]. rewrite La in R.
  destruct R as ((O' & Sy' & Ot) & -> & -> & Bt & _). pose proof (tlen_nonneg t).
  rewrite Z.min_l in Bt by exact Lt. rewrite Z.min_l by exact Lt. exists f', b.
  split; [exact O'|]. split; [apply Sy', Sy|]. split; [exact Ot|]. cbn [fst snd default Z.eqb].
  unfold mbind, cmd_bind, prim, say_char, to_screen, modify, on_sys. cbn [c_sys set_sys set_bufs set_scr s_scr c_fbuf set_fs].
  assert (Ex : for_range 0 (tlen t) (fun i x => kprint_char x (ld8 b i)) (s_scr (c_sys c)) = kprint (s_scr (c_sys c)) t).
  { unfold tlen. rewrite (for_chars b (length t) 0). rewrite kprint_text, text_id by (eapply Forall_impl; [|exact Ft]; cbn; lia).
    f_equal. transitivity (bytes_at b 0 (tlen t)); [reflexivity|]. rewrite Bt. unfold tlen. rewrite Nat2Z.id. apply firstn_all. }
  change (id (tlen t)) with (tlen t). rewrite Ex. reflexivity.
Qed.

(** C30. Files from the shell.  Typing "write <file> <text>" and then
    "cat <file>" prints the text that was written, for every name of up to 19
    characters and every text, unless the directory is full; the file then
    holds exactly the text and every other file is as before. *)
Theorem write_then_cat (L : shell_link) (w : world) c (l1 l2 nm t : list Z) (k : Z) :
  let f := s_fs (c_sys c) in
  let x := s_scr (c_sys c) in
  fs_ok f k -> synced f -> k < MAX_FILES \/ lookup_file f nm <> None -> file_name nm ->
  Forall (fun a => 0 < a < 256) t -> cur t <> 32 -> tlen t <= 4096 ->
  text l1 = lit "write " ++ nm ++ 32 :: t -> text l2 = lit "cat " ++ nm ->
  exists f' k' b,
    (execute L w l1 ;; execute L w l2) c
    = (with_file c f' (kprint_char (kprint (kprint_char (kprint (kprint x (lit "  wrote ")) nm) 10) t) 10) b, inl tt) /\
    fs_ok f' k' /\ synced f' /\ lookup_file f' nm = Some t /\
    forall o, text o <> nm -> lookup_file f' o = lookup_file f o.
Proof.
  intros f x O Sy Room Fn Ft Ct Lt E1 E2. rewrite run_bind, (execute_write L w l1 _ E1), (execute_cat L w l2 _ E2).
  assert (A1 : text (drop 6 l1) = nm ++ 32 :: t) by exact (text_drop (lit "write ") l1 _ E1).
  assert (A2 : text (drop 4 l2) = nm) by exact (text_drop (lit "cat ") l2 _ E2).
  destruct (cmd_write_run c _ nm t k O Sy Fn Ft Ct ltac:(unfold SLOT_SECTORS; lia) A1) as [(Hk & Hl & _)|(f1 & k1 & O1 & S1 & L1 & T1 & ->)].
  { exfalso. unfold MAX_FILES in *. fold f in Hl. destruct Room as [R|R]; [lia|contradiction]. }
  set (c1 := with_file c f1 _ _).
  destruct (cmd_cat_run c1 _ nm t k1 O1 S1 Fn A2 L1 Lt Ft) as (f2 & b & O2 & S2 & L2 & ->).
  exists f2, k1, b. split; [reflexivity|]. split; [exact O2|]. split; [exact S2|].
  split; [rewrite L2; exact L1|]. intros o No. rewrite L2. apply T1, No.
Qed.

End Files.

(** ** Recovering from a fault *)

Section Fault.
Context {D : Type} {DK : Disk D}.
Implicit Types (c : console (D := D)).

(** A read of an address nothing backs. *)
Lemma unbacked_read (s : sys D) v :
  is_present (pte (s_mach s) (active_dir (s_mach s)) v) = false ->
  promised (s_dem s) (active_dir (s_mach s)) v = false ->
  isr_handler s (trap_regs 14 0 KERNEL_CS 0 0 0 0) v = unresolved s 14 0 v.
Proof.
  intros Hp Hd. unfold isr_handler. cbn [r_int_no r_err_code trap_regs Z.eqb Pos.eqb].
  unfold demand_handle. change (tst 0 1) with false. cbv iota. unfold promised in Hd.
  destruct (find_range 0 MAX_REGIONS (fun i => covers (reg (s_dem s) i) (active_dir (s_mach s)) v)) as [i|] eqn:E.
  { assert (P : promised (s_dem s) (active_dir (s_mach s)) v = true) by (apply promised_find; eauto). unfold promised in P. congruence. }
  unfold vmm_cow_handle. change (tst 0 2) with false. cbn [negb Z.eqb]. destruct s as [[]]; reflexivity.
Qed.

(** The fault command.  When nothing backs the address 0x00800000, the read
    is reported, the handler unwinds to the saved context, the shell prints its
    message and goes on: recovery is disarmed again, and but for the screen
    and the fault flag the system is as before. *)
Theorem fault_recovers (L : shell_link) (w : world) c (l : list Z) :
  let s := c_sys c in
  let x := kprint (s_scr s) (lit "  reading unmapped memory at 0x00800000 (above the 8 MB map)..." ++ [10]) in
  text l = lit "fault" ->
  is_present (pte (s_mach s) (active_dir (s_mach s)) 0x00800000) = false ->
  promised (s_dem s) (active_dir (s_mach s)) 0x00800000 = false ->
  execute L w l c
  = (set_sys c (set_fault (set_scr s (kprint_color (fault_report x 14 0 0x00800000)
       (lit "  recovered! the shell is still alive." ++ [10]) COLOR_GREEN_ON_BLACK)) false true), inl tt).
Proof.
  intros s x E Hp Hd. rewrite (execute_fault L w l E). unfold cmd_fault. unfold say_ln, say. rewrite run_bind, run_screen.
  cbv beta iota. fold s. fold x. rewrite run_bind. unfold prim at 1. rewrite run_bind. unfold modify at 1, on_sys at 1. cbv beta iota.
  cbn [c_sys set_sys]. set (s1 := fault_arm (set_scr s x)).
  assert (F : isr_handler s1 (trap_regs 14 0 KERNEL_CS 0 0 0 0) 0x800000
    = (set_fault (set_scr s (fault_report x 14 0 0x800000)) false true, Recovered)) by exact (unbacked_read s1 0x800000 Hp Hd).
  rewrite run_bind. unfold peek, kload. rewrite run_bind. unfold gets. cbv beta iota. unfold kernel_reads at 1. cbn [c_sys set_sys].
  change (s_mach s1) with (s_mach s). rewrite Hp. rewrite run_bind. unfold kernel_fault. cbv zeta. cbn [c_sys set_sys].
  unfold kernel_code. change (s_mach s1) with (s_mach s). rewrite Hp. change (0 + 0) with 0. rewrite F. cbv beta iota.
  unfold say_color. rewrite run_screen. reflexivity.
Qed.

End Fault.

(** ** A session

    The machine is switched on, boots, and someone types three commands. *)

#[local] Existing Instance map_disk.
#[local] Existing Instance map_disk_laws.

Definition demo_shell_link : shell_link :=
  mk_shell_link demo_link 0x50000 0x11000 0x11010 0x11020 0x11030 0x11040 0x11050 0x11060 0x60000 0x70000 [].

Definition idle : world := mk_world [] [] [].

Definition booted_console : console :=
  boot_console Boot.demo_image power_on (replicate 256 no_gate) (replicate 6 no_seg) 0x11.

(** The keyboard interrupt of a key without shift. *)
Definition press (c : Z) : Z * Z := (33, default 0 (find_range 1 58 (fun i => tget 0 scancode_ascii i =? c))).

(** The keys all arrive in the first wait; each turn of the loop takes one. *)
Definition typing (l : list Z) : list world :=
  mk_world [map press l] [] [] :: replicate (length l) idle.

(** The timer alone wakes the splash. *)
Definition splash_ticks : list (list (Z * Z)) := replicate 75 [(32, 0)].

Definition session (l : list Z) : console * (unit + stopped) :=
  kernel_run Boot.demo_image demo_shell_link power_on (replicate 256 no_gate) (replicate 6 no_seg) 0x11 splash_ticks (typing l).

(** A row of the screen, without the spaces at its end. *)
Definition screen_row (x : screen) (row : Z) : list Z :=
  reverse (skip_spaces (reverse (map (fun col => cell_char x (row * COLS + col)) (seqZ 0 COLS)))).

(** A run of the memory demos, from power-on to the last prompt, with the keys of
    "fork", "cow" and "vm" arriving as keyboard interrupts. *)
Example memory_demos_screen :
  let '(c, r) := session (lit "fork" ++ [10] ++ lit "cow" ++ [10] ++ lit "vm" ++ [10]) in
  r = inl tt /\ pmm_free_frames (frames (s_mach (c_sys c))) = 1024 /\
  map (screen_row (s_scr (c_sys c))) (seqZ 0 ROWS) =
  [lit "";
   lit "PyroOS shell ready. Type 'help'.";
   lit "";
   lit "pyro> fork";
   lit "  parent pid 1 wrote 0x1111aaaa at 0x00800000";
   lit "  forked child pid 2, cost 2 frames (page tables only, data page shared)";
   lit "  data page at 0x00800000 has 2 owners (copy-on-write)";
   lit "  child sees 0x1111aaaa (inherited, no copy made)";
   lit "  child wrote 0x2222bbbb, split cost 1 frame";
   lit "  parent still sees 0x1111aaaa  (isolated)";
   lit "  parent reaped pid 2 with exit code 7";
   lit "  frames free: 1024 before, 1024 after";
   lit "pyro> cow";
   lit "  one page at 0x00900000, shared by parent + 3 children: 4 owners";
   lit "  frames used by all four: 9";
   lit "  after 3 children exit, the page has 1 owner";
   lit "  frames free: 1024 before, 1024 after";
   lit "pyro> vm";
   lit "  physical frames: 1024 free of 1024";
   lit "  virtual 0x00800000 maps to 0x00402000 in space A, 0x00404000 in space B  (isol";
   lit "ated)";
   lit "  promised 4 MB at 0x01000000 in space A, no frames committed";
   lit "  touched 3 pages, faults served 3, read back 0x00c0ffee 0x0000beef 0x0000f00d";
   lit "  both spaces freed, frames free now 1024";
   lit "pyro>"].
Proof. vm_compute. repeat split. Qed.

(** ** Witnesses *)

(** Before the boot: empty memory, an empty filesystem. *)
Definition early_console : console :=
  mk_console (set_fs power_on demo_fs) 0 (mk_shared 0 0) editor_boot ∅ ∅ ∅.

Lemma editor_boot_ok : edits editor_boot (mk_draft [] [] 0).
Proof.
  constructor; [reflexivity|reflexivity| |split; [discriminate|constructor]|reflexivity| |split; [reflexivity|discriminate]| |split; [reflexivity|split; discriminate]].
  - intros k Hk. change (0 <= k < 0) in Hk. lia.
  - intros k Hk. unfold hist, editor_boot, HIST_MAX, tget in *. cbn [history]. rewrite nth_lookup.
    rewrite lookup_replicate_2 by lia. reflexivity.
  - intros k Hk. change (0 <= k < 0) in Hk. lia.
Qed.

(** "lz", backspace, "s", Enter. *)
Lemma shell_runs_typed_line_witness :
  let '(d', echo) := draft_keys (mk_draft [] [] 0) [108; 122; 8; 115] in
  exists e, text (line e) = typed_text d' /\
    edits (edit_reset e) (mk_draft [] (remember (past d') (typed_text d')) (tlen (remember (past d') (typed_text d')))) /\
    handle_chars demo_shell_link idle ([108; 122; 8; 115] ++ [10]) early_console
    = (execute demo_shell_link idle (line e) ;; on_edit (fun e x => (edit_reset e, x)) ;; to_screen prompt ;; mret tt)
        (shown early_console (fold_left kprint_char (echo ++ [10]) (s_scr (c_sys early_console))) e).
Proof.
  apply (shell_runs_typed_line demo_shell_link idle [108; 122; 8; 115] early_console (mk_draft [] [] 0) editor_boot_ok).
  repeat (constructor; [split; discriminate|]). constructor.
Defined.

Lemma write_then_cat_witness :
  exists f' k' b,
    (execute demo_shell_link idle (lit "write todo water the plants") ;; execute demo_shell_link idle (lit "cat todo")) early_console
    = (with_file early_console f' (kprint_char (kprint (kprint_char (kprint (kprint (s_scr (c_sys early_console)) (lit "  wrote ")) (lit "todo")) 10)
        (lit "water the plants")) 10) b, inl tt) /\
    fs_ok f' k' /\ synced f' /\ lookup_file f' (lit "todo") = Some (lit "water the plants") /\
    forall o, text o <> lit "todo" -> lookup_file f' o = lookup_file demo_fs o.
Proof.
  apply (write_then_cat map_disk_big map_disk_small demo_shell_link idle early_console (lit "write todo water the plants") (lit "cat todo")
    (lit "todo") (lit "water the plants") 0); try reflexivity.
  - apply demo_fs_ok.
  - apply demo_fs_ok.
  - left. reflexivity.
  - constructor; [discriminate|reflexivity|]. repeat (constructor; [repeat split; reflexivity || discriminate|]). constructor.
  - repeat (constructor; [repeat split; reflexivity || discriminate|]). constructor.
  - discriminate.
  - vm_compute. discriminate.
Defined.

Lemma fault_recovers_witness :
  let s := c_sys early_console in
  let x := kprint (s_scr s) (lit "  reading unmapped memory at 0x00800000 (above the 8 MB map)..." ++ [10]) in
  execute demo_shell_link idle (lit "fault") early_console
  = (set_sys early_console (set_fault (set_scr s (kprint_color (fault_report x 14 0 0x00800000)
       (lit "  recovered! the shell is still alive." ++ [10]) COLOR_GREEN_ON_BLACK)) false true), inl tt).
Proof. apply (fault_recovers demo_shell_link idle early_console (lit "fault")); vm_compute; reflexivity. Defined.
