(* ===== verification/Exec.v ===== *)
(** * Running a program from the shell

    The command exec puts the parts together: the filesystem, the process
    table, the ELF loader, the argument frame, page permissions and the ring-3
    launcher.  This file shows that whatever file is run and whatever it does,
    the kernel is afterwards where it was. *)

From stdpp Require Import base gmap list numbers option.
From Stdlib Require Import ZArith Lia Bool.
From S2P Require Import Prelude CString Screen Pmm Vmm VmmLemmas VmmSpec VmmClone VmmTheorems VmmProps Paging Demand FreeList Kheap Interfaces Keyboard Fs Proc Elf Args Sync Task Tables System Bus Syscall Usermode Logo Preempt Editor Boot Shell ShellProps.

(** ** The layout and the state exec starts from *)

(** The page tables and the image buffer are below the user zone, apart. *)
Record exec_layout (L : link) (img : Z) : Prop := {
  el_link : link_ok L;
  el_low : page_directory L < 0x7F000 /\ first_page_table L < 0x7F000 /\ second_page_table L < 0x7F000;
  el_img : 0 <= img /\ img + 0x8000 <= 0x80000;
  el_apart : forall b, b = page_directory L \/ b = first_page_table L \/ b = second_page_table L ->
    b + 4096 <= img \/ img + 0x8000 <= b
}.

Section Exec.
Context {D : Type} {DK : Disk D}.

(** The shell between two commands: the kernel's process runs in the boot
    address space, which confines ring 3. *)
Record ready (L : link) (s : sys D) : Prop := {
  rd_sandbox : sandbox s;
  rd_regs : cr3 (s_mach s) = page_directory L /\ kernel_dir (s_mach s) = page_directory L;
  rd_slots : forall j, 0 <= j < 1024 -> slot_present (s_ram s) (page_directory L) j = true ->
    slot_tab (s_ram s) (page_directory L) j = first_page_table L \/
    slot_tab (s_ram s) (page_directory L) j = second_page_table L;
  rd_wf : proc_wf (s_kern s);
  rd_cur : current_idx (s_kern s) = 0
}.

(** What running a program may change of memory and machine: the user zone, the
    image buffer, and write permissions in the first page table. *)
Record contained (L : link) (img : Z) (s s' : sys D) : Prop := {
  ct_mem : forall x, ~ in_zone x -> ~ img <= x < img + 0x8000 -> pg x <> first_page_table L ->
    ld8 (s_ram s') x = ld8 (s_ram s) x;
  ct_tab : forall i, 0 <= i < 1024 ->
    same_map (entry (s_ram s) (first_page_table L) i) (entry (s_ram s') (first_page_table L) i);
  ct_regs : frames (s_mach s') = frames (s_mach s) /\ cr3 (s_mach s') = cr3 (s_mach s) /\
    kernel_dir (s_mach s') = kernel_dir (s_mach s);
  ct_rest : s_dem s' = s_dem s /\ s_handlers s' = s_handlers s /\ s_board s' = s_board s /\
    tlen (tasks (s_sched s')) = tlen (tasks (s_sched s))
}.

#[export] Instance contained_preorder (L : link) (img : Z) : PreOrder (contained L img).
Proof.
  split; [intros s; constructor; auto; reflexivity|].
  intros a b c [A1 A2 (A3 & A4 & A5) (A6 & A7 & A8 & A9)] [B1 B2 (B3 & B4 & B5) (B6 & B7 & B8 & B9)].
  constructor; [|intros i Hi; etransitivity; [apply A2, Hi|apply B2, Hi]|repeat split; congruence|repeat split; congruence].
  intros x X1 X2 X3. rewrite B1, A1 by assumption. reflexivity.
Qed.

(** A change of the drivers' state only. *)
Lemma contained_same (L : link) (img : Z) (s s' : sys D) :
  s_kern s' = s_kern s -> s_dem s' = s_dem s -> s_handlers s' = s_handlers s -> s_board s' = s_board s ->
  tlen (tasks (s_sched s')) = tlen (tasks (s_sched s)) -> contained L img s s'.
Proof.
  intros E1 E2 E3 E4 E5. constructor; unfold s_ram, s_mach; rewrite ?E1; auto. reflexivity.
Qed.

Section Layout.
Variables (L : link) (img : Z).
Hypothesis HL : exec_layout L img.

Lemma tab_page_off x b :
  b = page_directory L \/ b = first_page_table L \/ b = second_page_table L -> pg x = b ->
  ~ in_zone x /\ ~ img <= x < img + 0x8000.
Proof.
  intros Hb Hx. pose proof (el_apart _ _ HL b Hb) as A. destruct (el_low _ _ HL) as (L1 & L2 & L3).
  pose proof (el_img _ _ HL). unfold in_zone. assert (b < 0x7F000) by (destruct Hb as [-> | [-> | -> ]]; assumption).
  clear Hb. unfold pg in Hx. zdm.
Qed.

(** Stores to the zone or the image buffer. *)
Lemma contained_ram s m :
  (forall x, ~ in_zone x -> ~ img <= x < img + 0x8000 -> ld8 m x = ld8 (s_ram s) x) -> contained L img s (set_ram s m).
Proof.
  intros H. constructor; [intros x X1 X2 _; apply H; assumption| |repeat split|repeat split].
  intros i Hi. destruct (lk_pages _ (el_link _ _ HL)) as (_ & P2 & _). change (s_ram (set_ram s m)) with m.
  rewrite (entry_ext (s_ram s) m (first_page_table L) i P2 Hi); [reflexivity|].
  intros x Hx. destruct (tab_page_off x (first_page_table L) ltac:(auto) Hx). apply H; assumption.
Qed.

Lemma contained_commit s m :
  (forall x, ~ in_zone x -> ~ img <= x < img + 0x8000 -> ld8 m x = ld8 (s_view s) x) -> contained L img s (bus_commit s m).
Proof.
  intros H. etransitivity; [apply (contained_ram s (s_ram (bus_commit s m)))|apply contained_same; reflexivity].
  intros x X1 X2. rewrite ram_bus_commit. destruct (kept s x) eqn:K; [|reflexivity].
  rewrite H, view_ld8 by assumption. apply kept_peek, K.
Qed.

Lemma contained_isolated s s' : isolated s s' -> contained L img s s'.
Proof.
  intros [I1 I2 _ _ _ I6 _]. constructor; [intros x X _ _; apply I1, X| |rewrite I2; repeat split|exact I6].
  intros i Hi. destruct (lk_pages _ (el_link _ _ HL)) as (_ & P2 & _).
  rewrite (entry_ext (s_ram s) (s_ram s') (first_page_table L) i P2 Hi); [reflexivity|].
  intros x Hx. apply I1, (tab_page_off x (first_page_table L)); auto.
Qed.

Lemma contained_rw s m : rw_change L (s_mach s) m -> contained L img s (set_mach s m).
Proof.
  intros [R1 R2 R3]. constructor; [intros x _ _ X; apply R1, X|exact R2|exact R3|repeat split].
Qed.

(** ** The address space stays a sandbox *)

Section Tables.
Variables (s s' : sys D).
Hypothesis (R : ready L s) (C : contained L img s s').
Let d := page_directory L.

Lemma ready_active : active_dir (s_mach s) = d /\ active_dir (s_mach s') = d.
Proof.
  destruct (rd_regs _ _ R) as [E _]. destruct (ct_regs _ _ _ _ C) as (_ & E' & _). unfold active_dir. rewrite E', E.
  destruct (lk_pages _ (el_link _ _ HL)) as (P & _). destruct (lk_range _ (el_link _ _ HL)) as (Rg & _).
  rewrite FRAME_OF_id; [auto|unfold MANAGED_BASE in Rg; lia|exact P].
Qed.

Lemma dir_kept j : 0 <= j < 1024 -> entry (s_ram s') d j = entry (s_ram s) d j.
Proof.
  intros Hj. destruct (lk_pages _ (el_link _ _ HL)) as (P & _). destruct (lk_diff _ (el_link _ _ HL)) as (N & _).
  apply entry_ext; [exact P|exact Hj|]. intros x Hx. destruct (tab_page_off x d ltac:(auto) Hx).
  apply (ct_mem _ _ _ _ C); [assumption|assumption|rewrite Hx; unfold d; congruence].
Qed.

Lemma pte_kept v : same_map (pte (s_mach s) d v) (pte (s_mach s') d v).
Proof.
  pose proof (DIR_INDEX_range v) as Rd. pose proof (TAB_INDEX_range v) as Rt. unfold pte. fold (s_ram s) (s_ram s').
  pose proof (dir_kept _ Rd) as Ed. unfold slot_present, slot_tab. rewrite Ed.
  destruct (is_present (entry (s_ram s) d (DIR_INDEX v))) eqn:P; [|reflexivity].
  destruct (lk_pages _ (el_link _ _ HL)) as (_ & P2 & P3). destruct (lk_diff _ (el_link _ _ HL)) as (_ & _ & N).
  destruct (rd_slots _ _ R _ Rd P) as [E|E]; unfold slot_tab in E; fold d in E; rewrite E; [apply (ct_tab _ _ _ _ C), Rt|].
  rewrite (entry_ext (s_ram s) (s_ram s') (second_page_table L) (TAB_INDEX v) P3 Rt); [reflexivity|].
  intros x Hx. destruct (tab_page_off x (second_page_table L) ltac:(auto) Hx).
  apply (ct_mem _ _ _ _ C); [assumption|assumption|rewrite Hx; unfold d; congruence].
Qed.

Lemma translate_kept v : vmm_translate (s_mach s') d v = vmm_translate (s_mach s) d v.
Proof.
  pose proof (DIR_INDEX_range v) as Rd. destruct (pte_kept v) as (F & P & _). pose proof (dir_kept _ Rd) as Ed.
  unfold vmm_translate, table_for, pte, slot_present, slot_tab, is_present in *. fold (s_ram s) (s_ram s') in *.
  rewrite Ed in *. destruct (tst (entry (s_ram s) d (DIR_INDEX v)) PF_PRESENT); cbn [negb]; [|reflexivity].
  destruct (_ =? 0); [reflexivity|]. rewrite P, F. reflexivity.
Qed.

Lemma contained_sandbox :
  tlen (table (s_kern s')) = MAX_PROCS -> 0 <= current_idx (s_kern s') < MAX_PROCS -> brk_valid (cur_proc s') -> sandbox s'.
Proof.
  intros T1 T2 B. pose proof (rd_sandbox _ _ R) as [[Pd Zd] Zt Hr Hc Hp _ _]. destruct ready_active as [Ea Ea']. rewrite Ea in *.
  constructor; rewrite ?Ea'; auto.
  - intros j Hj. unfold slot_present, slot_tab. rewrite dir_kept by exact Hj. apply Zt, Hj.
  - intros v Hv. pose proof (pte_kept v) as (F & P & U & _). unfold ring3_reaches. fold (s_ram s').
    rewrite P, U, translate_kept, (dir_kept _ (DIR_INDEX_range v)). apply Hr, Hv.
  - intros v Hv. destruct (pte_kept v) as (_ & _ & _ & ->). apply Hc, Hv.
  - rewrite (proj1 (ct_rest _ _ _ _ C)). exact Hp.
Qed.

Lemma ready_kept :
  proc_wf (s_kern s') -> current_idx (s_kern s') = 0 -> brk_valid (slot (s_kern s') 0) -> ready L s'.
Proof.
  intros W C0 B. destruct (ct_regs _ _ _ _ C) as (_ & E1 & E2). destruct (rd_regs _ _ R) as [R1 R2].
  constructor; [|split; congruence| |exact W|exact C0].
  - apply contained_sandbox; [apply W|apply W|]. unfold cur_proc. rewrite C0. exact B.
  - intros j Hj. unfold slot_present, slot_tab. fold d. rewrite (dir_kept j Hj). apply (rd_slots _ _ R j Hj).
Qed.

End Tables.

(** A change of the process table. *)
Lemma contained_kern (s : sys D) (k : kernel) :
  ram (mach k) = s_ram s -> frames (mach k) = frames (s_mach s) -> cr3 (mach k) = cr3 (s_mach s) ->
  kernel_dir (mach k) = kernel_dir (s_mach s) -> contained L img s (set_kern s k).
Proof.
  intros E1 E2 E3 E4. constructor; [| |auto|repeat split]; unfold s_ram, s_mach; cbn [s_kern set_kern];
    rewrite E1; reflexivity.
Qed.

End Layout.

(** ** Triples for commands

    A command started in [P] ends in [Q], or stops in a console and for a reason in [X]. *)

Section Triples.
Variable X : console (D := D) -> stopped -> Prop.

Definition triple {A : Type} (P : console (D := D) -> Prop) (m : cmd A) (Q : A -> console -> Prop) : Prop :=
  forall c, P c -> match m c with (c', inl a) => Q a c' | (c', inr e) => X c' e end.

Lemma triple_ret {A : Type} P (a : A) (Q : A -> console -> Prop) : (forall c, P c -> Q a c) -> triple P (mret a) Q.
Proof. intros H c Hc. exact (H c Hc). Qed.

Lemma triple_bind {A B : Type} P (m : cmd A) (k : A -> cmd B) R Q :
  triple P m R -> (forall a, triple (R a) (k a) Q) -> triple P (m ≫= k) Q.
Proof.
  intros H K c Hc. rewrite run_bind. specialize (H c Hc). destruct (m c) as [c' [a|e]]; [|exact H]. exact (K a c' H).
Qed.

(** The rule for a step that keeps an invariant. *)
Lemma triple_seq {A B : Type} P (m : cmd A) (k : A -> cmd B) Q :
  triple P m (fun _ => P) -> (forall a, triple P (k a) Q) -> triple P (m ≫= k) Q.
Proof. apply triple_bind. Qed.

Lemma triple_sys {A : Type} P (f : sys D -> sys D * A) (Q : A -> console -> Prop) :
  (forall c, P c -> let '(s, a) := f (c_sys c) in Q a (set_sys c s)) -> triple P (on_sys f) Q.
Proof. intros H c Hc. specialize (H c Hc). unfold on_sys. destruct (f (c_sys c)). exact H. Qed.

End Triples.

(** ** Stages of exec *)

(** The process table while process [k]'s current one runs: only its break moves. *)
Record procs_kept (k k' : kernel) : Prop := {
  pk_len : tlen (table k') = tlen (table k);
  pk_idx : current_idx k' = current_idx k;
  pk_next : next_pid k' = next_pid k;
  pk_others : forall j, 0 <= j -> j <> current_idx k -> slot k' j = slot k j;
  pk_self : slot k' (current_idx k) = with_brk (slot k (current_idx k)) (brk (slot k' (current_idx k)));
  pk_brk : brk_valid (slot k' (current_idx k))
}.

Lemma procs_kept_refl k : brk_valid (slot k (current_idx k)) -> procs_kept k k.
Proof. intros B. constructor; auto using with_brk_id. Qed.

Lemma procs_kept_mach k k' m : procs_kept k k' -> procs_kept k (with_mach k' m).
Proof. intros []. constructor; auto. Qed.

Lemma procs_kept_slot k k' j : procs_kept k k' -> 0 <= j ->
  slot k' j = slot k j \/ exists b, slot k' j = with_brk (slot k j) b.
Proof.
  intros K Hj. destruct (Z.eq_dec j (current_idx k)) as [->|N]; [right; eexists; apply K|left; apply K; assumption].
Qed.

Lemma procs_kept_wf k k' :
  proc_wf k -> procs_kept k k' -> cr3 (mach k') = cr3 (mach k) -> kernel_dir (mach k') = kernel_dir (mach k) -> proc_wf k'.
Proof.
  intros W K Ec Ek.
  assert (E : forall j, 0 <= j -> pid (slot k' j) = pid (slot k j) /\ state (slot k' j) = state (slot k j) /\
    dir (slot k' j) = dir (slot k j) /\ ppid (slot k' j) = ppid (slot k j)) by (intros j Hj; destruct (procs_kept_slot k k' j K Hj) as [->|[b ->]]; auto).
  assert (Ei := pk_idx _ _ K). assert (En := pk_next _ _ K). destruct (pw_cur k W) as [C _].
  destruct (E 0 ltac:(lia)) as (E1 & E2 & E3 & _). destruct W.
  constructor; rewrite ?Ei, ?En, ?Ek, ?Ec, ?E1, ?E2, ?E3; auto.
  - rewrite (pk_len _ _ K). assumption.
  - intros i Hi. destruct (E i ltac:(lia)) as (_ & -> & _). auto.
  - intros i Hi. destruct (E i ltac:(lia)) as (-> & -> & _). auto.
  - intros i Hi. destruct (E i ltac:(lia)) as (_ & -> & _ & ->). auto.
  - intros i j Hi Hj. destruct (E i ltac:(lia)) as (-> & -> & _), (E j ltac:(lia)) as (-> & -> & _). auto.
  - destruct (E _ C) as (_ & _ & -> & _). assumption.
  - intros i Hi. destruct (E i ltac:(lia)) as (_ & -> & -> & _). auto.
Qed.

(** A program's process has come and gone.  When the table was full the program
    ran as the kernel's process, whose break it may have moved. *)
Record restored (k k' : kernel) : Prop := {
  rs_slots : forall j, 1 <= j < MAX_PROCS ->
    slot k' j = slot k j \/ (state (slot k j) = PROC_UNUSED /\ slot k' j = zero_proc);
  rs_kernel : slot k' 0 = slot k 0 \/
    ((forall j, 1 <= j < MAX_PROCS -> state (slot k j) <> PROC_UNUSED) /\ slot k' 0 = with_brk (slot k 0) (brk (slot k' 0)));
  rs_next : next_pid k <= next_pid k' <= next_pid k + 1
}.

Lemma restored_refl k m : restored k (with_mach k m).
Proof. constructor; auto. cbn. lia. Qed.

Lemma kernel_running k : proc_wf k -> current_idx k = 0 -> with_state (with_state (slot k 0) PROC_READY) PROC_RUNNING = slot k 0.
Proof.
  intros W C. assert (E : state (slot k 0) = PROC_RUNNING) by (apply (pw_running k W); [unfold MAX_PROCS; lia|auto]).
  destruct (slot k 0). cbn in E. rewrite E. reflexivity.
Qed.

(** [proc_begin_user], the program, [proc_end_user]. *)
Lemma user_cycle k nm k2 :
  proc_wf k -> pids_left k -> current_idx k = 0 -> brk_valid (slot k 0) ->
  let '(k1, p) := proc_begin_user k nm in
  brk_valid (slot k1 (current_idx k1)) /\
  (procs_kept k1 k2 -> proc_wf k2 -> kernel_dir (mach k2) = kernel_dir (mach k) ->
   let k3 := proc_end_user k2 p in
   restored k k3 /\ current_idx k3 = 0 /\ brk_valid (slot k3 0) /\ mach k3 = vmm_switch (mach k2) (kernel_dir (mach k))).
Proof.
  intros W Pl C B. pose proof (begin_user_spec k nm W Pl C) as U. destruct (proc_begin_user k nm) as [k1 p].
  destruct U as [(-> & -> & Full)|(i & Hi & Hu & -> & Ei & En & _ & Es & Ep & Ed & Eb)].
  - rewrite C. split; [exact B|]. intros K W2 Ek. pose proof (end_user_none k2 W2) as E. rewrite (pk_idx _ _ K), Ek in E.
    destruct (E C) as (E1 & E2 & E3 & E4). pose proof (pk_self _ _ K) as S0. pose proof (pk_brk _ _ K) as B0. rewrite C in S0, B0.
    cbv zeta. split; [|split; [exact E1|split; [rewrite E4 by lia; exact B0|exact E3]]]. constructor.
    + intros j Hj. left. rewrite E4 by lia. apply (pk_others _ _ K); lia.
    + right. split; [exact Full|]. rewrite !E4 by lia. exact S0.
    + rewrite E2, (pk_next _ _ K). lia.
  - rewrite Ei. split; [right; rewrite Eb; vm_compute; split; discriminate|]. intros K W2 Ek.
    pose proof (pk_self _ _ K) as S2. pose proof (pk_idx _ _ K) as C2. rewrite Ei in S2, C2.
    assert (P2 : pid (slot k2 i) = next_pid k) by (rewrite S2; exact Ep).
    assert (D2 : dir (slot k2 i) = kernel_dir (mach k2)) by (rewrite S2, Ek; exact Ed).
    pose proof (end_user_spec k2 i W2 C2 ltac:(lia) D2) as E. rewrite P2, Ek in E. destruct E as (E1 & E2 & E3 & E4).
    assert (E0 : slot (proc_end_user k2 (next_pid k)) 0 = slot k 0).
    { rewrite E4, (proj2 (Z.eqb_neq i 0)), Z.eqb_refl, (pk_others _ _ K), Es by lia. apply kernel_running; assumption. }
    cbv zeta. split; [|split; [exact E1|split; [rewrite E0; exact B|exact E3]]]. constructor.
    + intros j Hj. rewrite E4 by lia. destruct (Z.eqb_spec i j) as [->|]; [right; auto|left].
      rewrite (proj2 (Z.eqb_neq 0 j)), (pk_others _ _ K), Es, (proj2 (Z.eqb_neq j 0)) by lia. reflexivity.
    + left. exact E0.
    + rewrite E2, (pk_next _ _ K). lia.
Qed.

(** The console changes in the system only. *)
Definition only_sys (c c' : console (D := D)) : Prop := c' = set_sys c (c_sys c').

(** The program was entered from a system in [P] and has brought it to [s'], where
    it runs on or waits in a call. *)
Definition still_running (P : sys D -> Prop) (es : list user_event) (s' : sys D) : Prop :=
  exists s o, P s /\ sandbox s /\ user_run (fault_arm (set_fault s (s_armed s) false)) es = (s', o) /\
    (o = Running \/ o = Waiting).

Section Stages.
Variables (L : shell_link) (w : world) (c0 : console (D := D)).
Hypothesis HL : exec_layout (l_paging L) (l_img L).
Hypothesis R : ready (l_paging L) (c_sys c0).
Hypothesis Hpid : pids_left (s_kern (c_sys c0)).
Hypothesis HW : Forall event_ok (w_events w).

Definition within (c : console) : Prop :=
  only_sys c0 c /\ contained (l_paging L) (l_img L) (c_sys c0) (c_sys c).

(** The only reason not to come back: the program, in its sandbox, has not ended. *)
Definition unfinished (c : console) (e : stopped) : Prop :=
  e = Program_running /\ within c /\ still_running (contained (l_paging L) (l_img L) (c_sys c0)) (w_events w) (c_sys c).

(** Between [proc_begin_user], which leaves the process table of [k], and
    [proc_end_user]. *)
Definition stage (k : kernel) (c : console) : Prop := within c /\ procs_kept k (s_kern (c_sys c)).

Lemma within_sys c s : within c -> contained (l_paging L) (l_img L) (c_sys c) s -> within (set_sys c s).
Proof.
  intros [O C] H. split; [|etransitivity; eassumption]. unfold only_sys in *. rewrite O. reflexivity.
Qed.

Section Stage.
Variable k : kernel.
Hypothesis W : proc_wf k.

(** A step that keeps the process table. *)
Lemma stage_step {A : Type} (f : sys D -> sys D * A) :
  (forall s, contained (l_paging L) (l_img L) s (fst (f s)) /\
     s_kern (fst (f s)) = with_mach (s_kern s) (s_mach (fst (f s)))) ->
  triple unfinished (stage k) (on_sys f) (fun _ => stage k).
Proof.
  intros H. apply triple_sys. intros c [C K]. specialize (H (c_sys c)). destruct (f (c_sys c)) as [s a].
  destruct H as [H1 H2]. split; [apply within_sys; assumption|]. cbn [c_sys set_sys fst] in *. rewrite H2. apply procs_kept_mach, K.
Qed.

Lemma stage_screen (f : screen -> screen) : triple unfinished (stage k) (to_screen f) (fun _ => stage k).
Proof.
  apply stage_step. intros s. cbn [fst]. split; [|destruct s as [[]]; reflexivity]. apply contained_same; reflexivity.
Qed.

Lemma stage_ram {A : Type} (f : mem -> mem * A) :
  (forall m x, ~ in_zone x -> ld8 (fst (f m)) x = ld8 m x) ->
  triple unfinished (stage k) (on_sys (fun s => let '(m, a) := f (s_view s) in (bus_commit s m, a))) (fun _ => stage k).
Proof.
  intros H. apply stage_step. intros s. specialize (H (s_view s)). destruct (f (s_view s)) as [m a]. cbn [fst] in *.
  split; [apply (contained_commit _ _ HL); auto|reflexivity].
Qed.

Lemma stage_mach (f : machine -> machine) :
  (forall m, rw_change (l_paging L) m (f m)) ->
  triple unfinished (stage k) (on_mach (fun m => (f m, tt))) (fun _ => stage k).
Proof.
  intros H. apply stage_step. intros s. cbn [fst]. split; [apply contained_rw, H|reflexivity].
Qed.

Lemma stage_sandbox c : stage k c -> sandbox (c_sys c).
Proof.
  intros [[_ C] K]. apply (contained_sandbox _ _ HL (c_sys c0) (c_sys c) R C).
  - rewrite (pk_len _ _ K). apply W.
  - rewrite (pk_idx _ _ K). apply W.
  - unfold cur_proc. rewrite (pk_idx _ _ K). apply K.
Qed.

Lemma isolated_procs (s s' : sys D) : procs_kept k (s_kern s) -> isolated s s' -> sandbox s' -> procs_kept k (s_kern s').
Proof.
  intros [K1 K2 K3 K4 K5 K6] [_ _ I3 I4 (I5 & I6 & I7) _ _] S. pose proof (sb_brk _ S) as B. unfold cur_proc in *.
  rewrite I7, K2 in *. constructor; try congruence; [intros j Hj Ne; rewrite I3, K4 by congruence; reflexivity|].
  rewrite I4, K5 at 1. reflexivity.
Qed.

Lemma stage_run : triple unfinished (stage k) (run_ring3 (fun s => run_user_at_sp s (w_events w))) (fun _ => stage k).
Proof.
  intros c Hc. pose proof (stage_sandbox c Hc) as S. pose proof (run_user_spec (c_sys c) (w_events w) S HW) as U.
  unfold run_ring3, prim. destruct (user_run _ _) as [s1 o] eqn:Eu. destruct U as (I1 & _ & U). destruct Hc as [C K].
  destruct (run_user_at_sp _ _) as [s'|s'|s']; [| |contradiction].
  - destruct U as (I & S' & _).
    split; [apply within_sys; [exact C|apply (contained_isolated _ _ HL), I]|exact (isolated_procs _ _ K I S')].
  - destruct U as [-> U]. split; [reflexivity|]. split; [apply within_sys; [exact C|apply (contained_isolated _ _ HL), I1]|].
    exists (c_sys c), o. split; [apply C|]. auto.
Qed.

(** ** The two branches *)

Lemma args_zone m line x : bytes line -> ~ in_zone x -> ld8 (fst (args_build m line USER_STACK_TOP)) x = ld8 m x.
Proof.
  intros B Hx. pose proof (args_build_spec m line USER_STACK_TOP B ltac:(unfold USER_STACK_TOP; lia)) as A.
  cbv zeta in A. destruct (args_build _ _ _) as [m' esp]. cbn [fst].
  destruct A as [(_ & -> & _)|(_ & _ & E & _ & A)]; [reflexivity|]. apply A. unfold in_zone, USER_STACK_TOP in *. lia.
Qed.

Lemma stage_args line : bytes line -> triple unfinished (stage k) (build_args line) (fun _ => stage k).
Proof.
  intros B. apply (stage_ram (fun m => args_build m line USER_STACK_TOP)). intros m x. apply args_zone, B.
Qed.

Lemma stage_reset : triple unfinished (stage k) (reset_zone L) (fun _ => stage k).
Proof.
  apply stage_mach. intros m. apply user_writable_change. apply (lk_pages _ (el_link _ _ HL)).
Qed.

Lemma stage_protect : triple unfinished (stage k) (on_mach (fun m => (elf_protect (l_paging L) m (l_img L), tt))) (fun _ => stage k).
Proof.
  apply stage_mach. intros m. apply elf_protect_change. apply (lk_pages _ (el_link _ _ HL)).
Qed.

Lemma stage_load size :
  size <= 0x8000 ->
  triple unfinished (stage k) (on_sys (fun s =>
    let '(m, rc, e) := elf_load (s_view s) (l_img L) size USER_LOAD_ADDR USER_STACK_TOP in
    (bus_commit s m, (rc, default 0 e)))) (fun _ => stage k).
Proof.
  intros Hs. apply stage_step. intros s. pose proof (el_img _ _ HL) as Hi.
  pose proof (elf_load_spec (s_view s) (l_img L) size USER_LOAD_ADDR USER_STACK_TOP) as E.
  unfold USER_LOAD_ADDR, USER_STACK_TOP in *. specialize (E ltac:(lia) ltac:(lia) ltac:(lia)).
  destruct (elf_load _ _ _ _ _) as [[m rc] e]. cbn [fst].
  split; [apply (contained_commit _ _ HL)|reflexivity]. intros x X _. unfold in_zone in X.
  destruct E as [(_ & -> & _)|[(_ & -> & _)|[(_ & -> & _)|(_ & _ & _ & _ & _ & _ & E)]]]; try reflexivity. apply E. lia.
Qed.

Lemma stage_copy size :
  0 <= size <= 0x8000 ->
  triple unfinished (stage k) (modify (fun s => bus_commit s (memcpy (s_view s) USER_LOAD_ADDR (l_img L) size))) (fun _ => stage k).
Proof.
  intros Hs. apply (stage_ram (fun m => (memcpy m USER_LOAD_ADDR (l_img L) size, tt))). intros m x X.
  pose proof (el_img _ _ HL). unfold in_zone, USER_LOAD_ADDR in *. apply ld8_memcpy_out; lia.
Qed.

Lemma stage_run_at : triple unfinished (stage k) (run_ring3 (fun s => run_user_at s (w_events w))) (fun _ => stage k).
Proof.
  intros c Hc. pose proof (stage_args [] ltac:(constructor) c Hc) as A. unfold build_args, on_sys in A.
  unfold run_ring3, prim, run_user_at. destruct (args_build _ _ _) as [m esp]. apply stage_run in A.
  unfold run_ring3, prim in A. cbn [c_sys set_sys] in A. destruct (run_user_at_sp _ _); exact A.
Qed.

Create HintDb exec.
#[local] Hint Resolve stage_screen stage_args stage_reset stage_protect stage_load stage_copy stage_run stage_run_at : exec.

(** Run through a branch: every step keeps the stage. *)
Ltac keep_stage := repeat
  match goal with
  | |- triple _ _ (mbind _ _) _ => apply triple_seq; [|intros ?]
  | |- triple _ _ (mret _) _ => apply triple_ret; auto
  | |- triple _ _ (if ?b then _ else _) _ => destruct b
  | |- triple _ _ _ _ => unfold say_ln, say, say_color, say_char, say_dec, say_hex; solve [eauto with exec]
  end.

Lemma stage_elf nm tail size upid :
  bytes tail -> size <= 0x8000 -> triple unfinished (stage k) (exec_elf L w nm tail size upid) (fun _ => stage k).
Proof. intros B Hs. assert (bytes []) by constructor. unfold exec_elf. keep_stage. Qed.

Lemma stage_flat nm tail size :
  bytes tail -> 0 <= size <= 0x8000 -> triple unfinished (stage k) (exec_flat L w nm tail size) (fun _ => stage k).
Proof. intros B Hs. unfold exec_flat. keep_stage. Qed.

End Stage.

Let s0 := c_sys c0.

(** The image: no more than the buffer holds. *)
Lemma read_image_spec nm :
  match read_image L nm c0 with
  | (c, inl (r, size)) => within c /\ s_kern (c_sys c) = with_mach (s_kern s0) (s_mach (c_sys c)) /\ 0 <= size <= 0x8000
  | (_, inr _) => False
  end.
Proof.
  unfold read_image, prim. fold s0. pose proof (fs_read_confined (s_fs s0) nm (s_ram s0) (l_img L) (32 * 1024)) as F.
  assert (B : 0 <= default 0 (snd (fs_read (s_fs s0) nm (s_ram s0) (l_img L) (32 * 1024))) <= 0x8000).
  { unfold fs_read. destruct (find _ _) as [i|]; [|cbn; lia]. cbv zeta. pose proof (ld32_range (Fs.dir (s_fs s0)) (32 * i + 20)).
    destruct (for_range_ret _ _ _ _) as [[f m] [r|]]; cbn [snd default]; [lia|]. unfold ent_size. zcase; lia. }
  destruct (fs_read _ _ _ _ _) as [[[f m] r] out]. cbn [fst snd] in F, B. split; [|split; [reflexivity|exact B]].
  split; [reflexivity|]. etransitivity; [apply (contained_same _ _ s0 (set_fs s0 f)); reflexivity|].
  apply (contained_ram _ _ HL (set_fs s0 f) m). intros x _ X. apply F. lia.
Qed.

(** What exec leaves. *)
Definition finished (c : console) : Prop :=
  only_sys c0 c /\ contained (l_paging L) (l_img L) s0 (c_sys c) /\ ready (l_paging L) (c_sys c) /\
  restored (s_kern s0) (s_kern (c_sys c)).

Lemma finished_within c :
  within c -> s_kern (c_sys c) = with_mach (s_kern s0) (s_mach (c_sys c)) -> finished c.
Proof.
  intros [O C] E. destruct (ct_regs _ _ _ _ C) as (_ & E1 & E2). pose proof (rd_cur _ _ R) as C0.
  pose proof (sb_brk _ (rd_sandbox _ _ R)) as B. unfold cur_proc in B. rewrite C0 in B. fold s0 in C0, B.
  split; [exact O|]. split; [exact C|]. split; [|rewrite E; apply restored_refl].
  apply (ready_kept _ _ HL s0 (c_sys c) R C); rewrite E; [|exact C0|exact B].
  apply (procs_kept_wf (s_kern s0)); [apply R| |exact E1|exact E2]. apply procs_kept_mach, procs_kept_refl. rewrite C0. exact B.
Qed.

Lemma finished_screen f c : within c -> s_kern (c_sys c) = with_mach (s_kern s0) (s_mach (c_sys c)) ->
  match to_screen f c with (c', inl _) => finished c' | (c', inr e) => unfinished c' e end.
Proof.
  intros C E. rewrite run_screen. apply finished_within; [|exact E].
  apply within_sys; [exact C|apply contained_same; reflexivity].
Qed.

Lemma finished_end c k :
  within c -> proc_wf k -> current_idx k = 0 -> brk_valid (slot k 0) ->
  mach k = vmm_switch (s_mach (c_sys c)) (kernel_dir (s_mach s0)) -> restored (s_kern s0) k ->
  finished (set_sys c (set_kern (c_sys c) k)).
Proof.
  intros Cw W C0 B M Rs. destruct (rd_regs _ _ R) as [R1 R2]. fold s0 in R1, R2.
  assert (Cw3 : within (set_sys c (set_kern (c_sys c) k))).
  { apply within_sys; [exact Cw|]. destruct Cw as [_ Ct]. destruct (ct_regs _ _ _ _ Ct) as (_ & E1 & E2). fold s0 in E1, E2.
    apply contained_kern; rewrite M; try reflexivity. cbn. congruence. }
  destruct Cw3 as [O3 Ct3]. split; [exact O3|]. split; [exact Ct3|]. split; [|exact Rs].
  apply (ready_kept _ _ HL s0 _ R Ct3); assumption.
Qed.

(** The part between [proc_begin_user] and [proc_end_user]. *)
Lemma run_process nm (body : Z -> cmd unit) c :
  within c -> s_kern (c_sys c) = with_mach (s_kern s0) (s_mach (c_sys c)) ->
  (forall k p, proc_wf k -> triple unfinished (stage k) (body p) (fun _ => stage k)) ->
  match (upid ← on_kern (fun k => proc_begin_user k nm); body upid ;; on_kern (fun k => (proc_end_user k upid, tt))) c with
  | (c', inl _) => finished c'
  | (c, inr e) => unfinished c e
  end.
Proof.
  intros Cw E Hb. destruct (finished_within c Cw E) as (O & C & Rc & Rs).
  pose proof (rd_wf _ _ Rc) as W. pose proof (rd_cur _ _ Rc) as C0. pose proof (sb_brk _ (rd_sandbox _ _ Rc)) as B.
  unfold cur_proc in B. rewrite C0 in B. 
  assert (Pl : pids_left (s_kern (c_sys c))) by (rewrite E; exact Hpid).
  pose proof (proc_begin_user_wf (s_kern (c_sys c)) nm W Pl) as W1.
  pose proof (fun k2 => user_cycle _ nm k2 W Pl C0 B) as U. pose proof (begin_user_spec _ nm W Pl C0) as M.
  pose proof (rd_regs _ _ Rc) as [Rr1 Rr2]. rewrite run_bind. unfold on_kern at 1, on_sys at 1.
  destruct (proc_begin_user _ nm) as [k1 p]. cbn [fst] in W1. rewrite run_bind.
  assert (S1 : stage k1 (set_sys c (set_kern (c_sys c) k1))).
  { split; [apply within_sys; [exact Cw|]|apply procs_kept_refl, (U k1)].
    destruct M as [(_ & -> & _)|(i & _ & _ & _ & _ & _ & M & _)]; apply contained_kern; rewrite ?M; try reflexivity.
    cbn. unfold s_mach in *. congruence. }
  pose proof (Hb k1 p W1 _ S1) as H2. destruct (body p _) as [c2 [[]|e]]; [|exact H2].
  destruct H2 as [Cw2 K2]. destruct S1 as [[_ Ct1] _]. destruct Cw2 as [O2 Ct2].
  destruct (ct_regs _ _ _ _ C) as (_ & _ & D0). destruct (ct_regs _ _ _ _ Ct1) as (_ & R1 & D1).
  destruct (ct_regs _ _ _ _ Ct2) as (_ & R2 & D2). unfold s_mach in *. cbn [c_sys set_sys set_kern s_kern] in *.
  assert (W2 : proc_wf (s_kern (c_sys c2))) by (apply (procs_kept_wf k1); congruence).
  fold s0 in D1, D2. destruct (U (s_kern (c_sys c2))) as [_ U2].
  destruct (U2 K2 W2 ltac:(congruence)) as (Rs3 & C3 & B3 & M3). clear U U2. rewrite D0 in M3.
  apply (finished_end c2 _ (conj O2 Ct2) (proc_end_user_wf _ p W2) C3 B3 M3). rewrite E in Rs3. destruct Rs3. constructor; assumption.
Qed.

Lemma cmd_exec_spec arg :
  bytes arg ->
  match cmd_exec L w arg c0 with
  | (c, inl _) => finished c
  | (c, inr e) => unfinished c e
  end.
Proof.
  intros B. assert (Bt : bytes (skip_spaces arg)) by apply skip_bytes, B. unfold cmd_exec. cbv zeta.
  set (nm := name_word _ _). pose proof (read_image_spec nm) as I. rewrite run_bind.
  destruct (read_image L nm c0) as [c [[r size]|e]]; [|contradiction]. destruct I as (Cw & E & Hs). cbn [fst snd].
  destruct (_ || _); [apply finished_screen; assumption|].
  set (body := fun upid =>
    ok ← gets (fun s => bool_decide (elf_validate (s_ram s) (l_img L) size = ELF_OK));
    if ok : bool then exec_elf L w nm (skip_spaces arg) size upid else exec_flat L w nm (skip_spaces arg) size).
  assert (Hb : forall k p, proc_wf k -> triple unfinished (stage k) (body p) (fun _ => stage k)); cycle 1.
  { pose proof (run_process (Some nm) body c Cw E Hb) as H. rewrite run_bind in H |- *.
    destruct (on_kern _ c) as [c' [p|e]]; [|exact H]. exact H. }
  intros k p W. apply triple_seq; [intros c' Hc'; exact Hc'|]. intros [|].
  - apply stage_elf; [exact W|exact Bt|lia].
  - apply stage_flat; [exact W|exact Bt|lia].
Qed.

End Stages.
(** C3. Running a program from the shell.  Whatever file is named, whatever
    argument line follows and whatever the program does: exec comes back unless
    the program, entered in its sandbox, has not ended and runs on or waits in a
    call there, and in particular whenever it faults.  In both cases memory
    outside the user zone and the image buffer, the frame pool, the control
    registers, the page tables up to write permissions, the demand-paging promises
    and the interrupt handlers are as before; when exec comes back every process
    is as before, the slot the program had is free again, and the shell is ready
    for the next command.  When the process table is full the program runs as the
    kernel's process and may move that process's break.  The counter of process
    ids has not reached the largest int. *)
Theorem exec_contained (L : shell_link) (w : world) (c : console) (l r : list Z) :
  exec_layout (l_paging L) (l_img L) -> ready (l_paging L) (c_sys c) -> pids_left (s_kern (c_sys c)) ->
  Forall event_ok (w_events w) -> bytes l -> text l = lit "exec " ++ r ->
  match execute L w l c with
  | (c', inl _) =>
      only_sys c c' /\ contained (l_paging L) (l_img L) (c_sys c) (c_sys c') /\
      ready (l_paging L) (c_sys c') /\ restored (s_kern (c_sys c)) (s_kern (c_sys c'))
  | (c', inr e) =>
      e = Program_running /\
      (only_sys c c' /\ contained (l_paging L) (l_img L) (c_sys c) (c_sys c')) /\
      still_running (contained (l_paging L) (l_img L) (c_sys c)) (w_events w) (c_sys c')
  end.
Proof.
  intros HL R Hp HW B E. rewrite (execute_exec L w l r E).
  exact (cmd_exec_spec L w c HL R Hp HW (drop 5 l) (Forall_drop _ _ _ B)).
Qed.

(** The machine [kmain] leaves. *)
Lemma boot_ready (I : image) (s : sys D) (idt : list idt_entry) (gdt : list gdt_entry) (cr0 : Z) :
  image_ok I (s_ram s) -> s_dem s = demand_boot -> 1 <= next_pid (s_kern s) <= INT_MAX ->
  ready (i_link I) (b_sys (kmain I s idt gdt cr0)).
Proof.
  intros K Ed Hn. destruct (kmain_fields I s idt gdt cr0) as (Fk & Fd & _).
  generalize dependent (kmain I s idt gdt cr0). intros b Fk Fd.
  destruct (boot_machine_fields I (s_mach s) cr0) as (M1 & M2 & _). pose proof (lk_range _ (im_link _ _ K)) as (R1 & _).
  constructor.
  - apply (boot_sandbox I s (b_sys b) cr0 K Ed Fd Fk).
  - unfold s_mach. rewrite Fk. auto.
  - intros j Hj. pose proof (boot_slots I (s_mach s) cr0 j K Hj) as Bs. cbv zeta in Bs. unfold slot_present, slot_tab in *.
    rewrite (entry_ext (ram (fst (paging_install (i_link I) (s_mach s) cr0))) (s_ram (b_sys b))); [exact Bs|apply (im_link _ _ K)|exact Hj|].
    intros x Hx. unfold s_ram, s_mach. rewrite Fk. cbn [with_mach mach with_ram ram]. apply heap_ram_ext.
    destruct (im_low _ _ K) as (L1 & _). unfold HEAP_START. lia.
  - rewrite Fk. apply boot_proc; [exact Hn|rewrite M1; lia|congruence].
  - rewrite Fk. reflexivity.
Qed.

End Exec.

(** ** A program run after the boot *)

#[local] Existing Instance map_disk.

Lemma demo_exec_layout : exec_layout demo_link 0x60000.
Proof.
  constructor; [apply demo_link_ok|vm_compute; auto|lia|].
  intros b Hb. unfold demo_link in Hb. cbn in Hb. lia.
Qed.

Lemma booted_ready : ready demo_link (c_sys booted_console).
Proof.
  exact (boot_ready Boot.demo_image power_on (replicate 256 no_gate) (replicate 6 no_seg) 0x11 demo_image_ok eq_refl ltac:(cbn; unfold INT_MAX; lia)).
Qed.

(** The program of [Usermode]: it ends in a store to the kernel's heap. *)
Definition demo_world : world := mk_world [] [] demo_program.

Lemma exec_contained_witness :
  match execute demo_shell_link demo_world (lit "exec calc 1 2") booted_console with
  | (c', inl _) =>
      only_sys booted_console c' /\ contained demo_link 0x60000 (c_sys booted_console) (c_sys c') /\
      ready demo_link (c_sys c') /\ restored (s_kern (c_sys booted_console)) (s_kern (c_sys c'))
  | (c', inr e) =>
      e = Program_running /\
      (only_sys booted_console c' /\ contained demo_link 0x60000 (c_sys booted_console) (c_sys c')) /\
      still_running (contained demo_link 0x60000 (c_sys booted_console)) demo_program (c_sys c')
  end.
Proof.
  apply (exec_contained demo_shell_link demo_world booted_console (lit "exec calc 1 2") (lit "calc 1 2") demo_exec_layout booted_ready).
  - vm_compute. reflexivity.
  - repeat constructor; cbn; lia.
  - repeat constructor; lia.
  - reflexivity.
Defined.

(** It comes back, and its process is gone. *)
Example demo_exec_returns :
  let '(c, r) := execute demo_shell_link demo_world (lit "exec calc 1 2") booted_console in
  r = inl tt /\ s_faulted (c_sys c) = true /\ next_pid (s_kern (c_sys c)) = 2 /\ state (slot (s_kern (c_sys c)) 1) = PROC_UNUSED.
Proof. vm_compute. repeat split. Qed.
