(* ===== verification/Kernel.v ===== *)
(** * The running kernel

    From power-on through the splash to the prompt, and from there through any
    sequence of commands: this file states the invariant of the whole kernel and
    shows that booting establishes it and every turn of the shell keeps it. *)

From stdpp Require Import base gmap list numbers option.
From Stdlib Require Import ZArith Lia Bool.
From S2P Require Import Prelude CString Screen Pmm Vmm VmmLemmas VmmSpec VmmClone VmmTheorems VmmProps Paging Demand FreeList Kheap Interfaces Keyboard Fs Proc Elf Args Sync Task Tables System Bus Syscall Usermode Boot Logo Preempt Editor Shell ShellProps Exec.

#[local] Opaque kprint kprint_char kprint_color kprint_dec kprint_hex fs_write fs_read fault_report.

(** ** The bytes of the line editor *)

Definition editor_bytes (e : editor) : Prop := bytes (line e) /\ Forall bytes (history e).

Lemma tset_Forall {A : Type} (P : A -> Prop) l i x : Forall P l -> P x -> Forall P (tset l i x).
Proof. intros F Hx. unfold tset. apply Forall_insert; assumption. Qed.

Lemma tget_bytes h k : Forall bytes h -> bytes (tget [] h k).
Proof.
  intros F. unfold tget. rewrite nth_lookup. destruct (h !! _) as [l|] eqn:E; [|constructor].
  rewrite list.Forall_forall in F. apply F, (list_elem_of_lookup_2 _ _ _ E).
Qed.

Lemma copy_from_bytes src room : forall i dst, bytes dst -> bytes src -> bytes (copy_from room i dst src).
Proof.
  induction room as [|room IH]; intros i dst Hd Hs; cbn [copy_from]; [apply tset_Forall; [exact Hd|lia]|].
  destruct (negb _); [apply IH; [apply tset_Forall; [exact Hd|apply bytes_tget, Hs]|exact Hs]|apply tset_Forall; [exact Hd|lia]].
Qed.

Lemma retype_bytes s room : forall i l x, bytes l -> bytes s -> bytes (fst (fst (retype room i l x s))).
Proof.
  induction room as [|room IH]; intros i l x Hl Hs; cbn [retype]; [exact Hl|].
  destruct (negb _); [|exact Hl]. apply IH; [apply tset_Forall; [exact Hl|apply bytes_tget, Hs]|exact Hs].
Qed.

Lemma replace_line_bytes e x s : editor_bytes e -> bytes s -> editor_bytes (fst (replace_line e x s)).
Proof.
  intros [E1 E2] Hs. unfold replace_line. set (y := for_range _ _ _ _).
  pose proof (retype_bytes s 127 0 (line e) y E1 Hs) as R. destruct (retype _ _ _ _ _) as [[l x'] i].
  split; [apply tset_Forall; [exact R|lia]|exact E2].
Qed.

Lemma history_prev_bytes e x : editor_bytes e -> editor_bytes (fst (history_prev e x)).
Proof.
  intros E. unfold history_prev. destruct (_ && _); [|exact E]. apply replace_line_bytes; [exact E|apply tget_bytes, E].
Qed.

Lemma history_next_bytes e x : editor_bytes e -> editor_bytes (fst (history_next e x)).
Proof.
  intros E. unfold history_next. destruct (_ <? _); [|exact E]. apply replace_line_bytes; [exact E|].
  destruct (_ =? _); [constructor|apply tget_bytes, E].
Qed.

Lemma edit_key_bytes e x c : editor_bytes e -> 0 <= c < 256 -> editor_bytes (fst (edit_key e x c)).
Proof.
  intros [E1 E2] Hc. unfold edit_key. destruct (c =? 8); [destruct (_ <? _); split; assumption|].
  destruct (_ <? _); [|split; assumption]. split; [apply tset_Forall; assumption|exact E2].
Qed.

Lemma shift_bytes h : Forall bytes h ->
  Forall bytes (for_range 0 (HIST_MAX - 1) (fun k h => tset h k (copy_line (tget [] h k) (tget [] h (k + 1)))) h).
Proof.
  intros F. apply (for_range_ind (fun _ h => Forall bytes h)); [vm_compute; discriminate|exact F|].
  intros k h' _ F'. apply tset_Forall; [exact F'|]. apply copy_from_bytes; apply tget_bytes, F'.
Qed.

Lemma edit_enter_bytes e : editor_bytes e -> editor_bytes (edit_enter e).
Proof.
  intros [E1 E2]. unfold edit_enter, history_add, editor_bytes. cbn [line history hist_count].
  assert (El : bytes (tset (line e) (line_len e) 0)) by (apply tset_Forall; [exact E1|lia]).
  destruct (negb _); [|split; assumption]. destruct (_ <? _); cbn [line history]; (split; [exact El|]); apply tset_Forall;
    try apply copy_from_bytes; try exact E2; try exact El; try apply tget_bytes, E2; try apply shift_bytes, E2; apply tget_bytes, shift_bytes, E2.
Qed.

Section Kernel.
Context {D : Type} {DK : Disk D}.

(** ** The invariant *)

(** Between two keys: the kernel's process runs in the boot address space, which
    confines ring 3; the interrupt handlers are registered; the heap is well
    formed and its blocks in use are [used]; the frame pool is [f]; the task table
    has its length; the editor's arrays hold bytes. *)
Record steady (L : shell_link) (f : pmm) (used : list Z) (c : console (D := D)) : Prop := {
  sy_ready : ready (l_paging L) (c_sys c);
  sy_drivers : drivers (c_sys c);
  sy_heap : exists bs, heap_ok (mk_kheap (s_ram (c_sys c)) (c_heap c)) bs /\ pointers HEAP_START bs ≡ₚ used;
  sy_frames : frames (s_mach (c_sys c)) = f;
  sy_tasks : tlen (tasks (s_sched (c_sys c))) = MAX_TASKS;
  sy_edit : editor_bytes (c_edit c)
}.

(** The parts of it a program that is still running leaves alone. *)
Record intact (f : pmm) (used : list Z) (c : console (D := D)) : Prop := {
  in_drivers : drivers (c_sys c);
  in_heap : exists bs, heap_ok (mk_kheap (s_ram (c_sys c)) (c_heap c)) bs /\ pointers HEAP_START bs ≡ₚ used;
  in_frames : frames (s_mach (c_sys c)) = f;
  in_tasks : tlen (tasks (s_sched (c_sys c))) = MAX_TASKS;
  in_edit : editor_bytes (c_edit c)
}.

(** How a command may stop, while programs do [es]: the machine is reset, the
    kernel sleeps in a sound state, or a program that was entered in its sandbox
    runs on or waits, with the kernel isolated from it. *)
Definition resting (L : shell_link) (f : pmm) (es : list user_event) (c : console (D := D)) (e : stopped) : Prop :=
  (e = Machine_reset \/ e = Asleep) /\ steady L f [] c \/
  e = Program_running /\ intact f [] c /\ still_running (fun s => isolated s (c_sys c)) es (c_sys c).

(** What the invariant depends on. *)
Record quiet (c c' : console (D := D)) : Prop := {
  qu_kern : s_kern (c_sys c') = s_kern (c_sys c);
  qu_dem : s_dem (c_sys c') = s_dem (c_sys c);
  qu_handlers : s_handlers (c_sys c') = s_handlers (c_sys c);
  qu_board : s_board (c_sys c') = s_board (c_sys c);
  qu_tasks : tlen (tasks (s_sched (c_sys c'))) = tlen (tasks (s_sched (c_sys c)));
  qu_heap : c_heap c' = c_heap c;
  qu_edit : c_edit c' = c_edit c
}.

#[export] Instance quiet_preorder : PreOrder quiet.
Proof. split; [intros c; constructor; reflexivity|]. intros a b c [] []. constructor; congruence. Qed.

Lemma quiet_interrupted c s : interrupted (c_sys c) s -> quiet c (set_sys c s).
Proof. intros I. constructor; cbn [c_sys set_sys c_heap c_edit]; first [exact (int_tasks _ _ I)|reflexivity|rewrite (int_eq _ _ I); reflexivity]. Qed.

(** A command that changes nothing of that, whether it ends, waits or resets the
    machine. *)
Definition quietly {A : Type} (m : cmd (D := D) A) : Prop :=
  forall c, tlen (tasks (s_sched (c_sys c))) = MAX_TASKS ->
    let '(c', r) := m c in quiet c c' /\ match r with inl _ => True | inr e => e = Machine_reset \/ e = Asleep end.

Lemma quietly_bind {A B : Type} (m : cmd A) (k : A -> cmd B) : quietly m -> (forall a, quietly (k a)) -> quietly (m ≫= k).
Proof.
  intros H K c T. rewrite run_bind. specialize (H c T). destruct (m c) as [c1 [a|e]]; [|exact H]. destruct H as [H _].
  specialize (K a c1 ltac:(rewrite (qu_tasks _ _ H); exact T)). destruct (k a c1) as [c2 x]. destruct K as [K1 K2].
  split; [etransitivity; eassumption|exact K2].
Qed.

Lemma quietly_ret {A : Type} (a : A) : quietly (mret a).
Proof. intros c _. change (quiet c c /\ True). split; [reflexivity|exact I]. Qed.

Lemma quietly_gets {A : Type} (f : sys D -> A) : quietly (gets f).
Proof. intros c _. change (quiet c c /\ True). split; [reflexivity|exact I]. Qed.

Lemma quietly_screen f : quietly (to_screen f).
Proof. intros c _. rewrite run_screen. split; [constructor; reflexivity|exact I]. Qed.

Lemma quietly_halt {A : Type} e : e = Machine_reset \/ e = Asleep -> quietly (halt (A := A) e).
Proof. intros H c _. split; [reflexivity|exact H]. Qed.

(** A step that leaves a new driver state. *)
Lemma quietly_prim {A : Type} (f : console -> console * (A + stopped)) :
  (forall c, quiet c (fst (f c)) /\ exists a, snd (f c) = inl a) -> quietly (prim f).
Proof. intros H c _. destruct (H c) as [Q [a E]]. unfold prim. destruct (f c) as [c' x]. cbn in Q, E. subst x. auto. Qed.

Create HintDb quiet.
#[local] Hint Resolve quietly_ret quietly_gets quietly_screen quietly_halt : quiet.

(** Run through a command: every step is quiet. *)
Ltac quiet_steps := repeat
  match goal with
  | |- quietly (mbind _ _) => apply quietly_bind; [|intros ?]
  | |- quietly (if ?b then _ else _) => destruct b
  | |- quietly _ => unfold say_ln, red_ln, say, say_color, say_char, say_dec, say_hex; solve [eauto with quiet]
  end.

Lemma quietly_help : quietly cmd_help.
Proof. unfold cmd_help. quiet_steps. Qed.

Lemma quietly_ticks : quietly cmd_ticks.
Proof. unfold cmd_ticks. quiet_steps. Qed.

Lemma quietly_reboot : quietly reboot.
Proof.
  unfold reboot. apply quietly_bind; [quiet_steps|intros _]. apply quietly_bind; [|intros _; apply quietly_halt; left; reflexivity].
  intros c _. split; [constructor; reflexivity|exact I].
Qed.

Lemma quietly_splash n ws : quietly (show_splash n ws).
Proof.
  intros c _. unfold show_splash, logo_splash, splash_loop. cbv zeta. set (s0 := set_scr _ _).
  pose proof (wait_interrupted (fun s => u32 (timer_ticks s - timer_ticks s0) <? n) ws s0) as W.
  destruct (wait_while _ ws s0) as [s [|]]; (split; [|auto]);
    (etransitivity; [|etransitivity; [apply (quiet_interrupted (set_sys c s0) s), W|]]); constructor; reflexivity.
Qed.

Lemma quietly_disk : quietly cmd_disk.
Proof.
  unfold cmd_disk. apply quietly_bind.
  { intros c _. unfold read_boot_sector. destruct (read_sector _ _ _) as [[d b] r]. split; [constructor; reflexivity|exact I]. }
  intros r. destruct (r =? 0); [|quiet_steps]. quiet_steps. apply quietly_prim. intros c. split; [reflexivity|eauto].
Qed.

Lemma quietly_tasks L : quietly (cmd_tasks L).
Proof.
  unfold cmd_tasks. apply quietly_bind; [quiet_steps|intros _]. intros c T. unfold prim.
  pose proof (tasking_demo_ends _ kprint (s_scr (c_sys c)) (l_stacks L) (l_task_a L) (l_task_b L) (l_task_c L) _ T) as E.
  destruct (tasking_demo _ _ _ _ _ _ _) as [[st x]|]; [|discriminate]. injection E as E _.
  split; [|exact I]. constructor; try reflexivity. cbn. rewrite E, T. reflexivity.
Qed.

Lemma quietly_threads L : quietly (cmd_threads L).
Proof.
  unfold cmd_threads. apply quietly_bind; [quiet_steps|intros _]. intros c T. unfold prim.
  destruct (threads_demo_ends (l_stacks L) (l_racer L) (l_safe_worker L) _ (c_shared c) (s_scr (c_sys c)) T) as (st & g & x & -> & E).
  split; [|exact I]. constructor; try reflexivity. cbn. rewrite E, T. reflexivity.
Qed.

Lemma spin_interrupted es : forall (s : sys D) w, interrupted s (fst (fst (spin_loop es s w))).
Proof.
  induction es as [|e es IH]; intros s w; cbn [spin_loop]; destruct (preempt_enabled _); try reflexivity.
  etransitivity; [apply irq_interrupted|apply IH].
Qed.

Lemma quietly_spin L w : quietly (cmd_spin L w).
Proof.
  unfold cmd_spin. apply quietly_bind; [quiet_steps|intros _]. intros c T. unfold prim, preempt_demo. cbv zeta.
  pose proof (ar_len _ _ _ (preempt_arm_ok (l_stacks L) (l_pworker_a L) (l_pworker_b L) _ (timer_ticks (c_sys c)) T)) as E.
  set (s0 := set_clock _ _ _). pose proof (spin_interrupted (w_slices w) s0 (mk_work 0 0)) as W.
  assert (Q : quiet c (set_sys c s0)) by (constructor; try reflexivity; rewrite T; exact E).
  destruct (spin_loop _ s0 _) as [[s k] [|]]; (split; [|auto]);
    (etransitivity; [exact Q|etransitivity; [apply (quiet_interrupted (set_sys c s0) s), W|]]); constructor; reflexivity.
Qed.

Lemma quietly_elfinfo arg : quietly (cmd_elfinfo arg).
Proof.
  unfold cmd_elfinfo. apply quietly_bind.
  { apply quietly_prim. intros c. destruct (fs_read _ _ _ _ _) as [[[f m] r] out]. split; [constructor; reflexivity|eauto]. }
  intros r. quiet_steps. apply quietly_prim. intros c. split; [constructor; reflexivity|eauto].
Qed.

Lemma quietly_write arg : quietly (cmd_write arg).
Proof.
  unfold cmd_write. cbv zeta. destruct (_ =? 0); [quiet_steps|]. apply quietly_bind; [|intros r; quiet_steps].
  intros c _. unfold write_text, on_sys. destruct (fs_write _ _ _ _ _) as [f r]. split; [constructor; reflexivity|exact I].
Qed.

Lemma quietly_cat arg : quietly (cmd_cat arg).
Proof.
  unfold cmd_cat. apply quietly_bind.
  { apply quietly_prim. intros c. destruct (fs_read _ _ _ _ _) as [[[f m] r] out]. split; [constructor; reflexivity|eauto]. }
  intros r. quiet_steps. apply quietly_prim. intros c. split; [constructor; reflexivity|eauto].
Qed.

(** ** Steps that keep the invariant *)

Section Steady.
Variables (L : shell_link) (f : pmm) (es : list user_event).
Hypothesis HL : exec_layout (l_paging L) (l_img L).

Lemma ready_same (s s' : sys D) :
  ready (l_paging L) s -> s_kern s' = s_kern s -> s_dem s' = s_dem s -> s_handlers s' = s_handlers s -> s_board s' = s_board s ->
  tlen (tasks (s_sched s')) = tlen (tasks (s_sched s)) -> ready (l_paging L) s'.
Proof.
  intros R E1 E2 E3 E4 E5. apply (ready_kept _ _ HL s s' R (contained_same _ _ s s' E1 E2 E3 E4 E5)); rewrite E1; [exact (rd_wf _ _ R)|exact (rd_cur _ _ R)|].
  pose proof (sb_brk _ (rd_sandbox _ _ R)) as B. unfold cur_proc in B. rewrite (rd_cur _ _ R) in B. exact B.
Qed.

Lemma steady_quiet U c c' : steady L f U c -> quiet c c' -> steady L f U c'.
Proof.
  intros [R Dr H F T E] [Q1 Q2 Q3 Q4 Q5 Q6 Q7].
  constructor; [exact (ready_same _ _ R Q1 Q2 Q3 Q4 Q5)| | | |rewrite Q5; exact T|rewrite Q7; exact E].
  - unfold drivers. rewrite Q3. exact Dr.
  - unfold s_ram, s_mach. rewrite Q1, Q6. exact H.
  - unfold s_mach. rewrite Q1. exact F.
Qed.

Definition keeps {A : Type} (m : cmd A) : Prop := triple (resting L f es) (steady L f []) m (fun _ => steady L f []).

Lemma keeps_bind {A B : Type} (m : cmd A) (k : A -> cmd B) : keeps m -> (forall a, keeps (k a)) -> keeps (m ≫= k).
Proof. apply triple_seq. Qed.

Lemma triple_screen U g : triple (resting L f es) (steady L f U) (to_screen g) (fun _ => steady L f U).
Proof. intros c Hc. rewrite run_screen. apply (steady_quiet _ c _ Hc). constructor; reflexivity. Qed.

Lemma keeps_quiet {A : Type} (m : cmd A) : quietly m -> keeps m.
Proof.
  intros Q c Hc. specialize (Q c (sy_tasks _ _ _ _ Hc)). destruct (m c) as [c' [a|e]]; destruct Q as [Q Qe].
  - exact (steady_quiet _ c c' Hc Q).
  - left. split; [exact Qe|exact (steady_quiet _ c c' Hc Q)].
Qed.

(** Memory above the user zone may change where the page tables are not. *)
Lemma ready_ram (s : sys D) m :
  ready (l_paging L) s -> (forall x, x < HEAP_START -> ld8 m x = ld8 (s_ram s) x) -> ready (l_paging L) (set_ram s m).
Proof.
  intros R H. pose proof (el_low _ _ HL) as (L1 & L2 & L3). destruct (rd_regs _ _ R) as [R1 R2].
  destruct (lk_pages _ (el_link _ _ HL)) as (P1 & P2 & P3).
  assert (Hp : forall b x, b < 0x7F000 -> pg x = b -> ld8 m x = ld8 (s_ram s) x)
    by (intros b x Hb Hx; apply H; unfold pg, HEAP_START in *; zdm).
  assert (Ea : active_dir (s_mach s) = page_directory (l_paging L)).
  { unfold active_dir. rewrite R1. apply FRAME_OF_id; [|exact P1]. pose proof (lk_range _ (el_link _ _ HL)) as (Q & _). unfold MANAGED_BASE in Q. lia. }
  constructor; [|split; assumption| |destruct (rd_wf _ _ R); constructor; assumption|exact (rd_cur _ _ R)].
  - apply (sandbox_ext s); try reflexivity; [exact (rd_sandbox _ _ R)| | |apply R|apply R|exact (sb_brk _ (rd_sandbox _ _ R))]; cbv zeta; rewrite Ea.
    + intros x. apply Hp, L1.
    + intros j x Hj P Hx. destruct (rd_slots _ _ R j Hj P) as [E|E]; rewrite E in Hx; [exact (Hp _ x L2 Hx)|exact (Hp _ x L3 Hx)].
  - intros j Hj. unfold slot_present, slot_tab. change (s_ram (set_ram s m)) with m.
    rewrite (entry_ext (s_ram s) m _ j P1 Hj) by (intros x; apply Hp, L1). exact (rd_slots _ _ R j Hj).
Qed.

(** ** The heap demo *)

#[export] Instance steady_perm : Proper ((≡ₚ) ==> eq ==> iff) (steady L f).
Proof.
  intros U U' E c c' <-. split; intros [R Dr (bs & O & P) F T Ed]; constructor; try assumption;
    exists bs; split; try assumption; etransitivity; [exact P|exact E|exact P|symmetry; exact E].
Qed.

(** The pointers an allocation adds: none when it fails. *)
Definition new_pointer (p : Z) : list Z := if p =? 0 then [] else [p].

Lemma steady_heap U U' c m :
  steady L f U c -> (forall x, outside_heap x -> ld8 m x = ld8 (s_ram (c_sys c)) x) ->
  (exists bs, heap_ok (mk_kheap m (c_heap c)) bs /\ pointers HEAP_START bs ≡ₚ U') ->
  steady L f U' (set_sys c (set_ram (c_sys c) m)).
Proof.
  intros [R Dr _ F T Ed] Hm Hb.
  constructor; [apply ready_ram; [exact R|intros x Hx; apply Hm; left; exact Hx]|exact Dr|exact Hb|exact F|exact T|exact Ed].
Qed.

Lemma steady_kmalloc U n : 0 <= n <= 0xFFFFFFFC ->
  triple (resting L f es) (steady L f U) (on_heap (fun h => kmalloc h n)) (fun p => steady L f (new_pointer p ++ U)).
Proof.
  intros Hn c Hc. destruct (sy_heap _ _ _ _ Hc) as (bs & O & P). unfold on_heap.
  pose proof (kmalloc_pointers _ _ n O Hn) as K. destruct (kmalloc _ n) as [[m hd] p]. destruct K as (bs' & O' & K & M).
  assert (Eh : hd = c_heap c) by (pose proof (ho_head _ _ O') as E1; pose proof (ho_head _ _ O) as E2; cbn in E1, E2; congruence). subst hd.
  apply (steady_heap U); [exact Hc|exact M|]. exists bs'. split; [exact O'|]. unfold new_pointer.
  destruct K as [(-> & ->)|(Hp & K)]; [exact P|]. rewrite (proj2 (Z.eqb_neq p 0)) by lia. rewrite K, P. reflexivity.
Qed.

Lemma steady_kfree U p :
  triple (resting L f es) (steady L f (new_pointer p ++ U)) (on_heap (fun h => (kfree h p, tt))) (fun _ => steady L f U).
Proof.
  intros c Hc. destruct (sy_heap _ _ _ _ Hc) as (bs & O & P). unfold on_heap, new_pointer in *.
  destruct (Z.eqb_spec p 0) as [->|N].
  - change (kfree ?h 0) with h. apply (steady_heap U); [exact Hc|reflexivity|]. exists bs. split; [exact O|exact P].
  - cbn [app] in *. destruct (kfree_pointers _ bs p O) as (bs' & O' & K & M).
    { apply (Permutation_in _ (Permutation_sym P)). left. reflexivity. }
    destruct (kfree _ p) as [m hd]. assert (Eh : hd = c_heap c) by (pose proof (ho_head _ _ O') as E1; pose proof (ho_head _ _ O) as E2; cbn in E1, E2; congruence). subst hd.
    apply (steady_heap (p :: U)); [exact Hc|exact M|]. exists bs'. split; [exact O'|].
    apply (Permutation_cons_inv (a := p)). rewrite <- K. exact P.
Qed.

Lemma keeps_mem : keeps cmd_mem.
Proof.
  unfold cmd_mem. eapply triple_bind; [apply steady_kmalloc; lia|intros p]. eapply triple_bind; [apply steady_kmalloc; lia|intros q].
  do 6 (apply triple_seq; [apply triple_screen|intros _]).
  eapply (triple_bind _ _ _ _ (fun _ => steady L f (new_pointer q ++ []))); [|intros _; apply steady_kfree].
  intros c Hc. apply steady_kfree. rewrite app_nil_r in Hc |- *. rewrite (Permutation_app_comm (new_pointer p)). exact Hc.
Qed.

(** ** Running programs *)

Lemma heap_kept m m' hd bs : heap_ok (mk_kheap m hd) bs ->
  (forall x, ~ outside_heap x -> ld8 m' x = ld8 m x) -> heap_ok (mk_kheap m' hd) bs.
Proof.
  intros O H. destruct O as [O1 O2 O3 O4]. constructor; try assumption.
  apply (chain_ext KHDR KHDR_ok m m' bs); [exact O3| |exact O2].
  intros x Hx. apply H. unfold outside_heap. rewrite O4 in Hx. lia.
Qed.

Lemma intact_contained U c c' :
  steady L f U c -> only_sys c c' -> contained (l_paging L) (l_img L) (c_sys c) (c_sys c') -> intact f U c'.
Proof.
  intros [_ Dr (bs & O & P) F T Ed] Os C. destruct (ct_rest _ _ _ _ C) as (_ & Eh & _ & Et). destruct (ct_regs _ _ _ _ C) as (Ef & _).
  pose proof (el_low _ _ HL) as (_ & L2 & _). pose proof (el_img _ _ HL).
  assert (Ec : c_heap c' = c_heap c /\ c_edit c' = c_edit c) by (rewrite Os; auto). destruct Ec as [Ec Ee].
  constructor; [unfold drivers; rewrite Eh; exact Dr| |congruence|congruence|rewrite Ee; exact Ed].
  exists bs. split; [|exact P]. rewrite Ec. apply (heap_kept (s_ram (c_sys c))); [exact O|].
  intros x Hx. unfold outside_heap, HEAP_START, HEAP_SIZE in Hx. apply (ct_mem _ _ _ _ C); unfold in_zone, pg in *; zdm.
Qed.

Lemma steady_contained U c c' :
  steady L f U c -> only_sys c c' -> contained (l_paging L) (l_img L) (c_sys c) (c_sys c') -> ready (l_paging L) (c_sys c') ->
  steady L f U c'.
Proof. intros H O C R. destruct (intact_contained U c c' H O C). constructor; assumption. Qed.

(** A program that has not come back. *)
Lemma resting_unfinished w c c' e :
  w_events w = es -> Forall event_ok es -> steady L f [] c -> unfinished L w c c' e -> resting L f es c' e.
Proof.
  intros <- HW Hc (-> & [O C] & s & o & _ & S & E & Ho). right. split; [reflexivity|].
  split; [exact (intact_contained [] c c' Hc O C)|]. exists s, o. split; [|auto].
  pose proof (run_user_spec s _ S HW) as U. rewrite E in U. apply U.
Qed.

(** What a world may do: its events are well formed. *)
Definition world_ok (w : world) : Prop := Forall event_ok (w_events w).

Lemma keeps_exec w arg : w_events w = es -> world_ok w -> bytes arg ->
  triple (resting L f es) (fun c => steady L f [] c /\ pids_left (s_kern (c_sys c))) (cmd_exec L w arg) (fun _ => steady L f []).
Proof.
  intros Ew HW B c [Hc Hp]. pose proof (cmd_exec_spec L w c HL (sy_ready _ _ _ _ Hc) Hp HW arg B) as X.
  destruct (cmd_exec L w arg c) as [c' [a|e]]; [destruct X as (O & C & R & _); exact (steady_contained _ c c' Hc O C R)|].
  apply (resting_unfinished w c); [exact Ew|rewrite <- Ew; exact HW|exact Hc|exact X].
Qed.

(** The kernel's own process after a program that ran as it. *)
Lemma ready_stage (c c' : console (D := D)) : ready (l_paging L) (c_sys c) -> stage L c (s_kern (c_sys c)) c' -> ready (l_paging L) (c_sys c').
Proof.
  intros R [[O C] K]. pose proof (rd_cur _ _ R) as C0. destruct (ct_regs _ _ _ _ C) as (_ & E1 & E2).
  apply (ready_kept _ _ HL (c_sys c) (c_sys c') R C).
  - exact (procs_kept_wf _ _ (rd_wf _ _ R) K E1 E2).
  - rewrite (pk_idx _ _ K). exact C0.
  - pose proof (pk_brk _ _ K) as B. rewrite C0 in B. exact B.
Qed.

Lemma stage_self (c : console (D := D)) : ready (l_paging L) (c_sys c) -> stage L c (s_kern (c_sys c)) c.
Proof.
  intros R. split; [split; [unfold only_sys; destruct c; reflexivity|reflexivity]|].
  apply procs_kept_refl. exact (sb_brk _ (rd_sandbox _ _ R)).
Qed.

Lemma keeps_user w : w_events w = es -> world_ok w -> USER_LOAD_ADDR + tlen (l_user_prog L) <= 0x100000 -> keeps (cmd_user L w).
Proof.
  intros Ew HW Hp. unfold cmd_user. apply keeps_bind; [apply keeps_quiet, quietly_screen|intros _]. intros c Hc.
  pose proof (sy_ready _ _ _ _ Hc) as R. set (k := s_kern (c_sys c)). pose proof (rd_wf _ _ R) as W. fold k in W.
  pose proof (stage_self c R) as S0. fold k in S0.
  pose proof (stage_reset L w c HL k c S0) as S1. unfold reset_zone, on_mach, on_sys in S1.
  set (c1 := set_sys c _) in S1. pose proof (stage_ram L w c HL k (fun m => (put_bytes m USER_LOAD_ADDR (l_user_prog L), tt))) as S2.
  specialize (S2 ltac:(intros m x Hx; cbn [fst]; rewrite ld8_put_bytes; unfold in_range, in_zone, USER_LOAD_ADDR in *;
    rewrite (proj2 (andb_false_iff _ _)) by lia; reflexivity) c1 S1).
  unfold on_sys in S2. set (c2 := set_sys c1 _) in S2. pose proof (stage_run_at L w c HL R HW k W c2 S2) as S3.
  unfold run_ring3, prim in S3 |- *. unfold run_user_program. cbv zeta. change (c_sys c2) with
    (bus_commit (set_mach (c_sys c) (paging_reset_user_zone (l_paging L) (s_mach (c_sys c))))
      (put_bytes (s_view (set_mach (c_sys c) (paging_reset_user_zone (l_paging L) (s_mach (c_sys c))))) USER_LOAD_ADDR (l_user_prog L))) in S3.
  destruct (run_user_at _ _) as [s|s|s];
    [apply (steady_contained _ c); [exact Hc|apply S3|apply S3|exact (ready_stage c _ R S3)]|..];
    apply (resting_unfinished w c); try assumption; rewrite <- Ew; exact HW.
Qed.

(** ** The system-call demo *)

Lemma keeps_int80 eax ebx : eax <> SYS_FREAD -> eax <> SYS_EXIT -> 0 <= ebx < 0x100000000 -> keeps (int80 eax ebx).
Proof.
  intros Nr Nx Hb c Hc. pose proof (sy_ready _ _ _ _ Hc) as R. pose proof (rd_sandbox _ _ R) as S. unfold int80, prim.
  pose proof (syscall_kept (c_sys c) (trap_regs 0x80 0 KERNEL_CS eax ebx 0 0) []
    (proj1 (sb_table _ S)) (proj2 (sb_table _ S)) Hb ltac:(intros E; contradiction)) as K.
  pose proof (syscall_ends (c_sys c) (trap_regs 0x80 0 KERNEL_CS eax ebx 0 0) [] Nr Nx) as En.
  destruct (syscall_handler _ _ _) as [[s r] o]. destruct K as [K _]. pose proof (isolated_safe _ _ K) as I.
  assert (S' : sandbox s).
  { apply (isolated_sandbox _ _ S I). unfold cur_proc. destruct (kk_table _ _ K) as (_ & _ & ->). apply (kk_self _ _ K), (sb_brk _ S). }
  assert (H' : steady L f [] (set_sys c s)).
  { apply (steady_contained _ c); [exact Hc|reflexivity|apply (contained_isolated _ _ HL), I|].
    apply (ready_stage c (set_sys c s) R). destruct (stage_self c R) as [Wc Kc]. split.
    - split; [reflexivity|apply (contained_isolated _ _ HL), I].
    - exact (isolated_procs (s_kern (c_sys c)) (c_sys c) s Kc I S'). }
  destruct o; try (destruct En; discriminate); [exact H'|left; auto].
Qed.

Lemma keeps_syscall : 0 <= l_msg L < 0x100000000 -> keeps (cmd_syscall L).
Proof.
  intros Hm. unfold cmd_syscall. apply keeps_bind; [apply keeps_int80; [discriminate|discriminate|exact Hm]|intros _].
  apply keeps_bind; [apply keeps_int80; [discriminate|discriminate|exact Hm]|intros up]. apply keeps_quiet. unfold say_ln, say, say_dec.
  repeat (apply quietly_bind; [apply quietly_screen|intros _]). apply quietly_screen.
Qed.

(** ** The fault demo *)

(** The read either goes through or is reported and unwound. *)
Lemma keeps_fault : keeps cmd_fault.
Proof.
  unfold cmd_fault. apply keeps_bind; [apply keeps_quiet, quietly_screen|intros _].
  apply keeps_bind; [|intros _; apply keeps_quiet; intros c _; split; [constructor; reflexivity|exact I]].
  intros c Hc. unfold prim. rewrite run_bind. unfold modify at 1, on_sys at 1. cbv beta iota. rewrite run_bind. unfold peek, kload.
  rewrite run_bind. unfold gets at 1. cbv beta iota. set (c1 := set_sys c (fault_arm (c_sys c))).
  assert (H1 : steady L f [] c1) by (apply (steady_quiet _ c); [exact Hc|constructor; reflexivity]).
  destruct (kernel_reads (s_mach (c_sys c1)) 0x800000) eqn:Kr.
  - unfold gets. cbv beta iota. unfold say_ln, say. rewrite run_screen. apply (steady_quiet _ c1); [exact H1|constructor; reflexivity].
  - rewrite run_bind. unfold kernel_fault, kernel_code. cbv zeta. unfold kernel_reads in Kr. rewrite Kr. change (0 + 0) with 0.
    rewrite (unbacked_read (c_sys c1) 0x800000 Kr (sb_promises _ (rd_sandbox _ _ (sy_ready _ _ _ _ H1)) 0x800000)).
    assert (U : exists s, unresolved (c_sys c1) 14 0 0x800000 = (s, Recovered) /\ quiet c1 (set_sys c1 s))
      by (eexists; split; [reflexivity|constructor; reflexivity]).
    destruct U as (s & -> & Q). cbv beta iota. unfold say_color. rewrite run_screen.
    apply (steady_quiet _ (set_sys c1 s)); [apply (steady_quiet _ c1); assumption|constructor; reflexivity].
Qed.

End Steady.

(** ** Turns of the shell *)

(** What the linker decides: besides the layout of exec, the message of the
    syscall demo has an address and the built-in program fits the user zone. *)
Record shell_layout (L : shell_link) : Prop := {
  sl_exec : exec_layout (l_paging L) (l_img L);
  sl_msg : 0 <= l_msg L < 0x100000000;
  sl_prog : USER_LOAD_ADDR + tlen (l_user_prog L) <= 0x100000
}.

(** The commands that take frames from the pool. *)
Definition memory_demo (l : list Z) : bool := streq l (lit "vm") || streq l (lit "cow") || streq l (lit "fork").

(** The next turn runs one of them. *)
Definition demo_next (c : console (D := D)) : bool :=
  let ch := snd (keyboard_getchar (s_kbd (c_sys c))) in (ch =? 10) && memory_demo (line (edit_enter (c_edit c))).

Section Turns.
Variables (L : shell_link) (f : pmm) (w : world).
Hypothesis HW : world_ok w.
Hypothesis SL : shell_layout L.
Let HL : exec_layout (l_paging L) (l_img L) := sl_exec L SL.

Let es := w_events w.

(** A command that may start a process. *)
Lemma keeps_started {A : Type} (m : cmd A) : keeps L f es m ->
  triple (resting L f es) (fun c => steady L f [] c /\ pids_left (s_kern (c_sys c))) m (fun _ => steady L f []).
Proof. intros K c [Hc _]. exact (K c Hc). Qed.

Hint Resolve keeps_quiet quietly_help quietly_ticks quietly_reboot quietly_splash quietly_disk quietly_tasks
  quietly_threads quietly_spin quietly_elfinfo quietly_write quietly_cat quietly_ret quietly_screen
  keeps_mem keeps_exec keeps_user keeps_syscall keeps_fault sl_msg sl_prog : quiet.

Lemma keeps_execute l : bytes l -> memory_demo l = false ->
  triple (resting L f es) (fun c => steady L f [] c /\ pids_left (s_kern (c_sys c))) (execute L w l) (fun _ => steady L f []).
Proof.
  intros B Dm. assert (Bd : forall n, bytes (drop n l)) by (intros n; apply Forall_drop, B).
  assert (Ew : w_events w = es) by reflexivity.
  unfold memory_demo in Dm. rewrite !orb_false_iff in Dm. destruct Dm as [[D1 D2] D3].
  unfold execute, cmd_logo. rewrite D1, D2, D3.
  repeat match goal with
  | |- triple _ _ (if ?b then _ else _) _ => destruct b
  | |- triple _ _ (cmd_exec _ _ _) _ => apply keeps_exec; auto
  | |- triple _ (fun _ => _ /\ _) _ _ => apply keeps_started
  | |- keeps _ _ _ (mbind _ _) => apply keeps_bind; [|intros _]
  | |- keeps _ _ _ (prim _) => apply keeps_quiet; [exact HL|]; apply quietly_prim; intros c; split; [constructor; reflexivity|eauto]
  | |- keeps _ _ _ _ => unfold say_ln, red_ln, say, say_color, say_char; solve [eauto with quiet]
  end.
Qed.

Lemma keeps_edit (g : editor -> screen -> editor * screen) :
  (forall e x, editor_bytes e -> editor_bytes (fst (g e x))) -> keeps L f es (on_edit g).
Proof.
  intros H c Hc. unfold on_edit, prim. pose proof (H (c_edit c) (s_scr (c_sys c)) (sy_edit _ _ _ _ Hc)) as E.
  destruct (g _ _) as [e x]. cbn [fst] in E. destruct Hc as [R Dr Hp F T _].
  constructor; [apply (ready_same _ HL (c_sys c)); [exact R|reflexivity..]|exact Dr|exact Hp|exact F|exact T|exact E].
Qed.

Lemma keeps_char ch c :
  0 <= ch < 256 -> (ch =? 10) && memory_demo (line (edit_enter (c_edit c))) = false -> steady L f [] c ->
  pids_left (s_kern (c_sys c)) ->
  match handle_char L w ch c with (c', inl _) => steady L f [] c' | (c', inr e) => resting L f es c' e end.
Proof.
  intros Hch Hd Hc Hp. unfold handle_char. destruct (ch =? KEY_UP); [exact (keeps_edit history_prev history_prev_bytes c Hc)|].
  destruct (ch =? KEY_DOWN); [exact (keeps_edit history_next history_next_bytes c Hc)|]. destruct (_ || _); [exact Hc|].
  destruct (ch =? 10); [|exact (keeps_edit _ (fun e x E => edit_key_bytes e x ch E Hch) c Hc)]. cbn [andb] in Hd.
  unfold say_char. rewrite run_bind, run_screen, run_bind.
  set (c1 := set_sys c _). assert (H1 : steady L f [] c1) by (apply (steady_quiet _ _ HL _ c); [exact Hc|constructor; reflexivity]).
  pose proof (keeps_edit (fun e x => (edit_enter e, x)) (fun e x => edit_enter_bytes e) c1 H1) as H2.
  unfold on_edit, prim in H2. unfold on_edit at 1, prim at 1.
  set (c2 := set_edit _ _) in H2 |- *. change (edit_enter (c_edit c)) with (c_edit c2) in Hd. rewrite run_bind. unfold prim at 1.
  assert (P2 : pids_left (s_kern (c_sys c2))) by exact Hp.
  clearbody c2. clear c1 H1 Hc Hp c. assert (B2 : bytes (line (c_edit c2))) by apply (sy_edit _ _ _ _ H2).
  refine ((_ : triple (resting L f es) (fun c => steady L f [] c /\ pids_left (s_kern (c_sys c))) _ (fun _ => steady L f [])) c2 (conj H2 P2)).
  apply (triple_bind _ _ _ _ (fun _ => steady L f [])); [apply keeps_execute; assumption|intros []].
  apply keeps_bind; [apply keeps_edit; intros e x E; exact E|intros _]. apply keeps_quiet; [exact HL|apply quietly_screen].
Qed.

Lemma keeps_turn c :
  demo_next c = false -> pids_left (s_kern (c_sys c)) -> steady L f [] c ->
  match shell_turn L w c with (c', inl _) => steady L f [] c' | (c', inr e) => resting L f es c' e end.
Proof.
  intros Hd Hp Hc. unfold shell_turn. rewrite run_bind. unfold on_sys at 1. unfold demo_next in Hd.
  assert (Hch : snd (keyboard_getchar (s_kbd (c_sys c))) < 256)
    by (unfold keyboard_getchar; destruct (tail _ =? head _); [reflexivity|apply u8_range]).
  destruct (keyboard_getchar _) as [kb ch]. cbn [snd] in Hd, Hch. set (c1 := set_sys c _).
  assert (H1 : steady L f [] c1) by (apply (steady_quiet _ _ HL _ c); [exact Hc|constructor; reflexivity]).
  destruct (Z.leb_spec 0 ch); [apply keeps_char; [lia|exact Hd|exact H1|exact Hp]|].
  apply (steady_quiet _ _ HL _ c1); [exact H1|]. apply quiet_interrupted, irqs_interrupted.
Qed.

End Turns.

(** The consoles the shell reaches, a turn at a time, whatever keys, interrupts
    and programs come, with no memory demo among the commands, as long as the
    counter of process ids has not reached the largest int. *)
Inductive reaches (L : shell_link) (c : console) : console -> Prop :=
| here : reaches L c c
| turn w c1 c2 : reaches L c c1 -> world_ok w -> demo_next c1 = false -> pids_left (s_kern (c_sys c1)) ->
    shell_turn L w c1 = (c2, inl tt) -> reaches L c c2.

Lemma reaches_steady L f c c' : shell_layout L -> steady L f [] c -> reaches L c c' -> steady L f [] c'.
Proof.
  intros SL H. induction 1 as [|w c1 c2 _ IH HW Hd Hp E]; [exact H|].
  pose proof (keeps_turn L f w HW SL c1 Hd Hp IH) as K. rewrite E in K. exact K.
Qed.

(** ** From power-on *)

(** The clock and the scheduler at the end of [Boot.kmain]. *)
Definition timing (s : sys D) : Z * sched := (s_tick s, s_sched s).

Lemma outs_timing l : forall s : sys D, timing (add_outs s l) = timing s.
Proof. induction l as [|o l IH]; intros s; [reflexivity|]. exact (IH (System.outb s (o_port o) (o_value o))). Qed.

Lemma memory_timing (I : image) (s : sys D) cr0 : timing (fst (fst (boot_memory I s cr0))) = timing s.
Proof. unfold boot_memory. destruct (paging_install _ _ _) as [st cr]. exact eq_refl. Qed.

Lemma devices_timing (s : sys D) : timing (boot_devices s) = timing s.
Proof. exact (outs_timing (timer_install 50) (register_interrupt_handler s 32 timer_cb)). Qed.

Lemma scr_timing (s : sys D) x : timing (set_scr s x) = timing s.
Proof. reflexivity. Qed.

Lemma files_timing (I : image) (s : sys D) : timing (boot_files I s) = timing s.
Proof. reflexivity. Qed.

Lemma kmain_timing (I : image) (s : sys D) idt gdt cr0 : timing (b_sys (kmain I s idt gdt cr0)) = timing s.
Proof.
  unfold kmain. destruct (gdt_install _ _ _ gdt) as [[g t] gp]. destruct (idt_install _ _ idt) as [[i ip] outs]. cbv zeta.
  match goal with |- context [boot_memory I ?x cr0] => assert (C : timing x = timing s) by (rewrite outs_timing, !scr_timing; reflexivity) end.
  match goal with |- context [boot_memory I ?x cr0] => generalize dependent x end. intros s0 C.
  pose proof (memory_timing I s0 cr0) as M. destruct (boot_memory I s0 cr0) as [[s1 h] cr]. cbn [fst] in M.
  unfold b_sys. rewrite scr_timing, files_timing, devices_timing. congruence.
Qed.

Lemma boot_steady (I : image) (L : shell_link) (s : sys D) idt gdt cr0 :
  image_ok I (s_ram s) -> s_dem s = demand_boot -> s_handlers s = replicate 256 NoHandler ->
  1 <= next_pid (s_kern s) <= INT_MAX -> tlen (tasks (s_sched s)) = MAX_TASKS -> l_paging L = i_link I -> steady L (pmm_install 0x800000) [] (boot_console I s idt gdt cr0).
Proof.
  intros K Ed Eh Hn Htk El. pose proof (f_equal snd (kmain_timing I s idt gdt cr0)) as Ft. cbn [timing snd] in Ft. pose proof (boot_ready I s idt gdt cr0 K Ed Hn) as R.
  destruct (kmain_fields I s idt gdt cr0) as (Fk & _ & Fh & _ & Fb). cbv zeta in *. unfold boot_console.
  destruct (boot_machine_fields I (s_mach s) cr0) as (_ & _ & M3).
  generalize dependent (kmain I s idt gdt cr0). intros b Ft R Fk Fh Fb.
  constructor; cbn [c_sys c_heap c_edit]; [rewrite El; exact R| | | |congruence|].
  - intros n. rewrite Fh, Eh. apply handlers_installed.
  - exists [mk_block (HEAP_SIZE - KHDR) true]. split; [|reflexivity]. rewrite Fb. unfold s_ram, s_mach at 1. rewrite Fk. apply boot_heap.
  - unfold s_mach. rewrite Fk. cbn [with_mach mach with_ram frames]. exact M3.
  - split; [apply Forall_replicate; lia|apply Forall_replicate, Forall_replicate; lia].
Qed.

(** The splash is over when its ticks have passed. *)
Lemma splash_over (s : sys D) n ws :
  drivers s -> 0 <= s_tick s < 0x100000000 -> 0 <= n <= ticks (concat ws) -> ticks (concat ws) < 0x100000000 ->
  exists s', logo_splash s n ws = (s', true).
Proof.
  intros Dr Ht Hn Hw. pose proof (logo_splash_waits s n ws Dr Ht ltac:(lia) Hw) as W.
  destruct (logo_splash s n ws) as [s' [|]]; [eauto|]. destruct W as (ws1 & ws2 & -> & _ & _ & (-> & Hlt & _) & _).
  rewrite app_nil_r in Hn. lia.
Qed.

(** The splash and the first prompt. *)
Lemma first_prompt (L : shell_link) f c splash :
  exec_layout (l_paging L) (l_img L) -> steady L f [] c -> s_tick (c_sys c) = 0 -> 75 <= ticks (concat splash) < 0x100000000 ->
  exists c0, (show_splash 75 splash ;; shell_run L []) c = (c0, inl tt) /\ steady L f [] c0.
Proof.
  intros HL H Ht Hs. pose proof (keeps_quiet L f [] HL _ (quietly_splash 75 splash) c H) as Q. rewrite run_bind.
  unfold show_splash in Q |- *. destruct (splash_over (c_sys c) 75 splash (sy_drivers _ _ _ _ H)) as [s' E]; [lia|lia|lia|].
  rewrite E in Q |- *. generalize dependent (set_sys c s'). clear c H Ht E. intros c Q.
  unfold shell_run, say. rewrite run_bind, run_screen, run_bind, run_screen. eexists. split; [reflexivity|].
  apply (steady_quiet L f HL [] c _ Q). constructor; reflexivity.
Qed.


End Kernel.

(** ** A machine *)

#[local] Existing Instance map_disk.

Lemma demo_shell_layout : shell_layout demo_shell_link.
Proof. constructor; [exact demo_exec_layout|vm_compute; split; [discriminate|reflexivity]|vm_compute; discriminate]. Qed.

