(* ===== verification/Uprog.v ===== *)
(** * Programs that make system calls

    A program of user/ is an interaction tree over the system calls of its
    stubs: what it computes between two calls is Rocq code, what it asks of the
    kernel is an event.  An environment answers the calls; this file runs trees
    in an environment, gives the rules for sequences and loops, and defines the
    plain terminal the programs are specified on. *)

From stdpp Require Import base gmap list numbers option.
From Stdlib Require Import ZArith Lia Bool.
From ITree Require Import Core.ITreeDefinition.
From S2P Require Import Prelude CString Screen Interfaces Fs Proc System Syscall Usermode.

(** The system calls, by the stubs around [int $0x80]: a string or buffer is
    passed with its contents.  [Fread] also gives back the buffer.  The last two
    are instructions that fault: stores of bytes at an address, an exception. *)
Variant sysE : Type -> Type :=
| Write (s : list Z) : sysE unit
| Read : sysE Z
| Rand : sysE Z
| Getpid : sysE Z
| Fwrite (name data : list Z) : sysE Z
| Fread (name buf : list Z) : sysE (Z * list Z)
| Exit : sysE unit
| Poke (addr : Z) (l : list Z) : sysE unit
| Raise (n : Z) : sysE Z.

Abbreviation prog := (itree sysE).

#[export] Instance prog_ret : MRet prog := fun A a => Ret a.
#[export] Instance prog_bind : MBind prog := fun A B k t => ITree.bind t k.

Definition call {A : Type} (e : sysE A) : prog A := ITree.trigger e.

(** [for (;;) body]: the body goes on with a new state or leaves the loop. *)
Definition forever {S A : Type} (body : S -> prog (S + A)) (s : S) : prog A := ITree.iter body s.
Definition continue {S A : Type} (s : S) : prog (S + A) := mret (inl s).
Definition leave {S A : Type} (a : A) : prog (S + A) := mret (inr a).

(** ** Running a program *)

(** How a program ends: as the kernel sees it, or with a store the environment
    does not describe. *)
Inductive prog_end := Ended (o : user_end) | Beyond.

(** An environment answers each call, or the program ends there: it has exited
    or faulted, or waits. *)
Class Env (U : Type) := answer : forall X : Type, sysE X -> U -> U * (X + prog_end).

Arguments answer {U _ X} e u.

Section Run.
Context {U : Type} `{Env U}.

Fixpoint run {A : Type} (fuel : nat) (t : prog A) (u : U) : option (U * (A + prog_end)) :=
  match fuel with
  | O => None
  | S fuel =>
      match observe t with
      | RetF a => Some (u, inl a)
      | TauF t => run fuel t u
      | VisF e k =>
          match answer e u with
          | (u, inl x) => run fuel (k x) u
          | (u, inr z) => Some (u, inr z)
          end
      end
  end.

(** Enough fuel gives this end. *)
Definition ends {A : Type} (t : prog A) (u u' : U) (r : A + prog_end) : Prop := exists n, run n t u = Some (u', r).

Lemma observe_bind {A B : Type} (t : prog A) (k : A -> prog B) :
  observe (t ≫= k) = match observe t with
    | RetF a => observe (k a)
    | TauF t => TauF (t ≫= k)
    | VisF e h => VisF e (fun x => h x ≫= k)
    end.
Proof.
  change (observe (t ≫= k)) with (observe (match observe t with
    | RetF a => k a
    | TauF t => Tau (t ≫= k)
    | VisF e h => Vis e (fun x => h x ≫= k)
    end)). destruct (observe t); reflexivity.
Qed.

Lemma run_observe {A : Type} n (t t' : prog A) u : observe t = observe t' -> run n t u = run n t' u.
Proof. intros E. destruct n; [reflexivity|]. cbn [run]. rewrite E. reflexivity. Qed.

Lemma run_more {A : Type} n : forall m (t : prog A) u r, run n t u = Some r -> (n <= m)%nat -> run m t u = Some r.
Proof.
  induction n as [|n IH]; intros [|m] t u r E L; try discriminate; [lia|]. cbn [run] in *.
  destruct (observe t) as [a|t'|X e k]; [exact E|apply IH; [exact E|lia]|].
  destruct (answer e u) as [u' [x|z]]; [apply IH; [exact E|lia]|exact E].
Qed.

(** A program has at most one end. *)
Lemma ends_unique {A : Type} (t : prog A) u u1 r1 u2 r2 : ends t u u1 r1 -> ends t u u2 r2 -> u1 = u2 /\ r1 = r2.
Proof.
  intros [n E1] [m E2]. apply (run_more n (n + m)) in E1; [|lia]. apply (run_more m (n + m)) in E2; [|lia].
  rewrite E1 in E2. injection E2. auto.
Qed.

Lemma ends_observe {A : Type} (t t' : prog A) u u' r : observe t = observe t' -> ends t' u u' r -> ends t u u' r.
Proof. intros E [n Hn]. exists n. rewrite (run_observe n t t' u E). exact Hn. Qed.

Lemma ends_tau {A : Type} (t : prog A) u u' r : ends t u u' r -> ends (Tau t) u u' r.
Proof. intros [n Hn]. exists (S n). exact Hn. Qed.

Lemma ends_ret {A : Type} (a : A) u : ends (mret a) u u (inl a).
Proof. exists 1%nat. reflexivity. Qed.

(** A sequence whose first part returns, or does not. *)
Lemma run_then {A B : Type} (k : A -> prog B) m u' r : forall n (t : prog A) u u1 r1,
  run n t u = Some (u1, r1) ->
  match r1 with inl a => run m (k a) u1 = Some (u', r) | inr z => u' = u1 /\ r = inr z end ->
  run (n + m) (t ≫= k) u = Some (u', r).
Proof.
  induction n as [|n IH]; intros t u u1 r1 E K; [discriminate|]. cbn [run] in E.
  destruct (observe t) as [a|t'|X e h] eqn:O.
  - injection E as <- <-. apply (run_more m); [|lia].
    rewrite (run_observe m (t ≫= k) (k a)); [exact K|]. rewrite observe_bind, O. reflexivity.
  - specialize (IH t' u u1 r1 E K). cbn [run Nat.add]. rewrite observe_bind, O. exact IH.
  - cbn [run Nat.add]. rewrite observe_bind, O. destruct (answer e u) as [u2 [x|z]]; [exact (IH (h x) u2 u1 r1 E K)|].
    injection E as <- <-. destruct K as [-> ->]. reflexivity.
Qed.

Lemma ends_then {A B : Type} (t : prog A) (k : A -> prog B) a u u1 u2 r :
  ends t u u1 (inl a) -> ends (k a) u1 u2 r -> ends (t ≫= k) u u2 r.
Proof. intros [n Hn] [m Hm]. exists (n + m)%nat. exact (run_then k m u2 r n t u u1 (inl a) Hn Hm). Qed.

Lemma ends_stop {A B : Type} (t : prog A) (k : A -> prog B) z u u1 :
  ends t u u1 (inr z) -> ends (t ≫= k) u u1 (inr z).
Proof. intros [n Hn]. exists (n + 0)%nat. exact (run_then k 0 u1 (inr z) n t u u1 (inr z) Hn (conj eq_refl eq_refl)). Qed.

Lemma ends_call {X : Type} (e : sysE X) u : ends (call e) u (fst (answer e u)) (snd (answer e u)).
Proof.
  exists 2%nat. cbn. destruct (answer e u) as [u' [x|z]]; reflexivity.
Qed.

(** One turn of a loop. *)
Lemma ends_again {S A : Type} (body : S -> prog (S + A)) s s' u u1 u2 r :
  ends (body s) u u1 (inl (inl s')) -> ends (forever body s') u1 u2 r -> ends (forever body s) u u2 r.
Proof.
  intros B F. eapply (ends_observe _ (body s ≫= fun x => match x with inl j => Tau (forever body j) | inr a => Ret a end));
    [reflexivity|]. eapply ends_then; [exact B|]. apply ends_tau, F.
Qed.

Lemma ends_left {S A : Type} (body : S -> prog (S + A)) s a u u1 :
  ends (body s) u u1 (inl (inr a)) -> ends (forever body s) u u1 (inl a).
Proof.
  intros B. eapply (ends_observe _ (body s ≫= fun x => match x with inl j => Tau (forever body j) | inr a => Ret a end));
    [reflexivity|]. eapply ends_then; [exact B|]. apply ends_ret.
Qed.

End Run.

(** ** A terminal

    The keys to come, the state of the random number generator, the timer's count
    when so many keys are still to come, the process id, the text shown so far,
    the files, and the program's memory: the addresses it may write, and those of
    them where a store lands in memory and nowhere else (see [Bus]).  A string or
    buffer is passed to a call at [BUF], which is the program's choice, the name
    of a file behind the data: it costs the stores that put it there. *)

Class Layout := {
  BUF : Z;
  BUF_zone : in_zone BUF
}.

Record space := mk_space {
  sp_rw : Z -> bool;
  sp_ram : Z -> bool
}.

(** A store to [n] bytes at [a]: all land in memory, or the first that does not is
    not writable and faults, or it is no plain memory. *)
Definition landing (p : space) (a n : Z) : option prog_end :=
  match find_range a (a + n) (fun v => negb (sp_rw p v && sp_ram p v)) with
  | None => None
  | Some v => Some (if sp_rw p v then Beyond else Ended Fault_ended)
  end.

Lemma landing_ok p a n : (forall v, a <= v < a + n -> sp_rw p v = true /\ sp_ram p v = true) -> landing p a n = None.
Proof.
  intros H. unfold landing. rewrite (proj2 (find_range_none_iff _ _ _)); [reflexivity|].
  intros v Hv. destruct (H v Hv) as [-> ->]. reflexivity.
Qed.

Lemma landing_cons p a n : 0 <= n ->
  landing p a (1 + n)
  = if sp_rw p a && sp_ram p a then landing p (a + 1) n else Some (if sp_rw p a then Beyond else Ended Fault_ended).
Proof.
  intros Hn. unfold landing. destruct (sp_rw p a && sp_ram p a) eqn:E.
  - replace (find_range a (a + (1 + n)) _) with (find_range (a + 1) (a + 1 + n) (fun v => negb (sp_rw p v && sp_ram p v))); [reflexivity|].
    destruct (find_range (a + 1) _ _) as [v|] eqn:F; symmetry.
    + apply find_range_some in F as (F1 & F2 & F3). apply find_range_least; [lia|exact F2|].
      intros j Hj. destruct (Z.eq_dec j a) as [->|]; [rewrite E; reflexivity|apply F3; lia].
    + apply find_range_none_iff. intros j Hj. destruct (Z.eq_dec j a) as [->|]; [rewrite E; reflexivity|].
      apply (find_range_none _ _ _ F). lia.
  - rewrite (find_range_least _ _ _ a); [reflexivity|lia|rewrite E; reflexivity|intros j Hj; lia].
Qed.

Lemma landing_ext p q a n : (forall v, sp_rw p v = sp_rw q v /\ sp_ram p v = sp_ram q v) -> landing p a n = landing q a n.
Proof.
  intros H. unfold landing. rewrite (find_range_ext _ _ _ (fun v => negb (sp_rw q v && sp_ram q v))).
  - destruct (find_range _ _ _) as [v|]; [|reflexivity]. rewrite (proj1 (H v)). reflexivity.
  - intros v _. destruct (H v) as [-> ->]. reflexivity.
Qed.

Lemma landing_fault p a n : 0 < n -> sp_rw p a = false -> landing p a n = Some (Ended Fault_ended).
Proof.
  intros Hn H. unfold landing. rewrite (find_range_least _ _ _ a); [rewrite H; reflexivity|lia|rewrite H; reflexivity|intros j Hj; lia].
Qed.

(** The characters of a buffer of char, up to its terminator. *)
Definition chars (s : list Z) : list Z := text (map u8 s).

Section Terminal.
Context {D : Type} {DK : Disk D} {LY : Layout}.

Record tty := mk_tty {
  t_keys : list Z;
  t_seed : Z;
  t_clock : nat -> Z;
  t_pid : Z;
  t_out : list Z;
  t_fs : fs (D := D);
  t_space : space
}.

Definition t_rw (u : tty) (v : Z) : bool := sp_rw (t_space u) v.
Definition t_ram (u : tty) (v : Z) : bool := sp_ram (t_space u) v.

Definition show (u : tty) (l : list Z) : tty := mk_tty (t_keys u) (t_seed u) (t_clock u) (t_pid u) (t_out u ++ l) (t_fs u) (t_space u).
Definition with_keys (u : tty) (ks : list Z) : tty := mk_tty ks (t_seed u) (t_clock u) (t_pid u) (t_out u) (t_fs u) (t_space u).
Definition with_files (u : tty) (f : fs) : tty := mk_tty (t_keys u) (t_seed u) (t_clock u) (t_pid u) (t_out u) f (t_space u).

(** A call that gets the bytes [l] at [BUF]. *)
Definition passing {X : Type} (u : tty) (l : list Z) (r : tty * (X + prog_end)) : tty * (X + prog_end) :=
  match landing (t_space u) BUF (tlen l) with None => r | Some e => (u, inr e) end.

#[export] Instance tty_env : Env tty := fun X e u =>
  match e with
  | Write s => passing u (s ++ [0]) (show u (chars s), inl tt)
  | Read =>
      match t_keys u with
      | [] => (u, inr (Ended Waiting))
      | c :: ks => (with_keys u ks, inl c)
      end
  | Rand =>
      let '(x, v) := sys_rand (t_seed u) (t_clock u (length (t_keys u))) in
      (mk_tty (t_keys u) x (t_clock u) (t_pid u) (t_out u) (t_fs u) (t_space u), inl v)
  | Getpid => (u, inl (t_pid u))
  | Fwrite nm data =>
      passing u (data ++ nm ++ [0])
        (let '(f, rc) := fs_write (t_fs u) (chars nm) (put_bytes ∅ BUF data) BUF (tlen data) in
         (with_files u f, inl (i32 (u32 rc))))
  | Fread nm buf =>
      passing u (buf ++ nm ++ [0])
        (let '(f, m, rc, got) := fs_read (t_fs u) (chars nm) (put_bytes ∅ BUF buf) BUF (tlen buf) in
         (with_files u f, inl (i32 (if rc =? 0 then default 0 got else U32_MAX), bytes_at m BUF (tlen buf))))
  | Exit => (u, inr (Ended Exit_called))
  | Poke a l => match landing (t_space u) (u32 a) (tlen l) with None => (u, inl tt) | Some e => (u, inr e) end
  | Raise _ => (u, inr (Ended Fault_ended))
  end.

(** Room for the longest string a program passes. *)
Definition roomy (u : tty) : Prop := forall v, BUF <= v < BUF + 0x1000 -> t_rw u v = true /\ t_ram u v = true.

Lemma roomy_passing {X : Type} (u : tty) l (r : tty * (X + prog_end)) : roomy u -> tlen l <= 0x1000 -> passing u l r = r.
Proof.
  intros R L. unfold passing. rewrite landing_ok; [reflexivity|]. intros v Hv. apply R. lia.
Qed.

Lemma ends_write u s : roomy u -> tlen s < 0x1000 -> ends (call (Write s)) u (show u (chars s)) (inl tt).
Proof.
  intros R L. pose proof (ends_call (Write s) u) as E. unfold answer, tty_env in E.
  rewrite roomy_passing in E; [exact E|exact R|]. unfold tlen in *. rewrite length_app. cbn [length]. lia.
Qed.

Lemma ends_read u c ks : t_keys u = c :: ks -> ends (call Read) u (with_keys u ks) (inl c).
Proof. intros E. pose proof (ends_call Read u) as H. unfold answer, tty_env in H. rewrite E in H. exact H. Qed.

Lemma ends_exit u {A : Type} (k : unit -> prog A) : ends (call Exit ≫= k) u u (inr (Ended Exit_called)).
Proof. apply ends_stop. exact (ends_call Exit u). Qed.

End Terminal.
