(* ===== verification/Programs.v ===== *)
(** * The programs of user/

    ask, calc, guess, note, whoami, prog, crash and rocrash as interaction trees
    over their system calls.  A local or static array is a list that the loops
    update by index; an array that the code leaves uninitialised starts with
    zeros.  The addition and multiplication of int wrap around the way the
    instructions do; the division of the least int by -1 raises the divide
    error. *)

From stdpp Require Import base gmap list numbers option.
From Stdlib Require Import ZArith Lia Bool.
From ITree Require Import Core.ITreeDefinition.
From S2P Require Import Prelude CString Screen Uprog.

(** ** What they share

    The stubs and [put_char] are the same text in every program. *)

Definition sys_write (s : list Z) : prog unit := call (Write s).
Definition sys_read : prog Z := call Read.
Definition sys_rand : prog Z := call Rand.
Definition sys_getpid : prog Z := call Getpid.
Definition sys_fwrite (name data : list Z) (len : Z) : prog Z := call (Fwrite name (take (Z.to_nat len) data)).
Definition sys_exit : prog unit := call Exit.

(** [sys_fread(name, buf, max)]: the result, and [buf] afterwards. *)
Definition sys_fread (name buf : list Z) (max : Z) : prog (Z * list Z) :=
  r ← call (Fread name (take (Z.to_nat max) buf));
  mret (fst r, snd r ++ drop (Z.to_nat max) buf).

(** [sys_exit(); for (;;) sys_exit();] *)
Definition exit_loop : prog unit := sys_exit ;; forever (fun _ => sys_exit ;; continue tt) tt.

Definition put_char (c : Z) : prog unit := sys_write [u8 c; 0].

(** [c == '\n' || c == '\r'] *)
Definition is_enter (c : Z) : bool := (c =? 10) || (c =? 13).

(** [while (u) { buf[i--] = '0' + (u % 10); u /= 10; }]; a 32-bit number has at
    most ten digits. *)
Fixpoint fill_digits (fuel : nat) (buf : list Z) (i u : Z) : list Z * Z :=
  match fuel with
  | O => (buf, i)
  | S fuel => if u =? 0 then (buf, i) else fill_digits fuel (tset buf i (48 + u mod 10)) (i - 1) (u / 10)
  end.

(** [print_int] of note and guess. *)
Definition print_int (n : Z) : prog unit :=
  let t := tset (replicate 12 0) 11 0 in
  if n =? 0 then sys_write (lit "0")
  else
    let '(t, i) := fill_digits 10 t 10 (u32 n) in
    sys_write (drop (Z.to_nat (i + 1)) t).

(** ** ask *)

(** The body of the loop; the state is [name] and [i]. *)
Definition ask_turn (st : list Z * Z) : prog ((list Z * Z) + (list Z * Z)) :=
  let '(name, i) := st in
  c ← sys_read;
  if is_enter c then leave (name, i)
  else if c =? 8 then
    if 0 <? i then put_char 8 ;; continue (name, i - 1) else continue (name, i)
  else if i <? 63 then put_char c ;; continue (tset name i (u8 c), i + 1)
  else continue (name, i).

Definition ask_start : prog unit :=
  sys_write (lit "  [ask] What is your name? ") ;;
  r ← forever ask_turn (replicate 64 0, 0);
  let name := tset (fst r) (snd r) 0 in
  sys_write (10 :: lit "  [ask] Hello, ") ;;
  sys_write name ;;
  sys_write (lit "! Greetings from a ring-3 program." ++ [10]) ;;
  exit_loop.

(** ** calc *)

Definition calc_print_int (n : Z) : prog unit :=
  let buf := tset (replicate 12 0) 11 0 in
  if n =? 0 then sys_write (lit "0")
  else
    let neg := n <? 0 in
    let u := if neg then u32 (i32 (- n)) else u32 n in
    let '(buf, i) := fill_digits 10 buf 10 u in
    let '(buf, i) := if neg : bool then (tset buf i 45, i - 1) else (buf, i) in
    sys_write (drop (Z.to_nat (i + 1)) buf).

Definition calc_read_turn (st : Z * bool * bool) : prog ((Z * bool * bool) + (Z * bool)) :=
  let '(val, any, neg) := st in
  c ← sys_read;
  if is_enter c then if any : bool then leave (val, neg) else continue (val, any, neg)
  else if (c =? 45) && negb any then put_char 45 ;; continue (val, true, true)
  else if (48 <=? c) && (c <=? 57) then put_char c ;; continue (i32 (i32 (val * 10) + (c - 48)), true, neg)
  else continue (val, any, neg).

Definition calc_read_int : prog Z :=
  r ← forever calc_read_turn (0, false, false);
  mret (if snd r : bool then i32 (- fst r) else fst r).

Definition is_op (c : Z) : bool := (c =? 43) || (c =? 45) || (c =? 42) || (c =? 47).

Definition calc_op_turn (_ : unit) : prog (unit + Z) :=
  c ← sys_read;
  if is_op c then put_char c ;; leave c else continue tt.

(** [a / b] for [b] other than 0. *)
Definition int_div (a b : Z) : prog Z :=
  if (a =? -0x80000000) && (b =? -1) then call (Raise 0) else mret (Z.quot a b).

Definition calc_start : prog unit :=
  sys_write (lit "  [calc] first number:  ") ;;
  a ← calc_read_int;
  sys_write (10 :: lit "  [calc] operator (+ - * /):  ") ;;
  op ← forever calc_op_turn tt;
  sys_write (10 :: lit "  [calc] second number:  ") ;;
  b ← calc_read_int;
  sys_write (10 :: lit "  [calc] ") ;;
  calc_print_int a ;; put_char 32 ;; put_char op ;; put_char 32 ;; calc_print_int b ;;
  sys_write (lit " = ") ;;
  (if (op =? 47) && (b =? 0) then sys_write (lit "cannot divide by zero." ++ [10])
   else
     r ← (if op =? 43 then mret (i32 (a + b))
          else if op =? 45 then mret (i32 (a - b))
          else if op =? 42 then mret (i32 (a * b))
          else if op =? 47 then int_div a b
          else mret 0);
     calc_print_int r ;;
     sys_write [10]) ;;
  exit_loop.

(** ** guess *)

Definition guess_read_turn (st : Z * bool) : prog ((Z * bool) + Z) :=
  let '(val, any) := st in
  c ← sys_read;
  if is_enter c then if any : bool then leave val else continue (val, any)
  else if (48 <=? c) && (c <=? 57) then put_char c ;; continue (i32 (i32 (val * 10) + (c - 48)), true)
  else continue (val, any).

Definition guess_read_int : prog Z := forever guess_read_turn (0, false).

Definition guess_turn (secret tries : Z) : prog (Z + unit) :=
  sys_write (lit "  [guess] your guess:  ") ;;
  g ← guess_read_int;
  let tries := i32 (tries + 1) in
  sys_write [10] ;;
  if g =? secret then
    sys_write (lit "  [guess] correct, it was ") ;;
    print_int secret ;;
    sys_write (lit "! you took ") ;;
    print_int tries ;;
    sys_write (lit " tries." ++ [10]) ;;
    leave tt
  else if g <? secret then sys_write (lit "  [guess] too low, go higher." ++ [10]) ;; continue tries
  else sys_write (lit "  [guess] too high, go lower." ++ [10]) ;; continue tries.

Definition guess_start : prog unit :=
  r ← sys_rand;
  let secret := i32 (Z.rem r 100 + 1) in
  sys_write (lit "  [guess] I am thinking of a number between 1 and 100." ++ [10]) ;;
  forever (guess_turn secret) 0 ;;
  exit_loop.

(** ** note *)

Definition read_name_turn (max : Z) (st : list Z * Z) : prog ((list Z * Z) + (list Z * Z)) :=
  let '(dst, i) := st in
  c ← sys_read;
  if is_enter c then if 0 <? i then leave (dst, i) else continue (dst, i)
  else if c =? 8 then
    if 0 <? i then put_char 8 ;; continue (dst, i - 1) else continue (dst, i)
  else if i <? max - 1 then put_char c ;; continue (tset dst i (u8 c), i + 1)
  else continue (dst, i).

(** [read_name(dst, max)]: the buffer, terminated. *)
Definition read_name (dst : list Z) (max : Z) : prog (list Z) :=
  r ← forever (read_name_turn max) (dst, 0);
  mret (tset (fst r) (snd r) 0).

(** The loop over the text: the state is [body], [len] and [line_start]; the
    result is [body] and [len]. *)
Definition note_turn (st : list Z * Z * Z) : prog ((list Z * Z * Z) + (list Z * Z)) :=
  let '(body, len, line_start) := st in
  c ← sys_read;
  if is_enter c then
    if (len - line_start =? 1) && (tget 0 body line_start =? 46) then leave (body, line_start)
    else if len <? 2047 then put_char 10 ;; continue (tset body len 10, len + 1, len + 1)
    else continue (body, len, len)
  else if c =? 8 then
    if line_start <? len then put_char 8 ;; continue (body, len - 1, line_start)
    else continue (body, len, line_start)
  else if len <? 2047 then put_char c ;; continue (tset body len (u8 c), len + 1, line_start)
  else continue (body, len, line_start).

(** After the text: save, read back, report; [back] is the static buffer. *)
Definition note_save (name body back : list Z) (len : Z) : prog unit :=
  rc ← sys_fwrite name body len;
  if rc =? 0 then
    sys_write (10 :: lit "  [note] saved ") ;;
    print_int len ;;
    sys_write (lit " bytes to ") ;;
    sys_write name ;;
    sys_write (10 :: lit "  [note] reading it back from disk:" ++ 10 :: lit "  ") ;;
    r ← sys_fread name back 2047;
    (if 0 <=? fst r then sys_write (tset (snd r) (fst r) 0) else mret tt) ;;
    sys_write (10 :: lit "  [note] tip: run 'cat ") ;;
    sys_write name ;;
    sys_write (lit "' from the shell to see it persisted." ++ [10])
  else sys_write (10 :: lit "  [note] save failed." ++ [10]).

Definition note_start : prog unit :=
  sys_write (lit "  [note] filename: ") ;;
  name ← read_name (replicate 24 0) 24;
  sys_write (10 :: lit "  [note] type your text. End with a single dot on its own line." ++ [10]) ;;
  r ← forever note_turn (replicate 2048 0, 0, 0);
  let body := tset (fst r) (snd r) 0 in
  note_save name body (replicate 2048 0) (snd r) ;;
  exit_loop.

(** ** whoami *)

(** The loop [while (n > 0 && i < 11)] of [put_int]; the digits come last first. *)
Fixpoint put_int_digits (room : nat) (buf : list Z) (i n : Z) : list Z * Z :=
  match room with
  | O => (buf, i)
  | S room => if 0 <? n then put_int_digits room (tset buf i (48 + Z.rem n 10)) (i + 1) (Z.quot n 10) else (buf, i)
  end.

(** [while (i > 0) out[j++] = buf[--i];] for [i] characters *)
Fixpoint copy_back (i : nat) (buf out : list Z) (j : Z) : list Z * Z :=
  match i with
  | O => (out, j)
  | S i => copy_back i buf (tset out j (tget 0 buf (Z.of_nat i))) (j + 1)
  end.

Definition put_int (n : Z) : prog unit :=
  if n =? 0 then sys_write (lit "0")
  else
    let '(buf, i) := put_int_digits 11 (replicate 12 0) 0 n in
    let '(out, j) := copy_back (Z.to_nat i) buf (replicate 12 0) 0 in
    sys_write (tset out j 0).

Definition whoami_start : prog unit :=
  sys_write (lit "  [whoami] my process id is ") ;;
  p ← sys_getpid;
  put_int p ;;
  sys_write [10] ;;
  sys_exit.

(** ** prog *)

(** The loop over the arguments from number [i] on. *)
Fixpoint prog_args (i : Z) (argv : list (list Z)) : prog unit :=
  match argv with
  | [] => mret tt
  | a :: argv =>
      sys_write (lit "    argv[" ++ [0]) ;;
      sys_write [u8 (48 + i); 0] ;;
      sys_write (lit "] = ") ;;
      sys_write a ;;
      sys_write [10] ;;
      prog_args (i + 1) argv
  end.

Definition prog_start (argv : list (list Z)) : prog unit :=
  sys_write (lit "  [prog] hello from a separately-compiled program." ++ [10]) ;;
  sys_write (lit "  [prog] loaded from PyroFS, running in ring 3, syscalls only." ++ [10]) ;;
  sys_write (lit "  [prog] my arguments:" ++ [10]) ;;
  prog_args 0 argv ;;
  exit_loop.

(** ** crash and rocrash *)

Definition crash_start : prog unit :=
  sys_write (lit "  [crash] attempting to write to kernel memory at 0x10000..." ++ [10]) ;;
  call (Poke 0x10000 [0xEF; 0xBE; 0xAD; 0xDE]) ;;
  sys_write (lit "  [crash] this line should never run." ++ [10]) ;;
  exit_loop.

(** [start] is the address of its own [_start]. *)
Definition rocrash_start (start : Z) : prog unit :=
  sys_write (lit "  [rocrash] about to write to my own code at _start..." ++ [10]) ;;
  call (Poke start [0x90]) ;;
  sys_write (lit "  [rocrash] if you can read this, the write was NOT blocked." ++ [10]) ;;
  sys_exit.
