(* ===== verification/ProgramProps.v ===== *)
(** * What the programs of user/ do

    The programs on a terminal: which number a line of keys is read as, what is
    printed, what is saved.  Each program is compared with a short description
    of the dialogue, for every sequence of keys. *)

From stdpp Require Import base gmap list numbers option.
From Stdlib Require Import ZArith Lia Bool.
From ITree Require Import Core.ITreeDefinition.
From S2P Require Import Prelude CString Screen Interfaces Fs Syscall Usermode Uprog Programs.

(** ** Numerals *)

(** A number in decimal notation. *)
Definition decimal (n : Z) : list Z := if n <? 0 then 45 :: dec_digits (- n) else dec_digits n.

Lemma chars_small l : Forall (fun c => 0 < c < 256) l -> chars (l ++ [0]) = l /\ chars l = l.
Proof.
  unfold chars. induction 1 as [|c l Hc Hl [IH1 IH2]]; [split; reflexivity|]. cbn [map app text].
  rewrite u8_small by lia. destruct (Z.eqb_spec c 0); [lia|]. rewrite IH1, IH2. auto.
Qed.

Lemma digits_small l : Forall digit l -> Forall (fun c => 0 < c < 256) l.
Proof. apply Forall_impl. unfold digit. intros c Hc. lia. Qed.

Lemma drop_tset (l : list Z) i x : 0 <= i < tlen l -> drop (Z.to_nat i) (tset l i x) = x :: drop (Z.to_nat (i + 1)) l.
Proof.
  intros Hi. unfold tset, tlen in *. replace (Z.to_nat (i + 1)) with (S (Z.to_nat i)) by lia.
  assert (Hn : (Z.to_nat i < length l)%nat) by lia. revert Hn. generalize (Z.to_nat i). clear.
  induction l as [|y l IH]; intros [|n] Hn; cbn in Hn |- *; [lia|lia|reflexivity|apply IH; lia].
Qed.

(** The digits end up in the buffer in front of what was there. *)
Lemma fill_digits_spec fuel : forall buf i u,
  0 <= u -> Z.of_nat fuel <= i + 1 -> i < tlen buf ->
  let '(buf', i') := fill_digits fuel buf i u in
  drop (Z.to_nat (i' + 1)) buf' = dec_loop fuel u (drop (Z.to_nat (i + 1)) buf) /\
  tlen buf' = tlen buf /\ i - Z.of_nat fuel <= i' <= i.
Proof.
  induction fuel as [|fuel IH]; intros buf i u Hu Hi Hl; cbn [fill_digits dec_loop]; [split; [reflexivity|split; [reflexivity|lia]]|].
  destruct (Z.eqb_spec u 0) as [->|N]; [split; [reflexivity|split; [reflexivity|lia]]|].
  rewrite (proj2 (Z.ltb_lt 0 u)) by lia.
  specialize (IH (tset buf i (48 + u mod 10)) (i - 1) (u / 10) ltac:(zdm) ltac:(lia) ltac:(rewrite tlen_tset; lia)).
  destruct (fill_digits _ _ _ _) as [buf' i']. destruct IH as (IH1 & IH2 & IH3).
  replace (i - 1 + 1) with i in IH1 by lia. rewrite drop_tset in IH1 by lia. rewrite tlen_tset in IH2.
  split; [exact IH1|]. split; [exact IH2|lia].
Qed.

Lemma dec_loop_app n : forall u l l', dec_loop n u (l ++ l') = dec_loop n u l ++ l'.
Proof.
  induction n as [|n IH]; intros u l l'; cbn [dec_loop]; [reflexivity|]. destruct (0 <? u); [|reflexivity].
  exact (IH (u / 10) ((48 + u mod 10) :: l) l').
Qed.

Lemma dec_loop_more n : forall m u l, (n <= m)%nat -> u < 10 ^ Z.of_nat n -> dec_loop m u l = dec_loop n u l.
Proof.
  induction n as [|n IH]; intros [|m] u l L Hu; cbn [dec_loop]; [reflexivity| |lia|].
  - change (10 ^ Z.of_nat 0) with 1 in Hu. destruct (Z.ltb_spec 0 u); [lia|reflexivity].
  - destruct (0 <? u); [|reflexivity]. rewrite Nat2Z.inj_succ, Z.pow_succ_r in Hu by lia. apply IH; [lia|zdm].
Qed.

(** The number of at most ten digits [print_int] puts at the end of its buffer. *)
Lemma fill_decimal u :
  0 < u < 0x100000000 ->
  let '(buf, i) := fill_digits 10 (tset (replicate 12 0) 11 0) 10 u in
  drop (Z.to_nat (i + 1)) buf = dec_digits u ++ [0] /\ tlen buf = 12 /\ 0 <= i <= 10.
Proof.
  intros Hu. pose proof (fill_digits_spec 10 (tset (replicate 12 0) 11 0) 10 u ltac:(lia) ltac:(lia) ltac:(reflexivity)) as F.
  destruct (fill_digits _ _ _ _) as [buf i]. destruct F as (F1 & F2 & F3). split; [|split; [exact F2|lia]]. rewrite F1.
  change (drop (Z.to_nat (10 + 1)) (tset (replicate 12 0) 11 0)) with [0].
  unfold dec_digits. destruct (Z.eqb_spec u 0); [lia|]. exact (dec_loop_app 10 u [] [0]).
Qed.

(** The keys a number is made of: what is accepted of the keys up to the Enter
    that ends it, and the keys after that.  An Enter before the first accepted
    key does not count; [signed] allows a minus sign as the first. *)
Definition accept (signed any : bool) (c : Z) : bool :=
  (signed && (c =? 45) && negb any) || ((48 <=? c) && (c <=? 57)).

Fixpoint numeral (signed any : bool) (ks : list Z) : option (list Z * list Z) :=
  match ks with
  | [] => None
  | c :: ks =>
      if is_enter c then if any then Some ([], ks) else numeral signed any ks
      else if accept signed any c then
        match numeral signed true ks with
        | Some (l, r) => Some (c :: l, r)
        | None => None
        end
      else numeral signed any ks
  end.

Definition value (l : list Z) : Z := if cur l =? 45 then - read_dec (nxt l) else read_dec l.

Lemma numeral_digits signed ks : forall l r, numeral signed true ks = Some (l, r) -> Forall digit l.
Proof.
  induction ks as [|c ks IH]; intros l r E; cbn [numeral] in E; [discriminate|].
  destruct (is_enter c); [injection E as <- <-; constructor|]. unfold accept in E. rewrite andb_false_r in E. cbn [orb] in E.
  destruct (_ && _) eqn:Dc; [|exact (IH _ _ E)]. destruct (numeral signed true ks) as [[l' r']|]; [|discriminate].
  injection E as <- <-. constructor; [b2p; unfold digit; lia|exact (IH _ _ eq_refl)].
Qed.

(** Reading on from [v]. *)
Definition read_on (v : Z) (l : list Z) : Z := fold_left (fun a c => a * 10 + (c - 48)) l v.

Lemma read_on_grows l : forall v, Forall digit l -> 0 <= v -> v <= read_on v l.
Proof.
  induction l as [|c l IH]; intros v F Hv; [reflexivity|]. inversion F as [|? ? Hc Fl]; subst. cbn [read_on fold_left].
  unfold digit in Hc. specialize (IH (v * 10 + (c - 48)) Fl ltac:(lia)). unfold read_on in IH. lia.
Qed.

(** ** The state of a dialogue *)

Section Dialogue.
Context {D : Type} {DK : Disk D} {LY : Layout}.
Implicit Types u : tty (D := D).

(** [u] with other keys to come, and more shown. *)
Definition after u (ks o : list Z) : tty := mk_tty ks (t_seed u) (t_clock u) (t_pid u) (t_out u ++ o) (t_fs u) (t_space u).

Lemma after_start u : after u (t_keys u) [] = u.
Proof. unfold after. rewrite app_nil_r. destruct u. reflexivity. Qed.

Lemma after_show u ks o l : show (after u ks o) l = after u ks (o ++ l).
Proof. unfold show, after. cbn. rewrite app_assoc. reflexivity. Qed.

Lemma write_after u ks o s : roomy u -> tlen s < 0x1000 -> ends (sys_write s) (after u ks o) (after u ks (o ++ chars s)) (inl tt).
Proof. intros R L. rewrite <- after_show. apply ends_write; [exact R|exact L]. Qed.

Lemma read_after u c ks o : ends sys_read (after u (c :: ks) o) (after u ks o) (inl c).
Proof. exact (ends_read (after u (c :: ks) o) c ks eq_refl). Qed.

(** The echo of a key. *)
Lemma put_after u ks o c : roomy u -> 0 < c < 256 -> ends (put_char c) (after u ks o) (after u ks (o ++ [c])) (inl tt).
Proof.
  intros R Hc. pose proof (write_after u ks o [u8 c; 0] R ltac:(vm_compute; reflexivity)) as W.
  assert (E : chars [u8 c; 0] = [c]).
  { rewrite u8_small by lia. unfold chars. cbn [map]. rewrite u8_small by lia. cbn. destruct (Z.eqb_spec c 0); [lia|reflexivity]. }
  rewrite E in W. exact W.
Qed.

Lemma write_digits u ks o s l : roomy u -> s = l ++ [0] -> Forall (fun c => 0 < c < 256) l -> (length l < 100)%nat ->
  ends (sys_write s) (after u ks o) (after u ks (o ++ l)) (inl tt).
Proof.
  intros R -> F L. pose proof (write_after u ks o (l ++ [0]) R) as W. rewrite (proj1 (chars_small l F)) in W. apply W.
  unfold tlen. rewrite length_app. cbn. lia.
Qed.

Lemma print_int_after u ks o n : roomy u -> 0 <= n < 0x100000000 -> ends (print_int n) (after u ks o) (after u ks (o ++ dec_digits n)) (inl tt).
Proof.
  intros R Hn. unfold print_int. destruct (Z.eqb_spec n 0) as [->|N]; [apply write_after; [exact R|reflexivity]|].
  rewrite u32_small by lia. pose proof (fill_decimal n ltac:(lia)) as F. cbv zeta. destruct (fill_digits _ _ _ _) as [buf i].
  destruct F as (F & _). destruct (dec_digits_facts n Hn) as (_ & Dg & _ & L).
  apply write_digits; [exact R|exact F|apply digits_small, Dg|lia].
Qed.

Lemma calc_print_after u ks o n :
  roomy u -> -0x80000000 <= n < 0x80000000 -> ends (calc_print_int n) (after u ks o) (after u ks (o ++ decimal n)) (inl tt).
Proof.
  intros R Hn. unfold calc_print_int, decimal. destruct (Z.eqb_spec n 0) as [->|N]; [apply write_after; [exact R|reflexivity]|].
  cbv zeta. destruct (Z.ltb_spec n 0) as [Neg|Pos].
  - replace (u32 (i32 (- n))) with (- n) by (unfold i32, u32; zdm).
    pose proof (fill_decimal (- n) ltac:(lia)) as F. destruct (fill_digits _ _ _ _) as [buf i].
    destruct F as (F & L12 & Hi). destruct (dec_digits_facts (- n) ltac:(lia)) as (_ & Dg & _ & L).
    apply write_digits; [exact R| |constructor; [lia|apply digits_small, Dg]|cbn [length]; lia].
    replace (i - 1 + 1) with i by lia. rewrite drop_tset, F by lia. reflexivity.
  - rewrite u32_small by lia. pose proof (fill_decimal n ltac:(lia)) as F. destruct (fill_digits _ _ _ _) as [buf i].
    destruct F as (F & _). destruct (dec_digits_facts n ltac:(lia)) as (_ & Dg & _ & L).
    apply write_digits; [exact R|exact F|apply digits_small, Dg|lia].
Qed.

Lemma ends_at {A : Type} (t : prog A) u u1 u2 r : ends t u u1 r -> u1 = u2 -> ends t u u2 r.
Proof. intros H <-. exact H. Qed.

Lemma ends_from {A : Type} (t : prog A) u1 u2 u r : ends t u2 u r -> u1 = u2 -> ends t u1 u r.
Proof. intros H ->. exact H. Qed.

End Dialogue.

(** Print a constant text. *)
Ltac say R := eapply ends_then; [apply write_after; [exact R|vm_compute; reflexivity]|].

(** ** calc *)

Section Talk.
Context {D : Type} {DK : Disk D} {LY : Layout}.
Implicit Types u : tty (D := D).

Section Calc.
Variable u : tty (D := D).
Hypothesis R : roomy u.

(** The digits of a number, after its first key. *)
Lemma calc_read_digits ks : forall v neg o l r,
  numeral true true ks = Some (l, r) -> 0 <= v -> read_on v l < 0x80000000 ->
  ends (forever calc_read_turn (v, true, neg)) (after u ks o) (after u r (o ++ l)) (inl (read_on v l, neg)).
Proof.
  induction ks as [|c ks IH]; intros v neg o l r E Hv Hl; [discriminate|]. pose proof (numeral_digits _ _ _ _ E) as F.
  cbn [numeral] in E. destruct (is_enter c) eqn:Ec.
  - injection E as <- <-. rewrite app_nil_r. apply ends_left. unfold calc_read_turn. eapply ends_then; [apply read_after|].
    rewrite Ec. apply ends_ret.
  - unfold accept in E. rewrite andb_false_r in E. cbn [orb] in E. destruct (_ && _) eqn:Dc.
    + destruct (numeral true true ks) as [[l' r']|] eqn:E'; [|discriminate]. injection E as <- <-.
      inversion F as [|? ? Hc Fl]; subst. unfold digit in Hc. cbn [read_on fold_left] in *.
      pose proof (read_on_grows l' (v * 10 + (c - 48)) Fl ltac:(lia)) as G. unfold read_on in G.
      eapply ends_again; [|rewrite cons_middle, app_assoc; apply (IH (v * 10 + (c - 48)) neg); [reflexivity|lia|exact Hl]].
      unfold calc_read_turn. eapply ends_then; [apply read_after|]. rewrite Ec, andb_false_r, Dc.
      eapply ends_then; [apply put_after; [exact R|lia]|]. rewrite !i32_small by (rewrite ?i32_small; lia). apply ends_ret.
    + eapply ends_again; [|apply (IH v neg); [exact E|exact Hv|exact Hl]].
      unfold calc_read_turn. eapply ends_then; [apply read_after|]. rewrite Ec, andb_false_r, Dc. apply ends_ret.
Qed.

Lemma calc_read_number ks : forall o l r,
  numeral true false ks = Some (l, r) -> -0x80000000 < value l < 0x80000000 ->
  ends (forever calc_read_turn (0, false, false)) (after u ks o) (after u r (o ++ l))
    (inl (if cur l =? 45 then (read_dec (nxt l), true) else (read_dec l, false))).
Proof.
  induction ks as [|c ks IH]; intros o l r E Hl; [discriminate|]. cbn [numeral] in E. destruct (is_enter c) eqn:Ec.
  { eapply ends_again; [|apply IH; [exact E|exact Hl]]. unfold calc_read_turn. eapply ends_then; [apply read_after|].
    rewrite Ec. apply ends_ret. }
  unfold accept in E. cbn [andb negb] in E. destruct (_ || _) eqn:A; cycle 1.
  { apply orb_false_iff in A as [A1 A2]. eapply ends_again; [|apply IH; [exact E|exact Hl]].
    unfold calc_read_turn. eapply ends_then; [apply read_after|]. cbn [negb]. rewrite Ec, A1, A2. apply ends_ret. }
  destruct (numeral true true ks) as [[l' r']|] eqn:E'; [|discriminate]. injection E as <- <-.
  unfold value in *. cbn [cur nxt] in *. rewrite andb_true_r in A. destruct (Z.eqb_spec c 45) as [->|N].
  - eapply ends_again; [|rewrite cons_middle, app_assoc; apply (calc_read_digits ks 0 true); [exact E'|lia|unfold read_dec in Hl; unfold read_on; cbn in Hl; lia]].
    unfold calc_read_turn. eapply ends_then; [apply read_after|]. rewrite Ec. cbn [Z.eqb Pos.eqb andb negb].
    eapply ends_then; [apply put_after; [exact R|lia]|]. apply ends_ret.
  - apply Z.eqb_neq in N. rewrite ?N in Hl |- *. cbn [orb] in A. eapply ends_again;
      [|rewrite cons_middle, app_assoc; apply (calc_read_digits ks (c - 48) false); [exact E'|b2p; lia|exact (proj2 Hl)]].
    unfold calc_read_turn. eapply ends_then; [apply read_after|]. rewrite Ec, N, A. cbn [andb].
    b2p. eapply ends_then; [apply put_after; [exact R|lia]|].
    rewrite !i32_small by (rewrite ?i32_small; lia). apply ends_ret.
Qed.

Lemma calc_read_after ks o l r :
  numeral true false ks = Some (l, r) -> -0x80000000 < value l < 0x80000000 ->
  ends calc_read_int (after u ks o) (after u r (o ++ l)) (inl (value l)).
Proof.
  intros E Hl. unfold calc_read_int. eapply ends_then; [apply (calc_read_number ks o l r E Hl)|]. unfold value in *.
  destruct (cur l =? 45); cbn [fst snd]; [rewrite i32_small by lia|]; apply ends_ret.
Qed.

(** The first operator among some keys, and the keys after it. *)
Fixpoint operator (ks : list Z) : option (Z * list Z) :=
  match ks with
  | [] => None
  | c :: ks => if is_op c then Some (c, ks) else operator ks
  end.

Lemma operator_cases ks op r : operator ks = Some (op, r) -> op = 43 \/ op = 45 \/ op = 42 \/ op = 47.
Proof.
  induction ks as [|c ks IH]; cbn; [discriminate|]. destruct (is_op c) eqn:E; [|exact IH]. intros H. injection H as <- _.
  unfold is_op in E. rewrite !orb_true_iff, !Z.eqb_eq in E. tauto.
Qed.

Lemma calc_op_after ks : forall o op r,
  operator ks = Some (op, r) -> ends (forever calc_op_turn tt) (after u ks o) (after u r (o ++ [op])) (inl op).
Proof.
  induction ks as [|c ks IH]; intros o op r E; [discriminate|]. pose proof (operator_cases _ _ _ E) as C. cbn in E.
  destruct (is_op c) eqn:Ec.
  - injection E as <- <-. apply ends_left. unfold calc_op_turn. eapply ends_then; [apply read_after|]. rewrite Ec.
    eapply ends_then; [apply put_after; [exact R|lia]|]. apply ends_ret.
  - eapply ends_again; [|apply IH, E]. unfold calc_op_turn. eapply ends_then; [apply read_after|]. rewrite Ec. apply ends_ret.
Qed.

(** What the calculator answers, when the result is an int. *)
Definition calc_value (op a b : Z) : Z :=
  if op =? 43 then a + b else if op =? 45 then a - b else if op =? 42 then a * b else Z.quot a b.

Definition calc_answer (op a b : Z) : list Z :=
  if (op =? 47) && (b =? 0) then lit "cannot divide by zero." else decimal (calc_value op a b).

Lemma calc_compute_after ks o op a b :
  op = 43 \/ op = 45 \/ op = 42 \/ op = 47 -> -0x80000000 < a < 0x80000000 -> -0x80000000 <= calc_value op a b < 0x80000000 ->
  ends (if (op =? 47) && (b =? 0) then sys_write (lit "cannot divide by zero." ++ [10])
   else
     r ← (if op =? 43 then mret (i32 (a + b))
          else if op =? 45 then mret (i32 (a - b))
          else if op =? 42 then mret (i32 (a * b))
          else if op =? 47 then int_div a b
          else mret 0);
     calc_print_int r ;;
     sys_write [10]) (after u ks o) (after u ks (o ++ calc_answer op a b ++ [10])) (inl tt).
Proof.
  intros C Ha Hv. unfold calc_answer. destruct (_ && _) eqn:Z0; [apply write_after; [exact R|reflexivity]|].
  eapply (ends_then _ _ (calc_value op a b)).
  - unfold calc_value in *. destruct C as [-> | [-> | [-> | -> ]]]; cbn [Z.eqb Pos.eqb] in *; rewrite ?i32_small by exact Hv; try apply ends_ret.
    unfold int_div. rewrite (proj2 (Z.eqb_neq a _)) by lia. apply ends_ret.
  - eapply ends_then; [apply calc_print_after; [exact R|exact Hv]|]. rewrite app_assoc. apply write_after; [exact R|reflexivity].
Qed.

End Calc.

(** C32. The calculator.  From any keys that contain a number, an operator and a
    number, whatever else is typed in between: the program echoes exactly the
    keys it accepts, prints both numbers and the exact result (division rounds
    towards zero, division by zero is refused), takes no key more than it needs
    and exits, provided numbers and result fit an int. *)
Theorem calc_correct u (x y k1 k2 k3 : list Z) (op : Z) :
  roomy u ->
  numeral true false (t_keys u) = Some (x, k1) -> operator k1 = Some (op, k2) -> numeral true false k2 = Some (y, k3) ->
  -0x80000000 < value x < 0x80000000 -> -0x80000000 < value y < 0x80000000 ->
  -0x80000000 <= calc_value op (value x) (value y) < 0x80000000 ->
  ends calc_start u
    (after u k3
      (lit "  [calc] first number:  " ++ x ++ 10 :: lit "  [calc] operator (+ - * /):  " ++ op ::
       10 :: lit "  [calc] second number:  " ++ y ++ 10 :: lit "  [calc] " ++
       decimal (value x) ++ 32 :: op :: 32 :: decimal (value y) ++ lit " = " ++
       calc_answer op (value x) (value y) ++ [10]))
    (inr (Ended Exit_called)).
Proof.
  intros R E1 E2 E3 H1 H2 Hv. pose proof (operator_cases _ _ _ E2) as C. rewrite <- (after_start u) at 1.
  unfold calc_start. eapply ends_at.
  - say R. eapply ends_then; [apply (calc_read_after u R); eassumption|].
    say R. eapply ends_then; [apply (calc_op_after u R); eassumption|].
    say R. eapply ends_then; [apply (calc_read_after u R); eassumption|].
    say R. eapply ends_then; [apply calc_print_after; [exact R|lia]|].
    do 3 (eapply ends_then; [apply put_after; [exact R|lia]|]).
    eapply ends_then; [apply calc_print_after; [exact R|lia]|].
    say R. eapply ends_then; [apply (calc_compute_after u R); assumption|]. apply ends_exit.
  - f_equal. rewrite <- !app_assoc. reflexivity.
Qed.

(** ** guess *)

(** [n] numbers, each ended by Enter. *)
Fixpoint numerals (n : nat) (ks : list Z) : option (list (list Z) * list Z) :=
  match n with
  | O => Some ([], ks)
  | S n =>
      match numeral false false ks with
      | Some (l, r) => match numerals n r with Some (ls, r) => Some (l :: ls, r) | None => None end
      | None => None
      end
  end.

Section Guess.
Variable u : tty (D := D).
Hypothesis R : roomy u.

Lemma guess_read_digits ks : forall v any o l r,
  numeral false any ks = Some (l, r) -> 0 <= v -> read_on v l < 0x80000000 ->
  ends (forever guess_read_turn (v, any)) (after u ks o) (after u r (o ++ l)) (inl (read_on v l)).
Proof.
  induction ks as [|c ks IH]; intros v any o l r E Hv Hl; [discriminate|]. cbn [numeral] in E. destruct (is_enter c) eqn:Ec.
  - destruct any.
    + injection E as <- <-. rewrite app_nil_r. apply ends_left. unfold guess_read_turn. eapply ends_then; [apply read_after|].
      rewrite Ec. apply ends_ret.
    + eapply ends_again; [|apply (IH v false); [exact E|exact Hv|exact Hl]].
      unfold guess_read_turn. eapply ends_then; [apply read_after|]. rewrite Ec. apply ends_ret.
  - unfold accept in E. cbn [andb orb] in E. destruct (_ && _) eqn:Dc.
    + destruct (numeral false true ks) as [[l' r']|] eqn:E'; [|discriminate]. injection E as <- <-.
      pose proof (numeral_digits _ _ _ _ E') as Fl. assert (Hc : 48 <= c <= 57) by (b2p; lia). cbn [read_on fold_left] in *.
      pose proof (read_on_grows l' (v * 10 + (c - 48)) Fl ltac:(lia)) as G. unfold read_on in G.
      eapply ends_again; [|rewrite cons_middle, app_assoc; apply (IH (v * 10 + (c - 48)) true); [exact E'|lia|exact Hl]].
      unfold guess_read_turn. eapply ends_then; [apply read_after|]. rewrite Ec, Dc.
      eapply ends_then; [apply put_after; [exact R|lia]|]. rewrite !i32_small by (rewrite ?i32_small; lia). apply ends_ret.
    + eapply ends_again; [|apply (IH v any); [exact E|exact Hv|exact Hl]].
      unfold guess_read_turn. eapply ends_then; [apply read_after|]. rewrite Ec, Dc. apply ends_ret.
Qed.

Lemma guess_read_after ks o l r :
  numeral false false ks = Some (l, r) -> read_dec l < 0x80000000 ->
  ends guess_read_int (after u ks o) (after u r (o ++ l)) (inl (read_dec l)).
Proof. intros E Hl. apply (guess_read_digits ks 0 false o l r E); [lia|exact Hl]. Qed.

(** A wrong guess, and the last one. *)
Definition wrong_guess (secret : Z) (g : list Z) : list Z :=
  lit "  [guess] your guess:  " ++ g ++ 10 ::
  (if read_dec g <? secret then lit "  [guess] too low, go higher." else lit "  [guess] too high, go lower.") ++ [10].

Definition right_guess (g : list Z) (tries : Z) : list Z :=
  lit "  [guess] your guess:  " ++ g ++ 10 :: lit "  [guess] correct, it was " ++ dec_digits (read_dec g) ++
  lit "! you took " ++ dec_digits tries ++ lit " tries." ++ [10].

Lemma guess_wrong_after ks o g r secret tries :
  numeral false false ks = Some (g, r) -> read_dec g < 0x80000000 -> read_dec g <> secret -> 0 <= tries < 0x7FFFFFFF ->
  ends (guess_turn secret tries) (after u ks o) (after u r (o ++ wrong_guess secret g)) (inl (inl (tries + 1))).
Proof.
  intros E Hg N Ht. unfold guess_turn, wrong_guess.
  destruct (read_dec g <? secret) eqn:Lo; (eapply ends_at;
    [say R; eapply ends_then; [apply guess_read_after; eassumption|]; cbv zeta; (say R);
     rewrite (proj2 (Z.eqb_neq _ _) N), Lo, i32_small by lia; (say R); apply ends_ret
    |f_equal; rewrite <- !app_assoc; reflexivity]).
Qed.

Lemma guess_right_after ks o g r tries :
  numeral false false ks = Some (g, r) -> 0 <= read_dec g < 0x80000000 -> 0 <= tries < 0x7FFFFFFF ->
  ends (guess_turn (read_dec g) tries) (after u ks o) (after u r (o ++ right_guess g (tries + 1))) (inl (inr tt)).
Proof.
  intros E Hg Ht. unfold guess_turn, right_guess. eapply ends_at.
  - say R. eapply ends_then; [apply guess_read_after; [exact E|lia]|]. cbv zeta. say R.
    rewrite Z.eqb_refl, i32_small by lia. say R. eapply ends_then; [apply print_int_after; [exact R|lia]|].
    say R. eapply ends_then; [apply print_int_after; [exact R|lia]|]. say R. apply ends_ret.
  - f_equal. rewrite <- !app_assoc. reflexivity.
Qed.

Lemma guess_rounds gs : forall ks o g r secret tries,
  numerals (S (length gs)) ks = Some (gs ++ [g], r) ->
  Forall (fun x => read_dec x < 0x80000000 /\ read_dec x <> secret) gs -> read_dec g = secret -> 0 <= secret < 0x80000000 ->
  0 <= tries -> tries + tlen gs < 0x7FFFFFFF ->
  ends (forever (guess_turn secret) tries) (after u ks o)
    (after u r (o ++ concat (map (wrong_guess secret) gs) ++ right_guess g (tries + tlen gs + 1))) (inl tt).
Proof.
  induction gs as [|x gs IH]; intros ks o g r secret tries E F Eg Hs Ht Hn; cbn [length numerals app map concat] in *.
  - destruct (numeral false false ks) as [[l r']|] eqn:En; [|discriminate]. injection E as -> ->. rewrite tlen_nil, Z.add_0_r.
    apply ends_left. subst secret. apply guess_right_after; [exact En|exact Hs|rewrite tlen_nil in Hn; lia].
  - destruct (numeral false false ks) as [[l r']|] eqn:En; [|discriminate].
    change (match numerals (S (length gs)) r' with Some (ls, r) => Some (l :: ls, r) | None => None end = Some (x :: gs ++ [g], r)) in E.
    destruct (numerals (S (length gs)) r') as [[ls r'']|] eqn:El; [|discriminate]. injection E as -> -> ->.
    apply Forall_cons_iff in F as [[Hx Nx] Fg]. rewrite tlen_cons in *. pose proof (tlen_nonneg gs).
    eapply ends_again; [apply guess_wrong_after; [exact En|exact Hx|exact Nx|lia]|].
    replace (tries + (tlen gs + 1) + 1) with (tries + 1 + tlen gs + 1) by lia. rewrite <- !app_assoc, (app_assoc o).
    apply IH; [exact El|exact Fg|exact Eg|exact Hs|lia|lia].
Qed.

End Guess.

Lemma sys_rand_range seed tick : 0 <= snd (Syscall.sys_rand seed tick) < 0x8000.
Proof. unfold Syscall.sys_rand. cbn [snd]. rewrite Z.land_comm. apply (land_range 15); lia. Qed.

(** The guessing game.  The secret is between 1 and 100, whatever SYS_RAND
    returns; whatever is typed, each wrong number gets the hint that is true of
    it, and the game goes on exactly until the secret is typed, says so with the
    number of guesses made, and exits. *)
Theorem guess_plays u (gs : list (list Z)) (g k : list Z) :
  let '(seed, v) := Syscall.sys_rand (t_seed u) (t_clock u (length (t_keys u))) in
  let secret := v mod 100 + 1 in
  roomy u -> numerals (S (length gs)) (t_keys u) = Some (gs ++ [g], k) ->
  Forall (fun x => read_dec x < 0x80000000 /\ read_dec x <> secret) gs -> read_dec g = secret -> tlen gs < 0x7FFFFFFF ->
  1 <= secret <= 100 /\
  ends guess_start u
    (mk_tty k seed (t_clock u) (t_pid u)
      (t_out u ++ lit "  [guess] I am thinking of a number between 1 and 100." ++ 10 ::
       concat (map (wrong_guess secret) gs) ++ right_guess g (tlen gs + 1)) (t_fs u) (t_space u))
    (inr (Ended Exit_called)).
Proof.
  pose proof (ends_call Rand u) as Er. pose proof (sys_rand_range (t_seed u) (t_clock u (length (t_keys u)))) as Hr.
  unfold answer, tty_env in Er. destruct (Syscall.sys_rand _ _) as [seed v]. cbn [fst snd] in Er, Hr. intros secret R E F Eg Hn.
  assert (Hs : 1 <= secret <= 100) by (unfold secret; zdm).
  split; [exact Hs|]. set (u1 := mk_tty (t_keys u) seed (t_clock u) (t_pid u) (t_out u) (t_fs u) (t_space u)) in *.
  assert (R1 : roomy u1) by exact R. unfold guess_start. eapply ends_then; [exact Er|].
  cbv zeta. rewrite Z.rem_mod_nonneg by lia. fold secret. rewrite i32_small by lia. rewrite <- (after_start u1) at 1. eapply ends_at.
  - say R1. eapply ends_then; [apply (guess_rounds u1 R1 gs _ _ g k secret 0 E F Eg); lia|]. apply ends_exit.
  - unfold after, u1. cbn [t_keys t_seed t_clock t_pid t_out t_fs t_rw]. reflexivity.
Qed.

End Talk.

(** ** Concrete dialogues *)

#[local] Existing Instance map_disk.

(** A page below the program's heap. *)
Definition demo_layout : Layout.
Proof. refine {| BUF := 0x8E000 |}. unfold in_zone. lia. Defined.
#[local] Existing Instance demo_layout.

(** A terminal with some keys typed, all memory writable. *)
Definition all_ram : space := mk_space (fun _ => true) (fun _ => true).
Definition typed_tty (ks : list Z) : tty (D := mem) := mk_tty ks 0 (fun _ => 0) 1 [] demo_fs all_ram.

Lemma typed_tty_roomy ks : roomy (typed_tty ks).
Proof. intros v _. split; reflexivity. Qed.

(** "x-7", Enter, "/", "2", Enter: the key "x" is not taken. *)
Lemma calc_correct_witness :
  ends calc_start (typed_tty [120; 45; 55; 10; 47; 50; 10; 99])
    (after (typed_tty [120; 45; 55; 10; 47; 50; 10; 99]) [99]
      (lit "  [calc] first number:  " ++ lit "-7" ++ 10 :: lit "  [calc] operator (+ - * /):  " ++ 47 ::
       10 :: lit "  [calc] second number:  " ++ lit "2" ++ 10 :: lit "  [calc] " ++
       decimal (value (lit "-7")) ++ 32 :: 47 :: 32 :: decimal (value (lit "2")) ++ lit " = " ++
       calc_answer 47 (value (lit "-7")) (value (lit "2")) ++ [10]))
    (inr (Ended Exit_called)).
Proof.
  apply (calc_correct (typed_tty [120; 45; 55; 10; 47; 50; 10; 99]) (lit "-7") (lit "2") [47; 50; 10; 99] [50; 10; 99] [99] 47
    (typed_tty_roomy _)); try reflexivity; split; (reflexivity || (vm_compute; discriminate)).
Defined.

Example calc_answer_quotient : calc_answer 47 (value (lit "-7")) (value (lit "2")) = lit "-3".
Proof. reflexivity. Qed.

(** "50", Enter, "39", Enter against the generator's first number. *)
Lemma guess_plays_witness :
  1 <= 39 <= 100 /\
  ends guess_start (typed_tty [53; 48; 10; 51; 57; 10])
    (mk_tty [] 1103527590 (fun _ => 0) 1
      ([] ++ lit "  [guess] I am thinking of a number between 1 and 100." ++ 10 ::
       concat (map (wrong_guess 39) [lit "50"]) ++ right_guess (lit "39") (tlen [lit "50"] + 1)) demo_fs all_ram)
    (inr (Ended Exit_called)).
Proof.
  apply (guess_plays (typed_tty [53; 48; 10; 51; 57; 10]) [lit "50"] (lit "39") []); [apply typed_tty_roomy|reflexivity| |reflexivity|reflexivity].
  constructor; [split; [reflexivity|discriminate]|constructor].
Defined.
