(* ===== verification/NoteProps.v ===== *)
(** * The programs ask, note, whoami, prog, crash and rocrash

    Lines edited in a buffer by index are lines edited as lists; what note saves
    is the text that was typed, and it reads back the same.  The programs without
    input print what they are meant to, and the two that store where they may not
    end there. *)

From stdpp Require Import base gmap list numbers option.
From Stdlib Require Import ZArith Lia Bool.
From ITree Require Import Core.ITreeDefinition.
From S2P Require Import Prelude CString Screen Interfaces Fs Usermode Uprog Programs ProgramProps.

(** ** A buffer that holds a text *)

Definition typed (c : Z) : Prop := 0 < c < 256.

(** The first [len] bytes of [buf] are [t]. *)
Record text_in (buf : list Z) (len : Z) (t : list Z) : Prop := {
  ti_take : take (Z.to_nat len) buf = t;
  ti_len : len = tlen t;
  ti_typed : Forall typed t
}.

Lemma text_in_empty buf : text_in buf 0 [].
Proof. constructor; [reflexivity|reflexivity|constructor]. Qed.

Lemma text_in_push buf len t c :
  text_in buf len t -> len < tlen buf -> typed c -> text_in (tset buf len (u8 c)) (len + 1) (t ++ [c]).
Proof.
  intros [H1 H2 H3] L Hc. unfold tlen, tset, typed in *. rewrite u8_small by lia. constructor.
  - replace (Z.to_nat (len + 1)) with (S (Z.to_nat len)) by lia. rewrite (take_S_r _ _ c); [|apply list_lookup_insert_eq; lia].
    rewrite take_insert_ge by lia. rewrite H1. reflexivity.
  - unfold tlen. rewrite length_app. cbn. lia.
  - apply Forall_app. split; [exact H3|constructor; [exact Hc|constructor]].
Qed.

Lemma removelast_take (l : list Z) : removelast l = take (length l - 1) l.
Proof. rewrite removelast_firstn_len. f_equal. lia. Qed.

Lemma text_in_pop buf len t : text_in buf len t -> 0 < len -> text_in buf (len - 1) (removelast t).
Proof.
  intros [H1 H2 H3] L. unfold tlen in *. rewrite removelast_take. constructor.
  - rewrite <- H1, take_take. f_equal. rewrite H1. lia.
  - unfold tlen. rewrite length_take. lia.
  - apply Forall_take, H3.
Qed.

(** The terminated buffer as a string. *)
Lemma text_in_chars buf len t : text_in buf len t -> len < tlen buf -> chars (tset buf len 0) = t.
Proof.
  intros [H1 H2 H3] L. unfold chars, tset, tlen in *.
  rewrite <- (take_drop (Z.to_nat len) (<[Z.to_nat len:=0]> buf)), take_insert_ge, H1 by lia.
  assert (E : exists r, drop (Z.to_nat len) (<[Z.to_nat len:=0]> buf) = 0 :: r).
  { pose proof (drop_tset buf len 0) as Dt. unfold tset, tlen in Dt. rewrite Dt by lia. eauto. }
  destruct E as [r ->]. clear -H3. induction H3 as [|c t Hc Ht IH]; [reflexivity|]. unfold typed in Hc. cbn [app map text].
  rewrite u8_small by lia. rewrite (proj2 (Z.eqb_neq c 0)), IH by lia. reflexivity.
Qed.

(** ** A line of input *)

(** The line [l] so far and the keys to come: the finished line, the echo, the
    rest of the keys.  The line has room for [max]; [empty] allows no character. *)
Fixpoint line_of (empty : bool) (max : Z) (l ks : list Z) : option (list Z * list Z * list Z) :=
  match ks with
  | [] => None
  | c :: ks =>
      if is_enter c then
        if empty || (0 <? tlen l) then Some (l, [], ks) else line_of empty max l ks
      else if c =? 8 then
        if 0 <? tlen l then
          match line_of empty max (removelast l) ks with Some (x, e, r) => Some (x, 8 :: e, r) | None => None end
        else line_of empty max l ks
      else if tlen l <? max then
        match line_of empty max (l ++ [c]) ks with Some (x, e, r) => Some (x, c :: e, r) | None => None end
      else line_of empty max l ks
  end.

Lemma line_of_len empty max ks : forall l x e r, line_of empty max l ks = Some (x, e, r) -> tlen l <= max -> tlen x <= max.
Proof.
  induction ks as [|c ks IH]; intros l x e r E L; cbn [line_of] in E; [discriminate|]. unfold tlen in *.
  destruct (is_enter c); [destruct (_ || _); [injection E as <- <- <-; exact L|exact (IH _ _ _ _ E L)]|].
  destruct (c =? 8).
  - destruct (0 <? _) eqn:P; [|exact (IH _ _ _ _ E L)]. destruct (line_of _ _ (removelast l) ks) as [[[x' e'] r']|] eqn:E'; [|discriminate].
    injection E as <- <- <-. apply (IH _ _ _ _ E'). rewrite removelast_take, length_take. lia.
  - destruct (Z.ltb_spec (Z.of_nat (length l)) max); [|exact (IH _ _ _ _ E L)].
    destruct (line_of _ _ (l ++ [c]) ks) as [[[x' e'] r']|] eqn:E'; [|discriminate]. injection E as <- <- <-.
    apply (IH _ _ _ _ E'). rewrite length_app. cbn. lia.
Qed.

Lemma line_of_rest empty max ks : forall l x e r, line_of empty max l ks = Some (x, e, r) -> Forall typed ks -> Forall typed r.
Proof.
  induction ks as [|c ks IH]; intros l x e r E F; cbn [line_of] in E; [discriminate|]. apply Forall_cons_iff in F as [_ F].
  destruct (is_enter c); [destruct (_ || _); [injection E as <- <- <-; exact F|exact (IH _ _ _ _ E F)]|].
  destruct (c =? 8); [destruct (0 <? tlen l)|destruct (tlen l <? max)]; try exact (IH _ _ _ _ E F);
    match type of E with context [line_of empty max ?y ks] => destruct (line_of empty max y ks) as [[[x' e'] r']|] eqn:E' end;
    try discriminate; injection E as <- <- <-; exact (IH _ _ _ _ E' F).
Qed.

Section Lines.
Context {D : Type} {DK : Disk D} {LY : Layout}.
Variable u : tty (D := D).
Hypothesis R : roomy u.

(** A loop whose turn edits a line: both [ask] and [read_name] have it. *)
Definition edits_line (empty : bool) (max : Z) (turn : list Z * Z -> prog ((list Z * Z) + (list Z * Z))) : Prop :=
  forall buf i, turn (buf, i) =
    (c ← sys_read;
     if is_enter c then if empty || (0 <? i) then leave (buf, i) else continue (buf, i)
     else if c =? 8 then
       if 0 <? i then put_char 8 ;; continue (buf, i - 1) else continue (buf, i)
     else if i <? max then put_char c ;; continue (tset buf i (u8 c), i + 1)
     else continue (buf, i)).

Lemma ask_edits : edits_line true 63 ask_turn.
Proof. intros buf i. reflexivity. Qed.

Lemma name_edits max : edits_line false (max - 1) (read_name_turn max).
Proof. intros buf i. reflexivity. Qed.

(** Into one turn of such a loop, past its read. *)
Ltac in_turn T := rewrite T; eapply ends_then; [apply read_after|].

Lemma line_after empty max turn : edits_line empty max turn ->
  forall ks buf i l o x e r,
  line_of empty max l ks = Some (x, e, r) -> Forall typed ks -> text_in buf i l -> max < tlen buf ->
  exists buf', ends (forever turn (buf, i)) (after u ks o) (after u r (o ++ e)) (inl (buf', tlen x)) /\
    text_in buf' (tlen x) x /\ tlen buf' = tlen buf.
Proof.
  intros T. induction ks as [|c ks IH]; intros buf i l o x e r E F H L; cbn [line_of] in E; [discriminate|].
  apply Forall_cons_iff in F as [Hc F]. pose proof (ti_len _ _ _ H) as Hi. rewrite <- Hi in E.
  destruct (is_enter c) eqn:Ec.
  - destruct (_ || _) eqn:P.
    + injection E as <- <- <-. exists buf. rewrite <- Hi, app_nil_r. split; [|auto]. apply ends_left. in_turn T.
      rewrite Ec, P. apply ends_ret.
    + destruct (IH buf i l o x e r E F H L) as (b & B1 & B2). exists b. split; [|exact B2]. eapply ends_again; [|exact B1].
      in_turn T. rewrite Ec, P. apply ends_ret.
  - destruct (c =? 8) eqn:E8.
    + destruct (0 <? i) eqn:P.
      * destruct (line_of _ _ (removelast l) ks) as [[[x' e'] r']|] eqn:E'; [|discriminate]. injection E as <- <- <-.
        destruct (IH buf (i - 1) _ (o ++ [8]) _ _ _ E' F (text_in_pop _ _ _ H ltac:(lia)) L) as (b & B1 & B2).
        exists b. split; [|exact B2]. rewrite cons_middle, app_assoc. eapply ends_again; [|exact B1]. in_turn T.
        rewrite Ec, E8, P. eapply ends_then; [apply put_after; [exact R|lia]|]. apply ends_ret.
      * destruct (IH buf i l o x e r E F H L) as (b & B1 & B2). exists b. split; [|exact B2]. eapply ends_again; [|exact B1].
        in_turn T. rewrite Ec, E8, P. apply ends_ret.
    + destruct (i <? max) eqn:P.
      * destruct (line_of _ _ (l ++ [c]) ks) as [[[x' e'] r']|] eqn:E'; [|discriminate]. injection E as <- <- <-.
        destruct (IH (tset buf i (u8 c)) (i + 1) _ (o ++ [c]) _ _ _ E' F (text_in_push _ _ _ c H ltac:(lia) Hc)
          ltac:(rewrite tlen_tset; exact L)) as (b & B1 & B2 & B3).
        exists b. rewrite tlen_tset in B3. split; [|auto]. rewrite cons_middle, app_assoc. eapply ends_again; [|exact B1].
        in_turn T. rewrite Ec, E8, P.
        eapply ends_then; [apply put_after; [exact R|exact Hc]|]. apply ends_ret.
      * destruct (IH buf i l o x e r E F H L) as (b & B1 & B2). exists b. split; [|exact B2]. eapply ends_again; [|exact B1].
        in_turn T. rewrite Ec, E8, P. apply ends_ret.
Qed.


(** ** The text of a note *)

(** The finished lines [d], the current line [l] and the keys to come: the text
    before the line with the single dot, the echo, the rest of the keys. *)
Fixpoint note_of (d l ks : list Z) : option (list Z * list Z * list Z) :=
  match ks with
  | [] => None
  | c :: ks =>
      let room := tlen (d ++ l) <? 2047 in
      if is_enter c then
        if bool_decide (l = [46]) then Some (d, [], ks)
        else if room then
          match note_of (d ++ l ++ [10]) [] ks with Some (x, e, r) => Some (x, 10 :: e, r) | None => None end
        else note_of (d ++ l) [] ks
      else if c =? 8 then
        if 0 <? tlen l then
          match note_of d (removelast l) ks with Some (x, e, r) => Some (x, 8 :: e, r) | None => None end
        else note_of d l ks
      else if room then
        match note_of d (l ++ [c]) ks with Some (x, e, r) => Some (x, c :: e, r) | None => None end
      else note_of d l ks
  end.

(** [body], [len] and [line_start] hold the finished lines and the current one. *)
Record note_in (body : list Z) (len line_start : Z) (d l : list Z) : Prop := {
  ni_text : text_in body len (d ++ l);
  ni_start : line_start = tlen d;
  ni_len : tlen body = 2048 /\ len <= 2047
}.

(** The test for the dot. *)
Lemma dot_line body len ls d l :
  note_in body len ls d l -> (len - ls =? 1) && (tget 0 body ls =? 46) = bool_decide (l = [46]).
Proof.
  intros [[T1 T2 T3] -> [_ _]]. rewrite tlen_app in T2. destruct (Z.eqb_spec (len - tlen d) 1) as [E|N]; cbn [andb]; cycle 1.
  { symmetry. apply bool_decide_eq_false. intros ->. apply N. rewrite T2. change (tlen [46]) with 1. lia. }
  assert (Ll : length l = 1%nat) by (unfold tlen in *; lia). destruct l as [|c [|]]; try discriminate.
  assert (G : tget 0 body (tlen d) = c).
  { unfold tget. rewrite nth_lookup, <- (lookup_take_lt body (Z.to_nat len)) by (unfold tlen in *; lia). rewrite T1.
    unfold tlen. rewrite Nat2Z.id, lookup_app_r, Nat.sub_diag by lia. reflexivity. }
  rewrite G. destruct (Z.eqb_spec c 46); symmetry; [apply bool_decide_eq_true|apply bool_decide_eq_false]; congruence.
Qed.

Lemma note_push body len ls d l c :
  note_in body len ls d l -> len < 2047 -> typed c ->
  text_in (tset body len (u8 c)) (len + 1) (d ++ l ++ [c]) /\ tlen (tset body len (u8 c)) = 2048 /\ len + 1 <= 2047.
Proof.
  intros [T _ [B _]] L Hc. rewrite tlen_tset, app_assoc. split; [apply text_in_push; [exact T|lia|exact Hc]|split; [exact B|lia]].
Qed.

Lemma note_pop body len ls d l :
  note_in body len ls d l -> 0 < tlen l -> note_in body (len - 1) ls d (removelast l).
Proof.
  intros [T E [B M]] L. assert (N : l <> []) by (destruct l; [vm_compute in L; discriminate|discriminate]). pose proof (ti_len _ _ _ T) as Hl. rewrite tlen_app in Hl.
  pose proof (tlen_nonneg d). constructor; [|exact E|split; [exact B|lia]].
  rewrite <- removelast_app by exact N. apply text_in_pop; [exact T|lia].
Qed.

Ltac in_note := unfold note_turn; eapply ends_then; [apply read_after|].

(** From the state [st] the loop takes the keys up to [r], echoes [e] and leaves
    with the text [x] in its buffer. *)
Definition takes_note (st : list Z * Z * Z) (ks o x e r : list Z) : Prop :=
  exists body', ends (forever note_turn st) (after u ks o) (after u r (o ++ e)) (inl (body', tlen x)) /\
    text_in body' (tlen x) x /\ tlen body' = 2048 /\ tlen x <= 2047.

Lemma note_goes_on st st' c ks o P Q x r :
  ends (note_turn st) (after u (c :: ks) o) (after u ks (o ++ P)) (inl (inl st')) ->
  takes_note st' ks (o ++ P) x Q r -> takes_note st (c :: ks) o x (P ++ Q) r.
Proof.
  intros T (b & B1 & B2). exists b. split; [|exact B2]. rewrite app_assoc. eapply ends_again; [exact T|exact B1].
Qed.

Lemma note_done body len ls d c ks o :
  note_in body len ls d [46] -> is_enter c = true -> takes_note (body, len, ls) (c :: ks) o d [] ks.
Proof.
  intros H Ec. pose proof (dot_line _ _ _ _ _ H) as Dot. destruct H as [[T1 Hi T3] -> [Bl Hl]]. rewrite tlen_app in Hi. change (tlen [46]) with 1 in Hi.
  exists body. rewrite app_nil_r. split; [apply ends_left; in_note; rewrite Ec, Dot; apply ends_ret|]. split; [|split; [exact Bl|lia]].
  constructor; [|reflexivity|apply Forall_app in T3; apply T3].
  transitivity (take (length d) (take (Z.to_nat len) body)); [rewrite take_take; f_equal; unfold tlen in *; lia|].
  rewrite T1. apply take_app_length.
Qed.

(** A line that is not the dot has ended. *)
Lemma note_line body len ls d l : note_in body len ls d l -> note_in body len len (d ++ l) [].
Proof. intros [T Es Bl]. constructor; [rewrite app_nil_r; exact T|exact (ti_len _ _ _ T)|exact Bl]. Qed.

Lemma note_after ks : forall body len ls d l o x e r,
  note_of d l ks = Some (x, e, r) -> Forall typed ks -> note_in body len ls d l -> takes_note (body, len, ls) ks o x e r.
Proof.
  induction ks as [|c ks IH]; intros body len ls d l o x e r E F H; cbn [note_of] in E; [discriminate|].
  apply Forall_cons_iff in F as [Hc F]. pose proof (dot_line _ _ _ _ _ H) as Dot. pose proof H as [T Es [Bl Hl]].
  pose proof (ti_len _ _ _ T) as Hi. rewrite <- Hi in E. cbv zeta in E. destruct (is_enter c) eqn:Ec.
  - destruct (bool_decide (l = [46])) eqn:Dl.
    { injection E as <- <- <-. apply bool_decide_eq_true in Dl as ->. apply note_done; assumption. }
    destruct (len <? 2047) eqn:Rm.
    + destruct (note_of _ [] ks) as [[[x' e'] r']|] eqn:E'; [|discriminate]. injection E as <- <- <-.
      destruct (note_push _ _ _ _ _ 10 H ltac:(lia) ltac:(unfold typed; lia)) as (P1 & P2). change (u8 10) with 10 in *.
      eapply (note_goes_on _ (tset body len 10, len + 1, len + 1) c ks o [10]).
      * in_note. rewrite Ec, Dot, Rm. eapply ends_then; [apply put_after; [exact R|lia]|]. apply ends_ret.
      * apply (IH _ _ _ _ _ _ _ _ _ E' F). constructor; [rewrite app_nil_r; exact P1|exact (ti_len _ _ _ P1)|exact P2].
    + eapply (note_goes_on _ (body, len, len) c ks o []); [|apply (IH _ _ _ _ _ _ _ _ _ E F), (note_line _ _ _ _ _ H)].
      in_note. rewrite Ec, Dot, Rm, app_nil_r. apply ends_ret.
  - destruct (c =? 8) eqn:E8.
    + assert (Lt : (ls <? len) = (0 <? tlen l)) by (rewrite tlen_app in Hi; subst ls; destruct (Z.ltb_spec (tlen d) len), (Z.ltb_spec 0 (tlen l)); lia || reflexivity).
      destruct (0 <? tlen l) eqn:P.
      * destruct (note_of d (removelast l) ks) as [[[x' e'] r']|] eqn:E'; [|discriminate]. injection E as <- <- <-.
        eapply (note_goes_on _ (body, len - 1, ls) c ks o [8]); [|apply (IH _ _ _ _ _ _ _ _ _ E' F), note_pop; [exact H|lia]].
        in_note. rewrite Ec, E8, Lt. eapply ends_then; [apply put_after; [exact R|lia]|]. apply ends_ret.
      * eapply (note_goes_on _ (body, len, ls) c ks o []); [|apply (IH _ _ _ _ _ _ _ _ _ E F H)].
        in_note. rewrite Ec, E8, Lt, app_nil_r. apply ends_ret.
    + destruct (len <? 2047) eqn:Rm.
      * destruct (note_of d (l ++ [c]) ks) as [[[x' e'] r']|] eqn:E'; [|discriminate]. injection E as <- <- <-.
        destruct (note_push _ _ _ _ _ c H ltac:(lia) Hc) as (P1 & P2).
        eapply (note_goes_on _ (tset body len (u8 c), len + 1, ls) c ks o [c]);
          [|apply (IH _ _ _ _ _ _ _ _ _ E' F); constructor; [exact P1|exact Es|exact P2]].
        in_note. rewrite Ec, E8, Rm. eapply ends_then; [apply put_after; [exact R|exact Hc]|]. apply ends_ret.
      * eapply (note_goes_on _ (body, len, ls) c ks o []); [|apply (IH _ _ _ _ _ _ _ _ _ E F H)].
        in_note. rewrite Ec, E8, Rm, app_nil_r. apply ends_ret.
Qed.

End Lines.

(** ** ask *)

Section Programs.
Context {D : Type} {DK : Disk D} {LY : Layout}.
Implicit Types u : tty (D := D).

(** [write_after] for a terminated buffer. *)
Lemma write_buffer u ks o buf t :
  roomy u -> chars buf = t -> tlen buf < 0x1000 -> ends (sys_write buf) (after u ks o) (after u ks (o ++ t)) (inl tt).
Proof. intros R <- L. apply write_after; assumption. Qed.

(** The greeting.  Whatever is typed before Enter, with backspaces and more
    characters than fit, ask echoes it as it edits, greets by the name that is
    left and exits. *)
Theorem ask_greets u (name e r : list Z) :
  roomy u -> Forall typed (t_keys u) -> line_of true 63 [] (t_keys u) = Some (name, e, r) ->
  ends ask_start u
    (after u r (lit "  [ask] What is your name? " ++ e ++ 10 :: lit "  [ask] Hello, " ++ name ++
       lit "! Greetings from a ring-3 program." ++ [10])) (inr (Ended Exit_called)).
Proof.
  intros R F E. pose proof (line_of_len _ _ _ _ _ _ _ E ltac:(vm_compute; discriminate)) as L.
  destruct (line_after u R true 63 ask_turn (ask_edits) (t_keys u) (replicate 64 0) 0 [] (chars (lit "  [ask] What is your name? "))
    name e r E F (text_in_empty _) ltac:(reflexivity)) as (buf & B1 & B2 & B3). change (tlen (replicate 64 0)) with 64 in B3.
  rewrite <- (after_start u) at 1. unfold ask_start. eapply ends_at.
  - say R. eapply ends_then; [exact B1|]. cbn [fst snd]. cbv zeta. say R.
    eapply ends_then; [apply write_buffer; [exact R|apply (text_in_chars _ _ _ B2); lia|rewrite tlen_tset; lia]|].
    say R. apply ends_exit.
  - f_equal. rewrite <- !app_assoc. reflexivity.
Qed.

(** ** note *)

Section Note.
Context {DL : DiskLaws D}.
Hypothesis Hdisk : DATA_LBA + MAX_FILES * SLOT_SECTORS <= disk_size.
Hypothesis Hds : disk_size <= 0x100000000.

Lemma typed_facts t : Forall typed t -> bytes t /\ text t = t.
Proof.
  intros F. split; [eapply Forall_impl; [|exact F]; unfold typed; cbn; lia|].
  induction F as [|c t Hc _ IH]; [reflexivity|]. unfold typed in Hc. cbn [text]. rewrite (proj2 (Z.eqb_neq c 0)), IH by lia. reflexivity.
Qed.

Lemma take_bytes_at m a n k : 0 <= k <= n -> take (Z.to_nat k) (bytes_at m a n) = bytes_at m a k.
Proof. intros Hk. unfold bytes_at. rewrite firstn_map, take_seqZ by exact Hk. reflexivity. Qed.

Lemma fwrite_after u ks o name nm txt c :
  roomy u -> chars name = nm -> Forall typed nm -> tlen nm < NAME_LEN -> tlen name <= 24 -> Forall typed txt -> tlen txt <= 2047 ->
  fs_ok (t_fs u) c -> synced (t_fs u) -> c < MAX_FILES \/ lookup_file (t_fs u) nm <> None ->
  exists f c', ends (call (Fwrite name txt)) (after u ks o) (after (with_files u f) ks o) (inl 0) /\
    fs_ok f c' /\ synced f /\ lookup_file f nm = Some txt /\ forall q, text q <> nm -> lookup_file f q = lookup_file (t_fs u) q.
Proof.
  intros R En Fn Ln Lb Ft Lt O Sy Room. destruct (typed_facts nm Fn) as [Bn Tn]. destruct (typed_facts txt Ft) as [Bt _].
  pose proof (ends_call (Fwrite name txt) (after u ks o)) as E. unfold answer, tty_env in E.
  rewrite roomy_passing in E; [|exact R|rewrite !tlen_app; change (tlen [0]) with 1; lia].
  rewrite En in E. change (t_fs (after u ks o)) with (t_fs u) in E. pose proof (tlen_nonneg txt).
  pose proof (fs_write_spec Hdisk Hds (t_fs u) c nm (put_bytes ∅ BUF txt) BUF (tlen txt) O Sy Bn ltac:(rewrite Tn; exact Ln) ltac:(lia)) as W.
  destruct (fs_write _ _ _ _ _) as [f rc]. destruct W as [(_ & _ & Hc & Hl)|(-> & [c' O'] & Sy' & Lk & Ot)].
  { exfalso. destruct Room as [Q|Q]; [lia|contradiction]. }
  exists f, c'. split; [exact E|]. split; [exact O'|]. split; [exact Sy'|]. rewrite Tn in Ot. split; [|exact Ot].
  rewrite Lk, Z.min_l by (unfold SLOT_SECTORS; lia). rewrite bytes_at_put by (exact Bt || lia).
  rewrite Z.sub_diag. cbn. rewrite app_nil_r. reflexivity.
Qed.

Lemma fread_after u ks o name nm txt c back :
  roomy u -> chars name = nm -> tlen name <= 24 -> Forall typed txt -> tlen txt <= 2047 -> tlen back = 2048 ->
  fs_ok (t_fs u) c -> lookup_file (t_fs u) nm = Some txt ->
  exists f buf, ends (sys_fread name back 2047) (after u ks o) (after (with_files u f) ks o) (inl (tlen txt, buf)) /\
    fs_ok f c /\ (synced (t_fs u) -> synced f) /\ (forall q, lookup_file f q = lookup_file (t_fs u) q) /\
    text_in buf (tlen txt) txt /\ tlen buf = 2048.
Proof.
  intros R En Lb Ft Lt Lk O Lf. set (old := take (Z.to_nat 2047) back). assert (Lo : tlen old = 2047) by (unfold old, tlen in *; rewrite length_take; lia).
  pose proof (ends_call (Fread name old) (after u ks o)) as E. unfold answer, tty_env in E. rewrite Lo in E.
  rewrite roomy_passing in E; [|exact R|rewrite !tlen_app; change (tlen [0]) with 1; lia].
  rewrite En in E. change (t_fs (after u ks o)) with (t_fs u) in E.
  pose proof (fs_read_spec Hdisk Hds (t_fs u) c nm (put_bytes ∅ BUF old) BUF 2047 O ltac:(lia)) as Q.
  destruct (fs_read _ _ _ _ _) as [[[f m] rc] got]. rewrite Lf in Q. destruct Q as ((O' & Sy' & Ot) & -> & -> & Bt & _).
  pose proof (tlen_nonneg txt). rewrite Z.min_l in * by exact Lt. cbn [fst snd default Z.eqb] in E.
  change (id (tlen txt)) with (tlen txt) in E. rewrite i32_small in E by lia.
  exists f, (bytes_at m BUF 2047 ++ drop (Z.to_nat 2047) back). split; [|split; [exact O'|split; [exact Sy'|split; [exact Ot|]]]].
  - unfold sys_fread. fold old. eapply ends_then; [exact E|]. cbn [fst snd]. apply ends_ret.
  - assert (Lm : length (bytes_at m BUF 2047) = 2047%nat) by (unfold bytes_at; rewrite length_map, length_seqZ; reflexivity).
    split; [|unfold tlen in *; rewrite length_app, Lm, length_drop; lia]. constructor; [|reflexivity|exact Ft].
    rewrite take_app_le by (rewrite Lm; lia). rewrite take_bytes_at, Bt by lia. unfold tlen. rewrite Nat2Z.id. apply firstn_all.
Qed.

(** Saving, reading back and the report. *)
Lemma note_save_after u ks o name nm body txt c :
  roomy u -> chars name = nm -> Forall typed nm -> tlen nm < NAME_LEN -> tlen name <= 24 ->
  text_in body (tlen txt) txt -> tlen txt <= 2047 ->
  fs_ok (t_fs u) c -> synced (t_fs u) -> c < MAX_FILES \/ lookup_file (t_fs u) nm <> None ->
  exists f c', ends (note_save name body (replicate 2048 0) (tlen txt)) (after u ks o)
      (after (with_files u f) ks
        (o ++ 10 :: lit "  [note] saved " ++ dec_digits (tlen txt) ++ lit " bytes to " ++ nm ++
         10 :: lit "  [note] reading it back from disk:" ++ 10 :: lit "  " ++ txt ++
         10 :: lit "  [note] tip: run 'cat " ++ nm ++ lit "' from the shell to see it persisted." ++ [10])) (inl tt) /\
    fs_ok f c' /\ synced f /\ lookup_file f nm = Some txt /\ forall q, text q <> nm -> lookup_file f q = lookup_file (t_fs u) q.
Proof.
  intros R En Fn Ln Lb T Lt O Sy Room. pose proof T as [T1 _ Ft]. pose proof (tlen_nonneg txt).
  set (head := 10 :: lit "  [note] saved " ++ dec_digits (tlen txt) ++ lit " bytes to " ++ nm ++
    10 :: lit "  [note] reading it back from disk:" ++ 10 :: lit "  ").
  destruct (fwrite_after u ks o name nm txt c R En Fn Ln Lb Ft Lt O Sy Room) as (f1 & c1 & W1 & O1 & S1 & L1 & Q1).
  destruct (fread_after (with_files u f1) ks (o ++ head) name nm txt c1 (replicate 2048 0) R En Lb Ft Lt eq_refl O1 L1)
    as (f2 & buf & W2 & O2 & S2 & Q2 & T2 & B2).
  exists f2, c1. split; [|split; [exact O2|split; [apply S2, S1|split; [rewrite Q2; exact L1|intros q Hq; rewrite Q2; apply Q1, Hq]]]].
  set (u1 := with_files u f1) in *. assert (R1 : roomy u1) by exact R. set (u2 := with_files u f2). assert (R2 : roomy u2) by exact R.
  unfold note_save, sys_fwrite. rewrite T1. eapply ends_then; [exact W1|]. cbn [Z.eqb].
  assert (Wn : forall v ks o, roomy v -> ends (sys_write name) (after v ks o) (after v ks (o ++ nm)) (inl tt))
    by (intros v ks' o' Rv; apply write_buffer; [exact Rv|exact En|lia]).
  eapply ends_at.
  - say R1. eapply ends_then; [apply print_int_after; [exact R1|lia]|]. say R1. eapply ends_then; [apply Wn, R1|]. say R1.
    eapply ends_then; [eapply ends_from; [exact W2|unfold head; f_equal; rewrite <- !app_assoc; reflexivity]|].
    cbn [fst snd]. rewrite (proj2 (Z.leb_le 0 _)) by lia. eapply ends_then.
    { apply (write_buffer u2); [exact R2|apply (text_in_chars _ _ _ T2); lia|rewrite tlen_tset; lia]. }
    say R2. eapply ends_then; [apply Wn, R2|]. apply write_after; [exact R2|reflexivity].
  - unfold head. f_equal. repeat first [rewrite <- app_assoc | rewrite <- app_comm_cons]. reflexivity.
Qed.

(** C31. Editing and saving a note.  Whatever is typed, with backspaces and more
    characters than fit: note takes the file name and the lines up to a line
    with a single dot, saves exactly that text under that name (unless the
    directory is full), leaves every other file alone, reads the text back from
    disk, shows it with its length, and exits. *)
Theorem note_saves u (nm e1 k1 txt e2 k2 : list Z) (c : Z) :
  roomy u -> Forall typed (t_keys u) -> fs_ok (t_fs u) c -> synced (t_fs u) ->
  c < MAX_FILES \/ lookup_file (t_fs u) nm <> None ->
  line_of false 23 [] (t_keys u) = Some (nm, e1, k1) -> tlen nm < NAME_LEN -> note_of [] [] k1 = Some (txt, e2, k2) ->
  exists f c',
    ends note_start u
      (after (with_files u f) k2
        (lit "  [note] filename: " ++ e1 ++
         10 :: lit "  [note] type your text. End with a single dot on its own line." ++ 10 :: e2 ++
         10 :: lit "  [note] saved " ++ dec_digits (tlen txt) ++ lit " bytes to " ++ nm ++
         10 :: lit "  [note] reading it back from disk:" ++ 10 :: lit "  " ++ txt ++
         10 :: lit "  [note] tip: run 'cat " ++ nm ++ lit "' from the shell to see it persisted." ++ [10]))
      (inr (Ended Exit_called)) /\
    fs_ok f c' /\ synced f /\ lookup_file f nm = Some txt /\ forall q, text q <> nm -> lookup_file f q = lookup_file (t_fs u) q.
Proof.
  intros R F O Sy Room E1 Ln E2. pose proof (line_of_len _ _ _ _ _ _ _ E1 ltac:(vm_compute; discriminate)) as L1.
  destruct (line_after u R false 23 (read_name_turn 24) (name_edits 24) (t_keys u) (replicate 24 0) 0 [] (chars (lit "  [note] filename: "))
    nm e1 k1 E1 F (text_in_empty _) ltac:(reflexivity)) as (buf & B1 & B2 & B3). change (tlen (replicate 24 0)) with 24 in B3.
  assert (F1 : Forall typed k1) by exact (line_of_rest _ _ _ _ _ _ _ E1 F).
  set (ask := chars (10 :: lit "  [note] type your text. End with a single dot on its own line." ++ [10])).
  destruct (note_after u R k1 (replicate 2048 0) 0 0 [] [] ((chars (lit "  [note] filename: ") ++ e1) ++ ask) txt e2 k2 E2 F1)
    as (body & N1 & N2 & N3 & N4); [constructor; [apply text_in_empty|reflexivity|split; [reflexivity|lia]]|].
  assert (Nb : text_in (tset body (tlen txt) 0) (tlen txt) txt).
  { destruct N2 as [T1 T2 T3]. constructor; [|reflexivity|exact T3]. unfold tset. rewrite take_insert_ge by lia. exact T1. }
  destruct (note_save_after u k2 (((chars (lit "  [note] filename: ") ++ e1) ++ ask) ++ e2) (tset buf (tlen nm) 0) nm _ txt c R
    (text_in_chars _ _ _ B2 ltac:(lia)) (ti_typed _ _ _ B2) Ln ltac:(rewrite tlen_tset; lia) Nb N4 O Sy Room) as (f & c' & W & Fs).
  exists f, c'. split; [|exact Fs]. rewrite <- (after_start u) at 1. unfold note_start. eapply ends_at.
  - say R. eapply ends_then; [unfold read_name; eapply ends_then; [exact B1|apply ends_ret]|]. cbn [fst snd].
    say R. eapply ends_then; [exact N1|]. cbv zeta. cbn [fst snd]. eapply ends_then; [exact W|]. apply ends_exit.
  - f_equal. unfold ask. repeat first [rewrite <- app_assoc | rewrite <- app_comm_cons]. reflexivity.
Qed.

End Note.

(** ** whoami *)

Lemma take_tset (l : list Z) i x : 0 <= i < tlen l -> take (Z.to_nat (i + 1)) (tset l i x) = take (Z.to_nat i) l ++ [x].
Proof.
  intros Hi. unfold tset, tlen in *. replace (Z.to_nat (i + 1)) with (S (Z.to_nat i)) by lia.
  rewrite (take_S_r _ _ x) by (apply list_lookup_insert_eq; lia). rewrite take_insert_ge by lia. reflexivity.
Qed.

(** The digits, the last one first. *)
Lemma put_int_digits_spec room : forall buf i n,
  0 <= n -> 0 <= i -> i + Z.of_nat room <= tlen buf ->
  let '(buf', i') := put_int_digits room buf i n in
  take (Z.to_nat i') buf' = take (Z.to_nat i) buf ++ rev (dec_loop room n []) /\ i <= i' <= i + Z.of_nat room /\
  tlen buf' = tlen buf.
Proof.
  induction room as [|room IH]; intros buf i n Hn Hi L; cbn [put_int_digits dec_loop]; [rewrite app_nil_r; split; [reflexivity|split; [lia|reflexivity]]|].
  destruct (Z.ltb_spec 0 n); [|rewrite app_nil_r; split; [reflexivity|split; [lia|reflexivity]]].
  rewrite Z.rem_mod_nonneg, Z.quot_div_nonneg by lia.
  specialize (IH (tset buf i (48 + n mod 10)) (i + 1) (n / 10) ltac:(zdm) ltac:(lia) ltac:(rewrite tlen_tset; lia)).
  destruct (put_int_digits _ _ _ _) as [buf' i']. destruct IH as (I1 & I2 & I3). rewrite tlen_tset in I3.
  split; [|split; [lia|exact I3]]. rewrite I1, take_tset, <- app_assoc by lia. f_equal.
  pose proof (dec_loop_app room (n / 10) [] [48 + n mod 10]) as A. cbn [app] in A. rewrite A, rev_unit. reflexivity.
Qed.

(** Copied the other way round. *)
Lemma copy_back_spec buf i : forall out j,
  (i <= length buf)%nat -> 0 <= j -> j + Z.of_nat i <= tlen out ->
  let '(out', j') := copy_back i buf out j in
  take (Z.to_nat j') out' = take (Z.to_nat j) out ++ rev (take i buf) /\ j' = j + Z.of_nat i /\ tlen out' = tlen out.
Proof.
  induction i as [|i IH]; intros out j Hi Hj L; cbn [copy_back]; [rewrite app_nil_r; split; [reflexivity|split; [lia|reflexivity]]|].
  specialize (IH (tset out j (tget 0 buf (Z.of_nat i))) (j + 1) ltac:(lia) ltac:(lia) ltac:(rewrite tlen_tset; lia)).
  destruct (copy_back i buf _ _) as [out' j']. destruct IH as (I1 & I2 & I3). rewrite tlen_tset in I3.
  split; [|split; [lia|exact I3]]. rewrite I1, take_tset, <- app_assoc by lia. f_equal.
  assert (G : buf !! i = Some (tget 0 buf (Z.of_nat i))).
  { unfold tget. rewrite Nat2Z.id, nth_lookup. destruct (lookup_lt_is_Some_2 buf i ltac:(lia)) as [x ->]. reflexivity. }
  rewrite (take_S_r _ _ _ G), rev_unit. reflexivity.
Qed.

Lemma put_int_after u ks o n :
  roomy u -> 0 <= n < 0x80000000 -> ends (put_int n) (after u ks o) (after u ks (o ++ dec_digits n)) (inl tt).
Proof.
  intros R Hn. unfold put_int. destruct (Z.eqb_spec n 0) as [->|N]; [apply write_after; [exact R|reflexivity]|].
  pose proof (put_int_digits_spec 11 (replicate 12 0) 0 n ltac:(lia) ltac:(lia) ltac:(vm_compute; discriminate)) as P.
  destruct (put_int_digits _ _ _ _) as [buf i]. destruct P as (P1 & P2 & P3). change (tlen (replicate 12 0)) with 12 in P3.
  pose proof (copy_back_spec buf (Z.to_nat i) (replicate 12 0) 0 ltac:(unfold tlen in P3; lia) ltac:(lia)
    ltac:(change (tlen (replicate 12 0)) with 12; lia)) as C.
  destruct (copy_back _ _ _ _) as [out j]. destruct C as (C1 & C2 & C3). change (tlen (replicate 12 0)) with 12 in C3.
  destruct (dec_digits_facts n ltac:(lia)) as (_ & Dg & _ & _). change (take (Z.to_nat 0) (replicate 12 0)) with (@nil Z) in P1, C1.
  rewrite P1 in C1. cbn [app] in C1. rewrite rev_involutive in C1.
  assert (E11 : dec_loop 11 n [] = dec_digits n).
  { unfold dec_digits. rewrite (proj2 (Z.eqb_neq n 0)) by exact N. apply (dec_loop_more 10 11); [lia|change (10 ^ Z.of_nat 10) with 10000000000; lia]. }
  rewrite E11 in C1. apply write_buffer; [exact R| |rewrite tlen_tset; lia].
  apply text_in_chars; [|lia]. constructor; [exact C1| |apply digits_small, Dg].
  apply (f_equal length) in C1. rewrite length_take in C1. unfold tlen in *. lia.
Qed.

(** [whoami] prints the pid the kernel gave it. *)
Theorem whoami_prints u :
  roomy u -> 0 <= t_pid u < 0x80000000 ->
  ends whoami_start u (after u (t_keys u) (lit "  [whoami] my process id is " ++ dec_digits (t_pid u) ++ [10])) (inr (Ended Exit_called)).
Proof.
  intros R Hp. rewrite <- (after_start u) at 1. unfold whoami_start. eapply ends_at.
  - say R. eapply ends_then; [exact (ends_call Getpid _)|]. eapply ends_then; [apply put_int_after; [exact R|exact Hp]|].
    say R. exact (ends_call Exit _).
  - cbn [answer tty_env fst]. reflexivity.
Qed.

(** ** crash and rocrash *)

(** A store where the program may not write ends it: nothing more is printed. *)
Theorem crash_faults u (start : Z) :
  roomy u -> 0 <= start < 0x100000000 -> t_rw u 0x10000 = false -> t_rw u start = false ->
  ends crash_start u
    (after u (t_keys u) (lit "  [crash] attempting to write to kernel memory at 0x10000..." ++ [10])) (inr (Ended Fault_ended)) /\
  ends (rocrash_start start) u
    (after u (t_keys u) (lit "  [rocrash] about to write to my own code at _start..." ++ [10])) (inr (Ended Fault_ended)).
Proof.
  intros R Hw Hk Hs. assert (P : forall a l v, 0 <= a < 0x100000000 -> t_rw u a = false -> forall ks o, ends (call (Poke a (v :: l))) (after u ks o) (after u ks o) (inr (Ended Fault_ended))).
  { intros a l v Hv Ha ks o. pose proof (ends_call (Poke a (v :: l)) (after u ks o)) as E. unfold answer, tty_env in E.
    rewrite u32_small in E by exact Hv.
    rewrite landing_fault in E; [exact E|rewrite tlen_cons; pose proof (tlen_nonneg l); lia|exact Ha]. }
  split; rewrite <- (after_start u) at 1; [unfold crash_start|unfold rocrash_start]; (eapply ends_at;
    [say R; apply ends_stop, P; [lia|assumption]|reflexivity]).
Qed.

(** ** prog *)

(** The line for argument number [i]. *)
Definition arg_line (i : Z) (a : list Z) : list Z := lit "    argv[" ++ (48 + i) :: lit "] = " ++ a ++ [10].

Lemma prog_args_after u ks argv : forall i o,
  roomy u -> Forall (fun a => Forall typed a /\ tlen a < 256) argv -> 0 <= i -> i + tlen argv <= 10 ->
  ends (prog_args i argv) (after u ks o) (after u ks (o ++ concat (imap (fun k a => arg_line (i + Z.of_nat k) a) argv))) (inl tt).
Proof.
  induction argv as [|a argv IH]; intros i o R F Hi L; cbn [prog_args imap concat]; [rewrite app_nil_r; apply ends_ret|].
  apply Forall_cons_iff in F as [[Fa La] F]. rewrite tlen_cons in L. pose proof (tlen_nonneg argv).
  assert (Ca : chars a = a) by apply (chars_small a Fa).
  eapply ends_at.
  - say R. eapply ends_then; [apply write_buffer; [exact R|apply (proj1 (chars_small [u8 (48 + i)] ltac:(constructor; [rewrite u8_small by lia; lia|constructor])))|reflexivity]|].
    say R. eapply ends_then; [apply write_buffer; [exact R|exact Ca|lia]|]. say R.
    apply (IH (i + 1)); [exact R|exact F|lia|lia].
  - f_equal. change (arg_line (i + Z.of_nat 0) a) with (lit "    argv[" ++ (48 + (i + 0)) :: lit "] = " ++ a ++ [10]).
    rewrite (imap_ext _ ((fun k a => arg_line (i + Z.of_nat k) a) ∘ S) argv) by (intros k b _; unfold compose; f_equal; lia).
    rewrite Z.add_0_r, u8_small by lia. repeat first [rewrite <- app_assoc | rewrite <- app_comm_cons]. reflexivity.
Qed.

(** [prog] prints its command line, a numbered word per line. *)
Theorem prog_prints u (argv : list (list Z)) :
  roomy u -> Forall (fun a => Forall typed a /\ tlen a < 256) argv -> tlen argv <= 8 ->
  ends (prog_start argv) u
    (after u (t_keys u)
      (lit "  [prog] hello from a separately-compiled program." ++
       10 :: lit "  [prog] loaded from PyroFS, running in ring 3, syscalls only." ++
       10 :: lit "  [prog] my arguments:" ++ 10 :: concat (imap (fun k a => arg_line (Z.of_nat k) a) argv)))
    (inr (Ended Exit_called)).
Proof.
  intros R F L. rewrite <- (after_start u) at 1. unfold prog_start. eapply ends_at.
  - say R. say R. say R. eapply ends_then; [apply (prog_args_after u _ argv 0); [exact R|exact F|lia|lia]|]. apply ends_exit.
  - reflexivity.
Qed.

End Programs.

(** ** A note *)

#[local] Existing Instance map_disk.
#[local] Existing Instance map_disk_laws.
#[local] Existing Instance demo_layout.

(** The name "todoo" with its last letter taken back, the line "buy milk", and
    the dot. *)
Definition note_keys : list Z := lit "todoo" ++ [8; 10] ++ lit "buy milk" ++ [10; 46; 10].

Lemma note_saves_witness :
  exists f c',
    ends note_start (typed_tty note_keys)
      (after (with_files (typed_tty note_keys) f) []
        (lit "  [note] filename: " ++ (lit "todoo" ++ [8]) ++
         10 :: lit "  [note] type your text. End with a single dot on its own line." ++ 10 :: (lit "buy milk" ++ [10; 46]) ++
         10 :: lit "  [note] saved " ++ dec_digits (tlen (lit "buy milk" ++ [10])) ++ lit " bytes to " ++ lit "todo" ++
         10 :: lit "  [note] reading it back from disk:" ++ 10 :: lit "  " ++ (lit "buy milk" ++ [10]) ++
         10 :: lit "  [note] tip: run 'cat " ++ lit "todo" ++ lit "' from the shell to see it persisted." ++ [10]))
      (inr (Ended Exit_called)) /\
    fs_ok f c' /\ synced f /\ lookup_file f (lit "todo") = Some (lit "buy milk" ++ [10]) /\
    forall q, text q <> lit "todo" -> lookup_file f q = lookup_file demo_fs q.
Proof.
  apply (note_saves map_disk_big map_disk_small (typed_tty note_keys) (lit "todo") (lit "todoo" ++ [8]) (lit "buy milk" ++ [10; 46; 10])
    (lit "buy milk" ++ [10]) (lit "buy milk" ++ [10; 46]) [] 0 (typed_tty_roomy _)); try reflexivity.
  - repeat (constructor; [split; reflexivity|]). constructor.
  - apply demo_fs_ok.
  - apply demo_fs_ok.
  - left. reflexivity.
Defined.
