(* ===== verification/Ring3.v ===== *)
(** * The programs of user/ on the kernel

    The same trees run with every system call going through the kernel's handler
    from ring 3: strings and buffers are stored to the program's memory first,
    each store checked against the page tables; a read waits for keyboard
    interrupts.  The kernel shows, saves and answers what the terminal does. *)

From stdpp Require Import base gmap list numbers option.
From Stdlib Require Import ZArith Lia Bool.
From ITree Require Import Core.ITreeDefinition.
From S2P Require Import Prelude CString Screen Pmm Vmm VmmLemmas VmmSpec VmmClone VmmTheorems VmmProps Paging Demand Interfaces Keyboard Fs Proc Task Tables System Bus Syscall Usermode Uprog Programs ProgramProps.

Section Ring3.
Context {D : Type} {DK : Disk D} {LY : Layout}.

(** The system, and for each SYS_READ to come the interrupts of its waits. *)
Record ring3 := mk_ring3 {
  g_sys : sys D;
  g_waits : list (list (list (Z * Z)))
}.

Fixpoint stores (a : Z) (l : list Z) : list user_event :=
  match l with
  | [] => []
  | c :: l => Store a c :: stores (a + 1) l
  end.

(** The program's memory gets [l] at [a], then [k] runs. *)
Definition storing {X : Type} (g : ring3) (a : Z) (l : list Z) (k : sys D -> ring3 * (X + prog_end)) : ring3 * (X + prog_end) :=
  match user_run (g_sys g) (stores a l) with
  | (s, Running) => k s
  | (s, o) => (mk_ring3 s (g_waits g), inr (Ended o))
  end.

(** [int $0x80]; [f] makes the answer of the system and eax. *)
Definition trap {X : Type} (s : sys D) (eax ebx ecx edx : Z) (w : list (list (Z * Z))) (ws : list (list (list (Z * Z))))
    (f : sys D -> Z -> X) : ring3 * (X + prog_end) :=
  match syscall_handler s (trap_regs 0x80 0 USER_CODE eax ebx ecx edx) w with
  | (s, r, Returned) => (mk_ring3 s ws, inl (f s (r_eax r)))
  | (s, _, Exited) => (mk_ring3 s ws, inr (Ended Exit_called))
  | (s, _, Blocked) => (mk_ring3 s ws, inr (Ended Waiting))
  | (s, _, Faulted) => (mk_ring3 s ws, inr (Ended Fault_ended))
  | (s, _, Crashed) => (mk_ring3 s ws, inr (Ended Kernel_halted))
  end.

#[export] Instance ring3_env : Env ring3 := fun X e g =>
  let s := g_sys g in
  let ws := g_waits g in
  match e with
  | Write str => storing g BUF (str ++ [0]) (fun s => trap s SYS_WRITE BUF 0 0 [] ws (fun _ _ => tt))
  | Read => trap s SYS_READ 0 0 0 (List.hd [] ws) (tl ws) (fun _ v => i32 v)
  | Rand => trap s SYS_RAND 0 0 0 [] ws (fun _ v => i32 v)
  | Getpid => trap s SYS_GETPID 0 0 0 [] ws (fun _ v => i32 v)
  | Fwrite nm data =>
      storing g BUF (data ++ nm ++ [0]) (fun s =>
        trap s SYS_FWRITE (BUF + tlen data) BUF (tlen data) [] ws (fun _ v => i32 v))
  | Fread nm buf =>
      storing g BUF (buf ++ nm ++ [0]) (fun s =>
        trap s SYS_FREAD (BUF + tlen buf) BUF (tlen buf) [] ws (fun s v => (i32 v, bytes_at (s_view s) BUF (tlen buf))))
  | Exit => trap s SYS_EXIT 0 0 0 [] ws (fun _ _ => tt)
  | Poke a l => storing g (u32 a) l (fun s => (mk_ring3 s ws, inl tt))
  | Raise n => let '(s, o) := user_fault s n 0 0 in (mk_ring3 s ws, inr (Ended o))
  end.

(** ** The keys the kernel will read *)

(** One SYS_READ: the keyboard, the timer's count and the character. *)
Fixpoint kbd_wait (w : list (list (Z * Z))) (k : kbd) (t : Z) : kbd * Z * option Z :=
  let '(k, c) := keyboard_getchar k in
  if c <? 0 then
    match w with
    | [] => (k, t, None)
    | i :: w => kbd_wait w (fold_left keyboard_callback (scancodes i) k) (u32 (t + ticks i))
    end
  else (k, t, Some c).

(** The successive reads return [ks], and the next one waits for ever; [clock]
    is the timer's count before each. *)
Fixpoint supplies (clock : nat -> Z) (ks : list Z) (k : kbd) (t : Z) (ws : list (list (list (Z * Z)))) : Prop :=
  t = clock (length ks) /\
  let '(k', t', r) := kbd_wait (List.hd [] ws) k t in
  match ks with
  | [] => r = None
  | c :: ks => r = Some c /\ supplies clock ks k' t' (tl ws)
  end.

Lemma read_loop_kbd w : forall s : sys D, drivers s -> 0 <= s_tick s < 0x100000000 ->
  let '(s', r) := read_loop w s in
  kbd_wait w (s_kbd s) (s_tick s) = (s_kbd s', s_tick s', r) /\ interrupted s s' /\ 0 <= s_tick s' < 0x100000000.
Proof.
  induction w as [|i w IH]; intros s Dr Ht; cbn [read_loop kbd_wait]; destruct (keyboard_getchar (s_kbd s)) as [k c];
    (destruct (c <? 0); [|split; [reflexivity|split; [split; reflexivity|exact Ht]]]); [split; [reflexivity|split; [split; reflexivity|exact Ht]]|].
  pose proof (irqs_clock i (set_kbd s k) Dr Ht) as Ck. cbn [s_tick set_kbd] in Ck.
  specialize (IH (irqs (set_kbd s k) i) (irqs_drivers (set_kbd s k) i Dr)). rewrite (irqs_kbd i (set_kbd s k) Dr), Ck in IH.
  specialize (IH (u32_range _)). destruct (read_loop w _) as [s' r]. destruct IH as (IH1 & IH2 & IH3). split; [exact IH1|]. split; [|exact IH3].
  etransitivity; [|exact IH2]. etransitivity; [|apply irqs_interrupted]. split; reflexivity.
Qed.

Lemma kbd_wait_char w : forall k t k' t' c, kbd_wait w k t = (k', t', Some c) -> 0 <= c < 256.
Proof.
  induction w as [|i w IH]; intros k t k' t' c E; cbn [kbd_wait] in E; unfold keyboard_getchar in E;
    destruct (tail k =? head k); cbn in E; try discriminate; try exact (IH _ _ _ _ _ E);
    (destruct (Z.ltb_spec (u8 (aget (buffer k) (tail k))) 0); [pose proof (u8_range (aget (buffer k) (tail k))); lia|]);
    injection E as _ _ <-; apply u8_range.
Qed.

(** ** Stores *)

Definition ring3_rw (s : sys D) (v : Z) : bool := ring3_writes (s_mach s) (active_dir (s_mach s)) v.

Lemma set_ram_twice (s : sys D) m m' : set_ram (set_ram s m) m' = set_ram s m'.
Proof. reflexivity. Qed.

Lemma ring3_rw_kept (s s' : sys D) v : sandbox s -> isolated s s' -> ring3_rw s' v = ring3_rw s v.
Proof.
  intros S I. destruct (tables_ext s s' v S I) as (Ed & Ep & _). specialize (Ed _ (DIR_INDEX_range v)).
  pose proof (is_mach _ _ I) as Em. assert (Ea : active_dir (s_mach s') = active_dir (s_mach s)) by (rewrite Em; reflexivity).
  unfold ring3_rw, ring3_writes, ring3_reaches. rewrite Ea. unfold s_ram in Ed. rewrite Ep, Ed. reflexivity.
Qed.

Lemma ring3_rw_zone (s : sys D) v : sandbox s -> 0 <= v < 0x100000000 -> ring3_rw s v = true ->
  in_zone v /\ vmm_translate (s_mach s) (active_dir (s_mach s)) v = v.
Proof. intros S Hv W. unfold ring3_rw, ring3_writes in W. apply andb_true_iff in W as [W _]. apply andb_true_iff in W as [W _]. apply (sb_reach s S v Hv W). Qed.

(** The program's memory as the terminal has it. *)
Definition ring3_space (s : sys D) : space := mk_space (ring3_rw s) (kept s).

Lemma kept_same (s s' : sys D) v : s_board s' = s_board s -> kept s' v = kept s v.
Proof. intros E. unfold kept, dropped. rewrite E. reflexivity. Qed.

Lemma ring3_space_kept (s s' : sys D) a n : sandbox s -> isolated s s' -> landing (ring3_space s') a n = landing (ring3_space s) a n.
Proof.
  intros S I. apply landing_ext. intros v. split; [apply (ring3_rw_kept s s' v S I)|]. apply kept_same, I.
Qed.

(** A store the page tables allow, to plain memory. *)
Lemma store_step (s : sys D) a c :
  sandbox s -> s_armed s = true -> 0 <= a < 0x100000000 ->
  if ring3_rw s a then (kept s a = true -> user_step s (Store a c) = (set_ram s (st8 (s_ram s) a c), Running)) /\ in_zone a
  else exists err, user_step s (Store a c) = (set_fault (set_scr s (fault_report (s_scr s) 14 err a)) false true, Fault_ended).
Proof.
  intros S A Ha. pose proof (ring3_rw_zone s a S Ha) as Z. cbn [user_step]. unfold ring3_rw in *. destruct (ring3_writes _ _ a) eqn:W.
  - destruct (Z eq_refl) as [Hz ->]. split; [|exact Hz]. intros K. rewrite bus_store_kept by exact K. reflexivity.
  - eexists. apply sandbox_fault_eq; assumption.
Qed.

(** Either all bytes are stored in memory, or the first that may not be written is
    reported, or one is not stored in memory. *)
Lemma stores_run l : forall a (s : sys D),
  sandbox s -> s_armed s = true -> 0 <= a < 0x100000000 ->
  match landing (ring3_space s) a (tlen l) with
  | None =>
      user_run s (stores a l) = (set_ram s (put_bytes (s_ram s) a l), Running) /\ Forall event_ok (stores a l) /\
      (forall v, a <= v < a + tlen l -> in_zone v /\ ring3_rw s v = true /\ kept s v = true)
  | Some (Ended o) => o = Fault_ended /\
      exists es s' err v, Forall event_ok es /\ user_run s (stores a l) = (s', Fault_ended) /\ user_run s es = (s', Fault_ended) /\
        s_scr s' = fault_report (s_scr s) 14 err v /\ s_fs s' = s_fs s
  | Some Beyond => True
  end.
Proof.
  induction l as [|c l IH]; intros a s S A Ha.
  { rewrite landing_ok by (intros v Hv; rewrite tlen_nil in Hv; lia).
    split; [destruct s as [[? ? ? []]]; reflexivity|]. split; [constructor|intros v Hv; rewrite tlen_nil in Hv; lia]. }
  pose proof (store_step s a c S A Ha) as St. pose proof (user_step_ok s (Store a c) S A Ha) as Ok. pose proof (tlen_nonneg l) as Hl.
  rewrite tlen_cons, Z.add_comm, landing_cons by exact Hl. cbn [ring3_space sp_rw sp_ram stores user_run].
  destruct (ring3_rw s a) eqn:Ra; cbn [andb]; [destruct (kept s a) eqn:Ka; [|exact I]|].
  - destruct St as [St Hz]. rewrite (St eq_refl) in *. destruct Ok as (S1 & I1 & A1 & _). set (s1 := set_ram s (st8 (s_ram s) a c)) in *.
    assert (Hz' := Hz). unfold in_zone in Hz'. specialize (IH (a + 1) s1 S1 A1 ltac:(lia)).
    rewrite (ring3_space_kept s s1 _ _ S I1) in IH. fold (ring3_space s). destruct (landing _ _ _) as [[o|]|].
    + destruct IH as (-> & es & s' & err & v & E1 & E2 & E3 & E4 & E5). split; [reflexivity|]. exists (Store a c :: es), s', err, v.
      cbn [user_run]. rewrite (St eq_refl). split; [constructor; [exact Ha|exact E1]|auto].
    + exact I.
    + destruct IH as (I2 & I3 & I4). split; [exact I2|]. split; [constructor; [exact Ha|exact I3]|]. intros v Hv.
      destruct (Z.eq_dec v a) as [->|]; [auto|]. specialize (I4 v ltac:(lia)). rewrite (ring3_rw_kept s s1 v S I1) in I4. exact I4.
  - split; [reflexivity|]. destruct St as [err St]. rewrite St in *.
    exists [Store a c], (set_fault (set_scr s (fault_report (s_scr s) 14 err a)) false true), err, a.
    cbn [user_run]. rewrite St. split; [constructor; [exact Ha|constructor]|auto].
Qed.

(** ** Strings in the program's memory *)

Lemma tget_app_l (l l' : list Z) k : 0 <= k < tlen l -> tget 0 (l ++ l') k = tget 0 l k.
Proof. intros Hk. unfold tget, tlen in *. apply app_nth1. lia. Qed.

Lemma tget_app_r (l l' : list Z) k : 0 <= k -> tget 0 (l ++ l') (tlen l + k) = tget 0 l' k.
Proof. intros Hk. unfold tget, tlen. rewrite app_nth2 by lia. f_equal. lia. Qed.

Lemma cstr_chars nm : forall n m p,
  (length nm < n)%nat -> (forall k, 0 <= k <= tlen nm -> ld8 m (p + k) = u8 (tget 0 (nm ++ [0]) k)) -> cstr n m p = chars nm.
Proof.
  induction nm as [|c nm IH]; intros [|n] m p L H; cbn [length] in L; try lia; cbn [cstr].
  - pose proof (H 0 ltac:(change (tlen (@nil Z)) with 0; lia)) as H0. rewrite Z.add_0_r in H0. rewrite H0. reflexivity.
  - rewrite tlen_cons in H. pose proof (tlen_nonneg nm) as Hn. pose proof (H 0 ltac:(lia)) as H0. rewrite Z.add_0_r in H0. rewrite H0.
    unfold chars. cbn [map text]. change (tget 0 ((c :: nm) ++ [0]) 0) with c. destruct (u8 c =? 0); [reflexivity|]. f_equal.
    apply IH; [lia|]. intros k Hk. replace (p + 1 + k) with (p + (k + 1)) by lia. rewrite H by lia.
    cbn [app]. rewrite tget_cons by lia. rewrite (proj2 (Z.eqb_neq (k + 1) 0)) by lia. do 2 f_equal. lia.
Qed.

(** A buffer with a file name, or a string, behind it, in memory [m]. *)
Definition holds_at (m : mem) (a : Z) (l : list Z) : Prop := forall k, 0 <= k < tlen l -> ld8 m (a + k) = u8 (tget 0 l k).

Lemma placed_string m a d nm :
  in_zone a -> a + tlen (d ++ nm ++ [0]) <= 0x100000 -> holds_at m a (d ++ nm ++ [0]) ->
  user_string_ok m (a + tlen d) = true /\ str_at m (a + tlen d) = chars nm.
Proof.
  intros Ha L H. unfold in_zone in Ha. unfold holds_at in H. rewrite !tlen_app in L, H. change (tlen [0]) with 1 in L, H.
  pose proof (tlen_nonneg d). pose proof (tlen_nonneg nm).
  assert (H' : forall k, 0 <= k <= tlen nm -> ld8 m (a + tlen d + k) = u8 (tget 0 (nm ++ [0]) k)).
  { intros k Hk. rewrite <- Z.add_assoc, H by lia. rewrite tget_app_r by lia. reflexivity. }
  split.
  - apply user_string_spec. unfold in_zone. split; [lia|]. exists (a + tlen d + tlen nm). split; [lia|]. rewrite H' by lia.
    replace (tlen nm) with (tlen nm + 0) by lia. rewrite tget_app_r by lia. reflexivity.
  - apply cstr_chars; [unfold tlen in *; lia|exact H'].
Qed.

Lemma placed_data m a d l x : holds_at m a (d ++ l) -> a <= x < a + tlen d -> ld8 m x = ld8 (put_bytes ∅ a d) x.
Proof.
  intros H Hx. specialize (H (x - a)). rewrite tlen_app in H. pose proof (tlen_nonneg l).
  replace (a + (x - a)) with x in H by lia. rewrite H by lia.
  rewrite ld8_put_bytes, (proj2 (in_range_true _ _ _)) by lia. rewrite tget_app_l by lia. reflexivity.
Qed.

(** What was stored to plain memory is what is read. *)
Lemma stored_holds (s : sys D) a l : (forall v, a <= v < a + tlen l -> kept s v = true) ->
  let s1 := set_ram s (put_bytes (s_ram s) a l) in holds_at (s_view s1) a l /\ holds_at (s_ram s1) a l.
Proof.
  intros K s1. assert (H : holds_at (s_ram s1) a l).
  { intros k Hk. change (s_ram s1) with (put_bytes (s_ram s) a l). rewrite ld8_put_bytes, (proj2 (in_range_true _ _ _)) by lia.
    do 2 f_equal. lia. }
  split; [|exact H]. intros k Hk. rewrite view_ld8, kept_peek by exact (K (a + k) ltac:(lia)). apply H, Hk.
Qed.

(** ** The kernel agrees with the terminal *)

Record agrees (x0 : screen) (g : ring3) (u : tty) : Prop := {
  ag_scr : s_scr (g_sys g) = fold_left kprint_char (t_out u) x0;
  ag_fs : s_fs (g_sys g) = t_fs u;
  ag_keys : supplies (t_clock u) (t_keys u) (s_kbd (g_sys g)) (s_tick (g_sys g)) (g_waits g);
  ag_tick : 0 <= s_tick (g_sys g) < 0x100000000;
  ag_seed : s_seed (g_sys g) = t_seed u;
  ag_pid : t_pid u = i32 (u32 (pid (cur_proc (g_sys g))));
  ag_space : forall v, t_rw u v = ring3_rw (g_sys g) v /\ t_ram u v = kept (g_sys g) v;
  ag_sandbox : sandbox (g_sys g);
  ag_armed : s_armed (g_sys g) = true;
  ag_drivers : drivers (g_sys g)
}.

Definition end_of {X : Type} (r : X + prog_end) : user_end :=
  match r with inr (Ended o) => o | _ => Running end.

(** What is on the screen and on the disk at the end; after a fault also the
    report of it. *)
Definition outcome (x0 : screen) (g : ring3) (u : tty) (o : user_end) : Prop :=
  match o with
  | Running => agrees x0 g u
  | Fault_ended => s_fs (g_sys g) = t_fs u /\
      exists n err v, s_scr (g_sys g) = fault_report (fold_left kprint_char (t_out u) x0) n err v
  | _ => s_fs (g_sys g) = t_fs u /\ s_scr (g_sys g) = fold_left kprint_char (t_out u) x0
  end.

Lemma user_run_app es : forall es' (s s1 : sys D), user_run s es = (s1, Running) -> user_run s (es ++ es') = user_run s1 es'.
Proof.
  induction es as [|e es IH]; intros es' s s1 E; cbn [user_run app] in *; [injection E as <-; reflexivity|].
  destruct (user_step s e) as [s' o]. destruct o; try discriminate. apply IH, E.
Qed.

Lemma trap_run {X : Type} (s : sys D) eax ebx ecx edx w ws (f : sys D -> Z -> X) :
  let '(g, r) := trap s eax ebx ecx edx w ws f in user_run s [Trap eax ebx ecx edx w] = (g_sys g, end_of r).
Proof. unfold trap. cbn [user_run user_step]. destruct (syscall_handler _ _ _) as [[s' r] []]; reflexivity. Qed.

(** What the events of a program keep. *)
Lemma agrees_after x0 g u es s' ws' u' o :
  agrees x0 g u -> Forall event_ok es -> user_run (g_sys g) es = (s', o) -> o <> Fault_ended ->
  s_scr s' = fold_left kprint_char (t_out u') x0 -> s_fs s' = t_fs u' -> supplies (t_clock u') (t_keys u') (s_kbd s') (s_tick s') ws' ->
  0 <= s_tick s' < 0x100000000 -> s_seed s' = t_seed u' -> t_pid u' = t_pid u -> t_space u' = t_space u -> agrees x0 (mk_ring3 s' ws') u'.
Proof.
  intros [G1 G2 G3 Gt Gs G4 G5 G6 G7 G8] F E N H1 H2 H3 Ht Hs H4 H5. pose proof (user_run_ok es (g_sys g) G6 G7 F) as U. rewrite E in U.
  destruct U as (S' & I & Rc). constructor; cbn [g_sys g_waits]; auto.
  - rewrite H4, G4, (is_self _ _ I). reflexivity.
  - intros v. unfold t_rw, t_ram. rewrite H5. destruct (G5 v) as [E1 E2]. unfold t_rw, t_ram in E1, E2. rewrite E1, E2.
    split; symmetry; [apply ring3_rw_kept; assumption|apply kept_same, I].
  - destruct o; try contradiction; apply Rc.
  - intros n. rewrite (proj1 (proj2 (is_rest _ _ I))). apply G8.
Qed.

(** The kernel's answer and the terminal's, for a call from [g]. *)
Record simulated {X : Type} (x0 : screen) (g : ring3) (gr : ring3 * (X + prog_end)) (ur : tty * (X + prog_end)) : Prop := {
  sm_same : snd ur = snd gr;
  sm_outcome : outcome x0 (fst gr) (fst ur) (end_of (snd gr));
  sm_events : exists es, Forall event_ok es /\ user_run (g_sys g) es = (g_sys (fst gr), end_of (snd gr))
}.

(** The same, unless the terminal does not describe what the program does. *)
Definition simulates {X : Type} (x0 : screen) (g : ring3) (gr : ring3 * (X + prog_end)) (ur : tty * (X + prog_end)) : Prop :=
  snd ur = inr Beyond \/ simulated x0 g gr ur.

Lemma storing_sim {X : Type} x0 g u a l (k : sys D -> ring3 * (X + prog_end)) ur :
  agrees x0 g u -> 0 <= a < 0x100000000 ->
  (let s1 := set_ram (g_sys g) (put_bytes (s_ram (g_sys g)) a l) in
   agrees x0 (mk_ring3 s1 (g_waits g)) u -> (forall v, a <= v < a + tlen l -> in_zone v /\ ring3_rw s1 v = true /\ kept s1 v = true) ->
   simulated x0 (mk_ring3 s1 (g_waits g)) (k s1) ur) ->
  simulates x0 g (storing g a l k) match landing (t_space u) a (tlen l) with None => ur | Some e => (u, inr e) end.
Proof.
  intros G Ha H. pose proof (stores_run l a (g_sys g) (ag_sandbox _ _ _ G) (ag_armed _ _ _ G) Ha) as St.
  rewrite (landing_ext _ (ring3_space (g_sys g)) _ _ (ag_space _ _ _ G)). unfold storing. destruct (landing _ _ _) as [[o|]|].
  - right. destruct St as (-> & es & s' & err & v & F & E & E' & Sc & Sf). rewrite E. constructor; cbn [fst snd end_of]; [reflexivity| |eauto].
    split; [rewrite <- (ag_fs _ _ _ G); exact Sf|]. exists 14, err, v. rewrite <- (ag_scr _ _ _ G). exact Sc.
  - left. reflexivity.
  - right. destruct St as (E & F & Zn). rewrite E. cbv zeta in H.
    pose proof (user_run_ok (stores a l) (g_sys g) (ag_sandbox _ _ _ G) (ag_armed _ _ _ G) F) as U. rewrite E in U. destruct U as (_ & I1 & _).
    assert (G1 : agrees x0 (mk_ring3 (set_ram (g_sys g) (put_bytes (s_ram (g_sys g)) a l)) (g_waits g)) u).
    { apply (agrees_after x0 g u (stores a l) _ _ u Running G F E); [discriminate|apply G|apply G|apply G|apply G|apply G|reflexivity|reflexivity]. }
    destruct (H G1) as [M1 M2 (es & F' & E')].
    { intros v Hv. rewrite (ring3_rw_kept _ _ v (ag_sandbox _ _ _ G) I1). exact (Zn v Hv). }
    constructor; [exact M1|exact M2|]. exists (stores a l ++ es).
    split; [apply Forall_app; auto|]. rewrite (user_run_app _ _ _ _ E). exact E'.
Qed.

Lemma call_sim {X : Type} x0 s ws u eax ebx ecx edx w ws' (f : sys D -> Z -> X) s2 r u' x :
  agrees x0 (mk_ring3 s ws) u -> 0 <= ebx < 0x100000000 ->
  syscall_handler s (trap_regs 0x80 0 USER_CODE eax ebx ecx edx) w = (s2, r, Returned) -> x = f s2 (r_eax r) ->
  s_scr s2 = fold_left kprint_char (t_out u') x0 -> s_fs s2 = t_fs u' -> supplies (t_clock u') (t_keys u') (s_kbd s2) (s_tick s2) ws' ->
  0 <= s_tick s2 < 0x100000000 -> s_seed s2 = t_seed u' -> t_pid u' = t_pid u -> t_space u' = t_space u ->
  simulated x0 (mk_ring3 s ws) (trap s eax ebx ecx edx w ws' f) (u', inl x).
Proof.
  intros G Hb E -> H1 H2 H3 Ht Hs H4 H5. pose proof (trap_run s eax ebx ecx edx w ws' f) as T. unfold trap in *. rewrite E in *.
  assert (F : Forall event_ok [Trap eax ebx ecx edx w]) by (constructor; [exact Hb|constructor]).
  constructor; cbn [fst snd end_of]; [reflexivity| |eauto].
  apply (agrees_after x0 (mk_ring3 s ws) u [Trap eax ebx ecx edx w] s2 ws' u' Running G F T); auto.
Qed.

(** The same for a call that does not return. *)
Lemma call_stops {X : Type} x0 s ws u eax w ws' (f : sys D -> Z -> X) s2 r o :
  agrees x0 (mk_ring3 s ws) u ->
  syscall_handler s (trap_regs 0x80 0 USER_CODE eax 0 0 0) w = (s2, r, o) -> o = Exited \/ o = Blocked ->
  s_scr s2 = s_scr s -> s_fs s2 = s_fs s ->
  simulated x0 (mk_ring3 s ws) (trap s eax 0 0 0 w ws' f) (u, inr (Ended match o with Exited => Exit_called | _ => Waiting end)).
Proof.
  intros G E N H1 H2. pose proof (trap_run s eax 0 0 0 w ws' f) as T. unfold trap in *. rewrite E in *.
  assert (F : Forall event_ok [Trap eax 0 0 0 w]) by (constructor; [cbn; lia|constructor]).
  assert (A : s_fs s2 = t_fs u /\ s_scr s2 = fold_left kprint_char (t_out u) x0) by (rewrite H1, H2; split; apply G).
  destruct N as [-> | ->]; (constructor; cbn [fst snd end_of]; [reflexivity|exact A|eauto]).
Qed.

Lemma text_idemp l : text (text l) = text l.
Proof. induction l as [|c l IH]; [reflexivity|]. cbn. destruct (c =? 0) eqn:E; [reflexivity|]. cbn. rewrite E, IH. reflexivity. Qed.

Section Calls.
Variables (x0 : screen) (g : ring3) (u : tty (D := D)).
Hypothesis G : agrees x0 g u.

Lemma g_eta : g = mk_ring3 (g_sys g) (g_waits g).
Proof. destruct g. reflexivity. Qed.

Lemma BUF_word : 0 <= BUF < 0x100000000.
Proof. pose proof BUF_zone as Z. unfold in_zone in Z. lia. Qed.

(** A buffer and the name of a file, or a string, behind it, stored at [BUF]. *)
Lemma passed s d nm :
  let l := d ++ nm ++ [0] in let s1 := set_ram s (put_bytes (s_ram s) BUF l) in
  (forall v, BUF <= v < BUF + tlen l -> in_zone v /\ ring3_rw s1 v = true /\ kept s1 v = true) ->
  (0 <= BUF + tlen d < 0x100000000 /\ in_user_zone BUF (tlen d) = true) /\
  (user_string_ok (s_view s1) (BUF + tlen d) = true /\ str_at (s_view s1) (BUF + tlen d) = chars nm) /\
  holds_at (s_view s1) BUF l /\ holds_at (s_ram s1) BUF l.
Proof.
  intros l s1 Z. assert (El : tlen l = tlen d + tlen nm + 1) by (unfold l; rewrite !tlen_app; change (tlen [0]) with 1; lia).
  pose proof (tlen_nonneg d). pose proof (tlen_nonneg nm). pose proof BUF_zone as Zb. unfold in_zone in Z, Zb.
  assert (Hx : BUF <= BUF + tlen d + tlen nm < BUF + tlen l) by (rewrite El; lia).
  assert (Hl : BUF + tlen l <= 0x100000) by (destruct (Z _ Hx) as [Zl _]; rewrite El; lia).
  assert (Q : holds_at (s_view s1) BUF l /\ holds_at (s_ram s1) BUF l) by (apply stored_holds; intros v Hv; apply (Z v Hv)).
  split; [split; [lia|unfold in_user_zone; rewrite !(proj2 (Z.leb_le _ _)) by lia; reflexivity]|]. split; [|exact Q].
  apply placed_string; [exact BUF_zone|exact Hl|apply Q].
Qed.

Lemma write_sim str : simulates x0 g (answer (Write str) g) (answer (Write str) u).
Proof.
  unfold answer, ring3_env, tty_env, passing. apply (storing_sim x0 g u BUF (str ++ [0])); [exact G|apply BUF_word|].
  intros s1 G1 Zn. destruct (passed (g_sys g) [] str Zn) as (_ & [P1 P2] & P3 & _). rewrite Z.add_0_r in P1, P2.
  cbn [app] in P1, P2, P3. fold s1 in P1, P2, P3. assert (Off : off_text (s_view s1) BUF).
  { intros x Tx Hx. exists (BUF + tlen str). assert (Le : tlen (str ++ [0]) = tlen str + 1) by (rewrite tlen_app; reflexivity).
    pose proof (tlen_nonneg str). split.
    - split; [lia|]. destruct (Z.lt_ge_cases (BUF + tlen str) x) as [|C]; [assumption|]. exfalso.
      destruct (Zn x ltac:(lia)) as (_ & _ & Kx). unfold kept in Kx. rewrite Tx in Kx. discriminate.
    - rewrite P3 by lia. replace (tlen str) with (tlen str + 0) by lia. rewrite tget_app_r by lia. reflexivity. }
  eapply (call_sim x0 s1 (g_waits g) u _ _ _ _ _ _ _ (set_scr s1 (kprint (s_scr s1) (chars str))));
    [exact G1|apply BUF_word| |reflexivity| |apply G|apply G|apply G|apply G|reflexivity|reflexivity].
  - unfold syscall_handler. cbn [trap_regs r_eax SYS_WRITE Z.eqb r_ebx]. rewrite P1, andb_false_r.
    rewrite kprint_str_off by exact Off. rewrite P2. reflexivity.
  - cbn [s_scr set_scr show t_out]. change (s_scr s1) with (s_scr (g_sys g)).
    rewrite (ag_scr _ _ _ G), kprint_text, fold_left_app. f_equal. unfold chars. apply text_idemp.
Qed.

Lemma read_sim : simulated x0 g (answer Read g) (answer Read u).
Proof.
  unfold answer, ring3_env, tty_env. pose proof (ag_keys _ _ _ G) as K. pose proof (read_loop_kbd (List.hd [] (g_waits g)) (g_sys g) (ag_drivers _ _ _ G) (ag_tick _ _ _ G)) as Rl.
  destruct (read_loop _ _) as [s' r] eqn:Er. destruct Rl as (Kw & It & Ht). assert (Gk := G). rewrite g_eta in Gk |- * at 1.
  assert (Hs : syscall_handler (g_sys g) (trap_regs 0x80 0 USER_CODE SYS_READ 0 0 0) (List.hd [] (g_waits g)) =
    match r with
    | Some c => (s', set_eax (trap_regs 0x80 0 USER_CODE SYS_READ 0 0 0) (u32 c), Returned)
    | None => (s', trap_regs 0x80 0 USER_CODE SYS_READ 0 0 0, Blocked)
    end).
  { unfold syscall_handler. cbn [trap_regs r_eax SYS_READ SYS_WRITE SYS_UPTIME SYS_GETPID SYS_SBRK SYS_EXIT Z.eqb Pos.eqb].
    rewrite Er. reflexivity. }
  assert (Sc : s_scr s' = s_scr (g_sys g)) by (rewrite (int_eq _ _ It); reflexivity). assert (Sf : s_fs s' = s_fs (g_sys g)) by (rewrite (int_eq _ _ It); reflexivity).
  assert (Sd : s_seed s' = s_seed (g_sys g)) by (rewrite (int_eq _ _ It); reflexivity).
  destruct (t_keys u) as [|c ks] eqn:Ek; cbn [supplies] in K; destruct K as [_ K]; rewrite Kw in K.
  - subst r. exact (call_stops x0 (g_sys g) (g_waits g) u _ _ _ _ s' _ Blocked Gk Hs ltac:(auto) Sc Sf).
  - destruct K as [-> K]. pose proof (kbd_wait_char _ _ _ _ _ _ Kw) as Hc.
    eapply (call_sim x0 (g_sys g) (g_waits g) u _ _ _ _ _ _ _ s'); [exact Gk|lia|exact Hs| | | |exact K|exact Ht| |reflexivity|reflexivity].
    + cbn [set_eax r_eax]. rewrite u32_small, i32_small by lia. reflexivity.
    + rewrite Sc. apply G.
    + rewrite Sf. apply G.
    + rewrite Sd. apply G.
Qed.

Lemma clock_now : t_clock u (length (t_keys u)) = s_tick (g_sys g).
Proof. pose proof (ag_keys _ _ _ G) as K. destruct (t_keys u); cbn [supplies] in K; symmetry; apply K. Qed.

Lemma rand_sim : simulated x0 g (answer Rand g) (answer Rand u).
Proof.
  unfold answer, ring3_env, tty_env. rewrite clock_now, <- (ag_seed _ _ _ G).
  pose proof (sys_rand_range (s_seed (g_sys g)) (s_tick (g_sys g))) as Hv.
  destruct (Syscall.sys_rand (s_seed (g_sys g)) (s_tick (g_sys g))) as [x v] eqn:E. cbn [snd] in Hv. assert (Gk := G). rewrite g_eta in Gk |- * at 1.
  eapply (call_sim x0 (g_sys g) (g_waits g) u _ _ _ _ _ _ _ (set_seed (g_sys g) x));
    [exact Gk|lia| | |apply G|apply G|apply G|apply G|reflexivity|reflexivity|reflexivity].
  - unfold syscall_handler. cbn [trap_regs r_eax SYS_RAND SYS_SLEEP SYS_READ SYS_WRITE SYS_UPTIME SYS_GETPID SYS_SBRK SYS_EXIT Z.eqb Pos.eqb].
    unfold timer_ticks. rewrite E. reflexivity.
  - cbn [set_eax r_eax]. rewrite i32_small by lia. reflexivity.
Qed.

Lemma getpid_sim : simulated x0 g (answer Getpid g) (answer Getpid u).
Proof.
  unfold answer, ring3_env, tty_env. assert (Gk := G). rewrite g_eta in Gk |- * at 1.
  eapply (call_sim x0 (g_sys g) (g_waits g) u _ _ _ _ _ _ _ (g_sys g));
    [exact Gk|lia|reflexivity|exact (ag_pid _ _ _ G)|apply G|apply G|apply G|apply G|apply G|reflexivity|reflexivity].
Qed.

Lemma exit_sim : simulated x0 g (answer Exit g) (answer Exit u).
Proof.
  unfold answer, ring3_env, tty_env. assert (Gk := G). rewrite g_eta in Gk |- * at 1.
  exact (call_stops x0 (g_sys g) (g_waits g) u SYS_EXIT [] (g_waits g) (fun _ _ => tt) (g_sys g) _ Exited Gk eq_refl ltac:(auto) eq_refl eq_refl).
Qed.

Lemma poke_sim a l : simulates x0 g (answer (Poke a l) g) (answer (Poke a l) u).
Proof.
  unfold answer, ring3_env, tty_env. apply (storing_sim x0 g u (u32 a) l); [exact G|apply u32_range|].
  intros s1 G1 _. constructor; [reflexivity|exact G1|]. exists []. split; [constructor|reflexivity].
Qed.

Lemma raise_sim n : simulated x0 g (answer (Raise n) g) (answer (Raise n) u).
Proof.
  unfold answer, ring3_env, tty_env. pose proof (sandbox_fault_eq (g_sys g) n 0 0 (ag_sandbox _ _ _ G) (ag_armed _ _ _ G) ltac:(lia)) as E.
  rewrite E. constructor; cbn [fst snd end_of outcome g_sys]; [reflexivity| |].
  - split; [apply G|]. exists n, 0, 0. rewrite <- (ag_scr _ _ _ G). reflexivity.
  - exists [Exception n 0]. split; [constructor; constructor|]. cbn [user_run user_step]. rewrite E. reflexivity.
Qed.

Lemma fwrite_sim nm data : simulates x0 g (answer (Fwrite nm data) g) (answer (Fwrite nm data) u).
Proof.
  unfold answer, ring3_env, tty_env, passing. apply (storing_sim x0 g u BUF (data ++ nm ++ [0])); [exact G|apply BUF_word|].
  intros s1 G1 Zn. destruct (passed (g_sys g) data nm Zn) as ([Wd Zd] & [P1 P2] & P3 & _). fold s1 in P1, P2, P3.
  assert (Fw : fs_write (s_fs s1) (chars nm) (s_view s1) BUF (tlen data) = fs_write (t_fs u) (chars nm) (put_bytes ∅ BUF data) BUF (tlen data)).
  { change (s_fs s1) with (s_fs (g_sys g)). rewrite (ag_fs _ _ _ G). apply fs_write_agree. intros x Hx. exact (placed_data _ _ _ _ _ P3 Hx). }
  destruct (fs_write (t_fs u) _ _ _ _) as [f rc].
  eapply (call_sim x0 s1 (g_waits g) u _ _ _ _ _ _ _ (set_fs s1 f) (set_eax (trap_regs 0x80 0 USER_CODE SYS_FWRITE (BUF + tlen data) BUF (tlen data)) (u32 rc)));
    [exact G1|exact Wd| |reflexivity|apply G|reflexivity|apply G|apply G|apply G|reflexivity|reflexivity].
  unfold syscall_handler. cbn [trap_regs r_eax r_ebx r_ecx r_edx SYS_FWRITE SYS_RAND SYS_SLEEP SYS_READ SYS_WRITE SYS_UPTIME SYS_GETPID SYS_SBRK SYS_EXIT Z.eqb Pos.eqb].
  rewrite P1, P2, Zd, Fw. reflexivity.
Qed.

(** Where the program may write plain memory, the kernel may too. *)
Lemma ring3_kernel_writes (s : sys D) v : ring3_rw s v = true -> kernel_writes (s_mach s) v = true.
Proof.
  unfold ring3_rw, ring3_writes, ring3_reaches, kernel_writes, kernel_reads. rewrite !andb_true_iff. tauto.
Qed.

Lemma fread_sim nm buf : simulates x0 g (answer (Fread nm buf) g) (answer (Fread nm buf) u).
Proof.
  unfold answer, ring3_env, tty_env, passing. apply (storing_sim x0 g u BUF (buf ++ nm ++ [0])); [exact G|apply BUF_word|].
  intros s1 G1 Zn. destruct (passed (g_sys g) buf nm Zn) as ([Wd Zd] & [P1 P2] & _ & P4). fold s1 in P1, P2, P4.
  assert (Hb : forall x, BUF <= x < BUF + tlen buf -> kernel_writes (s_mach s1) x = true /\ kept s1 x = true).
  { intros x Hx. assert (Hx' : BUF <= x < BUF + tlen (buf ++ nm ++ [0])) by (rewrite tlen_app; pose proof (tlen_nonneg (nm ++ [0])); lia).
    destruct (Zn x Hx') as (_ & Z1 & Z2).
    split; [apply ring3_kernel_writes, Z1|exact Z2]. }
  pose proof (sys_fread_plain s1 (chars nm) BUF (tlen buf) Zd (sandbox_fixed s1 (ag_sandbox _ _ _ G1)) Hb) as Pl.
  change (s_fs s1) with (s_fs (g_sys g)) in Pl. rewrite (ag_fs _ _ _ G) in Pl.
  pose proof (fs_read_agree (fun x => BUF <= x < BUF + tlen buf) (t_fs u) (chars nm) (put_bytes ∅ BUF buf) (s_ram s1) BUF (tlen buf)
    ltac:(intros x Hx; exact (placed_data _ _ _ _ _ P4 Hx))) as Ag.
  destruct (fs_read (t_fs u) _ (put_bytes ∅ BUF buf) _ _) as [[[f m] rc] got]. destruct Ag as (m2 & Fr & Em). rewrite Fr in Pl.
  eapply (call_sim x0 s1 (g_waits g) u _ _ _ _ _ _ _ (set_ram (set_fs s1 f) m2));
    [exact G1|exact Wd| | |apply G|reflexivity|apply G|apply G|apply G|reflexivity|reflexivity].
  - unfold syscall_handler. cbn [trap_regs r_eax r_ebx r_ecx r_edx SYS_FREAD SYS_FWRITE SYS_RAND SYS_SLEEP SYS_READ SYS_WRITE SYS_UPTIME SYS_GETPID SYS_SBRK SYS_EXIT Z.eqb Pos.eqb].
    rewrite P1, P2, Zd. cbn [andb]. rewrite Pl. reflexivity.
  - cbn [set_eax r_eax]. f_equal. apply bytes_at_ext. intros k Hk. assert (Hk' : BUF <= BUF + k < BUF + tlen buf) by lia.
    rewrite view_ld8, kept_peek by exact (proj2 (Hb _ Hk')).
    change (s_ram (set_ram (set_fs s1 f) m2)) with m2. symmetry. apply Em, Hk'.
Qed.

Lemma answer_sim {X : Type} (e : sysE X) : simulates x0 g (answer e g) (answer e u).
Proof.
  destruct e; [apply write_sim|right; apply read_sim|right; apply rand_sim|right; apply getpid_sim|apply fwrite_sim|apply fread_sim|
    right; apply exit_sim|apply poke_sim|right; apply raise_sim].
Qed.

End Calls.

(** ** Whole programs *)

(** The run on the kernel, next to the run on the terminal. *)
Lemma run_sim {A : Type} x0 n : forall (t : prog A) g u, agrees x0 g u ->
  match run n t u with
  | None => run n t g = None
  | Some (u', r) => r = inr Beyond \/ exists g', run n t g = Some (g', r) /\ simulated x0 g (g', r) (u', r)
  end.
Proof.
  induction n as [|n IH]; intros t g u G; [reflexivity|]. cbn [run]. destruct (observe t) as [a|t'|X e k].
  - right. exists g. split; [reflexivity|]. constructor; [reflexivity|exact G|]. exists []. split; [constructor|reflexivity].
  - apply IH, G.
  - destruct (answer_sim x0 g u G e) as [B|[M1 M2 (es & F & E)]].
    { destruct (answer e u) as [u1 r1]. cbn [snd] in B. subst r1. left. reflexivity. }
    destruct (answer e g) as [g1 r1], (answer e u) as [u1 r1']. cbn [fst snd] in *. subst r1'. destruct r1 as [x|o].
    + specialize (IH (k x) g1 u1 M2). destruct (run n (k x) u1) as [[u' r]|]; [|exact IH].
      destruct IH as [B|(g' & Hg & [N1 N2 (es' & F' & E')])]; [left; exact B|right]. exists g'. split; [exact Hg|]. constructor; [exact N1|exact N2|].
      exists (es ++ es'). split; [apply Forall_app; auto|]. rewrite (user_run_app _ _ _ _ E). exact E'.
    + right. exists g1. split; [reflexivity|]. constructor; [reflexivity|exact M2|eauto].
Qed.

Lemma ends_on_kernel {A : Type} (t : prog A) x0 g u u' r :
  agrees x0 g u -> ends t u u' r -> r <> inr Beyond ->
  exists g', ends t g g' r /\ simulated x0 g (g', r) (u', r) /\ isolated (g_sys g) (g_sys g').
Proof.
  intros G [n E] N. pose proof (run_sim x0 n t g u G) as H. rewrite E in H. destruct H as [B|(g' & Hg & M)]; [contradiction|].
  exists g'. split; [exists n; exact Hg|]. split; [exact M|]. destruct M as [_ _ (es & F & Ee)].
  pose proof (user_run_ok es (g_sys g) (ag_sandbox _ _ _ G) (ag_armed _ _ _ G) F) as U. cbn [fst snd] in Ee.
  rewrite Ee in U. apply U.
Qed.


End Ring3.

(** ** A calculation *)

#[local] Existing Instance map_disk.
#[local] Existing Instance demo_layout.

(** Process 1 in its sandbox, with the interrupt handlers registered. *)
Definition demo_ring3 (waits : list (list (list (Z * Z)))) : ring3 (D := mem) :=
  mk_ring3 (fault_arm (keyboard_install (register_interrupt_handler demo_sandbox 32 timer_cb))) waits.

(** The keys "12", Enter, "-", "3", Enter, one interrupt each. *)
Definition demo_waits : list (list (list (Z * Z))) := map (fun c => [[(33, c)]]) [2; 3; 28; 12; 4; 28].

Definition demo_tty (keys : list Z) : tty (D := mem) :=
  mk_tty keys 0 (fun _ => 0) 1 [] (mk_fs ∅ ∅ ∅ ∅) (ring3_space (g_sys (demo_ring3 demo_waits))).

Lemma demo_agrees : agrees (s_scr demo_sandbox) (demo_ring3 demo_waits) (demo_tty [49; 50; 10; 45; 51; 10]).
Proof.
  constructor; try reflexivity.
  - vm_compute. repeat split.
  - split; [vm_compute; discriminate|reflexivity].
  - intros v. split; reflexivity.
  - destruct demo_sandbox_ok. constructor; assumption.
  - apply install_drivers. reflexivity.
Qed.


(** The last two lines on the screen. *)
Example demo_calc_screen :
  match run 400 calc_start (demo_ring3 demo_waits) with
  | Some (g, r) => r = inr (Ended Exit_called) /\
      map (cell_char (s_scr (g_sys g))) (seqZ (3 * COLS) 19) = lit "  [calc] 12 - 3 = 9"
  | None => False
  end.
Proof. vm_compute. split; reflexivity. Qed.
