(* ===== verification/Asm.v ===== *)
(** * The assembly around the C code

    kernel/switch.asm, kernel/ring3.asm, the stubs of kernel/interrupt.asm and
    the entry of kernel/kernel_entry.asm, instruction by instruction on the
    registers and byte memory.  Code runs in flat segments; a stub is the list
    of its instructions, and ends in the one that sets eip. *)

From stdpp Require Import base gmap list numbers option.
From Stdlib Require Import ZArith Lia Bool.
From S2P Require Import Prelude Vmm Paging Interfaces Fs Proc Task System Syscall Boot.

(** ** The processor *)

Record cpu := mk_cpu {
  eax : Z; ebx : Z; ecx : Z; edx : Z; esi : Z; edi : Z; ebp : Z; esp : Z;
  cs : Z; ds : Z; es : Z; fs : Z; gs : Z; ss : Z;
  eip : Z; eflags : Z;
  mem : Prelude.mem
}.

Inductive reg := EAX | EBX | ECX | EDX | ESI | EDI | EBP | ESP.
Inductive sreg := DS | ES | FS | GS | SS.

Definition get (c : cpu) (r : reg) : Z :=
  match r with
  | EAX => eax c | EBX => ebx c | ECX => ecx c | EDX => edx c
  | ESI => esi c | EDI => edi c | EBP => ebp c | ESP => esp c
  end.

Definition put (c : cpu) (r : reg) (v : Z) : cpu :=
  let '(mk_cpu a b c' d s di bp sp k1 k2 k3 k4 k5 k6 ip fl m) := c in
  match r with
  | EAX => mk_cpu v b c' d s di bp sp k1 k2 k3 k4 k5 k6 ip fl m
  | EBX => mk_cpu a v c' d s di bp sp k1 k2 k3 k4 k5 k6 ip fl m
  | ECX => mk_cpu a b v d s di bp sp k1 k2 k3 k4 k5 k6 ip fl m
  | EDX => mk_cpu a b c' v s di bp sp k1 k2 k3 k4 k5 k6 ip fl m
  | ESI => mk_cpu a b c' d v di bp sp k1 k2 k3 k4 k5 k6 ip fl m
  | EDI => mk_cpu a b c' d s v bp sp k1 k2 k3 k4 k5 k6 ip fl m
  | EBP => mk_cpu a b c' d s di v sp k1 k2 k3 k4 k5 k6 ip fl m
  | ESP => mk_cpu a b c' d s di bp v k1 k2 k3 k4 k5 k6 ip fl m
  end.

Definition put_seg (c : cpu) (r : sreg) (v : Z) : cpu :=
  let '(mk_cpu a b c' d s di bp sp k1 k2 k3 k4 k5 k6 ip fl m) := c in
  match r with
  | DS => mk_cpu a b c' d s di bp sp k1 v k3 k4 k5 k6 ip fl m
  | ES => mk_cpu a b c' d s di bp sp k1 k2 v k4 k5 k6 ip fl m
  | FS => mk_cpu a b c' d s di bp sp k1 k2 k3 v k5 k6 ip fl m
  | GS => mk_cpu a b c' d s di bp sp k1 k2 k3 k4 v k6 ip fl m
  | SS => mk_cpu a b c' d s di bp sp k1 k2 k3 k4 k5 v ip fl m
  end.

Definition put_ctl (c : cpu) (k ip fl : Z) : cpu :=
  let '(mk_cpu a b c' d s di bp sp _ k2 k3 k4 k5 k6 _ _ m) := c in mk_cpu a b c' d s di bp sp k k2 k3 k4 k5 k6 ip fl m.
Definition put_mem (c : cpu) (m : Prelude.mem) : cpu :=
  let '(mk_cpu a b c' d s di bp sp k1 k2 k3 k4 k5 k6 ip fl _) := c in mk_cpu a b c' d s di bp sp k1 k2 k3 k4 k5 k6 ip fl m.

Definition push (c : cpu) (v : Z) : cpu :=
  let sp := u32 (esp c + -4) in put_mem (put c ESP sp) (st32 (mem c) sp v).
Definition top (c : cpu) : Z := ld32 (mem c) (esp c).
Definition drop4 (c : cpu) : cpu := put c ESP (u32 (esp c + 4)).

(** The interrupt flag. *)
Definition IF : Z := 0x200.

(** ** Instructions *)

Inductive instr :=
| Mov (d s : reg)
| Movi (d : reg) (v : Z)
| Load (d b : reg) (o : Z)
| Store (b : reg) (o : Z) (s : reg)
| Push (r : reg)
| Pushi (v : Z)
| Pop (r : reg)
| Addi (r : reg) (v : Z)
| Sub (d s : reg)
| Zero (r : reg)
| Pushf
| Popf
| Pusha
| Popa
| Mov_ax_ds
| Movi_ax (v : Z)
| Mov_seg_ax (r : sreg)
| Cli
| Stosb
| Call_c (f : cpu -> cpu)
| Jmp (r : reg)
| Ret
| Iret.

(** [rep stosb]: al to [edi], ecx times. *)
Definition stosb (c : cpu) : cpu :=
  let c' := put_mem c (for_range 0 (ecx c) (fun i m => st8 m (u32 (edi c + i)) (u8 (eax c))) (mem c)) in
  put (put c' EDI (u32 (edi c + ecx c))) ECX 0.

(** [iret]: back to the code segment on the stack; to another ring with its stack. *)
Definition iret (c : cpu) : cpu :=
  let m := mem c in
  let sp := esp c in
  let k := ld32 m (u32 (sp + 4)) in
  let c' := put_ctl c k (ld32 m sp) (ld32 m (u32 (sp + 8))) in
  if k mod 4 =? cs c mod 4 then put c' ESP (u32 (sp + 12))
  else put_seg (put c' ESP (ld32 m (u32 (sp + 12)))) SS (ld32 m (u32 (sp + 16))).

Definition low16 (x v : Z) : Z := x - u16 x + u16 v.

Definition step (i : instr) (c : cpu) : cpu :=
  match i with
  | Mov d s => put c d (get c s)
  | Movi d v => put c d v
  | Load d b o => put c d (ld32 (mem c) (u32 (get c b + o)))
  | Store b o s => put_mem c (st32 (mem c) (u32 (get c b + o)) (get c s))
  | Push r => push c (get c r)
  | Pushi v => push c v
  | Pop r => put (drop4 c) r (top c)
  | Addi r v => put c r (u32 (get c r + v))
  | Sub d s => put c d (u32 (get c d - get c s))
  | Zero r => put c r 0
  | Pushf => push c (eflags c)
  | Popf => put_ctl (drop4 c) (cs c) (eip c) (top c)
  | Pusha =>
      let sp := esp c in
      let c := push (push (push (push c (eax c)) (ecx c)) (edx c)) (ebx c) in
      push (push (push (push c sp) (ebp c)) (esi c)) (edi c)
  | Popa =>
      let w k := ld32 (mem c) (u32 (esp c + 4 * k)) in
      let c := put (put (put c EDI (w 0)) ESI (w 1)) EBP (w 2) in
      let c := put (put (put (put c EBX (w 4)) EDX (w 5)) ECX (w 6)) EAX (w 7) in
      put c ESP (u32 (esp c + 32))
  | Mov_ax_ds => put c EAX (low16 (eax c) (ds c))
  | Movi_ax v => put c EAX (low16 (eax c) v)
  | Mov_seg_ax r => put_seg c r (u16 (eax c))
  | Cli => put_ctl c (cs c) (eip c) (Z.land (eflags c) (Z.lnot IF))
  | Stosb => stosb c
  | Call_c f => f c
  | Jmp r => put_ctl c (cs c) (get c r) (eflags c)
  | Ret => put_ctl (drop4 c) (cs c) (top c) (eflags c)
  | Iret => iret c
  end.

Definition exec (l : list instr) (c : cpu) : cpu := fold_left (fun c i => step i c) l c.

(** ** The stubs *)

(** kernel/switch.asm *)
Definition context_switch : list instr :=
  [Push EBP; Push EBX; Push ESI; Push EDI;
   Load EAX ESP 20; Store EAX 0 ESP; Load ESP ESP 24;
   Pop EDI; Pop ESI; Pop EBX; Pop EBP; Ret].

(** kernel/ring3.asm *)
Definition enter_user_mode : list instr :=
  [Cli; Load ECX ESP 4; Load EDX ESP 8;
   Movi_ax 0x23; Mov_seg_ax DS; Mov_seg_ax ES; Mov_seg_ax FS; Mov_seg_ax GS;
   Pushi 0x23; Push EDX; Pushi 0x202; Pushi 0x1B; Push ECX; Iret].

Definition save_context : list instr :=
  [Load EAX ESP 4;
   Store EAX 0 EBX; Store EAX 4 ESI; Store EAX 8 EDI; Store EAX 12 EBP; Store EAX 16 ESP;
   Load ECX ESP 0; Store EAX 20 ECX; Pushf; Pop ECX; Store EAX 24 ECX; Zero EAX; Ret].

Definition restore_context : list instr :=
  [Load EAX ESP 4;
   Load EBX EAX 0; Load ESI EAX 4; Load EDI EAX 8; Load EBP EAX 12;
   Load ECX EAX 20; Load EDX EAX 24; Load ESP EAX 16;
   Addi ESP 4; Push EDX; Popf; Movi EAX 1; Jmp ECX].

(** The common part of [isr_common_stub], [irq_common_stub] and [isr128] around
    the call of the C handler. *)
Definition stub_in : list instr :=
  [Pusha; Mov_ax_ds; Push EAX; Movi_ax 0x10; Mov_seg_ax DS; Mov_seg_ax ES; Mov_seg_ax FS; Mov_seg_ax GS;
   Mov EAX ESP; Push EAX].
Definition stub_out : list instr :=
  [Addi ESP 4; Pop EAX; Mov_seg_ax DS; Mov_seg_ax ES; Mov_seg_ax FS; Mov_seg_ax GS; Popa; Addi ESP 8; Iret].
Definition common_stub (handler : cpu -> cpu) : list instr := stub_in ++ [Call_c handler] ++ stub_out.

(** ISR_NOERRCODE and IRQ, ISR_ERRCODE, and [isr128]. *)
Definition isr_noerrcode (n : Z) (handler : cpu -> cpu) : list instr := [Cli; Pushi 0; Pushi n] ++ common_stub handler.
Definition isr_errcode (n : Z) (handler : cpu -> cpu) : list instr := [Cli; Pushi n] ++ common_stub handler.
Definition isr128 (handler : cpu -> cpu) : list instr := [Pushi 0; Pushi 128] ++ common_stub handler.

(** kernel/kernel_entry.asm up to the call of kmain. *)
Definition start (bss_start bss_end kernel_stack_top : Z) : list instr :=
  [Movi EDI bss_start; Movi ECX bss_end; Sub ECX EDI; Zero EAX; Stosb; Movi ESP kernel_stack_top; Zero EBP].

(** ** Running a stub *)

Lemma u32_add_l a b : u32 (u32 a + b) = u32 (a + b).
Proof. unfold u32. apply Zplus_mod_idemp_l. Qed.

Lemma ld32_st32_at m a v b : a = b -> ld32 (st32 m a v) b = u32 v.
Proof. intros ->. apply ld32_st32_eq. Qed.

Lemma u32_ld32 m a : u32 (ld32 m a) = ld32 m a.
Proof. apply u32_small, ld32_range. Qed.

(** A register holds a word. *)
Definition word (x : Z) : Prop := 0 <= x < 0x100000000.

Record words (c : cpu) : Prop := {
  wd_regs : forall r, word (get c r);
  wd_flags : word (eflags c);
  wd_ip : word (eip c)
}.

(** Execute a list of instructions on a processor given field by field. *)
Ltac run_asm :=
  cbn [exec fold_left app step put get put_seg put_ctl put_mem push drop4 iret
       eax ebx ecx edx esi edi ebp esp cs ds es fs gs ss eip eflags mem] in *;
  unfold top in *;
  cbn [step put get put_seg put_ctl put_mem push drop4 iret
       eax ebx ecx edx esi edi ebp esp cs ds es fs gs ss eip eflags mem] in *;
  rewrite ?u32_add_l, ?Z.add_0_r in *.

(** The words in the registers of [c], by name. *)
Ltac reg_words W := let f := fresh in pose proof W as f; unfold word in f;
  pose proof (f EAX); pose proof (f EBX); pose proof (f ECX); pose proof (f EDX);
  pose proof (f ESI); pose proof (f EDI); pose proof (f EBP); pose proof (f ESP); clear f; cbn [get] in *.

(** Loads after stores to other words, or to the same. *)
Ltac words_in_memory := repeat
  match goal with
  | |- context [u32 (ld32 ?m ?a)] => rewrite (u32_ld32 m a)
  | |- context [u32 ?e] => rewrite (u32_small e) by lia
  | |- context [ld32 (st32 ?m ?a ?v) ?b] => first [rewrite (ld32_st32_at m a v b) by lia | rewrite (ld32_st32_out m a v b) by lia]
  end.

(** Equal up to the arithmetic of addresses. *)
Ltac same_words := repeat
  match goal with
  | |- (_, _) = (_, _) => apply f_equal2
  | |- ld32 ?m ?a = ld32 ?m ?b => apply (f_equal (ld32 m)); lia
  | |- _ => first [reflexivity | lia | progress f_equal]
  end.

(** ** Saved contexts (kernel/context.h) *)

Record ctx_t := mk_ctx { c_ebx : Z; c_esi : Z; c_edi : Z; c_ebp : Z; c_esp : Z; c_eip : Z; c_eflags : Z }.

Definition ctx_at (m : Prelude.mem) (a : Z) : ctx_t :=
  mk_ctx (ld32 m a) (ld32 m (a + 4)) (ld32 m (a + 8)) (ld32 m (a + 12)) (ld32 m (a + 16)) (ld32 m (a + 20)) (ld32 m (a + 24)).

(** The stack at the entry of a function: return address and first arguments, with
    room below. *)
Definition room (c : cpu) (below above : Z) : Prop := below <= esp c /\ esp c + above <= 0x100000000.

Definition apart (a n b k : Z) : Prop := a + n <= b \/ b + k <= a.

Lemma save_context_spec c ctx :
  words c -> room c 8 8 -> 0 <= ctx -> ctx + 28 <= 0x100000000 -> apart ctx 28 (esp c - 4) 12 ->
  ld32 (mem c) (esp c + 4) = ctx ->
  let s := exec save_context c in
  ctx_at (mem s) ctx = mk_ctx (ebx c) (esi c) (edi c) (ebp c) (esp c) (ld32 (mem c) (esp c)) (eflags c) /\
  eax s = 0 /\ eip s = ld32 (mem c) (esp c) /\ esp s = esp c + 4 /\
  (ebx s, esi s, edi s, ebp s, eflags s) = (ebx c, esi c, edi c, ebp c, eflags c) /\
  (forall x, ~ ctx <= x < ctx + 28 -> ~ esp c - 4 <= x < esp c -> ld8 (mem s) x = ld8 (mem c) x).
Proof.
  intros [Wr Wf _] [R1 R2] C1 C2 Ap A. reg_words Wr. clear Wr. unfold word, apart in *. destruct c. unfold save_context. run_asm.
  rewrite (u32_small (esp0 + 4)), A by lia. words_in_memory. unfold ctx_at. words_in_memory.
  replace (esp0 + -4 + 4) with esp0 by lia. repeat (split; [reflexivity|]).
  intros x X1 X2. rewrite !ld8_st32_out by lia. reflexivity.
Qed.

Lemma restore_context_spec c ctx :
  let t := ctx_at (mem c) ctx in
  room c 0 8 -> 0 <= ctx -> ctx + 28 <= 0x100000000 -> c_esp t + 4 < 0x100000000 ->
  ld32 (mem c) (esp c + 4) = ctx ->
  let r := exec restore_context c in
  eax r = 1 /\ eip r = c_eip t /\ esp r = c_esp t + 4 /\
  (ebx r, esi r, edi r, ebp r, eflags r) = (c_ebx t, c_esi t, c_edi t, c_ebp t, c_eflags t) /\
  (forall x, ~ c_esp t <= x < c_esp t + 4 -> ld8 (mem r) x = ld8 (mem c) x).
Proof.
  cbv zeta. unfold ctx_at. cbn [c_ebx c_esi c_edi c_ebp c_esp c_eip c_eflags]. intros [R1 R2] C1 C2 Hs A.
  pose proof (ld32_range (mem c) (ctx + 16)) as Ws. destruct c. unfold restore_context. run_asm.
  rewrite (u32_small (esp0 + 4)), A by lia. words_in_memory.
  split; [reflexivity|]. split; [reflexivity|]. split; [lia|]. split; [reflexivity|]. intros x Hx. apply ld8_st32_out. lia.
Qed.

(** C23. Unwinding.  [save_context] returns 0 and keeps the caller's registers;
    as long as the context it stored is intact, [restore_context] called from
    anywhere, on any stack, comes back from that very call a second time: to the
    same address with the same stack pointer, callee-saved registers and flags,
    with 1 as the result, writing nothing but the word below that stack. *)
Theorem context_round_trip (c c' : cpu) (ctx : Z) :
  words c -> room c 8 8 -> 0 <= ctx -> ctx + 28 <= 0x100000000 -> apart ctx 28 (esp c - 4) 12 ->
  ld32 (mem c) (esp c + 4) = ctx ->
  let s := exec save_context c in
  ctx_at (mem c') ctx = ctx_at (mem s) ctx -> room c' 0 8 -> ld32 (mem c') (esp c' + 4) = ctx ->
  let r := exec restore_context c' in
  eax s = 0 /\ eax r = 1 /\ eip s = ld32 (mem c) (esp c) /\ eip r = eip s /\ esp s = esp c + 4 /\ esp r = esp s /\
  (ebx s, esi s, edi s, ebp s, eflags s) = (ebx c, esi c, edi c, ebp c, eflags c) /\
  (ebx r, esi r, edi r, ebp r, eflags r) = (ebx c, esi c, edi c, ebp c, eflags c) /\
  (forall x, ~ esp c <= x < esp s -> ld8 (mem r) x = ld8 (mem c') x).
Proof.
  intros W R C1 C2 Ap A s K R' A'. destruct (save_context_spec c ctx W R C1 C2 Ap A) as (S1 & S2 & S3 & S4 & S5 & _). fold s in S1, S2, S3, S4, S5.
  pose proof (restore_context_spec c' ctx) as Q. cbv zeta in Q. rewrite K, S1 in Q. cbn [c_ebx c_esi c_edi c_ebp c_esp c_eip c_eflags] in Q.
  destruct R as [R1 R2]. destruct (Q R' C1 C2 ltac:(lia) A') as (Q1 & Q2 & Q3 & Q4 & Q5). cbv zeta. rewrite S4.
  repeat (split; [congruence|]). exact Q5.
Qed.

(** ** Switching tasks *)

(** What [context_switch] leaves on the stack of a task: its registers and the
    address it returns to. *)
Record frame_t := mk_frame { f_edi : Z; f_esi : Z; f_ebx : Z; f_ebp : Z; f_ret : Z }.

Definition frame_at (m : Prelude.mem) (a : Z) : frame_t :=
  mk_frame (ld32 m a) (ld32 m (a + 4)) (ld32 m (a + 8)) (ld32 m (a + 12)) (ld32 m (a + 16)).

Definition frame_of (c : cpu) (f : frame_t) : Prop :=
  (edi c, esi c, ebx c, ebp c, eip c) = (f_edi f, f_esi f, f_ebx f, f_ebp f, f_ret f).

(** [context_switch(old, new)] is called in [c]. *)
Record switching (c : cpu) (old new : Z) : Prop := {
  sw_words : words c;
  sw_room : room c 16 12;
  sw_args : ld32 (mem c) (esp c + 4) = old /\ ld32 (mem c) (esp c + 8) = new;
  sw_old : 0 <= old /\ old + 4 <= 0x100000000 /\ apart old 4 (esp c - 16) 28 /\ apart old 4 new 20;
  sw_new : 0 <= new /\ new + 20 < 0x100000000 /\ apart new 20 (esp c - 16) 16
}.

Lemma context_switch_spec c old new :
  switching c old new ->
  let r := exec context_switch c in
  frame_of r (frame_at (mem c) new) /\ esp r = new + 20 /\ ld32 (mem r) old = esp c - 16 /\
  frame_at (mem r) (esp c - 16) = mk_frame (edi c) (esi c) (ebx c) (ebp c) (ld32 (mem c) (esp c)) /\
  (forall x, ~ esp c - 16 <= x < esp c -> ~ old <= x < old + 4 -> ld8 (mem r) x = ld8 (mem c) x).
Proof.
  intros [[Wr Wf _] [R1 R2] [A1 A2] (O1 & O2 & O3 & O4) (N1 & N2 & N3)]. reg_words Wr. clear Wr. unfold apart in *.
  destruct c. unfold context_switch. run_asm. words_in_memory.
  replace (esp0 + -4 + -4 + -4 + -4 + 20) with (esp0 + 4) by lia. replace (esp0 + -4 + -4 + -4 + -4 + 24) with (esp0 + 8) by lia.
  rewrite ?A1, ?A2. words_in_memory. rewrite A2 in *. unfold frame_of, frame_at.
  cbn [f_edi f_esi f_ebx f_ebp f_ret edi esi ebx ebp eip]. words_in_memory.
  split; [same_words|]. split; [lia|]. split; [lia|]. split; [same_words|].
  intros x X1 X2. rewrite !ld8_st32_out by lia. reflexivity.
Qed.

(** C37. Coroutines.  A task that calls [context_switch] continues, when it is
    switched to again, exactly where it left off: [r] is the other task at its
    own frame, and whenever [c2] switches back to the stack pointer stored in
    [old], with the frame intact, the first task has its callee-saved registers,
    its return address and its stack pointer back. *)
Theorem switch_and_back (c c2 : cpu) (old new old2 : Z) :
  switching c old new -> switching c2 old2 (esp c - 16) ->
  let r := exec context_switch c in
  frame_at (mem c2) (esp c - 16) = frame_at (mem r) (esp c - 16) ->
  let b := exec context_switch c2 in
  frame_of r (frame_at (mem c) new) /\ esp r = new + 20 /\ ld32 (mem r) old = esp c - 16 /\
  (edi b, esi b, ebx b, ebp b) = (edi c, esi c, ebx c, ebp c) /\
  eip b = ld32 (mem c) (esp c) /\ esp b = esp c + 4 /\ ld32 (mem b) old2 = esp c2 - 16.
Proof.
  intros S S2 r K. destruct (context_switch_spec c old new S) as (A1 & A2 & A3 & A4 & _). fold r in A1, A2, A3, A4.
  destruct (context_switch_spec c2 old2 (esp c - 16) S2) as (B1 & B2 & B3 & _). cbv zeta.
  generalize dependent (exec context_switch c2). intros b B1 B2 B3. clearbody r.
  rewrite K, A4 in B1. unfold frame_of in B1. cbn [f_edi f_esi f_ebx f_ebp f_ret] in B1. injection B1 as B4 B5 B6 B7 B8.
  repeat (split; [assumption || congruence|]). split; [lia|exact B3].
Qed.

(** The stack [task_create] builds is a frame: the first switch to a new task
    enters its body with an empty stack. *)
Lemma fresh_task_frame (stacks entry : Z) (st : sched) :
  0 <= stacks -> 0 <= num_tasks st < MAX_TASKS -> stacks + MAX_TASKS * STACK_SIZE < 0x100000000 -> word entry ->
  tlen (tasks st) = MAX_TASKS ->
  let '(st', id) := task_create stacks st entry in
  let sp := stacks + id * STACK_SIZE + STACK_SIZE in
  Task.esp (task st' id) = sp - 20 /\ frame_at (stack_mem st') (sp - 20) = mk_frame 0 0 0 0 entry.
Proof.
  intros Hs Hn Hm He Ht. unfold task_create, MAX_TASKS, STACK_SIZE, word in *. cbv zeta. unfold task. cbn [tasks stack_mem].
  rewrite tget_tset by lia. rewrite Z.eqb_refl. cbn [Task.esp]. split; [apply u32_small; lia|].
  set (sp := stacks + num_tasks st * 4096 + 4096). unfold frame_at. words_in_memory. reflexivity.
Qed.

(** ** Interrupts *)

(** What the processor does at an interrupt: from ring 3 it takes the stack of
    the task state segment and saves the old one; flags and return address
    follow; interrupts are off. *)
Definition interrupt (c : cpu) (ss0 esp0 : Z) : cpu :=
  let k :=
    if cs c mod 4 =? 3 then push (push (put_seg (put c ESP esp0) SS ss0) (ss c)) (esp c) else c in
  let k := push (push (push k (eflags c)) (cs c)) (eip c) in
  put_ctl k 0x08 (eip c) (Z.land (eflags c) (Z.lnot IF)).

(** The stack words a C handler sees as its argument. *)
Definition regs_at (m : Prelude.mem) (a : Z) : registers_t :=
  mk_regs (ld32 m a) (ld32 m (a + 4)) (ld32 m (a + 8)) (ld32 m (a + 12)) (ld32 m (a + 16)) (ld32 m (a + 20))
    (ld32 m (a + 24)) (ld32 m (a + 28)) (ld32 m (a + 32)) (ld32 m (a + 36)) (ld32 m (a + 40)) (ld32 m (a + 44))
    (ld32 m (a + 48)) (ld32 m (a + 52)) (ld32 m (a + 56)) (ld32 m (a + 60)).

Lemma low16_word x v : word x -> word (low16 x v).
Proof. unfold word, low16, u16. intros H. zdm. Qed.

Lemma u16_low16 x v : u16 (low16 x v) = u16 v.
Proof.
  unfold low16, u16. rewrite <- (Z.mod_mod v 0x10000) at 2 by lia. rewrite Zplus_mod, Zminus_mod, Z.mod_mod by lia.
  rewrite Z.sub_diag. change (0 mod 0x10000) with 0. rewrite Z.add_0_l, !Z.mod_mod by lia. reflexivity.
Qed.

(** The stub in front of the handler: it is called with the address of the
    frame, on the stack right below it. *)
Lemma stub_in_spec c ss0 esp0 e n :
  words c -> cs c mod 4 = 3 -> word (cs c) -> word (ss c) -> word e -> word n -> 0x100 <= esp0 < 0x100000000 ->
  let k := exec ([Pushi e; Pushi n] ++ stub_in) (interrupt c ss0 esp0) in
  let a := esp0 - 64 in
  esp k = a - 4 /\ ld32 (mem k) (esp k) = a /\ cs k = 8 /\ (ds k, es k, fs k, gs k) = (0x10, 0x10, 0x10, 0x10) /\
  regs_at (mem k) a
  = mk_regs (low16 (eax c) (ds c)) (edi c) (esi c) (ebp c) (esp0 - 28) (ebx c) (edx c) (ecx c) (eax c) n e
      (eip c) (cs c) (eflags c) (esp c) (ss c) /\
  (forall x, ~ esp0 - 68 <= x < esp0 -> ld8 (mem k) x = ld8 (mem c) x).
Proof.
  intros [Wr Wf Wi] Rg Wc Ws We Wn He. reg_words Wr. clear Wr. pose proof (low16_word (eax c) (ds c)) as Wl. unfold word in *.
  destruct c. cbn [cs] in Rg. unfold interrupt. cbn [cs ss esp eflags eip]. rewrite Rg. cbn [Z.eqb Pos.eqb]. unfold stub_in. run_asm.
  specialize (Wl ltac:(lia)). words_in_memory. rewrite !u16_low16. split; [lia|]. split; [lia|]. split; [reflexivity|]. split; [reflexivity|].
  split; [|intros x Hx; rewrite !ld8_st32_out by lia; reflexivity].
  unfold regs_at. words_in_memory. f_equal; lia.
Qed.

(** The same in the kernel: no stack is switched, and the two last fields of the
    frame are whatever the interrupted code has on its stack. *)
Lemma stub_in_kernel c ss0 esp0 e n :
  words c -> cs c = 8 -> word e -> word n -> 0x100 <= esp c -> esp c + 8 <= 0x100000000 ->
  let k := exec ([Pushi e; Pushi n] ++ stub_in) (interrupt c ss0 esp0) in
  let a := esp c - 56 in
  esp k = a - 4 /\ ld32 (mem k) (esp k) = a /\ cs k = 8 /\ (ds k, es k, fs k, gs k) = (0x10, 0x10, 0x10, 0x10) /\
  regs_at (mem k) a
  = mk_regs (low16 (eax c) (ds c)) (edi c) (esi c) (ebp c) (esp c - 20) (ebx c) (edx c) (ecx c) (eax c) n e
      (eip c) (cs c) (eflags c) (ld32 (mem c) (esp c)) (ld32 (mem c) (esp c + 4)) /\
  (forall x, ~ esp c - 60 <= x < esp c -> ld8 (mem k) x = ld8 (mem c) x).
Proof.
  intros [Wr Wf Wi] Rg We Wn He1 He2. reg_words Wr. clear Wr. pose proof (low16_word (eax c) (ds c)) as Wl. unfold word in *.
  destruct c. cbn [cs] in Rg. subst cs0. unfold interrupt. cbn [cs ss esp eflags eip]. cbn [Z.modulo Z.eqb Pos.eqb]. unfold stub_in.
  change (8 mod 4 =? 3) with false. run_asm.
  specialize (Wl ltac:(lia)). words_in_memory. rewrite !u16_low16. split; [lia|]. split; [lia|]. split; [reflexivity|]. split; [reflexivity|].
  split; [|intros x Hx; rewrite !ld8_st32_out by lia; reflexivity].
  unfold regs_at. words_in_memory. f_equal; same_words.
Qed.

(** The stub behind the handler, for a frame [r] of ring 3 or of the kernel. *)
Lemma stub_out_spec c a r :
  0 <= a -> a + 64 <= 0x100000000 -> esp c = a - 4 -> 4 <= a -> cs c = 8 -> regs_at (mem c) a = r ->
  let b := exec stub_out c in
  (eax b, ebx b, ecx b, edx b, esi b, edi b, ebp b) = (r_eax r, r_ebx r, r_ecx r, r_edx r, r_esi r, r_edi r, r_ebp r) /\
  (eip b, cs b, eflags b) = (r_eip r, r_cs r, r_eflags r) /\
  (ds b, es b, fs b, gs b) = (u16 (r_ds r), u16 (r_ds r), u16 (r_ds r), u16 (r_ds r)) /\ mem b = mem c /\
  (if r_cs r mod 4 =? 0 then esp b = a + 56 /\ ss b = ss c else esp b = r_useresp r /\ ss b = r_ss r).
Proof.
  intros A1 A2 Es A3 Ec <-. unfold regs_at. cbn [r_ds r_edi r_esi r_ebp r_esp r_ebx r_edx r_ecx r_eax r_eip r_cs r_eflags r_useresp r_ss].
  destruct c. cbn [esp cs] in Es, Ec. subst esp0 cs0. unfold stub_out. run_asm. change (8 mod 4) with 0. words_in_memory.
  replace (a - 4 + 4) with a by lia. words_in_memory. replace (a + 4 + 32 + 8) with (a + 44) by lia.
  unfold iret. cbn [mem esp cs]. change (8 mod 4) with 0. words_in_memory. replace (a + 44 + 4) with (a + 48) by lia.
  destruct (_ =? 0); cbn [put put_seg put_ctl eax ebx ecx edx esi edi ebp esp cs ds es fs gs ss eip eflags mem];
    (split; [same_words|]); (split; [same_words|]); (split; [reflexivity|]); (split; [reflexivity|]); split; same_words.
Qed.

(** ** The whole of an interrupt *)

(** The C handler, called with the address of its frame on top of the stack,
    returns with the stack pointer and code segment it was called with, leaving
    the frame [r']. *)
Definition handles (f : cpu -> cpu) (k : cpu) (a : Z) (r' : registers_t) : Prop :=
  esp (f k) = esp k /\ cs (f k) = cs k /\ regs_at (mem (f k)) a = r'.

(** All segment registers hold the same selector. *)
Definition flat (c : cpu) : Prop := 0 <= ds c < 0x10000 /\ es c = ds c /\ fs c = ds c /\ gs c = ds c.

Lemma exec_app l l' c : exec (l ++ l') c = exec l' (exec l c).
Proof. apply fold_left_app. Qed.

Lemma exec_call f l c : exec ([Call_c f] ++ l) c = exec l (f c).
Proof. reflexivity. Qed.

(** Interrupts from ring 3.  Between the interrupted instruction and the
    next, processor, stub and handler change nothing of the program's registers
    but what the handler stores in the frame: it is called with the frame that
    holds the program's state, and when it leaves that frame but for eax, the
    program goes on at the same address with the same stack, flags and segments
    and every register but eax as before. *)
Lemma interrupt_transparent (c : cpu) (ss0 esp0 e n v : Z) (f : cpu -> cpu) :
  words c -> cs c mod 4 = 3 -> word (cs c) -> word (ss c) -> flat c -> word e -> word n -> 0x100 <= esp0 < 0x100000000 ->
  let k := exec ([Pushi e; Pushi n] ++ stub_in) (interrupt c ss0 esp0) in
  let r := mk_regs (low16 (eax c) (ds c)) (edi c) (esi c) (ebp c) (esp0 - 28) (ebx c) (edx c) (ecx c) (eax c) n e
             (eip c) (cs c) (eflags c) (esp c) (ss c) in
  regs_at (mem k) (esp0 - 64) = r /\ ld32 (mem k) (esp k) = esp0 - 64 /\
  (handles f k (esp0 - 64) (set_eax r v) ->
   let b := exec ([Pushi e; Pushi n] ++ common_stub f) (interrupt c ss0 esp0) in
   b = put_mem (put c EAX v) (mem (f k))).
Proof.
  intros W Rg Wc Ws [Fd (F1 & F2 & F3)] We Wn He k r.
  destruct (stub_in_spec c ss0 esp0 e n W Rg Wc Ws We Wn He) as (S1 & S2 & S3 & _ & S5 & _). fold k in S1, S2, S3, S5.
  split; [exact S5|]. split; [exact S2|]. intros (H1 & H2 & H3).
  unfold common_stub. rewrite app_assoc, exec_app. fold k. rewrite exec_call. clearbody k.
  pose proof (stub_out_spec (f k) (esp0 - 64) (set_eax r v) ltac:(lia) ltac:(lia) ltac:(congruence) ltac:(lia) ltac:(congruence) H3) as O.
  cbv zeta in O. generalize dependent (exec stub_out (f k)). intros b (O1 & O2 & O3 & O4 & O5).
  unfold r in O1, O2, O3, O5. cbn [set_eax r_ds r_edi r_esi r_ebp r_esp r_ebx r_edx r_ecx r_eax r_eip r_cs r_eflags r_useresp r_ss] in *.
  rewrite u16_low16 in O3. unfold u16 in O3. rewrite Z.mod_small in O3 by lia. rewrite Rg in O5. destruct O5 as [O5 O6].
  destruct c, b. cbn [put put_mem eax ebx ecx edx esi edi ebp esp cs ds es fs gs ss eip eflags mem] in *.
  injection O1 as -> -> -> -> -> -> ->. injection O2 as -> -> ->. injection O3 as -> -> -> ->. subst. reflexivity.
Qed.

(** The three kinds of stub put the same two words on the stack. *)
Lemma stubs_common c ss0 esp0 e n f :
  let k := interrupt c ss0 esp0 in
  exec (isr_noerrcode n f) k = exec ([Pushi 0; Pushi n] ++ common_stub f) k /\
  exec (isr_errcode n f) (push k e) = exec ([Pushi e; Pushi n] ++ common_stub f) k /\
  exec (isr128 f) k = exec ([Pushi 0; Pushi 128] ++ common_stub f) k.
Proof.
  cbv zeta. assert (E : forall x, Z.land (Z.land x (Z.lnot IF)) (Z.lnot IF) = Z.land x (Z.lnot IF))
    by (intros x; rewrite <- Z.land_assoc, Z.land_diag; reflexivity).
  unfold isr_noerrcode, isr_errcode, isr128. rewrite !exec_app. generalize (common_stub f). intros l.
  split; [|split; [|reflexivity]]; f_equal; unfold interrupt; destruct c; destruct (_ =? 3); cbn; rewrite E; reflexivity.
Qed.

(** C7. System calls from ring 3.  Processor, stub and [syscall_handler] together:
    the handler finds the program's eax, ebx, ecx and edx in its frame and knows
    that the caller is in ring 3, and when it returns, the program goes on behind
    the instruction with every register, segment and flag as before except eax,
    which holds the result. *)
Theorem int80_registers {D : Type} {DK : Disk D} (s : sys D) (c : cpu) (ss0 esp0 : Z) (ws : list (list (Z * Z))) (f : cpu -> cpu) :
  words c -> cs c mod 4 = 3 -> word (cs c) -> word (ss c) -> flat c -> 0x100 <= esp0 < 0x100000000 ->
  let k := exec ([Pushi 0; Pushi 128] ++ stub_in) (interrupt c ss0 esp0) in
  let r := regs_at (mem k) (esp0 - 64) in
  ld32 (mem k) (esp k) = esp0 - 64 /\ (r_eax r, r_ebx r, r_ecx r, r_edx r) = (eax c, ebx c, ecx c, edx c) /\ from_user r = true /\
  match syscall_handler s r ws with
  | (_, r', Returned) =>
      handles f k (esp0 - 64) r' ->
      exec (isr128 f) (interrupt c ss0 esp0) = put_mem (put c EAX (r_eax r')) (mem (f k))
  | _ => True
  end.
Proof.
  intros W Rg Wc Ws Fl He k r.
  assert (Hr : regs_at (mem k) (esp0 - 64) = mk_regs (low16 (eax c) (ds c)) (edi c) (esi c) (ebp c) (esp0 - 28) (ebx c) (edx c) (ecx c) (eax c) 128 0
             (eip c) (cs c) (eflags c) (esp c) (ss c) /\ ld32 (mem k) (esp k) = esp0 - 64).
  { destruct (interrupt_transparent c ss0 esp0 0 128 0 f W Rg Wc Ws Fl) as (A & B & _); [split; lia|split; lia|exact He|auto]. }
  destruct Hr as [Hr Ha]. fold r in Hr. split; [exact Ha|]. split; [rewrite Hr; reflexivity|]. split.
  { rewrite Hr. unfold from_user. cbn [r_cs]. pose proof (Z.land_ones (cs c) 2 ltac:(lia)) as E. change (Z.ones 2) with 3 in E. change (2 ^ 2) with 4 in E.
    rewrite E, Rg. reflexivity. }
  pose proof (syscall_regs s r ws) as K. destruct (syscall_handler s r ws) as [[s' r'] o].
  destruct o; try exact Logic.I. intros H. rewrite K, Hr in H.
  destruct (interrupt_transparent c ss0 esp0 0 128 (r_eax r') f W Rg Wc Ws Fl) as (_ & _ & B); [split; lia|split; lia|exact He|].
  rewrite (proj2 (proj2 (stubs_common c ss0 esp0 0 0 f))). apply B. exact H.
Qed.

(** An interrupt of the kernel is as transparent, but for the words below the
    kernel's stack. *)
Lemma kernel_interrupt_transparent c ss0 esp0 e n v f :
  words c -> cs c = 8 -> flat c -> word e -> word n -> 0x100 <= esp c -> esp c + 8 <= 0x100000000 ->
  let k := exec ([Pushi e; Pushi n] ++ stub_in) (interrupt c ss0 esp0) in
  let r := regs_at (mem k) (esp c - 56) in
  ss (f k) = ss c -> handles f k (esp c - 56) (set_eax r v) ->
  exec ([Pushi e; Pushi n] ++ common_stub f) (interrupt c ss0 esp0) = put_mem (put c EAX v) (mem (f k)).
Proof.
  intros W Rg [Fd (F1 & F2 & F3)] We Wn He1 He2 k r Hs (H1 & H2 & H3).
  destruct (stub_in_kernel c ss0 esp0 e n W Rg We Wn He1 He2) as (S1 & S2 & S3 & _ & S5 & _). fold k in S1, S2, S3, S5. fold r in S5.
  unfold common_stub. rewrite app_assoc, exec_app. fold k. rewrite exec_call. clearbody r k.
  pose proof (stub_out_spec (f k) (esp c - 56) (set_eax r v) ltac:(lia) ltac:(lia) ltac:(congruence) ltac:(lia) ltac:(congruence) H3) as O.
  cbv zeta in O. generalize dependent (exec stub_out (f k)). intros b (O1 & O2 & O3 & O4 & O5). subst r.
  cbn [set_eax r_ds r_edi r_esi r_ebp r_esp r_ebx r_edx r_ecx r_eax r_eip r_cs r_eflags r_useresp r_ss] in *.
  rewrite u16_low16 in O3. unfold u16 in O3. rewrite Z.mod_small in O3 by lia. rewrite Rg in O5. destruct O5 as [O5 O6].
  destruct c, b. cbn [put put_mem eax ebx ecx edx esi edi ebp esp cs ds es fs gs ss eip eflags mem] in *.
  injection O1 as -> -> -> -> -> -> ->. injection O2 as -> -> ->. injection O3 as -> -> -> ->. subst. f_equal; lia || congruence.
Qed.

(** ** Into ring 3 *)

(** [enter_user_mode(entry, user_esp)]: ring 3 at [entry] on the given stack, with
    interrupts on. *)
Lemma enter_user_mode_spec c entry user_esp :
  cs c = 8 -> room c 20 12 -> ld32 (mem c) (esp c + 4) = entry -> ld32 (mem c) (esp c + 8) = user_esp ->
  let u := exec enter_user_mode c in
  eip u = entry /\ esp u = user_esp /\ (cs u, ss u) = (0x1B, 0x23) /\
  (ds u, es u, fs u, gs u) = (0x23, 0x23, 0x23, 0x23) /\ eflags u = 0x202 /\ Z.land (eflags u) IF <> 0.
Proof.
  intros Ec [R1 R2] A1 A2. pose proof (ld32_range (mem c) (esp c + 4)). pose proof (ld32_range (mem c) (esp c + 8)).
  destruct c. cbn [cs] in Ec. subst cs0. unfold enter_user_mode. run_asm. rewrite !u16_low16. words_in_memory.
  unfold iret. cbn [mem esp cs]. words_in_memory. change (0x1B mod 4 =? 8 mod 4) with false.
  cbn [put put_seg put_ctl esp cs ds es fs gs ss eip eflags mem]. rewrite A1, A2 in *.
  repeat (split; [reflexivity|]). discriminate.
Qed.

(** ** The entry of the kernel *)

Lemma start_spec c bss_start bss_end stack :
  0 <= bss_start <= bss_end -> bss_end < 0x100000000 ->
  let k := exec (start bss_start bss_end stack) c in
  esp k = stack /\ ebp k = 0 /\
  forall x, ld8 (mem k) x = if (bss_start <=? x) && (x <? bss_end) then 0 else ld8 (mem c) x.
Proof.
  intros H1 H2. destruct c. unfold start. cbn [exec fold_left step stosb put get put_mem eax ecx edi mem esp ebp].
  rewrite u32_small by lia. split; [reflexivity|]. split; [reflexivity|].
  cut (forall x, ld8 (for_range 0 (bss_end - bss_start) (fun i m => st8 m (u32 (bss_start + i)) (u8 0)) mem0) x
    = if (bss_start <=? x) && (x <? bss_start + (bss_end - bss_start)) then 0 else ld8 mem0 x).
  { intros G x. rewrite G. replace (bss_start + (bss_end - bss_start)) with bss_end by lia. reflexivity. }
  apply (for_range_ind (fun i m => forall x, ld8 m x = if (bss_start <=? x) && (x <? bss_start + i) then 0 else ld8 mem0 x)); [lia| |].
  - intros x. zcase; lia || reflexivity.
  - intros i m Hi IH x. rewrite ld8_st8, IH. rewrite u32_small by lia. zcase; try lia; try reflexivity.
Qed.

#[local] Transparent entry.

(** The page directory starts out empty when the linker puts it in .bss. *)
Lemma start_clears_directory c (I : image) bss_start bss_end stack :
  0 <= bss_start <= page_directory (i_link I) -> page_directory (i_link I) + 4096 <= bss_end -> bss_end < 0x100000000 ->
  forall i, 2 <= i < 1024 -> entry (mem (exec (start bss_start bss_end stack) c)) (page_directory (i_link I)) i = 0.
Proof.
  intros H1 H2 H3 i Hi. destruct (start_spec c bss_start bss_end stack ltac:(lia) H3) as (_ & _ & M).
  unfold entry. rewrite (ld32_ext _ ∅ _ 0); [apply ld32_empty|]. intros k Hk. rewrite M, ld8_empty. zcase; lia || reflexivity.
Qed.

(** ** Concrete processors *)

#[local] Existing Instance map_disk.

(** A caller with its arguments [x] and [y] on the stack at [sp]. *)
Definition calling (sp ret x y : Z) : cpu :=
  mk_cpu 1 2 3 4 5 6 7 sp 8 16 16 16 16 16 0x12345 0x202 (st32 (st32 (st32 ∅ sp ret) (sp + 4) x) (sp + 8) y).

Lemma calling_words sp ret x y : word sp -> words (calling sp ret x y).
Proof. intros H. constructor; [intros []; cbn; unfold word in *; lia|cbn; unfold word; lia..]. Qed.

(** The fault handler unwinds from another stack. *)
Definition unwinding : cpu := put_mem (calling 0x40000 0 0x30000 0)
  (st32 (mem (exec save_context (calling 0x50000 0x11111 0x30000 0))) 0x40004 0x30000).

Lemma context_round_trip_witness :
  let s := exec save_context (calling 0x50000 0x11111 0x30000 0) in
  let r := exec restore_context unwinding in
  eax s = 0 /\ eax r = 1 /\ eip s = 0x11111 /\ eip r = eip s /\ esp s = 0x50004 /\ esp r = esp s /\
  (ebx s, esi s, edi s, ebp s, eflags s) = (2, 5, 6, 7, 0x202) /\
  (ebx r, esi r, edi r, ebp r, eflags r) = (2, 5, 6, 7, 0x202) /\
  (forall x, ~ 0x50000 <= x < esp s -> ld8 (mem r) x = ld8 (mem unwinding) x).
Proof.
  apply (context_round_trip (calling 0x50000 0x11111 0x30000 0) unwinding 0x30000); try (vm_compute; intuition congruence).
  apply calling_words. split; [discriminate|reflexivity].
Defined.

(** Task 1 at 0x50000 switches to task 2, whose frame is at 0x60000, and back. *)
Definition task_one : cpu := calling 0x50000 0x11111 0x30000 0x60000.
Definition task_two : cpu :=
  put_mem (calling 0x60100 0x22222 0x30008 0x4FFF0)
    (st32 (st32 (st32 (mem (exec context_switch task_one)) 0x60100 0x22222) 0x60104 0x30008) 0x60108 0x4FFF0).

Lemma switch_and_back_witness :
  let r := exec context_switch task_one in
  let b := exec context_switch task_two in
  frame_of r (frame_at (mem task_one) 0x60000) /\ esp r = 0x60014 /\ ld32 (mem r) 0x30000 = 0x4FFF0 /\
  (edi b, esi b, ebx b, ebp b) = (6, 5, 2, 7) /\ eip b = 0x11111 /\ esp b = 0x50004 /\ ld32 (mem b) 0x30008 = 0x600F0.
Proof.
  apply (switch_and_back task_one task_two 0x30000 0x60000 0x30008); [| |vm_compute; reflexivity].
  - constructor; [apply calling_words; split; [discriminate|reflexivity]|..]; unfold room, apart, task_one; cbn [esp calling]; try lia.
    split; vm_compute; reflexivity.
  - change (esp task_one) with 0x50000. constructor; [|unfold room, apart, task_two; cbn [esp calling put_mem]; try lia..].
    + destruct (calling_words 0x60100 0x22222 0x30008 0x4FFF0 ltac:(split; [discriminate|reflexivity])) as [W1 W2 W3].
      constructor; [intros r; exact (W1 r)|exact W2|exact W3].
    + split; vm_compute; reflexivity.
Defined.

(** A program asks for its process id; the handler stores the result. *)
Definition asking : cpu := mk_cpu SYS_GETPID 2 3 4 5 6 7 0x9FF00 0x1B 0x23 0x23 0x23 0x23 0x23 0x80010 0x202 ∅.
Definition storing_one (k : cpu) : cpu := put_mem (put k ECX 77) (st32 (mem k) (0x50000 - 64 + 32) 1).

Lemma int80_registers_witness :
  let k := exec ([Pushi 0; Pushi 128] ++ stub_in) (interrupt asking 16 0x50000) in
  ld32 (mem k) (esp k) = 0x50000 - 64 /\
  exec (isr128 storing_one) (interrupt asking 16 0x50000) = put_mem (put asking EAX 1) (mem (storing_one k)).
Proof.
  assert (W : words asking) by (constructor; [intros []; vm_compute; intuition congruence|vm_compute; intuition congruence..]).
  destruct (int80_registers demo_user asking 16 0x50000 [] storing_one W eq_refl
    ltac:(split; [discriminate|reflexivity]) ltac:(split; [discriminate|reflexivity]) ltac:(vm_compute; intuition congruence)
    ltac:(split; [discriminate|reflexivity])) as (A & _ & _ & B).
  split; [exact A|]. destruct (syscall_handler demo_user _ []) as [[s r] o] eqn:E. vm_compute in E. injection E as _ <- <-.
  apply B. vm_compute. repeat split.
Defined.
